(** * Speculate Hub: the transactional core of the prediction-market backend

    A shallow embedding of the NestJS services of the backend
    (AMM pricing, wallets, markets, positions, trades, admin resolve chain)
    together with the properties of the specification that they decide.

    Numbers.  JavaScript numbers and decimal.js values are both modelled as
    real numbers: [exp], [ln] and the field operations are the exact ones,
    [toFixed(6)] is rounding to six fractional digits with ties away from
    zero (decimal.js ROUND_HALF_UP), and the conversion [Number(...)] is the
    identity.  NaN and the infinities are not modelled: a division by zero
    yields Rocq's [x / 0].  decimal.js computes at 20 significant digits;
    where the difference of two costs vanishes at that precision the source
    takes the [rawReturn <= 0] branch of calculateSellReturn, which exact
    arithmetic never does on a sell of shares that are held.  The
    properties of sell quotes are therefore stated of the quotes that are
    returned, and sums of stored amounts are, as real numbers, the sums
    that the code accumulates up to the order and the rounding of its
    additions.

    Persistence.  The Supabase client is modelled as a store of tables held
    as lists of rows.  Every call on the client may report an error; which
    calls do is given by a schedule of booleans consumed one per call, so
    that the [if (error)] branches of the services are part of the model.
    A thrown exception leaves the store as it is at the point of the throw:
    the services open no database transaction.  Of the constraints of
    schema.sql the model keeps CHECK (balance >= 0) on wallets and
    UNIQUE (user_id, market_id) on positions: a write that violates one is
    answered with an error.  The rounding of DECIMAL(20,6) columns on
    storage is not modelled.

    Row columns that no operation below reads (titles, descriptions, the
    created_at / updated_at timestamps) are left out of the records. *)

From Stdlib Require Import Reals Lra Lia ZArith List Bool.
Import ListNotations.
Local Open Scope R_scope.

(* ===================================================================== *)
(** ** Numbers *)
(* ===================================================================== *)

Module Num.

(** Nearest integer, ties away from zero. *)
Definition round_half_up (x : R) : Z :=
  if Rle_dec 0 x then Int_part (x + / 2)
  else (- Int_part (- x + / 2))%Z.

(** [Number(d.toFixed(6))] *)
Definition toFixed6 (x : R) : R :=
  IZR (round_half_up (x * 1000000)) / 1000000.

(** JavaScript truthiness of an optional number: [undefined] and [0] are
    falsy.  Returns the number when it is truthy. *)
Definition truthy (o : option R) : option R :=
  match o with
  | Some x => if Req_EM_T x 0 then None else Some x
  | None => None
  end.

(** [x || d] on an optional number. *)
Definition or_default (o : option R) (d : R) : R :=
  match truthy o with
  | Some x => x
  | None => d
  end.

End Num.

(* ===================================================================== *)
(** ** Arrays *)
(* ===================================================================== *)

Module Arrays.

(** One step of the sort below: [x] goes in front of the first row whose
    key is not larger than its own. *)
Fixpoint insert_desc {A} (key : A -> R) (x : A) (sorted : list A) : list A :=
  match sorted with
  | [] => [x]
  | y :: rest =>
    if Rlt_dec (key x) (key y) then y :: insert_desc key x rest
    else x :: sorted
  end.

(** [rows.sort((a, b) => key(b) - key(a))]: by decreasing key.
    Array.prototype.sort is stable: rows of equal key keep their order,
    which determines the result. *)
Definition sort_desc {A} (key : A -> R) (rows : list A) : list A :=
  fold_right (insert_desc key) [] rows.

(** [rows.slice(0, n)] *)
Definition slice0 {A} (n : nat) (rows : list A) : list A := firstn n rows.

(** [rows || []] on the data of a read. *)
Definition or_empty {A} (rows : option (list A)) : list A :=
  match rows with
  | Some l => l
  | None => []
  end.

End Arrays.

(* ===================================================================== *)
(** ** Enumerations shared by the services *)
(* ===================================================================== *)

Inductive Side := yes | no.
Inductive TradeType := buy | sell.
Inductive Status := draft | active | suspended | resolved | cancelled.
Inductive TxType := deposit_tx | withdraw_tx | trade_tx | settlement_tx | refund_tx.

Definition Side_eqb (a b : Side) : bool :=
  match a, b with
  | yes, yes | no, no => true
  | _, _ => false
  end.

Definition Status_eqb (a b : Status) : bool :=
  match a, b with
  | draft, draft | active, active | suspended, suspended
  | resolved, resolved | cancelled, cancelled => true
  | _, _ => false
  end.

(* ===================================================================== *)
(** ** amm.service.ts *)
(* ===================================================================== *)

Module AMM.

Record AMMState := { yesShares : R; noShares : R }.

Record Prices := { yesPrice : R; noPrice : R }.

Record TradeResult := {
  sharesReceived : R;
  cost_ : R;
  avgPrice : R;
  newYesShares : R;
  newNoShares : R;
  priceImpact : R
}.

Record SellResult := {
  amountReceived : R;
  s_avgPrice : R;
  s_newYesShares : R;
  s_newNoShares : R;
  s_priceImpact : R
}.

Record SharesForAmount := { shares : R; a_avgPrice : R }.

(** The three [throw new Error(...)] of calculateSellReturn. *)
Inductive SellError :=
| NotEnoughYesShares
| NotEnoughNoShares
| InvalidSellAmount.

Definition FEE_RATE : R := 2 / 100.
Definition DEFAULT_LIQUIDITY : R := 100.

(** C(q_yes, q_no) = b * ln(e^(q_yes/b) + e^(q_no/b)) *)
Definition cost (qYes qNo b : R) : R :=
  let expYes := exp (qYes / b) in
  let expNo := exp (qNo / b) in
  b * ln (expYes + expNo).

Definition getCurrentPrices (state : AMMState) (liquidity : option R) : Prices :=
  let b := Num.or_default liquidity DEFAULT_LIQUIDITY in
  let qYes := yesShares state in
  let qNo := noShares state in
  let expYes := exp (qYes / b) in
  let expNo := exp (qNo / b) in
  let sum := expYes + expNo in
  let yesPrice := expYes / sum in
  let noPrice := expNo / sum in
  {| yesPrice := Num.toFixed6 yesPrice; noPrice := Num.toFixed6 noPrice |}.

Definition calculateBuyCost (state : AMMState) (side : Side) (shares : R)
    (liquidity : option R) : TradeResult :=
  let b := Num.or_default liquidity DEFAULT_LIQUIDITY in
  let qYes := yesShares state in
  let qNo := noShares state in
  let deltaShares := shares in
  let currentCost := cost qYes qNo b in
  let newQYes := match side with yes => qYes + deltaShares | no => qYes end in
  let newQNo := match side with yes => qNo | no => qNo + deltaShares end in
  let newCost := cost newQYes newQNo b in
  let rawCost := newCost - currentCost in
  let fee := rawCost * FEE_RATE in
  let totalCost := rawCost + fee in
  let avgPrice := totalCost / deltaShares in
  let oldPrices := getCurrentPrices state liquidity in
  let newState := {| yesShares := newQYes; noShares := newQNo |} in
  let newPrices := getCurrentPrices newState liquidity in
  let priceImpact :=
    match side with
    | yes => (yesPrice newPrices - yesPrice oldPrices) / yesPrice oldPrices
    | no => (noPrice newPrices - noPrice oldPrices) / noPrice oldPrices
    end in
  {| sharesReceived := shares;
     cost_ := Num.toFixed6 totalCost;
     avgPrice := Num.toFixed6 avgPrice;
     newYesShares := newQYes;
     newNoShares := newQNo;
     priceImpact := Rabs priceImpact |}.

(** The share quantities of calculateSellReturn right after the
    subtraction, before the two clamping statements. *)
Definition sellQuantities (state : AMMState) (side : Side) (shares : R) : R * R :=
  let qYes := yesShares state in
  let qNo := noShares state in
  match side with
  | yes => (qYes - shares, qNo)
  | no => (qYes, qNo - shares)
  end.

(** [if (q.lt(0)) q = new Decimal(0)] *)
Definition clamp (q : R) : R := if Rlt_dec q 0 then 0 else q.

(** The two guards at the top of calculateSellReturn. *)
Definition sellShareCheck (state : AMMState) (side : Side) (shares : R)
    : option SellError :=
  match side with
  | yes => if Rgt_dec shares (yesShares state) then Some NotEnoughYesShares else None
  | no => if Rgt_dec shares (noShares state) then Some NotEnoughNoShares else None
  end.

Definition calculateSellReturn (state : AMMState) (side : Side) (shares : R)
    (liquidity : option R) : SellError + SellResult :=
  let b := Num.or_default liquidity DEFAULT_LIQUIDITY in
  let qYes := yesShares state in
  let qNo := noShares state in
  let deltaShares := shares in
  match sellShareCheck state side shares with
  | Some e => inl e
  | None =>
    let currentCost := cost qYes qNo b in
    let newQYes := clamp (fst (sellQuantities state side deltaShares)) in
    let newQNo := clamp (snd (sellQuantities state side deltaShares)) in
    let newCost := cost newQYes newQNo b in
    let rawReturn := currentCost - newCost in
    if Rle_dec rawReturn 0 then inl InvalidSellAmount
    else
      let fee := rawReturn * FEE_RATE in
      let amountReceived := rawReturn - fee in
      let avgPrice := amountReceived / deltaShares in
      let oldPrices := getCurrentPrices state liquidity in
      let newState := {| yesShares := newQYes; noShares := newQNo |} in
      let newPrices := getCurrentPrices newState liquidity in
      let priceImpact :=
        match side with
        | yes => (yesPrice oldPrices - yesPrice newPrices) / yesPrice oldPrices
        | no => (noPrice oldPrices - noPrice newPrices) / noPrice oldPrices
        end in
      inr {| amountReceived := Num.toFixed6 amountReceived;
             s_avgPrice := Num.toFixed6 avgPrice;
             s_newYesShares := newQYes;
             s_newNoShares := newQNo;
             s_priceImpact := Rabs priceImpact |}
  end.

Definition tolerance : R := 1 / 10000.

(** [new Decimal(result.cost).div(1 + this.FEE_RATE)] at the share count
    [mid]: the quoted cost (already rounded to six digits) with the fee
    taken out again. *)
Definition costWithoutFee (state : AMMState) (side : Side) (liquidity : option R)
    (mid : R) : R :=
  cost_ (calculateBuyCost state side mid liquidity) / (1 + FEE_RATE).

(** The [for] loop of calculateSharesForAmount with [n] iterations left,
    followed by the statements after the loop.  calculateBuyCost does not
    throw, so the [catch] arm of the loop body is not taken. *)
Fixpoint bisect (state : AMMState) (side : Side) (amount : R)
    (liquidity : option R) (targetCost : R) (n : nat) (low high : R)
    : SharesForAmount :=
  match n with
  | O =>
    let finalShares := (low + high) / 2 in
    {| shares := Num.toFixed6 finalShares;
       a_avgPrice := Num.toFixed6 (amount / finalShares) |}
  | S n' =>
    let mid := (low + high) / 2 in
    let c := costWithoutFee state side liquidity mid in
    if Rlt_dec (Rabs (c - targetCost)) tolerance then
      {| shares := Num.toFixed6 mid;
         a_avgPrice := Num.toFixed6 (amount / mid) |}
    else if Rlt_dec c targetCost then
      bisect state side amount liquidity targetCost n' mid high
    else
      bisect state side amount liquidity targetCost n' low mid
  end.

Definition calculateSharesForAmount (state : AMMState) (side : Side)
    (amount : R) (liquidity : option R) : SharesForAmount :=
  let targetCost := amount / (1 + FEE_RATE) in
  bisect state side amount liquidity targetCost 100 0 (amount * 10).

Definition initializeLiquidity (liquidity : R) : AMMState :=
  {| yesShares := 0; noShares := 0 |}.

Definition getLiquidityForMarket (marketLiquidity : R) : R := marketLiquidity.

End AMM.

(* ===================================================================== *)
(** ** The tables (schema.sql, database.types.ts) *)
(* ===================================================================== *)

(** Row identifiers (uuid columns) are natural numbers. *)
Definition Id := nat.

Module Wallet.
Record Row := {
  id : Id;
  user_id : Id;
  balance : R;
  frozen_balance : R
}.
End Wallet.

Module WalletTransaction.
Record Row := {
  wallet_id : Id;
  type : TxType;
  amount : R;
  balance_before : R;
  balance_after : R;
  reference_id : option Id
}.
End WalletTransaction.

Module Market.
Record Row := {
  id : Id;
  status : Status;
  outcome : option Side;
  yes_shares : R;
  no_shares : R;
  liquidity : R;
  volume : R;
  start_time : Z;
  end_time : Z;
  resolved_at : option Z
}.
End Market.

Module Position.
Record Row := {
  id : Id;
  user_id : Id;
  market_id : Id;
  yes_shares : R;
  no_shares : R;
  avg_yes_price : R;
  avg_no_price : R
}.
End Position.

Module Trade.
Record Row := {
  user_id : Id;
  market_id : Id;
  type : TradeType;
  side : Side;
  shares : R;
  price : R;
  cost : R;
  fee : R;
  yes_shares_before : R;
  no_shares_before : R;
  yes_shares_after : R;
  no_shares_after : R
}.
End Trade.

(** The database.  The log tables grow at the end.  [next_id] is the
    source of the identifiers the database generates for inserted rows. *)
Record Store := {
  wallets : list Wallet.Row;
  wallet_transactions : list WalletTransaction.Row;
  markets : list Market.Row;
  positions : list Position.Row;
  trades : list Trade.Row;
  next_id : Id
}.

(* ===================================================================== *)
(** ** Exceptions *)
(* ===================================================================== *)

(** One constructor per [throw] site message of the services. *)
Inductive NotFound :=
| MarketNotFound            (* "market does not exist" *)
| WalletNotFound.           (* "wallet does not exist" *)

Inductive BadRequest :=
| DepositNotPositive        (* deposit: amount <= 0 *)
| WithdrawNotPositive       (* withdraw: amount <= 0 *)
| InsufficientBalance       (* withdraw, deductForTrade: balance < amount *)
| MarketNotOpen             (* executeTrade: status is not active *)
| OutsideTradingHours       (* executeTrade: now outside start/end *)
| AmountOrSharesRequired    (* executeBuy: neither amount nor shares *)
| InvalidTradeShares        (* executeBuy: shares <= 0 *)
| SellSharesRequired        (* executeSell: no shares, or shares <= 0 *)
| NoPosition                (* executeSell: no position row *)
| InsufficientPosition      (* executeSell: position smaller than shares *)
| CannotTransition (from to : Status)   (* updateStatus *)
| NotResolvable             (* resolveMarket: not active or suspended *)
| MarketNotResolved.        (* settleMarket: not resolved or no outcome *)

Inductive Failure :=
| DepositFailed | WithdrawFailed | DeductFailed | CreditFailed | SettleFailed
| UpdateStatusFailed | ResolveFailed | UpdateSharesFailed
| CreatePositionFailed | UpdatePositionFailed | ListPositionsFailed
| RecordTradeFailed
| SellFailed (e : AMM.SellError).

Inductive Exception :=
| NotFoundException (what : NotFound)
| BadRequestException (why : BadRequest)
| Error (why : Failure).

(** The error kinds of the specification. *)
Inductive ErrorKind :=
| KNotFound | KInvalidAmount | KInsufficientFunds | KInsufficientShares
| KMarketClosed | KOutOfWindow | KInvalidTrade | KInvalidTransition
| KInternal.

(** Modelled from the spec: the services throw NestJS exceptions carrying a
    message; the table that names each of them with an error kind of the
    specification (section 7) is not part of the source. *)
Definition error_kind (e : Exception) : ErrorKind :=
  match e with
  | NotFoundException _ => KNotFound
  | BadRequestException DepositNotPositive => KInvalidAmount
  | BadRequestException WithdrawNotPositive => KInvalidAmount
  | BadRequestException InsufficientBalance => KInsufficientFunds
  | BadRequestException MarketNotOpen => KMarketClosed
  | BadRequestException OutsideTradingHours => KOutOfWindow
  | BadRequestException AmountOrSharesRequired => KInvalidTrade
  | BadRequestException InvalidTradeShares => KInvalidTrade
  | BadRequestException SellSharesRequired => KInvalidTrade
  | BadRequestException NoPosition => KInsufficientShares
  | BadRequestException InsufficientPosition => KInsufficientShares
  | BadRequestException (CannotTransition _ _) => KInvalidTransition
  | BadRequestException NotResolvable => KInvalidTransition
  | BadRequestException MarketNotResolved => KInvalidTransition
  | Error (SellFailed _) => KInvalidTrade
  | Error _ => KInternal
  end.

(* ===================================================================== *)
(** ** The monad of the services: state, exceptions, failing calls *)
(* ===================================================================== *)

(** What a service runs against: the database, and for each of the
    upcoming calls on the Supabase client whether it reports an error
    ([true]).  Past the end of the schedule no call fails. *)
Record World := { db : Store; faults : list bool }.

Inductive Result (A : Type) :=
| Ok (a : A)
| Throw (e : Exception).
Arguments Ok {A} a.
Arguments Throw {A} e.

Definition M (A : Type) : Type := World -> Result A * World.

Definition ret {A} (a : A) : M A := fun w => (Ok a, w).

Definition bind {A B} (m : M A) (k : A -> M B) : M B :=
  fun w =>
    match m w with
    | (Ok a, w') => k a w'
    | (Throw e, w') => (Throw e, w')
    end.

Definition throw {A} (e : Exception) : M A := fun w => (Throw e, w).

Declare Scope svc_scope.
Delimit Scope svc_scope with svc.
Notation "x <- m ;; k" := (bind m (fun x => k))
  (at level 61, m at next level, right associativity) : svc_scope.
Notation "m ;; k" := (bind m (fun _ => k))
  (at level 61, right associativity) : svc_scope.
Local Open Scope svc_scope.

(** One call on the client: consumes one entry of the schedule and tells
    whether the call reports an error. *)
Definition db_call : M bool :=
  fun w =>
    match faults w with
    | [] => (Ok false, w)
    | f :: fs => (Ok f, {| db := db w; faults := fs |})
    end.

(** A read: [{ data, error }] with [data] computed from the store. *)
Definition query {A} (read : Store -> option A) : M (option A) :=
  failed <- db_call ;;
  if (failed : bool) then ret None
  else fun w => (Ok (read (db w)), w).

(** A write returning the written row: on success the store is replaced. *)
Definition mutate {A} (write : Store -> option (A * Store)) : M (option A) :=
  failed <- db_call ;;
  if (failed : bool) then ret None
  else fun w =>
    match write (db w) with
    | Some (a, s') => (Ok (Some a), {| db := s'; faults := faults w |})
    | None => (Ok None, w)
    end.

(** [.single()]: exactly one row, otherwise an error. *)
Definition single {A} (rows : list A) : option A :=
  match rows with
  | [r] => Some r
  | _ => None
  end.

(** [.update(f).eq(...).select().single()] on one table. *)
Definition update_single {A} (p : A -> bool) (f : A -> A) (rows : list A)
    : option (A * list A) :=
  match single (filter p rows) with
  | Some r => Some (f r, map (fun x => if p x then f x else x) rows)
  | None => None
  end.

(** Replacing one table of the store. *)
Definition with_wallets (s : Store) (ws : list Wallet.Row) : Store :=
  {| wallets := ws; wallet_transactions := wallet_transactions s;
     markets := markets s; positions := positions s; trades := trades s;
     next_id := next_id s |}.

Definition with_wallet_transactions (s : Store) (ts : list WalletTransaction.Row) : Store :=
  {| wallets := wallets s; wallet_transactions := ts;
     markets := markets s; positions := positions s; trades := trades s;
     next_id := next_id s |}.

Definition with_markets (s : Store) (ms : list Market.Row) : Store :=
  {| wallets := wallets s; wallet_transactions := wallet_transactions s;
     markets := ms; positions := positions s; trades := trades s;
     next_id := next_id s |}.

Definition with_positions (s : Store) (ps : list Position.Row) (n : Id) : Store :=
  {| wallets := wallets s; wallet_transactions := wallet_transactions s;
     markets := markets s; positions := ps; trades := trades s;
     next_id := n |}.

Definition with_trades (s : Store) (ts : list Trade.Row) : Store :=
  {| wallets := wallets s; wallet_transactions := wallet_transactions s;
     markets := markets s; positions := positions s; trades := ts;
     next_id := next_id s |}.

(* ===================================================================== *)
(** ** wallets.service.ts *)
(* ===================================================================== *)

Module WalletsService.

Definition findByUserId (userId : Id) : M (option Wallet.Row) :=
  query (fun s =>
    single (filter (fun w => Nat.eqb (Wallet.user_id w) userId) (wallets s))).

(** [.from("wallets").update({ balance: newBalance }).eq("id", id)
     .select().single()].  The table refuses a negative balance
    (CHECK (balance >= 0)). *)
Definition updateBalance (walletId : Id) (newBalance : R) : M (option Wallet.Row) :=
  mutate (fun s =>
    if Rlt_dec newBalance 0 then None
    else
      match update_single
              (fun w => Nat.eqb (Wallet.id w) walletId)
              (fun w => {| Wallet.id := Wallet.id w;
                           Wallet.user_id := Wallet.user_id w;
                           Wallet.balance := newBalance;
                           Wallet.frozen_balance := Wallet.frozen_balance w |})
              (wallets s) with
      | Some (row, ws) => Some (row, with_wallets s ws)
      | None => None
      end).

(** An error of the insert is written to the console and dropped. *)
Definition recordTransaction (data : WalletTransaction.Row) : M unit :=
  _ <- mutate (fun s =>
         Some (tt, with_wallet_transactions s (wallet_transactions s ++ [data]))) ;;
  ret tt.

Definition deposit (userId : Id) (amount : R) : M Wallet.Row :=
  if Rle_dec amount 0 then throw (BadRequestException DepositNotPositive)
  else
    wallet <- findByUserId userId ;;
    match wallet with
    | None => throw (NotFoundException WalletNotFound)
    | Some wallet =>
      let currentBalance := Wallet.balance wallet in
      let newBalance := currentBalance + amount in
      data <- updateBalance (Wallet.id wallet) newBalance ;;
      match data with
      | None => throw (Error DepositFailed)
      | Some data =>
        recordTransaction
          {| WalletTransaction.wallet_id := Wallet.id wallet;
             WalletTransaction.type := deposit_tx;
             WalletTransaction.amount := amount;
             WalletTransaction.balance_before := currentBalance;
             WalletTransaction.balance_after := newBalance;
             WalletTransaction.reference_id := None |} ;;
        ret data
      end
    end.

Definition withdraw (userId : Id) (amount : R) : M Wallet.Row :=
  if Rle_dec amount 0 then throw (BadRequestException WithdrawNotPositive)
  else
    wallet <- findByUserId userId ;;
    match wallet with
    | None => throw (NotFoundException WalletNotFound)
    | Some wallet =>
      let currentBalance := Wallet.balance wallet in
      if Rlt_dec currentBalance amount
      then throw (BadRequestException InsufficientBalance)
      else
        let newBalance := currentBalance - amount in
        data <- updateBalance (Wallet.id wallet) newBalance ;;
        match data with
        | None => throw (Error WithdrawFailed)
        | Some data =>
          recordTransaction
            {| WalletTransaction.wallet_id := Wallet.id wallet;
               WalletTransaction.type := withdraw_tx;
               WalletTransaction.amount := - amount;
               WalletTransaction.balance_before := currentBalance;
               WalletTransaction.balance_after := newBalance;
               WalletTransaction.reference_id := None |} ;;
          ret data
        end
    end.

Definition deductForTrade (userId : Id) (amount : R) (marketId : Id)
    : M Wallet.Row :=
  wallet <- findByUserId userId ;;
  match wallet with
  | None => throw (NotFoundException WalletNotFound)
  | Some wallet =>
    let currentBalance := Wallet.balance wallet in
    if Rlt_dec currentBalance amount
    then throw (BadRequestException InsufficientBalance)
    else
      let newBalance := currentBalance - amount in
      data <- updateBalance (Wallet.id wallet) newBalance ;;
      match data with
      | None => throw (Error DeductFailed)
      | Some data =>
        recordTransaction
          {| WalletTransaction.wallet_id := Wallet.id wallet;
             WalletTransaction.type := trade_tx;
             WalletTransaction.amount := - amount;
             WalletTransaction.balance_before := currentBalance;
             WalletTransaction.balance_after := newBalance;
             WalletTransaction.reference_id := Some marketId |} ;;
        ret data
      end
  end.

Definition addFromTrade (userId : Id) (amount : R) (marketId : Id)
    : M Wallet.Row :=
  wallet <- findByUserId userId ;;
  match wallet with
  | None => throw (NotFoundException WalletNotFound)
  | Some wallet =>
    let currentBalance := Wallet.balance wallet in
    let newBalance := currentBalance + amount in
    data <- updateBalance (Wallet.id wallet) newBalance ;;
    match data with
    | None => throw (Error CreditFailed)
    | Some data =>
      recordTransaction
        {| WalletTransaction.wallet_id := Wallet.id wallet;
           WalletTransaction.type := trade_tx;
           WalletTransaction.amount := amount;
           WalletTransaction.balance_before := currentBalance;
           WalletTransaction.balance_after := newBalance;
           WalletTransaction.reference_id := Some marketId |} ;;
      ret data
    end
  end.

Definition settlePosition (userId : Id) (amount : R) (marketId : Id)
    : M Wallet.Row :=
  wallet <- findByUserId userId ;;
  match wallet with
  | None => throw (NotFoundException WalletNotFound)
  | Some wallet =>
    let currentBalance := Wallet.balance wallet in
    let newBalance := currentBalance + amount in
    data <- updateBalance (Wallet.id wallet) newBalance ;;
    match data with
    | None => throw (Error SettleFailed)
    | Some data =>
      recordTransaction
        {| WalletTransaction.wallet_id := Wallet.id wallet;
           WalletTransaction.type := settlement_tx;
           WalletTransaction.amount := amount;
           WalletTransaction.balance_before := currentBalance;
           WalletTransaction.balance_after := newBalance;
           WalletTransaction.reference_id := Some marketId |} ;;
      ret data
    end
  end.

(** What getStats returns. *)
Record Stats := {
  totalBalance : R;
  totalFrozen : R;
  walletsCount : nat
}.

(** The read of getStats drops the error of the call: [wallets] is then
    [null], each [wallets?.reduce(...)] is [undefined] and [|| 0] makes it
    0.  [w.balance ?? 0] is [w.balance]: the two columns are NOT NULL. *)
Definition getStats : M Stats :=
  wallets <- query (fun s => Some (wallets s)) ;;
  let totalBalance :=
    Num.or_default
      (option_map
         (fun ws => fold_left (fun sum w => sum + Wallet.balance w) ws 0)
         wallets) 0 in
  let totalFrozen :=
    Num.or_default
      (option_map
         (fun ws => fold_left (fun sum w => sum + Wallet.frozen_balance w) ws 0)
         wallets) 0 in
  ret {| totalBalance := totalBalance;
         totalFrozen := totalFrozen;
         walletsCount := match wallets with
                         | Some ws => length ws
                         | None => 0%nat
                         end |}.

End WalletsService.

(* ===================================================================== *)
(** ** markets.service.ts *)
(* ===================================================================== *)

Module MarketsService.

Definition findById (id : Id) : M (option Market.Row) :=
  query (fun s =>
    single (filter (fun m => Nat.eqb (Market.id m) id) (markets s))).

(** [.from("markets").update(f).eq("id", id).select().single()] *)
Definition updateRow (id : Id) (f : Market.Row -> Market.Row)
    : M (option Market.Row) :=
  mutate (fun s =>
    match update_single (fun m => Nat.eqb (Market.id m) id) f (markets s) with
    | Some (row, ms) => Some (row, with_markets s ms)
    | None => None
    end).

Definition validTransitions (from : Status) : list Status :=
  match from with
  | draft => [active; cancelled]
  | active => [suspended; resolved; cancelled]
  | suspended => [active; resolved; cancelled]
  | resolved => []
  | cancelled => []
  end.

Definition includes (l : list Status) (s : Status) : bool :=
  existsb (Status_eqb s) l.

Definition updateStatus (id : Id) (status : Status) : M Market.Row :=
  market <- findById id ;;
  match market with
  | None => throw (NotFoundException MarketNotFound)
  | Some market =>
    if negb (includes (validTransitions (Market.status market)) status)
    then throw (BadRequestException
                  (CannotTransition (Market.status market) status))
    else
      data <- updateRow id (fun m =>
        {| Market.id := Market.id m;
           Market.status := status;
           Market.outcome := Market.outcome m;
           Market.yes_shares := Market.yes_shares m;
           Market.no_shares := Market.no_shares m;
           Market.liquidity := Market.liquidity m;
           Market.volume := Market.volume m;
           Market.start_time := Market.start_time m;
           Market.end_time := Market.end_time m;
           Market.resolved_at := Market.resolved_at m |}) ;;
      match data with
      | None => throw (Error UpdateStatusFailed)
      | Some data => ret data
      end
  end.

Definition resolveMarket (now : Z) (id : Id) (outcome : Side) : M Market.Row :=
  market <- findById id ;;
  match market with
  | None => throw (NotFoundException MarketNotFound)
  | Some market =>
    if negb (Status_eqb (Market.status market) active)
       && negb (Status_eqb (Market.status market) suspended)
    then throw (BadRequestException NotResolvable)
    else
      data <- updateRow id (fun m =>
        {| Market.id := Market.id m;
           Market.status := resolved;
           Market.outcome := Some outcome;
           Market.yes_shares := Market.yes_shares m;
           Market.no_shares := Market.no_shares m;
           Market.liquidity := Market.liquidity m;
           Market.volume := Market.volume m;
           Market.start_time := Market.start_time m;
           Market.end_time := Market.end_time m;
           Market.resolved_at := Some now |}) ;;
      match data with
      | None => throw (Error ResolveFailed)
      | Some data => ret data
      end
  end.

Definition updateShares (id : Id) (yesShares noShares volumeIncrease : R)
    : M Market.Row :=
  market <- findById id ;;
  match market with
  | None => throw (NotFoundException MarketNotFound)
  | Some market =>
    data <- updateRow id (fun m =>
      {| Market.id := Market.id m;
         Market.status := Market.status m;
         Market.outcome := Market.outcome m;
         Market.yes_shares := yesShares;
         Market.no_shares := noShares;
         Market.liquidity := Market.liquidity m;
         Market.volume := Market.volume market + volumeIncrease;
         Market.start_time := Market.start_time m;
         Market.end_time := Market.end_time m;
         Market.resolved_at := Market.resolved_at m |}) ;;
    match data with
    | None => throw (Error UpdateSharesFailed)
    | Some data => ret data
    end
  end.

(** What getMarketWithPrices returns: the columns of the row and three
    more fields. *)
Record MarketWithPrices := {
  row : Market.Row;
  yes_price : R;
  no_price : R;
  current_liquidity : R
}.

Definition getMarketWithPrices (id : Id) : M MarketWithPrices :=
  market <- findById id ;;
  match market with
  | None => throw (NotFoundException MarketNotFound)
  | Some market =>
    let liquidityParam := AMM.getLiquidityForMarket (Market.liquidity market) in
    let prices :=
      AMM.getCurrentPrices
        {| AMM.yesShares := Market.yes_shares market;
           AMM.noShares := Market.no_shares market |}
        (Some liquidityParam) in
    ret {| row := market;
           yes_price := AMM.yesPrice prices;
           no_price := AMM.noPrice prices;
           current_liquidity := liquidityParam |}
  end.

(** What getStats returns. *)
Record Stats := {
  totalMarkets : nat;
  activeMarkets : nat;
  totalVolume : R
}.

(** The three reads drop the error of the call; a count that is missing
    reads as 0. *)
Definition getStats : M Stats :=
  totalMarkets <- query (fun s => Some (length (markets s))) ;;
  activeMarkets <- query (fun s =>
    Some (length (filter (fun m => Status_eqb (Market.status m) active)
                         (markets s)))) ;;
  volumeData <- query (fun s => Some (markets s)) ;;
  let totalVolume :=
    Num.or_default
      (option_map (fun ms => fold_left (fun sum m => sum + Market.volume m) ms 0)
                  volumeData) 0 in
  ret {| totalMarkets := match totalMarkets with Some n => n | None => 0%nat end;
         activeMarkets := match activeMarkets with Some n => n | None => 0%nat end;
         totalVolume := totalVolume |}.

End MarketsService.

(* ===================================================================== *)
(** ** positions.service.ts *)
(* ===================================================================== *)

Module PositionsService.

Definition sameUserAndMarket (userId marketId : Id) (p : Position.Row) : bool :=
  Nat.eqb (Position.user_id p) userId && Nat.eqb (Position.market_id p) marketId.

Definition findByUserAndMarket (userId marketId : Id) : M (option Position.Row) :=
  query (fun s => single (filter (sameUserAndMarket userId marketId) (positions s))).

(** The rows come in the order of the table.  The source asks for them
    newest first ([order by updated_at]), a column the records leave out:
    what is proved of a run that stops part-way through the rows is stated
    without reference to their order. *)
Definition findByMarket (marketId : Id) : M (list Position.Row) :=
  data <- query (fun s =>
    Some (filter (fun p => Nat.eqb (Position.market_id p) marketId) (positions s))) ;;
  match data with
  | None => throw (Error ListPositionsFailed)
  | Some data => ret data
  end.

(** The row createOrUpdate inserts when the user has no position. *)
Definition insertData (userId marketId : Id) (side : Side)
    (sharesDelta avgPrice : R) (newId : Id) : Position.Row :=
  match side with
  | yes => {| Position.id := newId; Position.user_id := userId;
              Position.market_id := marketId;
              Position.yes_shares := sharesDelta; Position.no_shares := 0;
              Position.avg_yes_price := avgPrice; Position.avg_no_price := 0 |}
  | no => {| Position.id := newId; Position.user_id := userId;
             Position.market_id := marketId;
             Position.yes_shares := 0; Position.no_shares := sharesDelta;
             Position.avg_yes_price := 0; Position.avg_no_price := avgPrice |}
  end.

(** The row createOrUpdate writes over an existing position. *)
Definition updateData (position : Position.Row) (side : Side)
    (sharesDelta avgPrice : R) (isBuy : bool) (row : Position.Row)
    : Position.Row :=
  let currentShares :=
    match side with
    | yes => Position.yes_shares position
    | no => Position.no_shares position
    end in
  let currentAvgPrice :=
    match side with
    | yes => Position.avg_yes_price position
    | no => Position.avg_no_price position
    end in
  let newShares :=
    if isBuy then currentShares + sharesDelta else currentShares - sharesDelta in
  let newAvgPrice :=
    if isBuy then
      if Rgt_dec newShares 0
      then (currentShares * currentAvgPrice + sharesDelta * avgPrice) / newShares
      else 0
    else
      if Rgt_dec newShares 0 then currentAvgPrice else 0 in
  match side with
  | yes => {| Position.id := Position.id row; Position.user_id := Position.user_id row;
              Position.market_id := Position.market_id row;
              Position.yes_shares := Rmax 0 newShares;
              Position.no_shares := Position.no_shares row;
              Position.avg_yes_price := newAvgPrice;
              Position.avg_no_price := Position.avg_no_price row |}
  | no => {| Position.id := Position.id row; Position.user_id := Position.user_id row;
             Position.market_id := Position.market_id row;
             Position.yes_shares := Position.yes_shares row;
             Position.no_shares := Rmax 0 newShares;
             Position.avg_yes_price := Position.avg_yes_price row;
             Position.avg_no_price := newAvgPrice |}
  end.

(** The insert is refused when it would break UNIQUE(user_id, market_id). *)
Definition insertRow (userId marketId : Id) (side : Side)
    (sharesDelta avgPrice : R) : M (option Position.Row) :=
  mutate (fun s =>
    match filter (sameUserAndMarket userId marketId) (positions s) with
    | [] =>
      let row := insertData userId marketId side sharesDelta avgPrice (next_id s) in
      Some (row, with_positions s (positions s ++ [row]) (S (next_id s)))
    | _ => None
    end).

Definition updateRow (id : Id) (f : Position.Row -> Position.Row)
    : M (option Position.Row) :=
  mutate (fun s =>
    match update_single (fun p => Nat.eqb (Position.id p) id) f (positions s) with
    | Some (row, ps) => Some (row, with_positions s ps (next_id s))
    | None => None
    end).

Definition createOrUpdate (userId marketId : Id) (side : Side)
    (sharesDelta avgPrice : R) (isBuy : bool) : M Position.Row :=
  position <- findByUserAndMarket userId marketId ;;
  match position with
  | None =>
    data <- insertRow userId marketId side sharesDelta avgPrice ;;
    match data with
    | None => throw (Error CreatePositionFailed)
    | Some data => ret data
    end
  | Some position =>
    data <- updateRow (Position.id position)
              (updateData position side sharesDelta avgPrice isBuy) ;;
    match data with
    | None => throw (Error UpdatePositionFailed)
    | Some data => ret data
    end
  end.

End PositionsService.

(* ===================================================================== *)
(** ** trades.service.ts *)
(* ===================================================================== *)

Module TradesService.

Record ExecuteTradeDto := {
  marketId : Id;
  type : TradeType;
  side : Side;
  amount : option R;
  shares : option R
}.

(** What executeBuy and executeSell return; [received] is the [cost] of a
    buy and the [amountReceived] of a sell. *)
Record Executed := {
  trade : Trade.Row;
  e_shares : R;
  received : R;
  e_avgPrice : R;
  e_fee : R
}.

Definition FEE_RATE : R := 2 / 100.

Definition recordTrade (data : Trade.Row) : M Trade.Row :=
  r <- mutate (fun s => Some (data, with_trades s (trades s ++ [data]))) ;;
  match r with
  | None => throw (Error RecordTradeFailed)
  | Some trade => ret trade
  end.

(** The first statement of executeBuy: shares, cost and average price
    from the amount when it is given, else from the shares. *)
Definition buyQuote (state : AMM.AMMState) (liquidityParam : R)
    (dto : ExecuteTradeDto) : option (R * R * R) :=
  match Num.truthy (amount dto) with
  | Some amount =>
    let result :=
      AMM.calculateSharesForAmount state (side dto) amount (Some liquidityParam) in
    Some (AMM.shares result, amount, AMM.a_avgPrice result)
  | None =>
    match Num.truthy (shares dto) with
    | Some shares =>
      let result :=
        AMM.calculateBuyCost state (side dto) shares (Some liquidityParam) in
      Some (shares, AMM.cost_ result, AMM.avgPrice result)
    | None => None
    end
  end.

Definition executeBuy (userId : Id) (market : Market.Row)
    (state : AMM.AMMState) (dto : ExecuteTradeDto) : M Executed :=
  let liquidityParam := AMM.getLiquidityForMarket (Market.liquidity market) in
  match buyQuote state liquidityParam dto with
  | None => throw (BadRequestException AmountOrSharesRequired)
  | Some (shares, cost, avgPrice) =>
    if Rle_dec shares 0 then throw (BadRequestException InvalidTradeShares)
    else
      _ <- WalletsService.deductForTrade userId cost (Market.id market) ;;
      let buyResult :=
        AMM.calculateBuyCost state (side dto) shares (Some liquidityParam) in
      _ <- MarketsService.updateShares (Market.id market)
             (AMM.newYesShares buyResult) (AMM.newNoShares buyResult) cost ;;
      _ <- PositionsService.createOrUpdate userId (Market.id market) (side dto)
             shares avgPrice true ;;
      let fee := (cost * FEE_RATE) / (1 + FEE_RATE) in
      trade <- recordTrade
        {| Trade.user_id := userId;
           Trade.market_id := Market.id market;
           Trade.type := buy;
           Trade.side := side dto;
           Trade.shares := shares;
           Trade.price := avgPrice;
           Trade.cost := cost;
           Trade.fee := fee;
           Trade.yes_shares_before := AMM.yesShares state;
           Trade.no_shares_before := AMM.noShares state;
           Trade.yes_shares_after := AMM.newYesShares buyResult;
           Trade.no_shares_after := AMM.newNoShares buyResult |} ;;
      ret {| trade := trade; e_shares := shares; received := cost;
             e_avgPrice := avgPrice; e_fee := fee |}
  end.

Definition executeSell (userId : Id) (market : Market.Row)
    (state : AMM.AMMState) (dto : ExecuteTradeDto) : M Executed :=
  match Num.truthy (shares dto) with
  | None => throw (BadRequestException SellSharesRequired)
  | Some shares =>
    if Rle_dec shares 0 then throw (BadRequestException SellSharesRequired)
    else
      position <- PositionsService.findByUserAndMarket userId (Market.id market) ;;
      match position with
      | None => throw (BadRequestException NoPosition)
      | Some position =>
        let currentShares :=
          match side dto with
          | yes => Position.yes_shares position
          | no => Position.no_shares position
          end in
        if Rlt_dec currentShares shares
        then throw (BadRequestException InsufficientPosition)
        else
          let liquidityParam :=
            AMM.getLiquidityForMarket (Market.liquidity market) in
          match AMM.calculateSellReturn state (side dto) shares
                  (Some liquidityParam) with
          | inl e => throw (Error (SellFailed e))
          | inr sellResult =>
            _ <- WalletsService.addFromTrade userId
                   (AMM.amountReceived sellResult) (Market.id market) ;;
            _ <- MarketsService.updateShares (Market.id market)
                   (AMM.s_newYesShares sellResult) (AMM.s_newNoShares sellResult)
                   (AMM.amountReceived sellResult) ;;
            _ <- PositionsService.createOrUpdate userId (Market.id market)
                   (side dto) shares (AMM.s_avgPrice sellResult) false ;;
            let grossAmount := AMM.amountReceived sellResult / (1 - FEE_RATE) in
            let fee := grossAmount - AMM.amountReceived sellResult in
            trade <- recordTrade
              {| Trade.user_id := userId;
                 Trade.market_id := Market.id market;
                 Trade.type := sell;
                 Trade.side := side dto;
                 Trade.shares := shares;
                 Trade.price := AMM.s_avgPrice sellResult;
                 Trade.cost := AMM.amountReceived sellResult;
                 Trade.fee := fee;
                 Trade.yes_shares_before := AMM.yesShares state;
                 Trade.no_shares_before := AMM.noShares state;
                 Trade.yes_shares_after := AMM.s_newYesShares sellResult;
                 Trade.no_shares_after := AMM.s_newNoShares sellResult |} ;;
            ret {| trade := trade; e_shares := shares;
                   received := AMM.amountReceived sellResult;
                   e_avgPrice := AMM.s_avgPrice sellResult; e_fee := fee |}
          end
      end
  end.

(** [now] is the value of [new Date()]. *)
Definition executeTrade (now : Z) (userId : Id) (dto : ExecuteTradeDto)
    : M Executed :=
  market <- MarketsService.findById (marketId dto) ;;
  match market with
  | None => throw (NotFoundException MarketNotFound)
  | Some market =>
    if negb (Status_eqb (Market.status market) active)
    then throw (BadRequestException MarketNotOpen)
    else if (now <? Market.start_time market)%Z || (Market.end_time market <? now)%Z
    then throw (BadRequestException OutsideTradingHours)
    else
      let state := {| AMM.yesShares := Market.yes_shares market;
                      AMM.noShares := Market.no_shares market |} in
      match type dto with
      | buy => executeBuy userId market state dto
      | sell => executeSell userId market state dto
      end
  end.

Definition winningShares (outcome : Side) (position : Position.Row) : R :=
  match outcome with
  | yes => Position.yes_shares position
  | no => Position.no_shares position
  end.

(** The [for (const position of positions)] loop of settleMarket. *)
Fixpoint settleEach (outcome : Side) (marketId : Id)
    (positions : list Position.Row) : M unit :=
  match positions with
  | [] => ret tt
  | position :: rest =>
    (if Rgt_dec (winningShares outcome position) 0
     then _ <- WalletsService.settlePosition (Position.user_id position)
                 (winningShares outcome position) marketId ;;
          ret tt
     else ret tt) ;;
    settleEach outcome marketId rest
  end.

(** Returns the field [settledPositions] of the result. *)
Definition settleMarket (marketId : Id) : M nat :=
  market <- MarketsService.findById marketId ;;
  match market with
  | None => throw (NotFoundException MarketNotFound)
  | Some market =>
    match Status_eqb (Market.status market) resolved, Market.outcome market with
    | true, Some outcome =>
      positions <- PositionsService.findByMarket marketId ;;
      settleEach outcome marketId positions ;;
      ret (length positions)
    | _, _ => throw (BadRequestException MarketNotResolved)
    end
  end.

(** One entry of [marketExposures]; the title of the market is left
    out. *)
Record MarketExposure := {
  x_marketId : Id;
  x_status : Status;
  totalYesShares : R;
  totalNoShares : R;
  maxExposure : R
}.

Record UnsettledExposure := {
  totalMaxExposure : R;
  marketCount : nat;
  marketExposures : list MarketExposure
}.

(** [.in("status", ["active", "suspended", "draft"])] *)
Definition unsettledStatus (st : Status) : bool :=
  Status_eqb st active || Status_eqb st suspended || Status_eqb st draft.

(** The totals that the body of the loop of getUnsettledExposure computes
    for one market. *)
Definition exposureOf (allPositions : list Position.Row) (market : Market.Row)
    : MarketExposure :=
  let positions :=
    filter (fun p => Nat.eqb (Position.market_id p) (Market.id market))
           allPositions in
  let totalYesShares :=
    fold_left (fun sum position =>
                 sum + Num.or_default (Some (Position.yes_shares position)) 0)
              positions 0 in
  let totalNoShares :=
    fold_left (fun sum position =>
                 sum + Num.or_default (Some (Position.no_shares position)) 0)
              positions 0 in
  let maxExposure := Rmax totalYesShares totalNoShares in
  {| x_marketId := Market.id market;
     x_status := Market.status market;
     totalYesShares := totalYesShares;
     totalNoShares := totalNoShares;
     maxExposure := maxExposure |}.

(** The loop over the markets: the running [totalMaxExposure] and the
    entries pushed so far. *)
Definition exposureLoop (allPositions : list Position.Row)
    (activeMarkets : list Market.Row) : R * list MarketExposure :=
  fold_left
    (fun acc market =>
       let e := exposureOf allPositions market in
       (fst acc + maxExposure e,
        if Rgt_dec (maxExposure e) 0 then snd acc ++ [e] else snd acc))
    activeMarkets (0, []).

(** The two reads drop the error of the call. *)
Definition getUnsettledExposure : M UnsettledExposure :=
  activeMarkets <- query (fun s =>
    Some (filter (fun m => unsettledStatus (Market.status m)) (markets s))) ;;
  allPositions <- query (fun s => Some (positions s)) ;;
  let loop :=
    exposureLoop (Arrays.or_empty allPositions) (Arrays.or_empty activeMarkets) in
  let totalMaxExposure := fst loop in
  let marketExposures := Arrays.sort_desc maxExposure (snd loop) in
  ret {| totalMaxExposure := totalMaxExposure;
         marketCount := length marketExposures;
         marketExposures := Arrays.slice0 10 marketExposures |}.

(** One entry of [marketPnL] and of [marketDetails]; the title of the
    market is left out, and so is the status of a detail, which is always
    "resolved". *)
Record MarketPnL := {
  p_marketId : Id;
  buyVolume : R;
  sellVolume : R;
  settlementPayout : R;
  pnl : R
}.

Record AMMProfitLoss := {
  totalAMMPnL : R;
  resolvedAMMPnL : R;
  marketDetails : list MarketPnL
}.

(** The object [marketPnL] is the list of its entries in the order in
    which the keys were added, which is the order of [Object.keys] (the
    keys are uuid strings).  [marketPnL[id]]: *)
Definition entryOf (marketPnL : list MarketPnL) (id : Id) : option MarketPnL :=
  find (fun e => Nat.eqb (p_marketId e) id) marketPnL.

(** An assignment to a field of [marketPnL[id]]. *)
Definition updateEntry (id : Id) (f : MarketPnL -> MarketPnL)
    (marketPnL : list MarketPnL) : list MarketPnL :=
  map (fun e => if Nat.eqb (p_marketId e) id then f e else e) marketPnL.

(** The body of the loop over the trades. *)
Definition addTrade (marketPnL : list MarketPnL) (trade : Trade.Row)
    : list MarketPnL :=
  let marketPnL :=
    match entryOf marketPnL (Trade.market_id trade) with
    | Some _ => marketPnL
    | None =>
      marketPnL ++ [{| p_marketId := Trade.market_id trade;
                       buyVolume := 0; sellVolume := 0;
                       settlementPayout := 0; pnl := 0 |}]
    end in
  updateEntry (Trade.market_id trade)
    (fun e =>
       match Trade.type trade with
       | buy =>
         {| p_marketId := p_marketId e;
            buyVolume := buyVolume e + (Trade.cost trade - Trade.fee trade);
            sellVolume := sellVolume e;
            settlementPayout := settlementPayout e;
            pnl := pnl e |}
       | sell =>
         {| p_marketId := p_marketId e;
            buyVolume := buyVolume e;
            sellVolume := sellVolume e + Trade.cost trade;
            settlementPayout := settlementPayout e;
            pnl := pnl e |}
       end)
    marketPnL.

(** The inner loop of getAMMProfitLoss over the positions of a resolved
    market.  A market without outcome counts the NO shares. *)
Definition settlementPayoutOf (allPositions : list Position.Row)
    (market : Market.Row) : R :=
  let marketPositions :=
    filter (fun p => Nat.eqb (Position.market_id p) (Market.id market))
           allPositions in
  fold_left
    (fun settlementPayout position =>
       let winningShares :=
         match Market.outcome market with
         | Some yes => Position.yes_shares position
         | _ => Position.no_shares position
         end in
       settlementPayout + Num.or_default (Some winningShares) 0)
    marketPositions 0.

(** The body of the loop over the resolved markets. *)
Definition addPayout (allPositions : list Position.Row)
    (marketPnL : list MarketPnL) (market : Market.Row) : list MarketPnL :=
  match entryOf marketPnL (Market.id market) with
  | Some _ =>
    updateEntry (Market.id market)
      (fun e =>
         {| p_marketId := p_marketId e;
            buyVolume := buyVolume e;
            sellVolume := sellVolume e;
            settlementPayout := settlementPayoutOf allPositions market;
            pnl := pnl e |})
      marketPnL
  | None => marketPnL
  end.

(** [market?.status === "resolved"] for
    [market = resolvedMarkets.find((m) => m.id === marketId)]. *)
Definition isResolved (resolvedMarkets : list Market.Row) (marketId : Id) : bool :=
  match find (fun m => Nat.eqb (Market.id m) marketId) resolvedMarkets with
  | Some market => Status_eqb (Market.status market) resolved
  | None => false
  end.

(** [data.pnl = data.buyVolume - data.sellVolume - data.settlementPayout] *)
Definition withPnl (data : MarketPnL) : MarketPnL :=
  {| p_marketId := p_marketId data;
     buyVolume := buyVolume data;
     sellVolume := sellVolume data;
     settlementPayout := settlementPayout data;
     pnl := buyVolume data - sellVolume data - settlementPayout data |}.

(** The loop over the keys of [marketPnL]: the running [totalAMMPnL] and
    [resolvedAMMPnL] and the details pushed so far. *)
Definition pnlLoop (resolvedMarkets : list Market.Row)
    (marketPnL : list MarketPnL) : R * R * list MarketPnL :=
  fold_left
    (fun acc entry =>
       let data := withPnl entry in
       let resolvedNow := isResolved resolvedMarkets (p_marketId data) in
       (fst (fst acc) + (buyVolume data - sellVolume data),
        if resolvedNow then snd (fst acc) + pnl data else snd (fst acc),
        if resolvedNow then snd acc ++ [data] else snd acc))
    marketPnL (0, 0, []).

(** The three reads drop the error of the call. *)
Definition getAMMProfitLoss : M AMMProfitLoss :=
  trades <- query (fun s => Some (trades s)) ;;
  resolvedMarkets <- query (fun s =>
    Some (filter (fun m => Status_eqb (Market.status m) resolved) (markets s))) ;;
  allPositions <- query (fun s => Some (positions s)) ;;
  let marketPnL := fold_left addTrade (Arrays.or_empty trades) [] in
  let marketPnL :=
    fold_left (addPayout (Arrays.or_empty allPositions))
              (Arrays.or_empty resolvedMarkets) marketPnL in
  let loop := pnlLoop (Arrays.or_empty resolvedMarkets) marketPnL in
  let marketDetails := Arrays.sort_desc pnl (snd loop) in
  ret {| totalAMMPnL := fst (fst loop);
         resolvedAMMPnL := snd (fst loop);
         marketDetails := Arrays.slice0 20 marketDetails |}.

End TradesService.

(* ===================================================================== *)
(** ** admin.controller.ts *)
(* ===================================================================== *)

Module AdminController.

(** POST markets/:id/resolve: resolve the market, then settle it. *)
Definition resolveMarket (now : Z) (id : Id) (outcome : Side)
    : M (Market.Row * nat) :=
  market <- MarketsService.resolveMarket now id outcome ;;
  settlement <- TradesService.settleMarket id ;;
  ret (market, settlement).

Definition updateMarketStatus (id : Id) (status : Status) : M Market.Row :=
  MarketsService.updateStatus id status.

End AdminController.

(* ===================================================================== *)
(** ** markets.controller.ts *)
(* ===================================================================== *)

Module MarketsController.

(** The body of POST markets/:id/quote, by the fields that getQuote
    reads. *)
Record QuoteDto := {
  type : TradeType;
  side : Side;
  amount : option R;
  shares : option R
}.

(** The three objects that getQuote returns. *)
Inductive Quote :=
| BuyForAmount (side : Side) (amount shares avgPrice : R)
| BuyForShares (side : Side) (shares cost avgPrice priceImpact : R)
| SellForShares (side : Side) (shares amountReceived avgPrice priceImpact : R).

(** getQuote throws plain errors of its own, which no service throws; they
    are the left results here, with the error of calculateSellReturn that
    passes through it. *)
Inductive QuoteError :=
| QuoteMarketNotFound       (* "market does not exist" *)
| QuoteParametersInvalid    (* "give valid trade parameters" *)
| QuoteSellFailed (e : AMM.SellError).

Definition getQuote (id : Id) (dto : QuoteDto) : M (QuoteError + Quote) :=
  market <- MarketsService.findById id ;;
  match market with
  | None => ret (inl QuoteMarketNotFound)
  | Some market =>
    let state := {| AMM.yesShares := Market.yes_shares market;
                    AMM.noShares := Market.no_shares market |} in
    let liquidityParam := AMM.getLiquidityForMarket (Market.liquidity market) in
    match type dto with
    | buy =>
      match Num.truthy (amount dto) with
      | Some amount =>
        let result :=
          AMM.calculateSharesForAmount state (side dto) amount (Some liquidityParam) in
        ret (inr (BuyForAmount (side dto) amount (AMM.shares result)
                               (AMM.a_avgPrice result)))
      | None =>
        match Num.truthy (shares dto) with
        | Some shares =>
          let result :=
            AMM.calculateBuyCost state (side dto) shares (Some liquidityParam) in
          ret (inr (BuyForShares (side dto) shares (AMM.cost_ result)
                                 (AMM.avgPrice result) (AMM.priceImpact result)))
        | None => ret (inl QuoteParametersInvalid)
        end
      end
    | sell =>
      match Num.truthy (shares dto) with
      | Some shares =>
        match AMM.calculateSellReturn state (side dto) shares (Some liquidityParam) with
        | inl e => ret (inl (QuoteSellFailed e))
        | inr result =>
          ret (inr (SellForShares (side dto) shares (AMM.amountReceived result)
                                  (AMM.s_avgPrice result) (AMM.s_priceImpact result)))
        end
      | None => ret (inl QuoteParametersInvalid)
      end
    end
  end.

(** GET markets/:id *)
Definition findOne (id : Id) : M MarketsService.MarketWithPrices :=
  MarketsService.getMarketWithPrices id.

End MarketsController.

(* ===================================================================== *)
(** ** Sample data *)
(* ===================================================================== *)

Module Sample.

(** Market 3 with liquidity 1000, open from time 0 to time 1000. *)
Definition market3 (st : Status) (o : option Side) (qYes qNo : R) : Market.Row :=
  {| Market.id := 3%nat; Market.status := st; Market.outcome := o;
     Market.yes_shares := qYes; Market.no_shares := qNo;
     Market.liquidity := 1000; Market.volume := 0;
     Market.start_time := 0%Z; Market.end_time := 1000%Z;
     Market.resolved_at := None |}.

Definition wallet_of (walletId userId : Id) (bal : R) : Wallet.Row :=
  {| Wallet.id := walletId; Wallet.user_id := userId;
     Wallet.balance := bal; Wallet.frozen_balance := 0 |}.

Definition position_of (rowId userId : Id) (ys ns ay an : R) : Position.Row :=
  {| Position.id := rowId; Position.user_id := userId; Position.market_id := 3%nat;
     Position.yes_shares := ys; Position.no_shares := ns;
     Position.avg_yes_price := ay; Position.avg_no_price := an |}.

Definition store_of (ws : list Wallet.Row) (m : Market.Row)
    (ps : list Position.Row) : Store :=
  {| wallets := ws; wallet_transactions := []; markets := [m];
     positions := ps; trades := []; next_id := 100%nat |}.

(** User 7 holds 100 units; market 3 is active and untraded. *)
Definition fresh : Store :=
  store_of [wallet_of 1%nat 7%nat 100] (market3 active None 0 0) [].

(** Buy one YES share of market 3, by shares. *)
Definition buy_one_share : TradesService.ExecuteTradeDto :=
  {| TradesService.marketId := 3%nat; TradesService.type := buy;
     TradesService.side := yes;
     TradesService.amount := None; TradesService.shares := Some 1 |}.

(** The fresh store, with the eighth call on the client failing: in a buy
    that is the insert of the trade row. *)
Definition trade_insert_fails : World :=
  {| db := fresh;
     faults := [false; false; false; false; false; false; false; true] |}.

(** The state of market 3 in the fresh store, as executeTrade builds it. *)
Definition fresh_state : AMM.AMMState :=
  {| AMM.yesShares := 0; AMM.noShares := 0 |}.

(** A buy of market 3 that supplies both an amount and a share count. *)
Definition buy_with_both : TradesService.ExecuteTradeDto :=
  {| TradesService.marketId := 3%nat; TradesService.type := buy;
     TradesService.side := yes;
     TradesService.amount := Some 10; TradesService.shares := Some 1 |}.

(** Market 3 resolved YES.  User 7 holds 50 YES shares, user 8 holds 50 NO
    shares; both have a wallet with 100 units. *)
Definition settled_positions : list Position.Row :=
  [position_of 50%nat 7%nat 50 0 (2 / 5) 0;
   position_of 51%nat 8%nat 0 50 0 (2 / 5)].

Definition resolved_yes : Store :=
  store_of [wallet_of 1%nat 7%nat 100; wallet_of 2%nat 8%nat 100]
           (market3 resolved (Some yes) 50 50) settled_positions.

(** Market 3 late in its life: 3200 YES shares sold, none of NO, with the
    minimum liquidity 100; its YES price is 1 to nine digits.  User 7 holds
    100 units and no position. *)
Definition late_market : Market.Row :=
  {| Market.id := 3%nat; Market.status := active; Market.outcome := None;
     Market.yes_shares := 3200; Market.no_shares := 0;
     Market.liquidity := 100; Market.volume := 0;
     Market.start_time := 0%Z; Market.end_time := 1000%Z;
     Market.resolved_at := None |}.

Definition late_state : AMM.AMMState :=
  {| AMM.yesShares := 3200; AMM.noShares := 0 |}.

Definition late : Store := store_of [wallet_of 1%nat 7%nat 100] late_market [].

End Sample.

(* ===================================================================== *)
(** * Properties *)
(* ===================================================================== *)

(** ** Vocabulary *)

(** A world in which no call on the client fails. *)
Definition healthy (w : World) : Prop := faults w = [].

Definition lookup_market (s : Store) (id : Id) : option Market.Row :=
  single (filter (fun m => Nat.eqb (Market.id m) id) (markets s)).

Definition lookup_wallet (s : Store) (userId : Id) : option Wallet.Row :=
  single (filter (fun w => Nat.eqb (Wallet.user_id w) userId) (wallets s)).

Definition lookup_position (s : Store) (userId marketId : Id) : option Position.Row :=
  single (filter (PositionsService.sameUserAndMarket userId marketId) (positions s)).

(** The primary key of the wallets table. *)
Definition wallet_ids_unique (s : Store) : Prop :=
  NoDup (map Wallet.id (wallets s)).

Definition balance_of (s : Store) (userId : Id) : option R :=
  option_map Wallet.balance (lookup_wallet s userId).

Definition set_balance (newBalance : R) (w : Wallet.Row) : Wallet.Row :=
  {| Wallet.id := Wallet.id w; Wallet.user_id := Wallet.user_id w;
     Wallet.balance := newBalance; Wallet.frozen_balance := Wallet.frozen_balance w |}.

(** The row a ledger operation appends for a signed amount. *)
Definition ledger_row (wallet : Wallet.Row) (ty : TxType) (signed : R)
    (ref : option Id) : WalletTransaction.Row :=
  {| WalletTransaction.wallet_id := Wallet.id wallet;
     WalletTransaction.type := ty;
     WalletTransaction.amount := signed;
     WalletTransaction.balance_before := Wallet.balance wallet;
     WalletTransaction.balance_after := Wallet.balance wallet + signed;
     WalletTransaction.reference_id := ref |}.

(** The wallets table after the balance of [wallet] moved by [signed]. *)
Definition moved_wallets (s : Store) (wallet : Wallet.Row) (signed : R)
    : list Wallet.Row :=
  map (fun x => if Nat.eqb (Wallet.id x) (Wallet.id wallet)
                then set_balance (Wallet.balance wallet + signed) x else x)
      (wallets s).

(** The store after a complete ledger operation: the balance moved and one
    row appended to the log. *)
Definition posted (s : Store) (wallet : Wallet.Row) (ty : TxType) (signed : R)
    (ref : option Id) : Store :=
  with_wallet_transactions
    (with_wallets s (moved_wallets s wallet signed))
    (wallet_transactions s ++ [ledger_row wallet ty signed ref]).

(** The outcome [r] of a ledger operation run in [w] on the wallet of
    [userId]: it succeeded, the balance moved by [signed], and the log grew
    by exactly one row, of kind [ty], that records the move. *)
Definition posts_one_row (w : World) (userId : Id) (wallet : Wallet.Row)
    (ty : TxType) (signed : R) (ref : option Id)
    (r : Result Wallet.Row * World) : Prop :=
  exists row w' tx,
    r = (Ok row, w')
    /\ balance_of (db w') userId = Some (Wallet.balance wallet + signed)
    /\ wallet_transactions (db w') = wallet_transactions (db w) ++ [tx]
    /\ WalletTransaction.wallet_id tx = Wallet.id wallet
    /\ WalletTransaction.type tx = ty
    /\ WalletTransaction.amount tx = signed
    /\ WalletTransaction.balance_before tx = Wallet.balance wallet
    /\ WalletTransaction.balance_after tx = Wallet.balance wallet + signed
    /\ WalletTransaction.balance_after tx
       = WalletTransaction.balance_before tx + WalletTransaction.amount tx
    /\ WalletTransaction.reference_id tx = ref.

(** A world in which the next two calls on the client succeed and the
    third is rejected: for a ledger operation, the read of the wallet and
    the update of the balance go through and the insert of the ledger row
    does not. *)
Definition ledger_insert_rejected (w : World) : Prop :=
  exists fs, faults w = false :: false :: true :: fs.

(** The outcome [r] of a ledger operation run in [w] on the wallet of
    [userId]: it succeeded, the balance moved by [signed], and the log is
    as it was. *)
Definition posts_no_row (w : World) (userId : Id) (wallet : Wallet.Row)
    (signed : R) (r : Result Wallet.Row * World) : Prop :=
  exists row w',
    r = (Ok row, w')
    /\ balance_of (db w') userId = Some (Wallet.balance wallet + signed)
    /\ wallet_transactions (db w') = wallet_transactions (db w).

(** The outcome [r] of an operation run in [w]: it threw an exception of
    kind [k] and the world is as before. *)
Definition refused {A} (w : World) (k : ErrorKind) (r : Result A * World) : Prop :=
  exists e, r = (Throw e, w) /\ error_kind e = k.

(** The YES price of getCurrentPrices before it is rounded. *)
Definition unrounded_yes_price (state : AMM.AMMState) (liquidity : option R) : R :=
  let b := Num.or_default liquidity AMM.DEFAULT_LIQUIDITY in
  exp (AMM.yesShares state / b)
  / (exp (AMM.yesShares state / b) + exp (AMM.noShares state / b)).

(** The primary key of the positions table. *)
Definition position_ids_unique (s : Store) : Prop :=
  NoDup (map Position.id (positions s)).

Definition has_no_position (s : Store) (userId marketId : Id) : Prop :=
  filter (PositionsService.sameUserAndMarket userId marketId) (positions s) = [].

Definition side_shares (side : Side) (p : Position.Row) : R :=
  match side with
  | yes => Position.yes_shares p
  | no => Position.no_shares p
  end.

Definition side_avg_price (side : Side) (p : Position.Row) : R :=
  match side with
  | yes => Position.avg_yes_price p
  | no => Position.avg_no_price p
  end.

Definition opposite (side : Side) : Side :=
  match side with
  | yes => no
  | no => yes
  end.

(** The invariant of one side of a position row. *)
Definition side_ok (side : Side) (p : Position.Row) : Prop :=
  0 <= side_shares side p
  /\ (0 < side_shares side p -> 0 <= side_avg_price side p <= 1)
  /\ (side_shares side p = 0 -> side_avg_price side p = 0).

(** A service that writes nothing when it throws. *)
Definition fails_clean {A} (m : M A) : Prop :=
  forall w e w', m w = (Throw e, w') -> db w' = db w.

(** A service that never writes. *)
Definition read_only {A} (m : M A) : Prop :=
  forall w r w', m w = (r, w') -> db w' = db w.

(** A service that never throws. *)
Definition never_throws {A} (m : M A) : Prop :=
  forall w e w', m w <> (Throw e, w').

(** A service whose runs relate the store before and after by [Q]. *)
Definition frames {A} (Q : Store -> Store -> Prop) (m : M A) : Prop :=
  forall w r w', m w = (r, w') -> Q (db w) (db w').

Definition same_trades (s s' : Store) : Prop := trades s' = trades s.

Definition same_markets (s s' : Store) : Prop := markets s' = markets s.

(** *** Bisection, as the specification describes it *)

Definition midpoint (bracket : R * R) : R := (fst bracket + snd bracket) / 2.

(** The fee rate of the specification. *)
Definition fee_rate : R := 2 / 100.

(** C(q_yes, q_no; b), the cost function of the specification. *)
Definition lmsr_cost (qYes qNo b : R) : R :=
  b * ln (exp (qYes / b) + exp (qNo / b)).

(** raw_cost of the specification for [delta] shares of [side]:
    C(q + delta) - C(q), at the liquidity given (100 when none is). *)
Definition raw_cost (state : AMM.AMMState) (side : Side)
    (liquidity : option R) (delta : R) : R :=
  let b := Num.or_default liquidity 100 in
  match side with
  | yes => lmsr_cost (AMM.yesShares state + delta) (AMM.noShares state) b
  | no => lmsr_cost (AMM.yesShares state) (AMM.noShares state + delta) b
  end
  - lmsr_cost (AMM.yesShares state) (AMM.noShares state) b.

(** The fee-free cost of [delta] shares: the total cost of the quote,
    raw_cost * (1 + fee_rate) rounded to six digits as every output of
    the engine, with the fee taken out again. *)
Definition fee_free_cost (state : AMM.AMMState) (side : Side)
    (liquidity : option R) (delta : R) : R :=
  Num.toFixed6 (raw_cost state side liquidity delta * (1 + fee_rate))
  / (1 + fee_rate).

(** The stopping test at a share count: its fee-free cost is within 1e-4
    of amount / (1 + fee_rate). *)
Definition converged (state : AMM.AMMState) (side : Side) (amount : R)
    (liquidity : option R) (delta : R) : Prop :=
  Rabs (fee_free_cost state side liquidity delta - amount / (1 + fee_rate))
  < 1 / 10000.

(** [bisection state side amount liquidity k bracket]: [bracket] is the
    bracket after [k] halvings of [0, amount * 10], none of whose
    midpoints passed the stopping test; a midpoint whose fee-free cost is
    less than the target becomes the lower end, any other the upper
    end. *)
Inductive bisection (state : AMM.AMMState) (side : Side) (amount : R)
    (liquidity : option R) : nat -> R * R -> Prop :=
| bisection_start :
    bisection state side amount liquidity 0 (0, amount * 10)
| bisection_raise k low high :
    bisection state side amount liquidity k (low, high) ->
    ~ converged state side amount liquidity (midpoint (low, high)) ->
    fee_free_cost state side liquidity (midpoint (low, high))
    < amount / (1 + fee_rate) ->
    bisection state side amount liquidity (S k) (midpoint (low, high), high)
| bisection_lower k low high :
    bisection state side amount liquidity k (low, high) ->
    ~ converged state side amount liquidity (midpoint (low, high)) ->
    ~ fee_free_cost state side liquidity (midpoint (low, high))
      < amount / (1 + fee_rate) ->
    bisection state side amount liquidity (S k) (low, midpoint (low, high)).

(** A request with one of its two optional fields taken away. *)
Definition without_shares (dto : TradesService.ExecuteTradeDto)
    : TradesService.ExecuteTradeDto :=
  {| TradesService.marketId := TradesService.marketId dto;
     TradesService.type := TradesService.type dto;
     TradesService.side := TradesService.side dto;
     TradesService.amount := TradesService.amount dto;
     TradesService.shares := None |}.

Definition without_amount (dto : TradesService.ExecuteTradeDto)
    : TradesService.ExecuteTradeDto :=
  {| TradesService.marketId := TradesService.marketId dto;
     TradesService.type := TradesService.type dto;
     TradesService.side := TradesService.side dto;
     TradesService.amount := None;
     TradesService.shares := TradesService.shares dto |}.

(** A field of a request is supplied when it is present and not zero
    (the test the executor applies). *)
Definition supplied (field : option R) : Prop := Num.truthy field <> None.

(** *** Settlement *)

Definition market_positions (s : Store) (marketId : Id) : list Position.Row :=
  filter (fun p => Nat.eqb (Position.market_id p) marketId) (positions s).

(** The positions that settlement credits: those with winning shares. *)
Definition is_winner (outcome : Side) (p : Position.Row) : bool :=
  if Rgt_dec (TradesService.winningShares outcome p) 0 then true else false.

Definition winners (outcome : Side) (ps : list Position.Row) : list Position.Row :=
  filter (is_winner outcome) ps.

(** What settlement owes to a user: one unit per winning share of the
    user's positions in the list. *)
Definition payout (outcome : Side) (userId : Id) (ps : list Position.Row) : R :=
  fold_right Rplus 0
    (map (TradesService.winningShares outcome)
         (filter (fun p => Nat.eqb (Position.user_id p) userId)
                 (winners outcome ps))).

Definition wallet_id_of (s : Store) (userId : Id) : option Id :=
  option_map Wallet.id (lookup_wallet s userId).

(** The ledger row that settles position [p]: of kind settlement, for as
    many units as [p] has winning shares, on the wallet of the owner of
    [p], with the market as reference. *)
Definition settles (outcome : Side) (marketId : Id) (s : Store)
    (p : Position.Row) (tx : WalletTransaction.Row) : Prop :=
  WalletTransaction.type tx = settlement_tx
  /\ WalletTransaction.amount tx = TradesService.winningShares outcome p
  /\ WalletTransaction.reference_id tx = Some marketId
  /\ wallet_id_of s (Position.user_id p) = Some (WalletTransaction.wallet_id tx)
  /\ WalletTransaction.balance_after tx
     = WalletTransaction.balance_before tx + WalletTransaction.amount tx.

(** The CHECK constraint of the wallets table. *)
Definition balances_not_negative (s : Store) : Prop :=
  forall u b, balance_of s u = Some b -> 0 <= b.

(** Every owner of a position with winning shares has a wallet. *)
Definition winners_have_wallets (outcome : Side) (s : Store)
    (ps : list Position.Row) : Prop :=
  forall p, In p ps -> is_winner outcome p = true ->
            lookup_wallet s (Position.user_id p) <> None.

(** The lifecycle of section 4.5, as the list of its eight arrows. *)
Definition lifecycle_arrows : list (Status * Status) :=
  [ (draft, active); (draft, cancelled);
    (active, suspended); (active, resolved); (active, cancelled);
    (suspended, active); (suspended, resolved); (suspended, cancelled) ].

Definition lifecycle_allows (from to : Status) : bool :=
  existsb (fun a => Status_eqb (fst a) from && Status_eqb (snd a) to)
          lifecycle_arrows.

(** *** Pricing *)

(** The state of a market with the two sides exchanged. *)
Definition mirrored (state : AMM.AMMState) : AMM.AMMState :=
  {| AMM.yesShares := AMM.noShares state; AMM.noShares := AMM.yesShares state |}.

(** The state of a market after a buy or a sell, as the executor writes it
    back to the market row. *)
Definition state_after_buy (r : AMM.TradeResult) : AMM.AMMState :=
  {| AMM.yesShares := AMM.newYesShares r; AMM.noShares := AMM.newNoShares r |}.

Definition side_price (side : Side) (p : AMM.Prices) : R :=
  match side with
  | yes => AMM.yesPrice p
  | no => AMM.noPrice p
  end.

(** The results of the engine with the two sides exchanged. *)
Definition mirrored_prices (p : AMM.Prices) : AMM.Prices :=
  {| AMM.yesPrice := AMM.noPrice p; AMM.noPrice := AMM.yesPrice p |}.

Definition mirrored_buy (r : AMM.TradeResult) : AMM.TradeResult :=
  {| AMM.sharesReceived := AMM.sharesReceived r;
     AMM.cost_ := AMM.cost_ r;
     AMM.avgPrice := AMM.avgPrice r;
     AMM.newYesShares := AMM.newNoShares r;
     AMM.newNoShares := AMM.newYesShares r;
     AMM.priceImpact := AMM.priceImpact r |}.

Definition mirrored_sell (r : AMM.SellError + AMM.SellResult)
    : AMM.SellError + AMM.SellResult :=
  match r with
  | inl AMM.NotEnoughYesShares => inl AMM.NotEnoughNoShares
  | inl AMM.NotEnoughNoShares => inl AMM.NotEnoughYesShares
  | inl AMM.InvalidSellAmount => inl AMM.InvalidSellAmount
  | inr r =>
    inr {| AMM.amountReceived := AMM.amountReceived r;
           AMM.s_avgPrice := AMM.s_avgPrice r;
           AMM.s_newYesShares := AMM.s_newNoShares r;
           AMM.s_newNoShares := AMM.s_newYesShares r;
           AMM.s_priceImpact := AMM.s_priceImpact r |}
  end.

(** *** Ledger operations in sequence *)

(** What the read of the wallet of a user gives in a world: nothing when
    the call on the client fails, else the one row of the user, if any. *)
Definition wallet_read (w : World) (userId : Id) : option Wallet.Row :=
  match faults w with
  | true :: _ => None
  | _ => lookup_wallet (db w) userId
  end.

(** The world after [n] calls on the client that wrote nothing. *)
Definition after_calls (n : nat) (w : World) : World :=
  {| db := db w; faults := skipn n (faults w) |}.

(** A call of one of the five ledger operations of the wallets service. *)
Inductive LedgerOp :=
| Deposit (amount : R)
| Withdraw (amount : R)
| DeductForTrade (amount : R) (marketId : Id)
| AddFromTrade (amount : R) (marketId : Id)
| SettlePosition (amount : R) (marketId : Id).

Definition perform (userId : Id) (op : LedgerOp) : M Wallet.Row :=
  match op with
  | Deposit amount => WalletsService.deposit userId amount
  | Withdraw amount => WalletsService.withdraw userId amount
  | DeductForTrade amount marketId =>
    WalletsService.deductForTrade userId amount marketId
  | AddFromTrade amount marketId =>
    WalletsService.addFromTrade userId amount marketId
  | SettlePosition amount marketId =>
    WalletsService.settlePosition userId amount marketId
  end.

Fixpoint perform_all (userId : Id) (ops : list LedgerOp) : M unit :=
  match ops with
  | [] => ret tt
  | op :: rest => _ <- perform userId op ;; perform_all userId rest
  end.

(** The amount of a call with its sign: positive for a credit, negative
    for a debit. *)
Definition signed_amount (op : LedgerOp) : R :=
  match op with
  | Deposit amount => amount
  | Withdraw amount => - amount
  | DeductForTrade amount _ => - amount
  | AddFromTrade amount _ => amount
  | SettlePosition amount _ => amount
  end.

Definition op_type (op : LedgerOp) : TxType :=
  match op with
  | Deposit _ => deposit_tx
  | Withdraw _ => withdraw_tx
  | DeductForTrade _ _ => trade_tx
  | AddFromTrade _ _ => trade_tx
  | SettlePosition _ _ => settlement_tx
  end.

Definition op_reference (op : LedgerOp) : option Id :=
  match op with
  | Deposit _ => None
  | Withdraw _ => None
  | DeductForTrade _ marketId => Some marketId
  | AddFromTrade _ marketId => Some marketId
  | SettlePosition _ marketId => Some marketId
  end.

(** The checks a call passes on a wallet with the given balance: those of
    the operation itself and that of the table (no negative balance). *)
Definition accepted (balance : R) (op : LedgerOp) : Prop :=
  match op with
  | Deposit amount => 0 < amount
  | Withdraw amount => 0 < amount <= balance
  | DeductForTrade amount _ => amount <= balance
  | AddFromTrade amount _ => 0 <= balance + amount
  | SettlePosition amount _ => 0 <= balance + amount
  end.

Fixpoint all_accepted (balance : R) (ops : list LedgerOp) : Prop :=
  match ops with
  | [] => True
  | op :: rest =>
    accepted balance op /\ all_accepted (balance + signed_amount op) rest
  end.

(** Ledger rows that continue one another from a given balance: each row
    starts from the balance the one before it ended on. *)
Fixpoint chained (balance : R) (rows : list WalletTransaction.Row) : Prop :=
  match rows with
  | [] => True
  | tx :: rest =>
    WalletTransaction.balance_before tx = balance
    /\ WalletTransaction.balance_after tx
       = WalletTransaction.balance_before tx + WalletTransaction.amount tx
    /\ chained (WalletTransaction.balance_after tx) rest
  end.

(** *** Markets *)

(** Between two stores only the row of market [id] differs. *)
Definition only_market_changed (s s' : Store) (id : Id) : Prop :=
  (forall id', id' <> id -> lookup_market s' id' = lookup_market s id')
  /\ wallets s' = wallets s
  /\ wallet_transactions s' = wallet_transactions s
  /\ positions s' = positions s
  /\ trades s' = trades s.

(** The market row [m] after resolveMarket at time [now]. *)
Definition resolved_row (m : Market.Row) (outcome : Side) (now : Z) : Market.Row :=
  {| Market.id := Market.id m;
     Market.status := resolved;
     Market.outcome := Some outcome;
     Market.yes_shares := Market.yes_shares m;
     Market.no_shares := Market.no_shares m;
     Market.liquidity := Market.liquidity m;
     Market.volume := Market.volume m;
     Market.start_time := Market.start_time m;
     Market.end_time := Market.end_time m;
     Market.resolved_at := Some now |}.

Definition resolvable (st : Status) : bool :=
  Status_eqb st active || Status_eqb st suspended.

(** *** Trades *)

(** The state of the engine that executeTrade reads off a market row. *)
Definition market_state (m : Market.Row) : AMM.AMMState :=
  {| AMM.yesShares := Market.yes_shares m; AMM.noShares := Market.no_shares m |}.

Definition within_window (m : Market.Row) (now : Z) : Prop :=
  (Market.start_time m <= now <= Market.end_time m)%Z.

(** The market row [m] after updateShares. *)
Definition traded_row (m : Market.Row) (yesShares noShares volumeIncrease : R)
    : Market.Row :=
  {| Market.id := Market.id m;
     Market.status := Market.status m;
     Market.outcome := Market.outcome m;
     Market.yes_shares := yesShares;
     Market.no_shares := noShares;
     Market.liquidity := Market.liquidity m;
     Market.volume := Market.volume m + volumeIncrease;
     Market.start_time := Market.start_time m;
     Market.end_time := Market.end_time m;
     Market.resolved_at := Market.resolved_at m |}.

(** The shares of a side that a user holds in a market: those of the
    user's position row, none without a row. *)
Definition held (s : Store) (userId marketId : Id) (side : Side) : R :=
  match lookup_position s userId marketId with
  | Some p => side_shares side p
  | None => 0
  end.

(** The user has no position row or one row in the market. *)
Definition one_row_at_most (s : Store) (userId marketId : Id) : Prop :=
  has_no_position s userId marketId
  \/ exists old, lookup_position s userId marketId = Some old.

(** The trade row that executeBuy inserts for a quote. *)
Definition buy_trade_row (userId : Id) (market : Market.Row)
    (dto : TradesService.ExecuteTradeDto) (shares cost avgPrice : R) : Trade.Row :=
  let buyResult :=
    AMM.calculateBuyCost (market_state market) (TradesService.side dto) shares
      (Some (Market.liquidity market)) in
  {| Trade.user_id := userId;
     Trade.market_id := Market.id market;
     Trade.type := buy;
     Trade.side := TradesService.side dto;
     Trade.shares := shares;
     Trade.price := avgPrice;
     Trade.cost := cost;
     Trade.fee := (cost * TradesService.FEE_RATE) / (1 + TradesService.FEE_RATE);
     Trade.yes_shares_before := Market.yes_shares market;
     Trade.no_shares_before := Market.no_shares market;
     Trade.yes_shares_after := AMM.newYesShares buyResult;
     Trade.no_shares_after := AMM.newNoShares buyResult |}.

(** The trade row that executeSell inserts for a sell quote. *)
Definition sell_trade_row (userId : Id) (market : Market.Row)
    (dto : TradesService.ExecuteTradeDto) (shares : R) (sellResult : AMM.SellResult)
    : Trade.Row :=
  {| Trade.user_id := userId;
     Trade.market_id := Market.id market;
     Trade.type := sell;
     Trade.side := TradesService.side dto;
     Trade.shares := shares;
     Trade.price := AMM.s_avgPrice sellResult;
     Trade.cost := AMM.amountReceived sellResult;
     Trade.fee := AMM.amountReceived sellResult / (1 - TradesService.FEE_RATE)
                  - AMM.amountReceived sellResult;
     Trade.yes_shares_before := Market.yes_shares market;
     Trade.no_shares_before := Market.no_shares market;
     Trade.yes_shares_after := AMM.s_newYesShares sellResult;
     Trade.no_shares_after := AMM.s_newNoShares sellResult |}.

(** What a completed trade of [userId] in the market of row [market]
    leaves: the balance of the user moved by [signed] with one ledger row
    of kind trade for it, the market row with the new quantities and the
    volume raised by [moved], the position row [p] of the user in the
    market, one row appended to the trade log, and nothing else
    changed. *)
Definition trade_effects (s s' : Store) (userId : Id) (wallet : Wallet.Row)
    (market : Market.Row) (signed newYes newNo moved : R) (p : Position.Row)
    (data : Trade.Row) : Prop :=
  balance_of s' userId = Some (Wallet.balance wallet + signed)
  /\ (forall u, u <> userId -> lookup_wallet s' u = lookup_wallet s u)
  /\ wallet_transactions s'
     = wallet_transactions s
       ++ [ledger_row wallet trade_tx signed (Some (Market.id market))]
  /\ lookup_market s' (Market.id market)
     = Some (traded_row market newYes newNo moved)
  /\ (forall id, id <> Market.id market -> lookup_market s' id = lookup_market s id)
  /\ lookup_position s' userId (Market.id market) = Some p
  /\ (forall u m,
        u <> userId \/ m <> Market.id market ->
        filter (PositionsService.sameUserAndMarket u m) (positions s')
        = filter (PositionsService.sameUserAndMarket u m) (positions s))
  /\ trades s' = trades s ++ [data].

(** *** What settlement may change *)

(** The wallet row [y] is the wallet row [x] with a balance that is not
    smaller. *)
Definition credited (x y : Wallet.Row) : Prop :=
  Wallet.id y = Wallet.id x
  /\ Wallet.user_id y = Wallet.user_id x
  /\ Wallet.frozen_balance y = Wallet.frozen_balance x
  /\ Wallet.balance x <= Wallet.balance y.

(** From [s] to [s'] wallets were credited and settlement rows appended to
    the ledger, and nothing else happened: the same wallets in the same
    order, none with a smaller balance; the ledger of [s] followed by rows
    of kind settlement with positive amounts; the same markets, positions
    and trades. *)
Definition credits_only (s s' : Store) : Prop :=
  markets s' = markets s
  /\ positions s' = positions s
  /\ trades s' = trades s
  /\ Forall2 credited (wallets s) (wallets s')
  /\ exists rows,
       wallet_transactions s' = wallet_transactions s ++ rows
       /\ Forall (fun tx => WalletTransaction.type tx = settlement_tx
                            /\ 0 < WalletTransaction.amount tx) rows.

(** *** Totals *)

(** The sum of a column of a table. *)
Definition total {A} (column : A -> R) (rows : list A) : R :=
  fold_right Rplus 0 (map column rows).

(** *** Exposure *)



(** Numbers in decreasing order. *)
Fixpoint descending (keys : list R) : Prop :=
  match keys with
  | [] => True
  | k :: rest => Forall (fun k' => k' <= k) rest /\ descending rest
  end.

(** *** Profit and loss *)

Definition market_trades (s : Store) (id : Id) : list Trade.Row :=
  filter (fun t => Nat.eqb (Trade.market_id t) id) (trades s).

(** What a trade brought to the market maker: the cost of a buy less its
    fee. *)
Definition bought (t : Trade.Row) : R :=
  match Trade.type t with
  | buy => Trade.cost t - Trade.fee t
  | sell => 0
  end.

(** What a trade took from the market maker: the cost column of a sell. *)
Definition sold (t : Trade.Row) : R :=
  match Trade.type t with
  | buy => 0
  | sell => Trade.cost t
  end.

(** The shares of a position that the profit and loss report counts as
    paid out for market [m]: its YES shares when the outcome of [m] is YES,
    its NO shares otherwise, also when [m] has no outcome. *)
Definition counted_shares (m : Market.Row) (p : Position.Row) : R :=
  match Market.outcome m with
  | Some yes => Position.yes_shares p
  | _ => Position.no_shares p
  end.

(** The steps of getAMMProfitLoss and what its entries hold. *)

Definition of_market (id : Id) (ts : list Trade.Row) : list Trade.Row :=
  filter (fun t => Nat.eqb (Trade.market_id t) id) ts.

(** The entries after the trades [ts]: one per market traded, holding the
    volumes of its trades. *)
Definition grouped (ts : list Trade.Row) (acc : list TradesService.MarketPnL) : Prop :=
  NoDup (map TradesService.p_marketId acc)
  /\ (forall t, In t ts -> In (Trade.market_id t) (map TradesService.p_marketId acc))
  /\ Forall (fun e =>
               TradesService.buyVolume e
               = total bought (of_market (TradesService.p_marketId e) ts)
               /\ TradesService.sellVolume e
                  = total sold (of_market (TradesService.p_marketId e) ts))
            acc
  /\ total (fun e => TradesService.buyVolume e - TradesService.sellVolume e) acc
     = total bought ts - total sold ts.

Definition setPayout (ps : list Position.Row) (m : Market.Row)
    (e : TradesService.MarketPnL) : TradesService.MarketPnL :=
  {| TradesService.p_marketId := TradesService.p_marketId e;
     TradesService.buyVolume := TradesService.buyVolume e;
     TradesService.sellVolume := TradesService.sellVolume e;
     TradesService.settlementPayout := TradesService.settlementPayoutOf ps m;
     TradesService.pnl := TradesService.pnl e |}.

(** What the loop does to one entry. *)
Definition payStep (ps : list Position.Row) (e : TradesService.MarketPnL)
    (m : Market.Row) : TradesService.MarketPnL :=
  if Nat.eqb (TradesService.p_marketId e) (Market.id m) then setPayout ps m e else e.

Definition details (rms : list Market.Row) (l : list TradesService.MarketPnL)
    : list TradesService.MarketPnL :=
  map TradesService.withPnl
      (filter (fun e => TradesService.isResolved rms (TradesService.p_marketId e)) l).

(** What the entries pushed to [marketDetails] hold. *)
Definition detail_of (s : Store) (d : TradesService.MarketPnL) : Prop :=
  TradesService.buyVolume d
  = total bought (market_trades s (TradesService.p_marketId d))
  /\ TradesService.sellVolume d
     = total sold (market_trades s (TradesService.p_marketId d))
  /\ (exists m,
        In m (markets s)
        /\ Market.id m = TradesService.p_marketId d
        /\ Market.status m = resolved
        /\ TradesService.settlementPayout d
           = total (counted_shares m)
                   (market_positions s (TradesService.p_marketId d)))
  /\ TradesService.pnl d
     = TradesService.buyVolume d - TradesService.sellVolume d
       - TradesService.settlementPayout d.

(** *** Quotes *)

(** The request for a quote asks what the trade request asks. *)
Definition same_request (q : MarketsController.QuoteDto)
    (dto : TradesService.ExecuteTradeDto) : Prop :=
  MarketsController.type q = TradesService.type dto
  /\ MarketsController.side q = TradesService.side dto
  /\ MarketsController.amount q = TradesService.amount dto
  /\ MarketsController.shares q = TradesService.shares dto.

Definition quote_shares (q : MarketsController.Quote) : R :=
  match q with
  | MarketsController.BuyForAmount _ _ shares _ => shares
  | MarketsController.BuyForShares _ shares _ _ _ => shares
  | MarketsController.SellForShares _ shares _ _ _ => shares
  end.

(** The money of a quote: the amount or the cost of a buy, the amount
    received for a sell. *)
Definition quote_money (q : MarketsController.Quote) : R :=
  match q with
  | MarketsController.BuyForAmount _ amount _ _ => amount
  | MarketsController.BuyForShares _ _ cost _ _ => cost
  | MarketsController.SellForShares _ _ amountReceived _ _ => amountReceived
  end.

Definition quote_avgPrice (q : MarketsController.Quote) : R :=
  match q with
  | MarketsController.BuyForAmount _ _ _ avgPrice => avgPrice
  | MarketsController.BuyForShares _ _ _ avgPrice _ => avgPrice
  | MarketsController.SellForShares _ _ _ avgPrice _ => avgPrice
  end.

(** *** Displayed prices *)

(** The price of a side in what getMarketWithPrices returns. *)
Definition displayed (side : Side) (x : MarketsService.MarketWithPrices) : R :=
  match side with
  | yes => MarketsService.yes_price x
  | no => MarketsService.no_price x
  end.

(** The request passes the checks of executeBuy or executeSell on the
    store: a buy has a quote of positive shares that the balance covers,
    and the user has at most one position row in the market; a sell is of
    d > 0 shares that the position of the user holds, and
    calculateSellReturn returns. *)
Definition passes_checks (s : Store) (userId : Id)
    (dto : TradesService.ExecuteTradeDto) (market : Market.Row)
    (wallet : Wallet.Row) : Prop :=
  match TradesService.type dto with
  | buy =>
    exists shares cost avgPrice,
      one_row_at_most s userId (Market.id market)
      /\ TradesService.buyQuote (market_state market) (Market.liquidity market) dto
         = Some (shares, cost, avgPrice)
      /\ 0 < shares
      /\ cost <= Wallet.balance wallet
  | sell =>
    exists old d r,
      0 <= Wallet.balance wallet
      /\ lookup_position s userId (Market.id market) = Some old
      /\ Num.truthy (TradesService.shares dto) = Some d
      /\ 0 < d
      /\ d <= side_shares (TradesService.side dto) old
      /\ AMM.calculateSellReturn (market_state market) (TradesService.side dto) d
           (Some (Market.liquidity market)) = inr r
  end.

(** *** Volume *)

(** The world of a store on which no call fails. *)
Definition undisturbed (s : Store) : World := {| db := s; faults := [] |}.

(** *** What a failed trade leaves behind *)

(** The markets table after the row of [m] took the quantities [y] and [n]
    and a volume larger by [v]. *)
Definition traded_markets (s : Store) (m : Market.Row) (y n v : R)
    : list Market.Row :=
  map (fun x => if Nat.eqb (Market.id x) (Market.id m)
                then traded_row m y n v else x)
      (markets s).

(** What each of the three steps leaves alone. *)
Definition keeps_markets_positions (s s' : Store) : Prop :=
  markets s' = markets s /\ positions s' = positions s.

Definition keeps_wallets_positions (s s' : Store) : Prop :=
  wallets s' = wallets s /\ positions s' = positions s.

Definition keeps_wallets_markets (s s' : Store) : Prop :=
  wallets s' = wallets s /\ markets s' = markets s.

(** [stopped w w' e ...]: the four steps of a trade (wallet step, market
    step, position step, insert of the trade row [data]), run in sequence
    from the world [w], threw [e] and left the world [w'].  Either the
    wallet step threw and the store is as before; or it returned, the
    balance of the user moved by [signed] and stays so in [w'], and the
    market step threw, leaving markets and positions as before; or that
    one returned too, the market row has the quantities [y], [n] and a
    volume raised by [v] in [w'], and the position step threw, leaving
    the positions as before; or that one also returned, the row it
    returned is in the positions of [w'], and the insert of the trade row
    threw. *)
Definition stopped (w w' : World) (e : Exception) (userId marketId : Id)
    (signed y n v : R) (walletStep : M Wallet.Row) (marketStep : M Market.Row)
    (positionStep : M Position.Row) (data : Trade.Row) : Prop :=
  (walletStep w = (Throw e, w') /\ db w' = db w)
  \/ exists r3 w3 wallet,
       walletStep w = (Ok r3, w3)
       /\ lookup_wallet (db w) userId = Some wallet
       /\ wallets (db w') = moved_wallets (db w) wallet signed
       /\ ((marketStep w3 = (Throw e, w')
            /\ db w' = db w3
            /\ markets (db w') = markets (db w)
            /\ positions (db w') = positions (db w))
           \/ exists r4 w4 m,
                marketStep w3 = (Ok r4, w4)
                /\ lookup_market (db w) marketId = Some m
                /\ markets (db w') = traded_markets (db w) m y n v
                /\ ((positionStep w4 = (Throw e, w')
                     /\ db w' = db w4
                     /\ positions (db w') = positions (db w))
                    \/ exists r5 w5,
                         positionStep w4 = (Ok r5, w5)
                         /\ TradesService.recordTrade data w5 = (Throw e, w')
                         /\ db w' = db w5
                         /\ In r5 (positions (db w')))).

(** ** Running the monad *)

Module Run.

(** Takes the branch of every comparison of reals that the hypotheses
    decide. *)
Ltac resolve_comparisons :=
  repeat match goal with
  | |- context [Req_EM_T ?a ?b] =>
      destruct (Req_EM_T a b) as [?|?]; [exfalso; lra|]
  | |- context [Rlt_dec ?a ?b] =>
      destruct (Rlt_dec a b) as [?|?]; [exfalso; lra|]
  | |- context [Rle_dec ?a ?b] =>
      destruct (Rle_dec a b) as [?|?]; [exfalso; lra|]
  end.

(** Evaluates a service on a concrete world, taking the decided branch of
    the comparisons of reals that block the evaluation. *)
Ltac run_concrete :=
  repeat (cbn -[IZR Rminus Rplus Rmult Rdiv Ropp];
          progress resolve_comparisons);
  cbn -[IZR Rminus Rplus Rmult Rdiv Ropp].

Lemma db_call_healthy w : healthy w -> db_call w = (Ok false, w).
Proof. unfold healthy, db_call. intros ->. reflexivity. Qed.

Lemma query_healthy {A} (read : Store -> option A) w :
  healthy w -> query read w = (Ok (read (db w)), w).
Proof.
  intros H. unfold query, bind. rewrite (db_call_healthy w H). reflexivity.
Qed.

Lemma mutate_healthy {A} (write : Store -> option (A * Store)) w :
  healthy w ->
  mutate write w =
    match write (db w) with
    | Some (a, s') => (Ok (Some a), {| db := s'; faults := [] |})
    | None => (Ok None, w)
    end.
Proof.
  intros H. unfold mutate, bind. rewrite (db_call_healthy w H).
  destruct (write (db w)) as [[a s']|]; [rewrite H|]; reflexivity.
Qed.

(** A query never writes. *)
Lemma query_db {A} (read : Store -> option A) w r w' :
  query read w = (r, w') -> db w' = db w.
Proof.
  unfold query, bind, db_call, ret.
  destruct (faults w) as [|[] fs]; intros E; inversion E; reflexivity.
Qed.

(** Updating the rows selected by [p] with a function that keeps them
    selected: the selection of the new table is the old one, updated. *)
Lemma filter_update_same {A} (p : A -> bool) (g : A -> A) rows :
  (forall x, p (g x) = p x) ->
  filter p (map (fun x => if p x then g x else x) rows)
  = map g (filter p rows).
Proof.
  intros Hg. induction rows as [|x rows IH]; [reflexivity|].
  cbn [map filter]. destruct (p x) eqn:E.
  - rewrite Hg, E. cbn [map]. f_equal. apply IH.
  - rewrite E. apply IH.
Qed.

Lemma filter_map_commute {A} (p : A -> bool) (g : A -> A) rows :
  (forall x, p (g x) = p x) ->
  filter p (map g rows) = map g (filter p rows).
Proof.
  intros Hg. induction rows as [|x rows IH]; [reflexivity|].
  cbn [map filter]. rewrite Hg. destruct (p x); cbn [map]; rewrite IH; reflexivity.
Qed.

Lemma update_single_found {A} (p : A -> bool) (f : A -> A) rows r :
  single (filter p rows) = Some r ->
  update_single p f rows
  = Some (f r, map (fun x => if p x then f x else x) rows).
Proof. unfold update_single. intros ->. reflexivity. Qed.

Lemma query_at {A} (read : Store -> option A) w f fs :
  faults w = f :: fs ->
  query read w
  = (Ok (if f then None else read (db w)), {| db := db w; faults := fs |}).
Proof.
  intros H. unfold query, bind, db_call. rewrite H. destruct f; reflexivity.
Qed.

Lemma mutate_at {A} (write : Store -> option (A * Store)) w f fs :
  faults w = f :: fs ->
  mutate write w =
    if f then (Ok None, {| db := db w; faults := fs |})
    else match write (db w) with
         | Some (a, s') => (Ok (Some a), {| db := s'; faults := fs |})
         | None => (Ok None, {| db := db w; faults := fs |})
         end.
Proof.
  intros H. unfold mutate, bind, db_call. rewrite H.
  destruct f; [reflexivity|]. cbn.
  destruct (write (db w)) as [[a s']|]; reflexivity.
Qed.

(** A failed or refused write leaves the database as it was. *)
Lemma mutate_none_db {A} (write : Store -> option (A * Store)) w w' :
  mutate write w = (Ok None, w') -> db w' = db w.
Proof.
  unfold mutate, bind, db_call, ret.
  destruct (faults w) as [|[] fs]; cbn;
    try destruct (write (db w)) as [[a s']|]; intros E; inversion E; reflexivity.
Qed.

Lemma bind_inv {A B} (m : M A) (k : A -> M B) w r w' :
  bind m k w = (r, w') ->
  (exists a w1, m w = (Ok a, w1) /\ k a w1 = (r, w'))
  \/ (exists e, m w = (Throw e, w') /\ r = Throw e).
Proof.
  unfold bind. destruct (m w) as [[a|e] w1]; intros E.
  - left. exists a, w1. split; [reflexivity|exact E].
  - right. exists e. inversion E; subst. split; reflexivity.
Qed.

Lemma query_inv {A} (read : Store -> option A) w r w' :
  query read w = (r, w') -> db w' = db w /\ exists o, r = Ok o.
Proof.
  unfold query, bind, db_call, ret.
  destruct (faults w) as [|[] fs]; intros E; inversion E; subst;
    (split; [reflexivity|eexists; reflexivity]).
Qed.

(** What a read returns: nothing when the call fails, else what the
    store holds. *)
Lemma query_result {A} (read : Store -> option A) w r w' :
  query read w = (r, w') -> r = Ok None \/ r = Ok (read (db w)).
Proof.
  unfold query, bind, db_call, ret.
  destruct (faults w) as [|[] fs]; intros E; inversion E; subst; auto.
Qed.

Lemma mutate_inv {A} (write : Store -> option (A * Store)) w r w' :
  mutate write w = (r, w') ->
  (r = Ok None /\ db w' = db w)
  \/ (exists a, r = Ok (Some a) /\ write (db w) = Some (a, db w')).
Proof.
  unfold mutate, bind, db_call, ret.
  destruct (faults w) as [|[] fs]; cbn;
    try destruct (write (db w)) as [[a s']|] eqn:W; intros E; inversion E; subst;
    try (left; split; reflexivity);
    right; exists a; split; reflexivity.
Qed.

(** *** Combinators for the three properties of services *)

Lemma read_only_query {A} (read : Store -> option A) : read_only (query read).
Proof. intros w r w' E. apply (query_db read w r w' E). Qed.

Lemma never_throws_query {A} (read : Store -> option A) : never_throws (query read).
Proof.
  intros w e w' E. destruct (query_inv read w _ w' E) as [_ [o Ho]]. discriminate.
Qed.

Lemma never_throws_mutate {A} (write : Store -> option (A * Store)) :
  never_throws (mutate write).
Proof.
  intros w e w' E.
  destruct (mutate_inv write w _ w' E) as [[H _]|[a [H _]]]; discriminate.
Qed.

Lemma never_throws_ret {A} (a : A) : never_throws (ret a).
Proof. intros w e w' E. discriminate. Qed.

Lemma never_throws_bind {A B} (m : M A) (k : A -> M B) :
  never_throws m -> (forall a, never_throws (k a)) -> never_throws (bind m k).
Proof.
  intros Hm Hk w e w' E.
  destruct (bind_inv m k w _ w' E) as [(a & w1 & E1 & E2)|(e' & E1 & _)].
  - exact (Hk a w1 e w' E2).
  - exact (Hm w e' w' E1).
Qed.

Lemma fails_clean_throw {A} (e : Exception) : fails_clean (@throw A e).
Proof. intros w e' w' E. inversion E. reflexivity. Qed.

Lemma fails_clean_never {A} (m : M A) : never_throws m -> fails_clean m.
Proof. intros H w e w' E. exfalso. exact (H w e w' E). Qed.

(** A read, then a service that is clean. *)
Lemma fails_clean_after_read {A B} (m : M A) (k : A -> M B) :
  read_only m -> (forall a, fails_clean (k a)) -> fails_clean (bind m k).
Proof.
  intros Hm Hk w e w' E.
  destruct (bind_inv m k w _ w' E) as [(a & w1 & E1 & E2)|(e' & E1 & _)].
  - rewrite (Hk a w1 e w' E2). exact (Hm w _ w1 E1).
  - exact (Hm w _ w' E1).
Qed.

(** A write whose refusal throws and whose success is followed by a
    service that does not throw. *)
Lemma fails_clean_write {A B} (write : Store -> option (A * Store))
    (e : Exception) (k : A -> M B) :
  (forall a, never_throws (k a)) ->
  fails_clean (bind (mutate write)
                 (fun data => match data with
                              | None => throw e
                              | Some a => k a
                              end)).
Proof.
  intros Hk w e' w' E.
  destruct (bind_inv _ _ w _ w' E) as [(o & w1 & E1 & E2)|(e1 & E1 & _)].
  - destruct (mutate_inv write w _ w1 E1) as [[Ho Hdb]|[a [Ho _]]];
      inversion Ho; subst.
    + inversion E2; subst. exact Hdb.
    + exfalso. exact (Hk a w1 e' w' E2).
  - exfalso. exact (never_throws_mutate write w e1 w' E1).
Qed.

Section Frames.

Variable Q : Store -> Store -> Prop.
Hypothesis Q_refl : forall s, Q s s.
Hypothesis Q_trans : forall s1 s2 s3, Q s1 s2 -> Q s2 s3 -> Q s1 s3.

Lemma frames_ret {A} (a : A) : frames Q (ret a).
Proof. intros w r w' E. inversion E. apply Q_refl. Qed.

Lemma frames_throw {A} (e : Exception) : frames Q (@throw A e).
Proof. intros w r w' E. inversion E. apply Q_refl. Qed.

Lemma frames_query {A} (read : Store -> option A) : frames Q (query read).
Proof. intros w r w' E. rewrite (query_db read w r w' E). apply Q_refl. Qed.

Lemma frames_mutate {A} (write : Store -> option (A * Store)) :
  (forall s a s', write s = Some (a, s') -> Q s s') -> frames Q (mutate write).
Proof.
  intros Hw w r w' E.
  destruct (mutate_inv write w r w' E) as [[_ Hdb]|[a [_ Hs]]].
  - rewrite Hdb. apply Q_refl.
  - exact (Hw _ _ _ Hs).
Qed.

Lemma frames_bind {A B} (m : M A) (k : A -> M B) :
  frames Q m -> (forall a, frames Q (k a)) -> frames Q (bind m k).
Proof.
  intros Hm Hk w r w' E.
  destruct (bind_inv m k w r w' E) as [(a & w1 & E1 & E2)|(e & E1 & _)].
  - exact (Q_trans _ _ _ (Hm w _ w1 E1) (Hk a w1 r w' E2)).
  - exact (Hm w _ w' E1).
Qed.

End Frames.

End Run.

(** ** Market lifecycle (markets.service.ts, updateStatus) *)

Module LifecycleProofs.

(** The table of updateStatus is the lifecycle of the specification. *)
Lemma validTransitions_lifecycle from to :
  MarketsService.includes (MarketsService.validTransitions from) to
  = lifecycle_allows from to.
Proof. destruct from, to; reflexivity. Qed.

Lemma updateStatus_rejected w id market status :
  healthy w ->
  lookup_market (db w) id = Some market ->
  lifecycle_allows (Market.status market) status = false ->
  MarketsService.updateStatus id status w
  = (Throw (BadRequestException (CannotTransition (Market.status market) status)), w).
Proof.
  intros Hw Hm Hno.
  unfold MarketsService.updateStatus, MarketsService.findById, bind.
  rewrite (Run.query_healthy _ w Hw).
  fold (lookup_market (db w) id). rewrite Hm.
  rewrite validTransitions_lifecycle, Hno. reflexivity.
Qed.

Lemma updateStatus_accepted w id market status :
  healthy w ->
  lookup_market (db w) id = Some market ->
  lifecycle_allows (Market.status market) status = true ->
  exists row w',
    MarketsService.updateStatus id status w = (Ok row, w')
    /\ Market.status row = status
    /\ lookup_market (db w') id = Some row.
Proof.
  intros Hw Hm Hyes.
  unfold MarketsService.updateStatus, MarketsService.findById, bind.
  rewrite (Run.query_healthy _ w Hw).
  fold (lookup_market (db w) id). rewrite Hm.
  rewrite validTransitions_lifecycle, Hyes. cbn [negb].
  unfold MarketsService.updateRow.
  rewrite (Run.mutate_healthy _ w Hw).
  unfold lookup_market in Hm.
  rewrite (Run.update_single_found _ _ _ _ Hm).
  eexists. eexists. split; [reflexivity|]. split; [reflexivity|].
  unfold lookup_market. cbn [db with_markets markets].
  rewrite (Run.filter_update_same (fun m => Nat.eqb (Market.id m) id))
    by reflexivity.
  destruct (filter (fun m => Nat.eqb (Market.id m) id) (markets (db w)))
    as [|r [|r' rest]]; cbn in Hm; try discriminate.
  inversion Hm; subst. reflexivity.
Qed.

End LifecycleProofs.

(** C5.  For a market that exists, on a healthy store, updateStatus
    succeeds exactly when (current status, requested status) is one of the
    eight arrows draft->active, draft->cancelled, active->suspended,
    active->resolved, active->cancelled, suspended->active,
    suspended->resolved, suspended->cancelled.  On success the stored
    market carries the requested status.  Every other request (so every
    move out of resolved or cancelled) throws the BadRequestException of
    the transition check, of kind InvalidTransition, and the world (so the
    market's status) is left as it was. *)
Theorem updateStatus_lifecycle :
  forall (w : World) (id : Id) (market : Market.Row) (status : Status),
    healthy w ->
    lookup_market (db w) id = Some market ->
    ((exists row w', MarketsService.updateStatus id status w = (Ok row, w'))
       <-> In (Market.status market, status) lifecycle_arrows)
    /\ (In (Market.status market, status) lifecycle_arrows ->
        exists row w',
          MarketsService.updateStatus id status w = (Ok row, w')
          /\ Market.status row = status
          /\ lookup_market (db w') id = Some row)
    /\ (~ In (Market.status market, status) lifecycle_arrows ->
        let e := BadRequestException
                   (CannotTransition (Market.status market) status) in
        MarketsService.updateStatus id status w = (Throw e, w)
        /\ error_kind e = KInvalidTransition
        /\ lookup_market (db w) id = Some market).
Proof.
  intros w id market status Hw Hm.
  assert (Hdec : In (Market.status market, status) lifecycle_arrows
                 <-> lifecycle_allows (Market.status market) status = true).
  { destruct (Market.status market), status; cbn; split; intros H;
      try reflexivity; try discriminate;
      repeat (destruct H as [H|H]; try discriminate H); try contradiction;
      tauto. }
  split; [|split].
  - split.
    + intros (row & w' & E).
      destruct (lifecycle_allows (Market.status market) status) eqn:Ha.
      * apply Hdec. reflexivity.
      * rewrite (LifecycleProofs.updateStatus_rejected w id market status Hw Hm Ha) in E.
        discriminate E.
    + intros Hin. apply Hdec in Hin.
      destruct (LifecycleProofs.updateStatus_accepted w id market status Hw Hm Hin)
        as (row & w' & E & _).
      exists row, w'. exact E.
  - intros Hin. apply Hdec in Hin.
    exact (LifecycleProofs.updateStatus_accepted w id market status Hw Hm Hin).
  - intros Hnot.
    assert (Ha : lifecycle_allows (Market.status market) status = false).
    { destruct (lifecycle_allows (Market.status market) status) eqn:Ha; [|reflexivity].
      exfalso. apply Hnot, Hdec. reflexivity. }
    cbv zeta.
    split; [apply (LifecycleProofs.updateStatus_rejected w id market status Hw Hm Ha)|].
    split; [reflexivity|exact Hm].
Qed.

Lemma updateStatus_lifecycle_witness :
  let w := {| db := Sample.fresh; faults := [] |} in
  healthy w
  /\ lookup_market (db w) 3%nat = Some (Sample.market3 active None 0 0)
  /\ exists row w',
       MarketsService.updateStatus 3%nat suspended w = (Ok row, w')
       /\ Market.status row = suspended.
Proof.
  cbv zeta.
  split; [reflexivity|]. split; [reflexivity|].
  destruct (updateStatus_lifecycle
              {| db := Sample.fresh; faults := [] |} 3%nat
              (Sample.market3 active None 0 0) suspended
              eq_refl eq_refl) as (_ & Hok & _).
  destruct Hok as (row & w' & E & Hs & _).
  - cbn. tauto.
  - exists row, w'. split; assumption.
Defined.

(** ** Wallet ledger (wallets.service.ts) *)

Module WalletProofs.

Lemma single_inv {A} (l : list A) x : single l = Some x -> l = [x].
Proof. destruct l as [|a [|b l]]; cbn; intros E; inversion E; reflexivity. Qed.

Lemma lookup_wallet_In s u wl :
  lookup_wallet s u = Some wl -> In wl (wallets s) /\ Wallet.user_id wl = u.
Proof.
  intros H. apply single_inv in H.
  assert (Hin : In wl (filter (fun w => Nat.eqb (Wallet.user_id w) u) (wallets s)))
    by (rewrite H; left; reflexivity).
  apply filter_In in Hin. destruct Hin as [Hin He].
  split; [exact Hin|]. apply Nat.eqb_eq. exact He.
Qed.

(** Under a key, the rows with the key of a row of the table are that row. *)
Lemma filter_key {A} (key : A -> nat) (rows : list A) x :
  NoDup (map key rows) -> In x rows ->
  filter (fun y => Nat.eqb (key y) (key x)) rows = [x].
Proof.
  induction rows as [|a rows IH]; intros Hnd Hin; [destruct Hin|].
  cbn [map] in Hnd. inversion Hnd as [|k ks Hnotin Hnd']; subst.
  cbn [filter]. destruct Hin as [->|Hin].
  - rewrite Nat.eqb_refl. f_equal.
    clear IH Hnd Hnd'. induction rows as [|b rows IH]; [reflexivity|].
    cbn [filter]. destruct (Nat.eqb (key b) (key x)) eqn:E.
    + exfalso. apply Hnotin. apply Nat.eqb_eq in E. rewrite <- E.
      cbn [map]. left. reflexivity.
    + apply IH. intros H. apply Hnotin. cbn [map]. right. exact H.
  - destruct (Nat.eqb (key a) (key x)) eqn:E.
    + exfalso. apply Hnotin. apply Nat.eqb_eq in E. rewrite E.
      apply in_map. exact Hin.
    + apply IH; assumption.
Qed.

Lemma wallet_by_id s u wl :
  wallet_ids_unique s -> lookup_wallet s u = Some wl ->
  single (filter (fun w => Nat.eqb (Wallet.id w) (Wallet.id wl)) (wallets s))
  = Some wl.
Proof.
  intros Hu Hl. apply lookup_wallet_In in Hl. destruct Hl as [Hin _].
  rewrite (filter_key Wallet.id (wallets s) wl Hu Hin). reflexivity.
Qed.

(** The five ledger operations share one run on a healthy world: the
    wallet is read, its balance replaced, and the row appended. *)
Ltac run_ledger Hw Hu Hl :=
  unfold WalletsService.findByUserId, bind;
  rewrite (Run.query_healthy _ _ Hw);
  let H := fresh in
  (pose proof Hl as H; unfold lookup_wallet in H; rewrite H; clear H);
  Run.resolve_comparisons;
  unfold WalletsService.updateBalance;
  rewrite (Run.mutate_healthy _ _ Hw);
  Run.resolve_comparisons;
  rewrite (Run.update_single_found _ _ _ _ (wallet_by_id _ _ _ Hu Hl));
  unfold WalletsService.recordTransaction, bind;
  rewrite Run.mutate_healthy by reflexivity;
  reflexivity.

Section Healthy.

Variables (w : World) (userId : Id) (wallet : Wallet.Row).
Hypothesis Hw : healthy w.
Hypothesis Hu : wallet_ids_unique (db w).
Hypothesis Hl : lookup_wallet (db w) userId = Some wallet.

Lemma deposit_run amount :
  0 < amount -> 0 <= Wallet.balance wallet ->
  WalletsService.deposit userId amount w
  = (Ok (set_balance (Wallet.balance wallet + amount) wallet),
     {| db := posted (db w) wallet deposit_tx amount None; faults := [] |}).
Proof.
  intros Ha H0. unfold WalletsService.deposit.
  destruct (Rle_dec amount 0) as [?|_]; [exfalso; lra|].
  run_ledger Hw Hu Hl.
Qed.

Lemma withdraw_run amount :
  0 < amount -> amount <= Wallet.balance wallet ->
  WalletsService.withdraw userId amount w
  = (Ok (set_balance (Wallet.balance wallet + - amount) wallet),
     {| db := posted (db w) wallet withdraw_tx (- amount) None; faults := [] |}).
Proof.
  intros Ha Hb. unfold WalletsService.withdraw.
  destruct (Rle_dec amount 0) as [?|_]; [exfalso; lra|].
  run_ledger Hw Hu Hl.
Qed.

Lemma deductForTrade_run amount marketId :
  amount <= Wallet.balance wallet ->
  WalletsService.deductForTrade userId amount marketId w
  = (Ok (set_balance (Wallet.balance wallet + - amount) wallet),
     {| db := posted (db w) wallet trade_tx (- amount) (Some marketId);
        faults := [] |}).
Proof.
  intros Hb. unfold WalletsService.deductForTrade. run_ledger Hw Hu Hl.
Qed.

Lemma addFromTrade_run amount marketId :
  0 <= Wallet.balance wallet + amount ->
  WalletsService.addFromTrade userId amount marketId w
  = (Ok (set_balance (Wallet.balance wallet + amount) wallet),
     {| db := posted (db w) wallet trade_tx amount (Some marketId);
        faults := [] |}).
Proof. intros H0. unfold WalletsService.addFromTrade. run_ledger Hw Hu Hl. Qed.

Lemma settlePosition_run amount marketId :
  0 <= Wallet.balance wallet + amount ->
  WalletsService.settlePosition userId amount marketId w
  = (Ok (set_balance (Wallet.balance wallet + amount) wallet),
     {| db := posted (db w) wallet settlement_tx amount (Some marketId);
        faults := [] |}).
Proof. intros H0. unfold WalletsService.settlePosition. run_ledger Hw Hu Hl. Qed.

(** A debit larger than the balance is refused before anything is written. *)
Lemma withdraw_refused amount :
  Wallet.balance wallet < amount -> 0 < amount ->
  WalletsService.withdraw userId amount w
  = (Throw (BadRequestException InsufficientBalance), w).
Proof.
  intros Hb Ha. unfold WalletsService.withdraw.
  destruct (Rle_dec amount 0) as [?|_]; [exfalso; lra|].
  unfold WalletsService.findByUserId, bind.
  rewrite (Run.query_healthy _ _ Hw).
  pose proof Hl as H; unfold lookup_wallet in H; rewrite H; clear H.
  destruct (Rlt_dec (Wallet.balance wallet) amount); [reflexivity|exfalso; lra].
Qed.

Lemma deductForTrade_refused amount marketId :
  Wallet.balance wallet < amount ->
  WalletsService.deductForTrade userId amount marketId w
  = (Throw (BadRequestException InsufficientBalance), w).
Proof.
  intros Hb. unfold WalletsService.deductForTrade.
  unfold WalletsService.findByUserId, bind.
  rewrite (Run.query_healthy _ _ Hw).
  pose proof Hl as H; unfold lookup_wallet in H; rewrite H; clear H.
  destruct (Rlt_dec (Wallet.balance wallet) amount); [reflexivity|exfalso; lra].
Qed.

End Healthy.

(** The same run when the insert of the ledger row is rejected: the
    error is logged and the operation carries on. *)
Ltac run_unlogged Hf Hu Hl :=
  unfold WalletsService.findByUserId, bind;
  rewrite (Run.query_at _ _ false _ Hf); cbv iota;
  let H := fresh in
  (pose proof Hl as H; unfold lookup_wallet in H; rewrite H; clear H);
  Run.resolve_comparisons;
  unfold WalletsService.updateBalance;
  erewrite Run.mutate_at by reflexivity; cbv iota; cbn [db];
  Run.resolve_comparisons;
  rewrite (Run.update_single_found _ _ _ _ (wallet_by_id _ _ _ Hu Hl));
  unfold WalletsService.recordTransaction, bind;
  erewrite Run.mutate_at by reflexivity;
  reflexivity.

Section Unlogged.

Variables (w : World) (fs : list bool) (userId : Id) (wallet : Wallet.Row).
Hypothesis Hf : faults w = false :: false :: true :: fs.
Hypothesis Hu : wallet_ids_unique (db w).
Hypothesis Hl : lookup_wallet (db w) userId = Some wallet.

Lemma deposit_unlogged amount :
  0 < amount -> 0 <= Wallet.balance wallet ->
  WalletsService.deposit userId amount w
  = (Ok (set_balance (Wallet.balance wallet + amount) wallet),
     {| db := with_wallets (db w) (moved_wallets (db w) wallet amount);
        faults := fs |}).
Proof.
  intros Ha H0. unfold WalletsService.deposit.
  destruct (Rle_dec amount 0) as [?|_]; [exfalso; lra|].
  run_unlogged Hf Hu Hl.
Qed.

Lemma withdraw_unlogged amount :
  0 < amount -> amount <= Wallet.balance wallet ->
  WalletsService.withdraw userId amount w
  = (Ok (set_balance (Wallet.balance wallet + - amount) wallet),
     {| db := with_wallets (db w) (moved_wallets (db w) wallet (- amount));
        faults := fs |}).
Proof.
  intros Ha Hb. unfold WalletsService.withdraw.
  destruct (Rle_dec amount 0) as [?|_]; [exfalso; lra|].
  run_unlogged Hf Hu Hl.
Qed.

Lemma deductForTrade_unlogged amount marketId :
  amount <= Wallet.balance wallet ->
  WalletsService.deductForTrade userId amount marketId w
  = (Ok (set_balance (Wallet.balance wallet + - amount) wallet),
     {| db := with_wallets (db w) (moved_wallets (db w) wallet (- amount));
        faults := fs |}).
Proof.
  intros Hb. unfold WalletsService.deductForTrade. run_unlogged Hf Hu Hl.
Qed.

Lemma addFromTrade_unlogged amount marketId :
  0 <= Wallet.balance wallet + amount ->
  WalletsService.addFromTrade userId amount marketId w
  = (Ok (set_balance (Wallet.balance wallet + amount) wallet),
     {| db := with_wallets (db w) (moved_wallets (db w) wallet amount);
        faults := fs |}).
Proof. intros H0. unfold WalletsService.addFromTrade. run_unlogged Hf Hu Hl. Qed.

Lemma settlePosition_unlogged amount marketId :
  0 <= Wallet.balance wallet + amount ->
  WalletsService.settlePosition userId amount marketId w
  = (Ok (set_balance (Wallet.balance wallet + amount) wallet),
     {| db := with_wallets (db w) (moved_wallets (db w) wallet amount);
        faults := fs |}).
Proof.
  intros H0. unfold WalletsService.settlePosition. run_unlogged Hf Hu Hl.
Qed.

End Unlogged.

(** Rows of a keyed table with the same key are the same row. *)
Lemma key_injective {A} (key : A -> nat) (rows : list A) x y :
  NoDup (map key rows) -> In x rows -> In y rows -> key y = key x -> y = x.
Proof.
  intros Hnd Hx Hy E.
  assert (Hin : In y (filter (fun z => Nat.eqb (key z) (key x)) rows)).
  { apply filter_In. split; [exact Hy|]. apply Nat.eqb_eq. exact E. }
  rewrite (filter_key key rows x Hnd Hx) in Hin.
  destruct Hin as [H|[]]. symmetry. exact H.
Qed.

Lemma moved_wallets_ids s wallet signed :
  map Wallet.id (moved_wallets s wallet signed) = map Wallet.id (wallets s).
Proof.
  unfold moved_wallets. rewrite map_map. apply map_ext.
  intros x. destruct (Nat.eqb (Wallet.id x) (Wallet.id wallet)); reflexivity.
Qed.

Lemma lookup_moved_same s u wallet signed :
  lookup_wallet s u = Some wallet ->
  single (filter (fun x => Nat.eqb (Wallet.user_id x) u)
                 (moved_wallets s wallet signed))
  = Some (set_balance (Wallet.balance wallet + signed) wallet).
Proof.
  intros Hl. unfold moved_wallets.
  rewrite Run.filter_map_commute.
  - apply single_inv in Hl. rewrite Hl. cbn [map].
    rewrite Nat.eqb_refl. reflexivity.
  - intros x. destruct (Nat.eqb (Wallet.id x) (Wallet.id wallet)); reflexivity.
Qed.

Lemma lookup_moved_other s u u' wallet signed :
  wallet_ids_unique s ->
  lookup_wallet s u = Some wallet -> u' <> u ->
  single (filter (fun x => Nat.eqb (Wallet.user_id x) u')
                 (moved_wallets s wallet signed))
  = lookup_wallet s u'.
Proof.
  intros Hu Hl Hne. unfold moved_wallets, lookup_wallet.
  rewrite Run.filter_map_commute.
  - f_equal. rewrite <- (map_id (filter _ (wallets s))) at 2.
    apply map_ext_in. intros x Hx. apply filter_In in Hx. destruct Hx as [Hx Hux].
    destruct (Nat.eqb (Wallet.id x) (Wallet.id wallet)) eqn:E; [|reflexivity].
    exfalso. apply Hne. apply Nat.eqb_eq in E, Hux.
    apply (lookup_wallet_In s u wallet) in Hl. destruct Hl as [Hin Hu0].
    rewrite (key_injective Wallet.id (wallets s) wallet x Hu Hin Hx E) in Hux.
    congruence.
  - intros x. destruct (Nat.eqb (Wallet.id x) (Wallet.id wallet)); reflexivity.
Qed.

Lemma balance_posted_same s u wallet ty signed ref :
  lookup_wallet s u = Some wallet ->
  balance_of (posted s wallet ty signed ref) u
  = Some (Wallet.balance wallet + signed).
Proof.
  intros Hl. unfold balance_of, lookup_wallet, posted.
  cbn [wallets with_wallet_transactions with_wallets].
  rewrite (lookup_moved_same s u wallet signed Hl). reflexivity.
Qed.

Lemma lookup_posted_other s u u' wallet ty signed ref :
  wallet_ids_unique s ->
  lookup_wallet s u = Some wallet -> u' <> u ->
  lookup_wallet (posted s wallet ty signed ref) u' = lookup_wallet s u'.
Proof.
  intros Hu Hl Hne. unfold lookup_wallet at 1, posted.
  cbn [wallets with_wallet_transactions with_wallets].
  apply (lookup_moved_other s u u' wallet signed); assumption.
Qed.

Lemma posted_unique s wallet ty signed ref :
  wallet_ids_unique s -> wallet_ids_unique (posted s wallet ty signed ref).
Proof.
  unfold wallet_ids_unique, posted.
  cbn [wallets with_wallet_transactions with_wallets].
  rewrite moved_wallets_ids. trivial.
Qed.

Lemma posted_posts_one_row w u wallet ty signed ref row :
  lookup_wallet (db w) u = Some wallet ->
  posts_one_row w u wallet ty signed ref
    (Ok row, {| db := posted (db w) wallet ty signed ref; faults := [] |}).
Proof.
  intros Hl.
  exists row, {| db := posted (db w) wallet ty signed ref; faults := [] |},
         (ledger_row wallet ty signed ref).
  split; [reflexivity|]. split.
  - cbn [db]. apply balance_posted_same. exact Hl.
  - cbn. repeat split; reflexivity.
Qed.

Lemma moved_posts_no_row w u wallet signed row fs :
  lookup_wallet (db w) u = Some wallet ->
  posts_no_row w u wallet signed
    (Ok row, {| db := with_wallets (db w) (moved_wallets (db w) wallet signed);
                faults := fs |}).
Proof.
  intros Hl. eexists. eexists. split; [reflexivity|]. split; [|reflexivity].
  cbn [db]. unfold balance_of, lookup_wallet. cbn [wallets with_wallets].
  rewrite (lookup_moved_same (db w) u wallet signed Hl). reflexivity.
Qed.

End WalletProofs.

(** C6, as amended.  On a healthy store with unique wallet ids and no
    negative balance, each of deposit, withdraw, deductForTrade,
    addFromTrade and settlePosition, run on an existing wallet, moves the
    balance by the signed amount (positive for the credits, negative for
    the debits) and appends exactly one ledger row with balance_before the
    old balance, balance_after the new one and balance_after =
    balance_before + amount; a debit (withdraw, deductForTrade) larger than
    the balance is refused with InsufficientFunds and the world is
    unchanged.  Where the read and the update succeed and the insert of the
    ledger row is rejected, each of the five operations still succeeds and
    moves the balance, and the ledger is left without the row. *)
Theorem ledger_operations_post_one_row :
  forall (w : World) (userId marketId : Id) (wallet : Wallet.Row) (amount : R),
    healthy w ->
    wallet_ids_unique (db w) ->
    lookup_wallet (db w) userId = Some wallet ->
    0 <= Wallet.balance wallet ->
    (0 < amount ->
       posts_one_row w userId wallet deposit_tx amount None
         (WalletsService.deposit userId amount w))
    /\ (0 < amount <= Wallet.balance wallet ->
       posts_one_row w userId wallet withdraw_tx (- amount) None
         (WalletsService.withdraw userId amount w))
    /\ (amount <= Wallet.balance wallet ->
       posts_one_row w userId wallet trade_tx (- amount) (Some marketId)
         (WalletsService.deductForTrade userId amount marketId w))
    /\ (0 <= amount ->
       posts_one_row w userId wallet trade_tx amount (Some marketId)
         (WalletsService.addFromTrade userId amount marketId w))
    /\ (0 <= amount ->
       posts_one_row w userId wallet settlement_tx amount (Some marketId)
         (WalletsService.settlePosition userId amount marketId w))
    /\ (Wallet.balance wallet < amount ->
       (0 < amount ->
          refused w KInsufficientFunds (WalletsService.withdraw userId amount w))
       /\ refused w KInsufficientFunds
            (WalletsService.deductForTrade userId amount marketId w))
    /\ (forall w0 : World,
         ledger_insert_rejected w0 ->
         wallet_ids_unique (db w0) ->
         lookup_wallet (db w0) userId = Some wallet ->
         (0 < amount ->
            posts_no_row w0 userId wallet amount
              (WalletsService.deposit userId amount w0))
         /\ (0 < amount <= Wallet.balance wallet ->
            posts_no_row w0 userId wallet (- amount)
              (WalletsService.withdraw userId amount w0))
         /\ (amount <= Wallet.balance wallet ->
            posts_no_row w0 userId wallet (- amount)
              (WalletsService.deductForTrade userId amount marketId w0))
         /\ (0 <= amount ->
            posts_no_row w0 userId wallet amount
              (WalletsService.addFromTrade userId amount marketId w0))
         /\ (0 <= amount ->
            posts_no_row w0 userId wallet amount
              (WalletsService.settlePosition userId amount marketId w0))).
Proof.
  intros w userId marketId wallet amount Hw Hu Hl H0.
  split; [|split; [|split; [|split; [|split; [|split]]]]].
  7:{ intros w0 [fs Hf] Hu0 Hl0.
      split; [|split; [|split; [|split]]].
      - intros Ha.
        rewrite (WalletProofs.deposit_unlogged w0 fs userId wallet Hf Hu0 Hl0
                   amount Ha H0).
        apply WalletProofs.moved_posts_no_row. exact Hl0.
      - intros [Ha Hb].
        rewrite (WalletProofs.withdraw_unlogged w0 fs userId wallet Hf Hu0 Hl0
                   amount Ha Hb).
        apply WalletProofs.moved_posts_no_row. exact Hl0.
      - intros Hb.
        rewrite (WalletProofs.deductForTrade_unlogged w0 fs userId wallet Hf Hu0 Hl0
                   amount marketId Hb).
        apply WalletProofs.moved_posts_no_row. exact Hl0.
      - intros Ha.
        rewrite (WalletProofs.addFromTrade_unlogged w0 fs userId wallet Hf Hu0 Hl0
                   amount marketId ltac:(lra)).
        apply WalletProofs.moved_posts_no_row. exact Hl0.
      - intros Ha.
        rewrite (WalletProofs.settlePosition_unlogged w0 fs userId wallet Hf Hu0 Hl0
                   amount marketId ltac:(lra)).
        apply WalletProofs.moved_posts_no_row. exact Hl0. }
  6:{ intros H. split.
      - intros Ha. eexists. split;
          [apply (WalletProofs.withdraw_refused w userId wallet Hw Hl amount H Ha)
          |reflexivity].
      - eexists. split;
          [apply (WalletProofs.deductForTrade_refused w userId wallet Hw Hl amount
                    marketId H)
          |reflexivity]. }
  - intros Ha.
    rewrite (WalletProofs.deposit_run w userId wallet Hw Hu Hl amount Ha H0).
    apply WalletProofs.posted_posts_one_row. exact Hl.
  - intros [Ha Hb].
    rewrite (WalletProofs.withdraw_run w userId wallet Hw Hu Hl amount Ha Hb).
    apply WalletProofs.posted_posts_one_row. exact Hl.
  - intros Hb.
    rewrite (WalletProofs.deductForTrade_run w userId wallet Hw Hu Hl amount marketId Hb).
    apply WalletProofs.posted_posts_one_row. exact Hl.
  - intros Ha.
    rewrite (WalletProofs.addFromTrade_run w userId wallet Hw Hu Hl amount marketId
               ltac:(lra)).
    apply WalletProofs.posted_posts_one_row. exact Hl.
  - intros Ha.
    rewrite (WalletProofs.settlePosition_run w userId wallet Hw Hu Hl amount marketId
               ltac:(lra)).
    apply WalletProofs.posted_posts_one_row. exact Hl.
Qed.

Lemma ledger_operations_post_one_row_witness :
  let w := {| db := Sample.fresh; faults := [] |} in
  healthy w /\ wallet_ids_unique (db w)
  /\ lookup_wallet (db w) 7%nat = Some (Sample.wallet_of 1%nat 7%nat 100)
  /\ posts_one_row w 7%nat (Sample.wallet_of 1%nat 7%nat 100)
       withdraw_tx (- 100) None (WalletsService.withdraw 7%nat 100 w).
Proof.
  cbv zeta.
  assert (Hu : wallet_ids_unique Sample.fresh).
  { unfold wallet_ids_unique. cbn. repeat constructor. intros []. }
  split; [reflexivity|]. split; [exact Hu|]. split; [reflexivity|].
  destruct (ledger_operations_post_one_row
              {| db := Sample.fresh; faults := [] |} 7%nat 3%nat
              (Sample.wallet_of 1%nat 7%nat 100) 100 eq_refl Hu eq_refl
              ltac:(cbn; lra))
    as (_ & Hwd & _).
  apply Hwd. cbn. lra.
Defined.

(** C6 fails as stated where the insert of the ledger row is rejected:
    recordTransaction only logs the error.  Here a deposit of 10 succeeds
    and moves the balance of user 7 from 100 to 110 while the log stays
    empty. *)
Lemma deposit_without_ledger_row :
  let w := {| db := Sample.fresh; faults := [false; false; true] |} in
  exists row w',
    WalletsService.deposit 7%nat 10 w = (Ok row, w')
    /\ balance_of (db w) 7%nat = Some 100
    /\ balance_of (db w') 7%nat = Some (100 + 10)
    /\ wallet_transactions (db w') = wallet_transactions (db w).
Proof.
  cbv zeta. unfold WalletsService.deposit.
  destruct (Rle_dec 10 0) as [?|_]; [exfalso; lra|].
  unfold WalletsService.findByUserId, WalletsService.updateBalance, bind.
  erewrite Run.query_at by reflexivity. cbn [db].
  change (single _) with (Some (Sample.wallet_of 1%nat 7%nat 100)).
  cbv iota beta.
  erewrite Run.mutate_at by reflexivity. cbv iota.
  change (Wallet.balance (Sample.wallet_of 1%nat 7%nat 100)) with 100.
  destruct (Rlt_dec (100 + 10) 0) as [?|_]; [exfalso; lra|].
  eexists. eexists. split; [reflexivity|].
  repeat split.
Qed.


(** ** Rounding to six digits *)

Module NumProofs.

Lemma Int_part_lower x : IZR (Int_part x) <= x.
Proof. apply (base_Int_part x). Qed.

Lemma Int_part_upper x : x < IZR (Int_part x) + 1.
Proof. destruct (base_Int_part x) as [_ H]. lra. Qed.

Lemma Int_part_unique x (z : Z) : IZR z <= x < IZR z + 1 -> Int_part x = z.
Proof. intros [H1 H2]. symmetry. apply Int_part_spec. lra. Qed.

Lemma Int_part_mono x y : x <= y -> (Int_part x <= Int_part y)%Z.
Proof.
  intros H. pose proof (Int_part_lower x). pose proof (Int_part_upper y).
  assert (Hlt : IZR (Int_part x) < IZR (Int_part y + 1)) by (rewrite plus_IZR; lra).
  apply lt_IZR in Hlt. lia.
Qed.

(** The nearest integer is at distance at most one half. *)
Lemma round_half_up_near x :
  x - / 2 <= IZR (Num.round_half_up x) <= x + / 2.
Proof.
  unfold Num.round_half_up. destruct (Rle_dec 0 x) as [H|H].
  - pose proof (Int_part_lower (x + / 2)). pose proof (Int_part_upper (x + / 2)).
    lra.
  - rewrite opp_IZR.
    pose proof (Int_part_lower (- x + / 2)). pose proof (Int_part_upper (- x + / 2)).
    lra.
Qed.

Lemma round_half_up_IZR (z : Z) : Num.round_half_up (IZR z) = z.
Proof.
  unfold Num.round_half_up. destruct (Rle_dec 0 (IZR z)) as [H|H].
  - apply Int_part_unique. lra.
  - assert (E : Int_part (- IZR z + / 2) = (- z)%Z).
    { apply Int_part_unique. rewrite opp_IZR. lra. }
    rewrite E. lia.
Qed.

Lemma round_half_up_mono x y :
  x <= y -> (Num.round_half_up x <= Num.round_half_up y)%Z.
Proof.
  intros Hxy. unfold Num.round_half_up.
  destruct (Rle_dec 0 x) as [Hx|Hx], (Rle_dec 0 y) as [Hy|Hy].
  - apply Int_part_mono. lra.
  - exfalso. lra.
  - assert (0 <= Int_part (y + / 2))%Z.
    { apply le_IZR. pose proof (Int_part_upper (y + / 2)).
      assert (IZR (-1) < IZR (Int_part (y + / 2))) by lra.
      apply lt_IZR in H0. apply IZR_le. lia. }
    assert (0 <= Int_part (- x + / 2))%Z.
    { pose proof (Int_part_upper (- x + / 2)).
      assert (IZR (-1) < IZR (Int_part (- x + / 2))) by lra.
      apply lt_IZR in H1. lia. }
    lia.
  - assert (Int_part (- y + / 2) <= Int_part (- x + / 2))%Z
      by (apply Int_part_mono; lra).
    lia.
Qed.

Lemma toFixed6_near x :
  x - 5 / 10000000 <= Num.toFixed6 x <= x + 5 / 10000000.
Proof.
  unfold Num.toFixed6. pose proof (round_half_up_near (x * 1000000)). lra.
Qed.

Lemma toFixed6_mono x y : x <= y -> Num.toFixed6 x <= Num.toFixed6 y.
Proof.
  intros H. unfold Num.toFixed6.
  assert (Num.round_half_up (x * 1000000) <= Num.round_half_up (y * 1000000))%Z
    by (apply round_half_up_mono; lra).
  apply IZR_le in H0. lra.
Qed.

(** Values with six fractional digits are fixed points. *)
Lemma toFixed6_exact (z : Z) : Num.toFixed6 (IZR z / 1000000) = IZR z / 1000000.
Proof.
  unfold Num.toFixed6.
  replace (IZR z / 1000000 * 1000000) with (IZR z) by lra.
  rewrite round_half_up_IZR. reflexivity.
Qed.

Lemma toFixed6_0 : Num.toFixed6 0 = 0.
Proof. replace 0 with (IZR 0 / 1000000) at 1 by lra. rewrite toFixed6_exact. lra. Qed.

Lemma toFixed6_1 : Num.toFixed6 1 = 1.
Proof.
  replace 1 with (IZR 1000000 / 1000000) at 1 by lra.
  rewrite toFixed6_exact. lra.
Qed.

Lemma toFixed6_half : Num.toFixed6 (1 / 2) = 1 / 2.
Proof.
  replace (1 / 2) with (IZR 500000 / 1000000) at 1 by lra.
  rewrite toFixed6_exact. lra.
Qed.

Lemma toFixed6_unit x : 0 <= x <= 1 -> 0 <= Num.toFixed6 x <= 1.
Proof.
  intros [H0 H1]. split.
  - rewrite <- toFixed6_0. apply toFixed6_mono. exact H0.
  - rewrite <- toFixed6_1. apply toFixed6_mono. exact H1.
Qed.

(** Below half a millionth the rounding gives zero. *)
Lemma toFixed6_tiny x : 0 <= x < 5 / 10000000 -> Num.toFixed6 x = 0.
Proof.
  intros [H0 H1]. unfold Num.toFixed6, Num.round_half_up.
  destruct (Rle_dec 0 (x * 1000000)) as [_|H]; [|exfalso; lra].
  rewrite (Int_part_unique (x * 1000000 + / 2) 0); lra.
Qed.

Lemma truthy_nonzero x : x <> 0 -> Num.truthy (Some x) = Some x.
Proof.
  intros H. unfold Num.truthy. destruct (Req_EM_T x 0); [contradiction|reflexivity].
Qed.

Lemma or_default_nonzero x d : x <> 0 -> Num.or_default (Some x) d = x.
Proof. intros H. unfold Num.or_default. rewrite truthy_nonzero; auto. Qed.

End NumProofs.

(** ** The clamps of calculateSellReturn *)

Module SellProofs.

(** The clamp changes a quantity exactly when it is negative. *)
Lemma clamp_id q : 0 <= q -> AMM.clamp q = q.
Proof. intros H. unfold AMM.clamp. destruct (Rlt_dec q 0); lra. Qed.

Lemma clamp_neg q : q < 0 -> AMM.clamp q = 0.
Proof. intros H. unfold AMM.clamp. destruct (Rlt_dec q 0); lra. Qed.

Lemma clamp_nonneg q : 0 <= AMM.clamp q.
Proof. unfold AMM.clamp. destruct (Rlt_dec q 0); lra. Qed.

(** Past the share check the traded side has enough shares. *)
Lemma sellShareCheck_passed state side shares :
  AMM.sellShareCheck state side shares = None ->
  match side with
  | yes => shares <= AMM.yesShares state
  | no => shares <= AMM.noShares state
  end.
Proof.
  unfold AMM.sellShareCheck. destruct side.
  - destruct (Rgt_dec shares (AMM.yesShares state)); [discriminate|]. lra.
  - destruct (Rgt_dec shares (AMM.noShares state)); [discriminate|]. lra.
Qed.

(** What calculateSellReturn returns as new quantities. *)
Lemma calculateSellReturn_quantities state side shares liquidity r :
  AMM.calculateSellReturn state side shares liquidity = inr r ->
  AMM.sellShareCheck state side shares = None
  /\ AMM.s_newYesShares r = AMM.clamp (fst (AMM.sellQuantities state side shares))
  /\ AMM.s_newNoShares r = AMM.clamp (snd (AMM.sellQuantities state side shares)).
Proof.
  unfold AMM.calculateSellReturn. cbv zeta.
  destruct (AMM.sellShareCheck state side shares); [discriminate|].
  match goal with |- context [Rle_dec ?x 0] => destruct (Rle_dec x 0) end;
    [discriminate|].
  intros E. inversion E; subst; clear E. cbn. auto.
Qed.

End SellProofs.

(** ** Pricing engine (amm.service.ts) *)

Module AMMProofs.

(** The two unrounded prices are a point of the open unit interval and
    its complement. *)
Lemma share_of_sum u v :
  0 < u -> 0 < v -> 0 < u / (u + v) < 1 /\ v / (u + v) = 1 - u / (u + v).
Proof.
  intros Hu Hv. assert (Hs : 0 < u + v) by lra.
  split; [split|].
  - apply Rdiv_lt_0_compat; assumption.
  - apply (Rmult_lt_reg_r (u + v)); [exact Hs|].
    unfold Rdiv. rewrite Rmult_assoc, Rinv_l by lra. lra.
  - field. lra.
Qed.

(** Rounding a value of the unit interval and its complement: the two
    results add up to 1, or to 1.000001 when the value is a tie. *)
Lemma toFixed6_complement y :
  0 <= y <= 1 ->
  Num.toFixed6 y + Num.toFixed6 (1 - y) = 1
  \/ (Num.toFixed6 y + Num.toFixed6 (1 - y) = 1 + 1 / 1000000
      /\ exists k : Z, y * 1000000 = IZR k + / 2).
Proof.
  intros [H0 H1]. unfold Num.toFixed6, Num.round_half_up.
  destruct (Rle_dec 0 (y * 1000000)) as [_|H]; [|exfalso; lra].
  destruct (Rle_dec 0 ((1 - y) * 1000000)) as [_|H]; [|exfalso; lra].
  set (a := Int_part (y * 1000000 + / 2)).
  set (c := Int_part ((1 - y) * 1000000 + / 2)).
  pose proof (NumProofs.Int_part_lower (y * 1000000 + / 2)) as La.
  pose proof (NumProofs.Int_part_upper (y * 1000000 + / 2)) as Ua.
  pose proof (NumProofs.Int_part_lower ((1 - y) * 1000000 + / 2)) as Lc.
  pose proof (NumProofs.Int_part_upper ((1 - y) * 1000000 + / 2)) as Uc.
  fold a in La, Ua. fold c in Lc, Uc.
  assert (Hlo : (1000000 - 1 < a + c)%Z).
  { apply lt_IZR. rewrite plus_IZR, minus_IZR. lra. }
  assert (Hhi : (a + c < 1000000 + 2)%Z).
  { apply lt_IZR. rewrite !plus_IZR. lra. }
  assert (Hcase : (a + c = 1000000 \/ a + c = 1000000 + 1)%Z) by lia.
  destruct Hcase as [E|E]; apply (f_equal IZR) in E; rewrite !plus_IZR in E.
  - left. lra.
  - right. split; [lra|]. exists (a - 1)%Z. rewrite minus_IZR. lra.
Qed.

Lemma getCurrentPrices_unfold state liquidity :
  AMM.getCurrentPrices state liquidity
  = {| AMM.yesPrice := Num.toFixed6 (unrounded_yes_price state liquidity);
       AMM.noPrice := Num.toFixed6 (1 - unrounded_yes_price state liquidity) |}.
Proof.
  unfold AMM.getCurrentPrices, unrounded_yes_price. cbv zeta.
  set (b := Num.or_default liquidity AMM.DEFAULT_LIQUIDITY).
  destruct (share_of_sum (exp (AMM.yesShares state / b))
                         (exp (AMM.noShares state / b))
                         (exp_pos _) (exp_pos _)) as [_ E].
  rewrite E. reflexivity.
Qed.

Lemma unrounded_yes_price_unit state liquidity :
  0 < unrounded_yes_price state liquidity < 1.
Proof.
  unfold unrounded_yes_price. cbv zeta.
  apply share_of_sum; apply exp_pos.
Qed.

Lemma unrounded_yes_price_even state liquidity :
  AMM.yesShares state = AMM.noShares state ->
  unrounded_yes_price state liquidity = 1 / 2.
Proof.
  intros E. unfold unrounded_yes_price. cbv zeta. rewrite E.
  pose proof (exp_pos (AMM.noShares state
                       / Num.or_default liquidity AMM.DEFAULT_LIQUIDITY)).
  field. lra.
Qed.

(** [exp] grows at least like the powers of two. *)
Lemma exp_2 : 4 < exp 2.
Proof.
  assert (H1 : 2 < exp 1) by (pose proof (exp_ineq1 1); lra).
  replace 2 with (1 + 1) by lra. rewrite exp_plus. nra.
Qed.

Lemma exp_32 : 4000000000 < exp 32.
Proof.
  pose proof exp_2 as H2.
  assert (H4 : 16 < exp 4).
  { replace 4 with (2 + 2) by lra. rewrite exp_plus. nra. }
  assert (H8 : 256 < exp 8).
  { replace 8 with (4 + 4) by lra. rewrite exp_plus. nra. }
  assert (H16 : 65536 < exp 16).
  { replace 16 with (8 + 8) by lra. rewrite exp_plus. nra. }
  replace 32 with (16 + 16) by lra. rewrite exp_plus. nra.
Qed.

(** [ln x >= 1 - 1/x] *)
Lemma ln_lower x : 0 < x -> 1 - / x <= ln x.
Proof.
  intros Hx. destruct (Req_dec (ln x) 0) as [E|E].
  - assert (x = 1).
    { rewrite <- (exp_ln x Hx), E. apply exp_0. }
    subst x. rewrite ln_1. lra.
  - pose proof (exp_ineq1 (- ln x)) as H.
    rewrite exp_Ropp, (exp_ln x Hx) in H.
    assert (- ln x <> 0) by lra. specialize (H H0). lra.
Qed.

Lemma ln_le_mono x y : 0 < x -> x <= y -> ln x <= ln y.
Proof.
  intros Hx [Hlt | ->]; [|lra]. left. apply ln_increasing; assumption.
Qed.

Lemma exp_ge_1 x : 0 <= x -> 1 <= exp x.
Proof.
  intros [H | <-]; [|rewrite exp_0; lra].
  pose proof (exp_ineq1 x). lra.
Qed.

Section Cost.

Variables (b : R).
Hypothesis Hb : 0 < b.

(** The cost function increases with the sum of the two exponentials. *)
Lemma cost_lt a1 c1 a2 c2 :
  exp (a1 / b) + exp (c1 / b) < exp (a2 / b) + exp (c2 / b) ->
  AMM.cost a1 c1 b < AMM.cost a2 c2 b.
Proof.
  intros H. unfold AMM.cost. cbv zeta.
  apply Rmult_lt_compat_l; [exact Hb|].
  apply ln_increasing; [|exact H].
  pose proof (exp_pos (a1 / b)). pose proof (exp_pos (c1 / b)). lra.
Qed.

Lemma exp_div_lt x y : x < y -> exp (x / b) < exp (y / b).
Proof.
  intros H. apply exp_increasing. unfold Rdiv.
  apply Rmult_lt_compat_r; [apply Rinv_0_lt_compat; exact Hb|exact H].
Qed.

(** One more share costs at most one unit: the marginal price is below 1. *)
Lemma cost_step_upper a c d :
  0 <= d -> AMM.cost (a + d) c b - AMM.cost a c b <= d.
Proof.
  intros Hd. unfold AMM.cost. cbv zeta.
  pose proof (exp_pos (a / b)) as Ha. pose proof (exp_pos (c / b)) as Hc.
  assert (Hd1 : 1 <= exp (d / b)).
  { apply exp_ge_1. unfold Rdiv. apply Rmult_le_pos; [exact Hd|].
    left. apply Rinv_0_lt_compat. exact Hb. }
  assert (Hle : ln (exp ((a + d) / b) + exp (c / b))
                <= d / b + ln (exp (a / b) + exp (c / b))).
  { rewrite <- (ln_exp (d / b)) at 1. rewrite <- ln_mult by (try apply exp_pos; lra).
    apply ln_le_mono.
    - pose proof (exp_pos ((a + d) / b)). lra.
    - replace ((a + d) / b) with (a / b + d / b) by (field; lra).
      rewrite exp_plus. nra. }
  apply (Rmult_le_compat_l b) in Hle; [|lra].
  replace (b * (d / b + ln (exp (a / b) + exp (c / b))))
    with (d + b * ln (exp (a / b) + exp (c / b))) in Hle by (field; lra).
  lra.
Qed.

(** A lower bound of the cost of [d] more shares, from [ln_lower]. *)
Lemma cost_step_lower a c d :
  b * (1 - (exp (a / b) + exp (c / b)) / (exp ((a + d) / b) + exp (c / b)))
  <= AMM.cost (a + d) c b - AMM.cost a c b.
Proof.
  unfold AMM.cost. cbv zeta.
  pose proof (exp_pos (a / b)) as Ha. pose proof (exp_pos (c / b)) as Hc.
  pose proof (exp_pos ((a + d) / b)) as Had.
  set (s0 := exp (a / b) + exp (c / b)) in *.
  set (s1 := exp ((a + d) / b) + exp (c / b)) in *.
  assert (H0 : 0 < s0) by (unfold s0; lra).
  assert (H1 : 0 < s1) by (unfold s1; lra).
  assert (E : ln s1 - ln s0 = ln (s1 / s0)).
  { unfold Rdiv. rewrite ln_mult; [|lra|apply Rinv_0_lt_compat; lra].
    rewrite ln_Rinv by lra. lra. }
  pose proof (ln_lower (s1 / s0)) as L.
  assert (Hq : 0 < s1 / s0) by (apply Rdiv_lt_0_compat; lra).
  specialize (L Hq).
  replace (/ (s1 / s0)) with (s0 / s1) in L by (field; lra).
  replace (b * ln s1 - b * ln s0) with (b * (ln s1 - ln s0)) by ring.
  rewrite E. apply Rmult_le_compat_l; lra.
Qed.

End Cost.

(** The cost function is symmetric in its two quantities. *)
Lemma cost_sym a c b : AMM.cost a c b = AMM.cost c a b.
Proof. unfold AMM.cost. cbv zeta. rewrite Rplus_comm. reflexivity. Qed.

Lemma calculateBuyCost_quantities state side d liquidity :
  AMM.newYesShares (AMM.calculateBuyCost state side d liquidity)
  = match side with yes => AMM.yesShares state + d | no => AMM.yesShares state end
  /\ AMM.newNoShares (AMM.calculateBuyCost state side d liquidity)
    = match side with yes => AMM.noShares state | no => AMM.noShares state + d end.
Proof. split; reflexivity. Qed.

(** The quoted cost of [d] shares is at most [d] plus the fee, up to the
    rounding. *)
Lemma calculateBuyCost_upper state side d l :
  0 < l -> 0 <= d ->
  AMM.cost_ (AMM.calculateBuyCost state side d (Some l))
  <= d * (1 + AMM.FEE_RATE) + 5 / 10000000.
Proof.
  intros Hl Hd. unfold AMM.calculateBuyCost. cbv zeta. cbn [AMM.cost_].
  rewrite NumProofs.or_default_nonzero by lra.
  match goal with |- Num.toFixed6 ?t <= _ => pose proof (NumProofs.toFixed6_near t) as Hn end.
  assert (Hc : match side with
               | yes => AMM.cost (AMM.yesShares state + d) (AMM.noShares state) l
               | no => AMM.cost (AMM.yesShares state) (AMM.noShares state + d) l
               end - AMM.cost (AMM.yesShares state) (AMM.noShares state) l <= d).
  { destruct side.
    - apply cost_step_upper; assumption.
    - rewrite (cost_sym (AMM.yesShares state) (AMM.noShares state + d)),
              (cost_sym (AMM.yesShares state) (AMM.noShares state)).
      apply cost_step_upper; assumption. }
  unfold AMM.FEE_RATE in *.
  destruct side; lra.
Qed.

(** Selling shares that the market holds, from a state without negative
    quantities, yields a positive return: calculateSellReturn does not
    throw. *)
Lemma calculateSellReturn_returns state side d l :
  0 < l -> 0 < d ->
  0 <= AMM.yesShares state -> 0 <= AMM.noShares state ->
  match side with
  | yes => d <= AMM.yesShares state
  | no => d <= AMM.noShares state
  end ->
  exists r,
    AMM.calculateSellReturn state side d (Some l) = inr r
    /\ AMM.s_newYesShares r
       = match side with yes => AMM.yesShares state - d | no => AMM.yesShares state end
    /\ AMM.s_newNoShares r
       = match side with yes => AMM.noShares state | no => AMM.noShares state - d end.
Proof.
  intros Hl Hd Hy Hn Hle. unfold AMM.calculateSellReturn. cbv zeta.
  rewrite NumProofs.or_default_nonzero by lra.
  assert (Hc : AMM.sellShareCheck state side d = None).
  { unfold AMM.sellShareCheck. destruct side.
    - destruct (Rgt_dec d (AMM.yesShares state)); [exfalso; lra|reflexivity].
    - destruct (Rgt_dec d (AMM.noShares state)); [exfalso; lra|reflexivity]. }
  rewrite Hc.
  assert (Eq : AMM.sellQuantities state side d
               = match side with
                 | yes => (AMM.yesShares state - d, AMM.noShares state)
                 | no => (AMM.yesShares state, AMM.noShares state - d)
                 end) by reflexivity.
  rewrite Eq.
  destruct side; cbn [fst snd].
  - rewrite (SellProofs.clamp_id (AMM.yesShares state - d)) by lra.
    rewrite (SellProofs.clamp_id (AMM.noShares state)) by lra.
    match goal with |- context [Rle_dec ?x 0] => destruct (Rle_dec x 0) as [Hr|Hr] end.
    + exfalso.
      assert (AMM.cost (AMM.yesShares state - d) (AMM.noShares state) l
              < AMM.cost (AMM.yesShares state) (AMM.noShares state) l).
      { apply cost_lt; [exact Hl|].
        pose proof (exp_div_lt l Hl (AMM.yesShares state - d) (AMM.yesShares state)).
        lra. }
      lra.
    + eexists. split; [reflexivity|]. cbn. split; reflexivity.
  - rewrite (SellProofs.clamp_id (AMM.yesShares state)) by lra.
    rewrite (SellProofs.clamp_id (AMM.noShares state - d)) by lra.
    match goal with |- context [Rle_dec ?x 0] => destruct (Rle_dec x 0) as [Hr|Hr] end.
    + exfalso.
      assert (AMM.cost (AMM.yesShares state) (AMM.noShares state - d) l
              < AMM.cost (AMM.yesShares state) (AMM.noShares state) l).
      { apply cost_lt; [exact Hl|].
        pose proof (exp_div_lt l Hl (AMM.noShares state - d) (AMM.noShares state)).
        lra. }
      lra.
    + eexists. split; [reflexivity|]. cbn. split; reflexivity.
Qed.

End AMMProofs.

(** C7, as amended.  For every AMM state and liquidity, the two prices of
    getCurrentPrices lie in the closed interval [0,1]; their sum is exactly
    1, except when the unrounded YES price is a tie of the six-digit
    rounding, where both prices are rounded up and the sum is 1.000001; and
    when yesShares = noShares both prices are exactly 0.5. *)
Theorem getCurrentPrices_unit_interval :
  forall (state : AMM.AMMState) (liquidity : option R),
    let p := AMM.getCurrentPrices state liquidity in
    0 <= AMM.yesPrice p <= 1
    /\ 0 <= AMM.noPrice p <= 1
    /\ (AMM.yesPrice p + AMM.noPrice p = 1
        \/ (AMM.yesPrice p + AMM.noPrice p = 1 + 1 / 1000000
            /\ exists k : Z,
                 unrounded_yes_price state liquidity * 1000000 = IZR k + / 2))
    /\ (AMM.yesShares state = AMM.noShares state ->
        AMM.yesPrice p = 1 / 2 /\ AMM.noPrice p = 1 / 2).
Proof.
  intros state liquidity p. subst p.
  rewrite AMMProofs.getCurrentPrices_unfold. cbn [AMM.yesPrice AMM.noPrice].
  pose proof (AMMProofs.unrounded_yes_price_unit state liquidity) as Hy.
  split; [apply NumProofs.toFixed6_unit; lra|].
  split; [apply NumProofs.toFixed6_unit; lra|].
  split; [apply AMMProofs.toFixed6_complement; lra|].
  intros E. rewrite (AMMProofs.unrounded_yes_price_even state liquidity E).
  replace (1 - 1 / 2) with (1 / 2) by lra.
  split; apply NumProofs.toFixed6_half.
Qed.

(** C7 fails as stated at the ends of the interval: with liquidity 100, no
    YES shares and 3200 NO shares the YES price is rounded to 0 and the NO
    price to 1. *)
Lemma getCurrentPrices_reaches_ends :
  0 < 100
  /\ AMM.yesPrice (AMM.getCurrentPrices
                     {| AMM.yesShares := 0; AMM.noShares := 3200 |} (Some 100)) = 0
  /\ AMM.noPrice (AMM.getCurrentPrices
                    {| AMM.yesShares := 0; AMM.noShares := 3200 |} (Some 100)) = 1.
Proof.
  split; [lra|].
  rewrite AMMProofs.getCurrentPrices_unfold. cbn [AMM.yesPrice AMM.noPrice].
  assert (Hy : 0 < unrounded_yes_price
                     {| AMM.yesShares := 0; AMM.noShares := 3200 |} (Some 100)
               < 1 / 4000000000).
  { unfold unrounded_yes_price. cbv zeta. cbn [AMM.yesShares AMM.noShares].
    rewrite NumProofs.or_default_nonzero by lra.
    replace (0 / 100) with 0 by lra. replace (3200 / 100) with 32 by lra.
    rewrite exp_0. pose proof AMMProofs.exp_32 as H32.
    split.
    - apply Rdiv_lt_0_compat; lra.
    - apply (Rmult_lt_reg_r (1 + exp 32)); [lra|].
      unfold Rdiv. rewrite Rmult_assoc, Rinv_l by lra. lra. }
  set (y := unrounded_yes_price _ _) in *.
  split.
  - apply NumProofs.toFixed6_tiny. lra.
  - unfold Num.toFixed6, Num.round_half_up.
    destruct (Rle_dec 0 ((1 - y) * 1000000)) as [_|H]; [|exfalso; lra].
    rewrite (NumProofs.Int_part_unique ((1 - y) * 1000000 + / 2) 1000000); lra.
Qed.


(** C10.  In calculateSellReturn, for a state of the market (neither
    quantity is negative: a market row starts at (0, 0) and is only
    rewritten with the quantities that calculateBuyCost returns for
    positive shares or that calculateSellReturn returns), once the share
    check has passed, neither quantity after the subtraction is negative,
    so neither clamp is taken; a returned result carries exactly these
    quantities as newYesShares and newNoShares, and they are not
    negative; nor are the quantities that calculateBuyCost returns from
    such a state for a share count that is not negative. *)
Theorem calculateSellReturn_clamps :
  forall (state : AMM.AMMState) (side : Side) (shares : R),
    0 <= AMM.yesShares state ->
    0 <= AMM.noShares state ->
    AMM.sellShareCheck state side shares = None ->
    let q := AMM.sellQuantities state side shares in
    ~ fst q < 0 /\ ~ snd q < 0
    /\ AMM.clamp (fst q) = fst q /\ AMM.clamp (snd q) = snd q
    /\ (forall liquidity r,
          AMM.calculateSellReturn state side shares liquidity = inr r ->
          AMM.s_newYesShares r = fst q /\ AMM.s_newNoShares r = snd q
          /\ 0 <= AMM.s_newYesShares r /\ 0 <= AMM.s_newNoShares r)
    /\ (forall bought d liquidity,
          0 <= d ->
          0 <= AMM.newYesShares (AMM.calculateBuyCost state bought d liquidity)
          /\ 0 <= AMM.newNoShares (AMM.calculateBuyCost state bought d liquidity)).
Proof.
  intros state side shares Hy Hn Hc q. subst q.
  pose proof (SellProofs.sellShareCheck_passed state side shares Hc) as Hle.
  assert (H : 0 <= fst (AMM.sellQuantities state side shares)
              /\ 0 <= snd (AMM.sellQuantities state side shares)).
  { destruct side; cbn; split; lra. }
  destruct H as [Hf Hs].
  split; [lra|]. split; [lra|].
  split; [apply SellProofs.clamp_id; exact Hf|].
  split; [apply SellProofs.clamp_id; exact Hs|].
  split.
  - intros liquidity r Hr.
    destruct (SellProofs.calculateSellReturn_quantities _ _ _ _ _ Hr)
      as (_ & -> & ->).
    rewrite !SellProofs.clamp_id by assumption.
    repeat split; assumption.
  - intros bought d liquidity Hd. unfold AMM.calculateBuyCost. cbv zeta.
    cbn [AMM.newYesShares AMM.newNoShares]. destruct bought; split; lra.
Qed.

Lemma calculateSellReturn_clamps_witness :
  let state := {| AMM.yesShares := 5; AMM.noShares := 0 |} in
  0 <= AMM.yesShares state /\ 0 <= AMM.noShares state
  /\ AMM.sellShareCheck state yes 2 = None
  /\ AMM.clamp (fst (AMM.sellQuantities state yes 2))
     = fst (AMM.sellQuantities state yes 2)
  /\ AMM.clamp (snd (AMM.sellQuantities state yes 2))
     = snd (AMM.sellQuantities state yes 2).
Proof.
  cbv zeta.
  assert (Hc : AMM.sellShareCheck {| AMM.yesShares := 5; AMM.noShares := 0 |} yes 2
               = None).
  { unfold AMM.sellShareCheck. cbn.
    destruct (Rgt_dec 2 5); [exfalso; lra|reflexivity]. }
  assert (Hy : 0 <= AMM.yesShares {| AMM.yesShares := 5; AMM.noShares := 0 |})
    by (cbn; lra).
  assert (Hn : 0 <= AMM.noShares {| AMM.yesShares := 5; AMM.noShares := 0 |})
    by (cbn; lra).
  split; [exact Hy|]. split; [exact Hn|]. split; [exact Hc|].
  destruct (calculateSellReturn_clamps
              {| AMM.yesShares := 5; AMM.noShares := 0 |} yes 2 Hy Hn Hc)
    as (_ & _ & H1 & H2 & _).
  split; [exact H1|exact H2].
Defined.

(** ** Position store (positions.service.ts) *)

Module PositionProofs.

(** A volume-weighted average of two prices of the unit interval. *)
Lemma weighted_average_unit cur curAvg d p :
  0 <= cur -> 0 <= d -> 0 < cur + d ->
  0 <= curAvg <= 1 -> 0 <= p <= 1 ->
  0 <= (cur * curAvg + d * p) / (cur + d) <= 1.
Proof.
  intros Hc Hd Hs Ha Hp.
  assert (Hn : 0 <= cur * curAvg + d * p <= cur + d) by nra.
  split.
  - apply Rmult_le_pos; [lra|]. left. apply Rinv_0_lt_compat. exact Hs.
  - apply (Rmult_le_reg_r (cur + d)); [exact Hs|].
    unfold Rdiv. rewrite Rmult_assoc, Rinv_l by lra. lra.
Qed.

Lemma insertData_sides userId marketId side d price newId :
  let row := PositionsService.insertData userId marketId side d price newId in
  side_shares side row = d
  /\ side_avg_price side row = price
  /\ side_shares (opposite side) row = 0
  /\ side_avg_price (opposite side) row = 0.
Proof. destruct side; cbn; repeat split; reflexivity. Qed.

(** The row written over an existing position. *)
Lemma updateData_sides old side d price isBuy :
  let row := PositionsService.updateData old side d price isBuy old in
  let newShares :=
    if isBuy then side_shares side old + d else side_shares side old - d in
  side_shares side row = Rmax 0 newShares
  /\ side_avg_price side row
     = (if Rgt_dec newShares 0
        then if isBuy
             then (side_shares side old * side_avg_price side old + d * price)
                  / newShares
             else side_avg_price side old
        else 0)
  /\ side_shares (opposite side) row = side_shares (opposite side) old
  /\ side_avg_price (opposite side) row = side_avg_price (opposite side) old.
Proof.
  destruct side, isBuy; cbn;
    match goal with |- context [Rgt_dec ?x 0] => destruct (Rgt_dec x 0) end;
    repeat split; reflexivity.
Qed.

Lemma updateData_side_ok old side d price isBuy :
  0 <= d ->
  let row := PositionsService.updateData old side d price isBuy old in
  0 <= side_shares side row
  /\ (side_shares side row = 0 -> side_avg_price side row = 0)
  /\ (side_ok side old -> 0 <= price <= 1 ->
      0 < side_shares side row -> 0 <= side_avg_price side row <= 1).
Proof.
  intros Hd row.
  destruct (updateData_sides old side d price isBuy) as (Es & Ea & _).
  fold row in Es, Ea. rewrite Es, Ea. clear Es Ea.
  set (newShares :=
         if isBuy then side_shares side old + d else side_shares side old - d).
  split; [apply Rmax_l|]. split.
  - intros Hz. destruct (Rgt_dec newShares 0) as [Hg|Hg]; [|reflexivity].
    exfalso. rewrite Rmax_right in Hz by lra. lra.
  - intros (Hs & Hav & Hz0) Hp Hpos.
    assert (Hb : 0 <= side_avg_price side old <= 1).
    { destruct Hs as [Hlt | Heq]; [apply Hav; exact Hlt|].
      rewrite Hz0; [lra|]. symmetry. exact Heq. }
    destruct (Rgt_dec newShares 0) as [Hg|Hg].
    + destruct isBuy.
      * subst newShares. apply weighted_average_unit; lra.
      * exact Hb.
    + rewrite Rmax_left in Hpos by lra. lra.
Qed.

Section Healthy.

Variables (w : World) (userId marketId : Id) (side : Side) (d price : R)
          (isBuy : bool).
Hypothesis Hw : healthy w.

Lemma createOrUpdate_creates :
  has_no_position (db w) userId marketId ->
  let row := PositionsService.insertData userId marketId side d price
               (next_id (db w)) in
  PositionsService.createOrUpdate userId marketId side d price isBuy w
  = (Ok row,
     {| db := with_positions (db w) (positions (db w) ++ [row])
                (S (next_id (db w)));
        faults := [] |}).
Proof.
  intros Hno row. unfold has_no_position in Hno.
  unfold PositionsService.createOrUpdate, PositionsService.findByUserAndMarket, bind.
  rewrite (Run.query_healthy _ _ Hw). rewrite Hno. cbn [single].
  unfold PositionsService.insertRow.
  rewrite (Run.mutate_healthy _ _ Hw). rewrite Hno. reflexivity.
Qed.

Lemma createOrUpdate_updates old :
  position_ids_unique (db w) ->
  lookup_position (db w) userId marketId = Some old ->
  let f := PositionsService.updateData old side d price isBuy in
  PositionsService.createOrUpdate userId marketId side d price isBuy w
  = (Ok (f old),
     {| db := with_positions (db w)
                (map (fun x => if Nat.eqb (Position.id x) (Position.id old)
                               then f x else x) (positions (db w)))
                (next_id (db w));
        faults := [] |}).
Proof.
  intros Hu Hl f.
  unfold PositionsService.createOrUpdate, PositionsService.findByUserAndMarket, bind.
  rewrite (Run.query_healthy _ _ Hw).
  pose proof Hl as H. unfold lookup_position in H. rewrite H.
  unfold PositionsService.updateRow.
  rewrite (Run.mutate_healthy _ _ Hw).
  assert (Hin : In old (positions (db w))).
  { apply WalletProofs.single_inv in H.
    assert (Hin : In old (filter (PositionsService.sameUserAndMarket userId marketId)
                                 (positions (db w))))
      by (rewrite H; left; reflexivity).
    apply filter_In in Hin. tauto. }
  rewrite (Run.update_single_found _ _ _ old).
  - reflexivity.
  - rewrite (WalletProofs.filter_key Position.id _ old Hu Hin). reflexivity.
Qed.

End Healthy.

(** One YES share bought at q = (3200, 0) with liquidity 100 is quoted
    above one unit: the marginal price is within 1e-9 of 1 and the fee of
    2% comes on top. *)
Lemma late_buy_price_above_one :
  1 < AMM.avgPrice (AMM.calculateBuyCost
                      {| AMM.yesShares := 3200; AMM.noShares := 0 |}
                      yes 1 (Some 100)).
Proof.
  unfold AMM.calculateBuyCost. cbv zeta.
  cbn [AMM.avgPrice AMM.yesShares AMM.noShares].
  rewrite NumProofs.or_default_nonzero by lra.
  pose proof (AMMProofs.cost_step_lower 100 ltac:(lra) 3200 0 1) as L.
  set (raw := AMM.cost (3200 + 1) 0 100 - AMM.cost 3200 0 100) in *.
  assert (Hraw : 99 / 100 < raw).
  { eapply Rlt_le_trans; [|exact L].
    replace (3200 / 100) with 32 by lra.
    replace ((3200 + 1) / 100) with (32 + 1 / 100) by lra.
    replace (0 / 100) with 0 by lra.
    rewrite exp_0, exp_plus.
    pose proof AMMProofs.exp_32 as H32.
    pose proof (exp_ineq1 (1 / 100)) as H01.
    assert (Hs : 0 < exp 32 * exp (1 / 100) + 1) by nra.
    assert (Hq : (exp 32 + 1) / (exp 32 * exp (1 / 100) + 1) < 9901 / 10000).
    { apply (Rmult_lt_reg_r (exp 32 * exp (1 / 100) + 1)); [exact Hs|].
      unfold Rdiv at 1. rewrite Rmult_assoc, Rinv_l by lra. nra. }
    lra. }
  match goal with |- 1 < Num.toFixed6 ?t => pose proof (NumProofs.toFixed6_near t) as Hn;
    replace t with (raw * (102 / 100)) in * by (unfold AMM.FEE_RATE; field) end.
  lra.
Qed.

End PositionProofs.

(** C8, as amended.  On a healthy store, createOrUpdate with a share delta
    that is not negative produces a row in which: on create, the traded
    side holds the delta at the executed price and the other side holds no
    shares at price 0; on an update (buy or sell) the shares of the traded
    side are not negative, its average price is 0 when its shares are 0,
    its average price is in [0,1] when its shares are positive provided the
    old row satisfied the invariant on that side and the executed price is
    in [0,1], and the shares and average price of the other side are those
    of the old row. *)
Theorem createOrUpdate_row_invariants :
  forall (w : World) (userId marketId : Id) (side : Side) (d price : R)
         (isBuy : bool),
    healthy w ->
    position_ids_unique (db w) ->
    0 <= d ->
    (has_no_position (db w) userId marketId ->
       exists row w',
         PositionsService.createOrUpdate userId marketId side d price isBuy w
         = (Ok row, w')
         /\ In row (positions (db w'))
         /\ 0 <= side_shares side row
         /\ side_shares side row = d
         /\ side_avg_price side row = price
         /\ side_shares (opposite side) row = 0
         /\ side_avg_price (opposite side) row = 0)
    /\ (forall old,
         lookup_position (db w) userId marketId = Some old ->
         exists row w',
           PositionsService.createOrUpdate userId marketId side d price isBuy w
           = (Ok row, w')
           /\ In row (positions (db w'))
           /\ 0 <= side_shares side row
           /\ (side_shares side row = 0 -> side_avg_price side row = 0)
           /\ (side_ok side old -> 0 <= price <= 1 ->
               0 < side_shares side row -> 0 <= side_avg_price side row <= 1)
           /\ side_shares (opposite side) row = side_shares (opposite side) old
           /\ side_avg_price (opposite side) row
              = side_avg_price (opposite side) old).
Proof.
  intros w userId marketId side d price isBuy Hw Hu Hd. split.
  - intros Hno.
    rewrite (PositionProofs.createOrUpdate_creates w userId marketId side d price
               isBuy Hw Hno).
    eexists. eexists. split; [reflexivity|].
    split; [cbn; apply in_or_app; right; left; reflexivity|].
    destruct (PositionProofs.insertData_sides userId marketId side d price
                (next_id (db w))) as (E1 & E2 & E3 & E4).
    rewrite E1. repeat split; assumption.
  - intros old Hl.
    rewrite (PositionProofs.createOrUpdate_updates w userId marketId side d price
               isBuy Hw old Hu Hl).
    eexists. eexists. split; [reflexivity|].
    split.
    + cbn [db positions with_positions].
      assert (Hin : In old (positions (db w))).
      { unfold lookup_position in Hl. apply WalletProofs.single_inv in Hl.
        assert (Hin : In old (filter (PositionsService.sameUserAndMarket userId marketId)
                                     (positions (db w))))
          by (rewrite Hl; left; reflexivity).
        apply filter_In in Hin. tauto. }
      apply in_map_iff. exists old. rewrite Nat.eqb_refl. split; [reflexivity|exact Hin].
    + destruct (PositionProofs.updateData_side_ok old side d price isBuy Hd)
        as (H1 & H2 & H3).
      destruct (PositionProofs.updateData_sides old side d price isBuy)
        as (_ & _ & H4 & H5).
      split; [exact H1|]. split; [exact H2|]. split; [exact H3|].
      split; [exact H4|exact H5].
Qed.

Lemma createOrUpdate_row_invariants_witness :
  let w := {| db := Sample.fresh; faults := [] |} in
  healthy w /\ position_ids_unique (db w) /\ 0 <= 5
  /\ has_no_position (db w) 7%nat 3%nat
  /\ exists row w',
       PositionsService.createOrUpdate 7%nat 3%nat yes 5 (1 / 2) true w
       = (Ok row, w')
       /\ side_shares yes row = 5
       /\ side_avg_price yes row = 1 / 2.
Proof.
  cbv zeta.
  assert (Hu : position_ids_unique Sample.fresh) by constructor.
  split; [reflexivity|]. split; [exact Hu|]. split; [lra|]. split; [reflexivity|].
  destruct (createOrUpdate_row_invariants
              {| db := Sample.fresh; faults := [] |} 7%nat 3%nat yes 5 (1 / 2) true
              eq_refl Hu ltac:(lra)) as [Hc _].
  destruct (Hc eq_refl) as (row & w' & E & _ & _ & Hs & Ha & _).
  exists row, w'. repeat split; assumption.
Defined.

(** C8 fails as stated for the prices of the pricing engine: one YES share
    bought on the late market (q = (3200, 0), liquidity 100) is quoted
    above one unit, fee included, and the position row that the buy
    creates through createOrUpdate holds 1 share at an average price
    above 1. *)
Lemma bought_position_price_above_one :
  let w := {| db := Sample.late; faults := [] |} in
  exists x w' p,
    TradesService.executeBuy 7%nat Sample.late_market Sample.late_state
      Sample.buy_one_share w = (Ok x, w')
    /\ lookup_position (db w) 7%nat 3%nat = None
    /\ lookup_position (db w') 7%nat 3%nat = Some p
    /\ 0 < Position.yes_shares p
    /\ 1 < Position.avg_yes_price p.
Proof.
  cbv zeta.
  unfold TradesService.executeBuy, TradesService.buyQuote.
  cbn [TradesService.amount TradesService.shares TradesService.side
       Sample.buy_one_share Num.truthy].
  destruct (Req_EM_T 1 0) as [?|_]; [exfalso; lra|]. cbv iota beta.
  destruct (Rle_dec 1 0) as [?|_]; [exfalso; lra|].
  change (AMM.getLiquidityForMarket (Market.liquidity Sample.late_market))
    with 100.
  pose proof (AMMProofs.calculateBuyCost_upper Sample.late_state yes 1 100
                ltac:(lra) ltac:(lra)) as Hc.
  unfold AMM.FEE_RATE in Hc.
  pose proof PositionProofs.late_buy_price_above_one as Hp.
  fold Sample.late_state in Hp.
  revert Hc Hp.
  generalize (AMM.calculateBuyCost Sample.late_state yes 1 (Some 100)) as r.
  intros r Hc Hp.
  unfold WalletsService.deductForTrade, WalletsService.findByUserId, bind.
  rewrite Run.query_healthy by reflexivity. cbn [db].
  change (single _) with (Some (Sample.wallet_of 1%nat 7%nat 100)).
  cbv iota beta.
  change (Wallet.balance (Sample.wallet_of 1%nat 7%nat 100)) with 100.
  Run.run_concrete.
  eexists. eexists. eexists. split; [reflexivity|].
  split; [reflexivity|]. split; [reflexivity|].
  cbn [Sample.position_of Position.yes_shares Position.avg_yes_price].
  split; [lra|exact Hp].
Qed.

(** ** Trade executor (trades.service.ts) *)

Module ExecutorProofs.

Lemma same_trades_refl s : same_trades s s.
Proof. reflexivity. Qed.

Lemma same_trades_trans s1 s2 s3 :
  same_trades s1 s2 -> same_trades s2 s3 -> same_trades s1 s3.
Proof. unfold same_trades. congruence. Qed.

Create HintDb svc.
#[local] Hint Resolve same_trades_refl same_trades_trans : svc.
#[local] Hint Resolve Run.never_throws_ret Run.never_throws_mutate
  Run.never_throws_query Run.read_only_query Run.fails_clean_throw : svc.

Lemma recordTransaction_never_throws data :
  never_throws (WalletsService.recordTransaction data).
Proof.
  unfold WalletsService.recordTransaction.
  apply Run.never_throws_bind; auto with svc.
Qed.

(** *** Each step writes nothing when it fails *)

Lemma deductForTrade_fails_clean userId amount marketId :
  fails_clean (WalletsService.deductForTrade userId amount marketId).
Proof.
  unfold WalletsService.deductForTrade, WalletsService.findByUserId.
  apply Run.fails_clean_after_read; [auto with svc|].
  intros [wallet|]; [|auto with svc].
  destruct (Rlt_dec (Wallet.balance wallet) amount); [auto with svc|].
  unfold WalletsService.updateBalance. apply Run.fails_clean_write.
  intros data. apply Run.never_throws_bind;
    [apply recordTransaction_never_throws|auto with svc].
Qed.

Lemma addFromTrade_fails_clean userId amount marketId :
  fails_clean (WalletsService.addFromTrade userId amount marketId).
Proof.
  unfold WalletsService.addFromTrade, WalletsService.findByUserId.
  apply Run.fails_clean_after_read; [auto with svc|].
  intros [wallet|]; [|auto with svc].
  unfold WalletsService.updateBalance. apply Run.fails_clean_write.
  intros data. apply Run.never_throws_bind;
    [apply recordTransaction_never_throws|auto with svc].
Qed.

Lemma updateShares_fails_clean id y n v :
  fails_clean (MarketsService.updateShares id y n v).
Proof.
  unfold MarketsService.updateShares, MarketsService.findById.
  apply Run.fails_clean_after_read; [auto with svc|].
  intros [market|]; [|auto with svc].
  unfold MarketsService.updateRow. apply Run.fails_clean_write.
  auto with svc.
Qed.

Lemma createOrUpdate_fails_clean userId marketId side d price isBuy :
  fails_clean (PositionsService.createOrUpdate userId marketId side d price isBuy).
Proof.
  unfold PositionsService.createOrUpdate, PositionsService.findByUserAndMarket.
  apply Run.fails_clean_after_read; [auto with svc|].
  intros [position|].
  - unfold PositionsService.updateRow. apply Run.fails_clean_write. auto with svc.
  - unfold PositionsService.insertRow. apply Run.fails_clean_write. auto with svc.
Qed.

Lemma recordTrade_fails_clean data : fails_clean (TradesService.recordTrade data).
Proof.
  unfold TradesService.recordTrade. apply Run.fails_clean_write. auto with svc.
Qed.

(** *** The steps before the insert do not touch the trade log *)

Ltac frame_step :=
  first
    [ apply (Run.frames_ret same_trades same_trades_refl)
    | apply (Run.frames_throw same_trades same_trades_refl)
    | apply (Run.frames_query same_trades same_trades_refl)
    | apply (Run.frames_bind same_trades same_trades_trans) ].

Lemma recordTransaction_same_trades data :
  frames same_trades (WalletsService.recordTransaction data).
Proof.
  unfold WalletsService.recordTransaction. frame_step; [|intros; frame_step].
  apply (Run.frames_mutate same_trades same_trades_refl).
  intros s a s' E. inversion E. reflexivity.
Qed.

Lemma updateBalance_same_trades walletId newBalance :
  frames same_trades (WalletsService.updateBalance walletId newBalance).
Proof.
  unfold WalletsService.updateBalance.
  apply (Run.frames_mutate same_trades same_trades_refl).
  intros s a s' E.
  destruct (Rlt_dec newBalance 0); [discriminate|].
  destruct (update_single _ _ (wallets s)) as [[row ws]|]; inversion E.
  reflexivity.
Qed.

Lemma deductForTrade_same_trades userId amount marketId :
  frames same_trades (WalletsService.deductForTrade userId amount marketId).
Proof.
  unfold WalletsService.deductForTrade, WalletsService.findByUserId.
  frame_step; [frame_step|].
  intros [wallet|]; [|frame_step].
  destruct (Rlt_dec (Wallet.balance wallet) amount); [frame_step|].
  frame_step; [apply updateBalance_same_trades|].
  intros [data|]; [|frame_step].
  frame_step; [apply recordTransaction_same_trades|intros; frame_step].
Qed.

Lemma addFromTrade_same_trades userId amount marketId :
  frames same_trades (WalletsService.addFromTrade userId amount marketId).
Proof.
  unfold WalletsService.addFromTrade, WalletsService.findByUserId.
  frame_step; [frame_step|].
  intros [wallet|]; [|frame_step].
  frame_step; [apply updateBalance_same_trades|].
  intros [data|]; [|frame_step].
  frame_step; [apply recordTransaction_same_trades|intros; frame_step].
Qed.

Lemma updateShares_same_trades id y n v :
  frames same_trades (MarketsService.updateShares id y n v).
Proof.
  unfold MarketsService.updateShares, MarketsService.findById.
  frame_step; [frame_step|].
  intros [market|]; [|frame_step].
  frame_step.
  - unfold MarketsService.updateRow.
    apply (Run.frames_mutate same_trades same_trades_refl).
    intros s a s' E.
    destruct (update_single _ _ (markets s)) as [[row ms]|]; inversion E.
    reflexivity.
  - intros [data|]; frame_step.
Qed.

Lemma createOrUpdate_same_trades userId marketId side d price isBuy :
  frames same_trades
    (PositionsService.createOrUpdate userId marketId side d price isBuy).
Proof.
  unfold PositionsService.createOrUpdate, PositionsService.findByUserAndMarket.
  frame_step; [frame_step|].
  intros [position|]; frame_step.
  - unfold PositionsService.updateRow.
    apply (Run.frames_mutate same_trades same_trades_refl).
    intros s a s' E.
    destruct (update_single _ _ (positions s)) as [[row ps]|]; inversion E.
    reflexivity.
  - intros [data|]; frame_step.
  - unfold PositionsService.insertRow.
    apply (Run.frames_mutate same_trades same_trades_refl).
    intros s a s' E.
    destruct (filter _ (positions s)); inversion E. reflexivity.
  - intros [data|]; frame_step.
Qed.

(** *** What the steps leave alone, and what they write *)

Lemma keeps_markets_positions_refl s : keeps_markets_positions s s.
Proof. split; reflexivity. Qed.

Lemma keeps_markets_positions_trans s1 s2 s3 :
  keeps_markets_positions s1 s2 -> keeps_markets_positions s2 s3 ->
  keeps_markets_positions s1 s3.
Proof. unfold keeps_markets_positions. intros [? ?] [? ?]. split; congruence. Qed.

Lemma keeps_wallets_positions_refl s : keeps_wallets_positions s s.
Proof. split; reflexivity. Qed.

Lemma keeps_wallets_positions_trans s1 s2 s3 :
  keeps_wallets_positions s1 s2 -> keeps_wallets_positions s2 s3 ->
  keeps_wallets_positions s1 s3.
Proof. unfold keeps_wallets_positions. intros [? ?] [? ?]. split; congruence. Qed.

Lemma keeps_wallets_markets_refl s : keeps_wallets_markets s s.
Proof. split; reflexivity. Qed.

Lemma keeps_wallets_markets_trans s1 s2 s3 :
  keeps_wallets_markets s1 s2 -> keeps_wallets_markets s2 s3 ->
  keeps_wallets_markets s1 s3.
Proof. unfold keeps_wallets_markets. intros [? ?] [? ?]. split; congruence. Qed.

Ltac keep_step Q Q_refl Q_trans :=
  first
    [ apply (Run.frames_ret Q Q_refl)
    | apply (Run.frames_throw Q Q_refl)
    | apply (Run.frames_query Q Q_refl)
    | apply (Run.frames_bind Q Q_trans) ].

Ltac wallet_keep :=
  keep_step keeps_markets_positions keeps_markets_positions_refl
            keeps_markets_positions_trans.

Lemma updateBalance_keeps walletId newBalance :
  frames keeps_markets_positions (WalletsService.updateBalance walletId newBalance).
Proof.
  unfold WalletsService.updateBalance.
  apply (Run.frames_mutate _ keeps_markets_positions_refl).
  intros s a s' E.
  destruct (Rlt_dec newBalance 0); [discriminate|].
  destruct (update_single _ _ (wallets s)) as [[row ws]|]; inversion E.
  split; reflexivity.
Qed.

Lemma recordTransaction_keeps data :
  frames keeps_markets_positions (WalletsService.recordTransaction data).
Proof.
  unfold WalletsService.recordTransaction. wallet_keep; [|intros; wallet_keep].
  apply (Run.frames_mutate _ keeps_markets_positions_refl).
  intros s a s' E. inversion E. split; reflexivity.
Qed.

Lemma deductForTrade_keeps userId amount marketId :
  frames keeps_markets_positions
    (WalletsService.deductForTrade userId amount marketId).
Proof.
  unfold WalletsService.deductForTrade, WalletsService.findByUserId.
  wallet_keep; [wallet_keep|].
  intros [wallet|]; [|wallet_keep].
  destruct (Rlt_dec (Wallet.balance wallet) amount); [wallet_keep|].
  wallet_keep; [apply updateBalance_keeps|].
  intros [data|]; [|wallet_keep].
  wallet_keep; [apply recordTransaction_keeps|intros; wallet_keep].
Qed.

Lemma addFromTrade_keeps userId amount marketId :
  frames keeps_markets_positions
    (WalletsService.addFromTrade userId amount marketId).
Proof.
  unfold WalletsService.addFromTrade, WalletsService.findByUserId.
  wallet_keep; [wallet_keep|].
  intros [wallet|]; [|wallet_keep].
  wallet_keep; [apply updateBalance_keeps|].
  intros [data|]; [|wallet_keep].
  wallet_keep; [apply recordTransaction_keeps|intros; wallet_keep].
Qed.

Lemma updateShares_keeps id y n v :
  frames keeps_wallets_positions (MarketsService.updateShares id y n v).
Proof.
  unfold MarketsService.updateShares, MarketsService.findById.
  keep_step keeps_wallets_positions keeps_wallets_positions_refl
            keeps_wallets_positions_trans;
    [keep_step keeps_wallets_positions keeps_wallets_positions_refl
               keeps_wallets_positions_trans|].
  intros [market|];
    [|keep_step keeps_wallets_positions keeps_wallets_positions_refl
                keeps_wallets_positions_trans].
  keep_step keeps_wallets_positions keeps_wallets_positions_refl
            keeps_wallets_positions_trans.
  - unfold MarketsService.updateRow.
    apply (Run.frames_mutate _ keeps_wallets_positions_refl).
    intros s a s' E.
    destruct (update_single _ _ (markets s)) as [[row ms]|]; inversion E.
    split; reflexivity.
  - intros [data|];
      keep_step keeps_wallets_positions keeps_wallets_positions_refl
                keeps_wallets_positions_trans.
Qed.

Lemma createOrUpdate_keeps userId marketId side d price isBuy :
  frames keeps_wallets_markets
    (PositionsService.createOrUpdate userId marketId side d price isBuy).
Proof.
  unfold PositionsService.createOrUpdate, PositionsService.findByUserAndMarket.
  keep_step keeps_wallets_markets keeps_wallets_markets_refl
            keeps_wallets_markets_trans;
    [keep_step keeps_wallets_markets keeps_wallets_markets_refl
               keeps_wallets_markets_trans|].
  intros [position|];
    keep_step keeps_wallets_markets keeps_wallets_markets_refl
              keeps_wallets_markets_trans.
  - unfold PositionsService.updateRow.
    apply (Run.frames_mutate _ keeps_wallets_markets_refl).
    intros s a s' E.
    destruct (update_single _ _ (positions s)) as [[row ps]|]; inversion E.
    split; reflexivity.
  - intros [data|];
      keep_step keeps_wallets_markets keeps_wallets_markets_refl
                keeps_wallets_markets_trans.
  - unfold PositionsService.insertRow.
    apply (Run.frames_mutate _ keeps_wallets_markets_refl).
    intros s a s' E.
    destruct (filter _ (positions s)); inversion E. split; reflexivity.
  - intros [data|];
      keep_step keeps_wallets_markets keeps_wallets_markets_refl
                keeps_wallets_markets_trans.
Qed.

(** The insert of the ledger row leaves the wallets as they are. *)
Lemma recordTransaction_wallets data w r w' :
  WalletsService.recordTransaction data w = (r, w') ->
  wallets (db w') = wallets (db w).
Proof.
  unfold WalletsService.recordTransaction. intros E.
  destruct (Run.bind_inv _ _ _ _ _ E) as [(o & w1 & E1 & E2)|(e & E1 & _)].
  - inversion E2; subst.
    destruct (Run.mutate_inv _ _ _ _ E1) as [[_ D]|[a [_ Hwr]]].
    + rewrite D. reflexivity.
    + inversion Hwr as [[Ha D]]. reflexivity.
  - exfalso. exact (Run.never_throws_mutate _ _ _ _ E1).
Qed.

(** A write of the balance that succeeds. *)
Lemma updateBalance_ok s userId wallet newBalance w data w' :
  db w = s ->
  lookup_wallet s userId = Some wallet ->
  WalletsService.updateBalance (Wallet.id wallet) newBalance w = (Ok (Some data), w') ->
  wallets (db w')
  = moved_wallets s wallet (newBalance - Wallet.balance wallet).
Proof.
  intros D Hl E. unfold WalletsService.updateBalance in E.
  destruct (Run.mutate_inv _ _ _ _ E) as [[Hd _]|[a [Hd Hwr]]];
    inversion Hd; subst a.
  rewrite D in Hwr.
  destruct (Rlt_dec newBalance 0); [discriminate|].
  unfold update_single in Hwr.
  destruct (single (filter (fun x => Nat.eqb (Wallet.id x) (Wallet.id wallet))
                      (wallets s))) as [r0|]; [|discriminate].
  inversion Hwr as [[Hrow D2]]. cbn [wallets with_wallets].
  unfold moved_wallets, set_balance. apply map_ext. intros x.
  destruct (Nat.eqb (Wallet.id x) (Wallet.id wallet)); [|reflexivity].
  f_equal. lra.
Qed.

Lemma deductForTrade_ok userId amount marketId w r w' :
  WalletsService.deductForTrade userId amount marketId w = (Ok r, w') ->
  exists wallet,
    lookup_wallet (db w) userId = Some wallet
    /\ wallets (db w') = moved_wallets (db w) wallet (- amount).
Proof.
  unfold WalletsService.deductForTrade, WalletsService.findByUserId. intros E.
  destruct (Run.bind_inv _ _ _ _ _ E) as [(o & w1 & E0 & E1)|(e & _ & Hr)];
    [|discriminate].
  pose proof (Run.query_db _ _ _ _ E0) as D1.
  destruct (Run.query_result _ _ _ _ E0) as [Ho|Ho]; inversion Ho; subst o; clear Ho;
    [discriminate|].
  fold (lookup_wallet (db w) userId) in E1.
  destruct (lookup_wallet (db w) userId) as [wallet|] eqn:Hl; [|discriminate].
  exists wallet. split; [reflexivity|].
  cbv zeta in E1.
  destruct (Rlt_dec (Wallet.balance wallet) amount); [discriminate|].
  destruct (Run.bind_inv _ _ _ _ _ E1) as [(data & w2 & E2 & E3)|(e & _ & Hr)];
    [|discriminate].
  destruct data as [data|]; [|discriminate].
  destruct (Run.bind_inv _ _ _ _ _ E3) as [(u0 & w3 & E4 & E5)|(e & _ & Hr)];
    [|discriminate].
  inversion E5; subst.
  rewrite (recordTransaction_wallets _ _ _ _ E4).
  rewrite (updateBalance_ok (db w) userId wallet _ _ _ _ D1 Hl E2).
  f_equal. lra.
Qed.

Lemma addFromTrade_ok userId amount marketId w r w' :
  WalletsService.addFromTrade userId amount marketId w = (Ok r, w') ->
  exists wallet,
    lookup_wallet (db w) userId = Some wallet
    /\ wallets (db w') = moved_wallets (db w) wallet amount.
Proof.
  unfold WalletsService.addFromTrade, WalletsService.findByUserId. intros E.
  destruct (Run.bind_inv _ _ _ _ _ E) as [(o & w1 & E0 & E1)|(e & _ & Hr)];
    [|discriminate].
  pose proof (Run.query_db _ _ _ _ E0) as D1.
  destruct (Run.query_result _ _ _ _ E0) as [Ho|Ho]; inversion Ho; subst o; clear Ho;
    [discriminate|].
  fold (lookup_wallet (db w) userId) in E1.
  destruct (lookup_wallet (db w) userId) as [wallet|] eqn:Hl; [|discriminate].
  exists wallet. split; [reflexivity|].
  cbv zeta in E1.
  destruct (Run.bind_inv _ _ _ _ _ E1) as [(data & w2 & E2 & E3)|(e & _ & Hr)];
    [|discriminate].
  destruct data as [data|]; [|discriminate].
  destruct (Run.bind_inv _ _ _ _ _ E3) as [(u0 & w3 & E4 & E5)|(e & _ & Hr)];
    [|discriminate].
  inversion E5; subst.
  rewrite (recordTransaction_wallets _ _ _ _ E4).
  rewrite (updateBalance_ok (db w) userId wallet _ _ _ _ D1 Hl E2).
  f_equal. lra.
Qed.

Lemma updateShares_ok id y n v w r w' :
  MarketsService.updateShares id y n v w = (Ok r, w') ->
  exists m,
    lookup_market (db w) id = Some m
    /\ markets (db w') = traded_markets (db w) m y n v.
Proof.
  unfold MarketsService.updateShares, MarketsService.findById. intros E.
  destruct (Run.bind_inv _ _ _ _ _ E) as [(o & w1 & E1 & E2)|(e & _ & Hr)];
    [|discriminate].
  pose proof (Run.query_db _ _ _ _ E1) as D1.
  destruct (Run.query_result _ _ _ _ E1) as [Ho|Ho]; inversion Ho; subst o;
    [discriminate|].
  fold (lookup_market (db w) id) in E2.
  destruct (lookup_market (db w) id) as [m|] eqn:Hm; [|discriminate].
  exists m. split; [reflexivity|].
  destruct (Run.bind_inv _ _ _ _ _ E2) as [(o & w2 & E3 & E4)|(e & _ & Hr)];
    [|discriminate].
  unfold MarketsService.updateRow in E3.
  destruct (Run.mutate_inv _ _ _ _ E3) as [[Ho' _]|[a [Ho' Hwr]]];
    inversion Ho'; subst o; [discriminate|].
  inversion E4; subst. rewrite D1 in Hwr.
  unfold lookup_market in Hm.
  rewrite (Run.update_single_found _ _ _ _ Hm) in Hwr.
  injection Hwr as Ha Hdb. rewrite <- Hdb. cbn [markets with_markets].
  unfold traded_markets. apply map_ext_in. intros x Hx.
  apply WalletProofs.single_inv in Hm.
  assert (Hid : Market.id m = id).
  { assert (Hin : In m (filter (fun m0 => Nat.eqb (Market.id m0) id)
                          (markets (db w))))
      by (rewrite Hm; left; reflexivity).
    apply filter_In in Hin. apply Nat.eqb_eq. exact (proj2 Hin). }
  rewrite Hid.
  destruct (Nat.eqb (Market.id x) id) eqn:Ex; [|reflexivity].
  assert (Hin : In x (filter (fun m0 => Nat.eqb (Market.id m0) id)
                        (markets (db w))))
    by (apply filter_In; split; assumption).
  rewrite Hm in Hin. destruct Hin as [<-|[]]. reflexivity.
Qed.

Lemma createOrUpdate_ok userId marketId side d price isBuy w r w' :
  PositionsService.createOrUpdate userId marketId side d price isBuy w = (Ok r, w') ->
  In r (positions (db w')).
Proof.
  unfold PositionsService.createOrUpdate, PositionsService.findByUserAndMarket.
  intros E.
  destruct (Run.bind_inv _ _ _ _ _ E) as [(o & w1 & E1 & E2)|(e & _ & Hr)];
    [|discriminate].
  destruct o as [position|].
  - destruct (Run.bind_inv _ _ _ _ _ E2) as [(o & w2 & E3 & E4)|(e & _ & Hr)];
      [|discriminate].
    unfold PositionsService.updateRow in E3.
    destruct (Run.mutate_inv _ _ _ _ E3) as [[Ho _]|[a [Ho Hwr]]];
      inversion Ho; subst o; [discriminate|].
    inversion E4; subst.
    unfold update_single in Hwr.
    destruct (single (filter (fun p => Nat.eqb (Position.id p) (Position.id position))
                        (positions (db w1)))) as [r0|] eqn:Hs; [|discriminate].
    injection Hwr as Ha Hdb. rewrite <- Hdb, <- Ha. cbn [positions with_positions].
    apply WalletProofs.single_inv in Hs.
    assert (Hin : In r0 (filter (fun p => Nat.eqb (Position.id p) (Position.id position))
                           (positions (db w1))))
      by (rewrite Hs; left; reflexivity).
    apply filter_In in Hin. destruct Hin as [Hin Hp].
    apply in_map_iff. exists r0. split; [|exact Hin].
    cbv beta. rewrite Hp. reflexivity.
  - destruct (Run.bind_inv _ _ _ _ _ E2) as [(o & w2 & E3 & E4)|(e & _ & Hr)];
      [|discriminate].
    unfold PositionsService.insertRow in E3.
    destruct (Run.mutate_inv _ _ _ _ E3) as [[Ho _]|[a [Ho Hwr]]];
      inversion Ho; subst o; [discriminate|].
    inversion E4; subst.
    destruct (filter _ (positions (db w1))); [|discriminate].
    injection Hwr as Ha Hdb. rewrite <- Hdb, <- Ha. cbn [positions with_positions].
    apply in_or_app. right. left. reflexivity.
Qed.

(** *** The four steps in sequence *)

(** The tail shared by executeBuy and executeSell: wallet step, market
    step, position step, insert of the trade row. *)
Lemma steps_stopped {R3 : Type} (userId marketId : Id) (signed y n v : R)
    (walletStep : M Wallet.Row) (marketStep : M Market.Row)
    (positionStep : M Position.Row)
    (data : Trade.Row) (k : Trade.Row -> M R3) w0 e w' :
  fails_clean walletStep -> fails_clean marketStep -> fails_clean positionStep ->
  frames same_trades walletStep -> frames same_trades marketStep ->
  frames same_trades positionStep ->
  frames keeps_markets_positions walletStep ->
  frames keeps_wallets_positions marketStep ->
  frames keeps_wallets_markets positionStep ->
  (forall w r w3, walletStep w = (Ok r, w3) ->
     exists wallet, lookup_wallet (db w) userId = Some wallet
                    /\ wallets (db w3) = moved_wallets (db w) wallet signed) ->
  (forall w r w4, marketStep w = (Ok r, w4) ->
     exists m, lookup_market (db w) marketId = Some m
               /\ markets (db w4) = traded_markets (db w) m y n v) ->
  (forall w r w5, positionStep w = (Ok r, w5) -> In r (positions (db w5))) ->
  (forall t, never_throws (k t)) ->
  bind walletStep (fun _ =>
    bind marketStep (fun _ =>
      bind positionStep (fun _ =>
        bind (TradesService.recordTrade data) k))) w0 = (Throw e, w') ->
  trades (db w') = trades (db w0)
  /\ stopped w0 w' e userId marketId signed y n v
       walletStep marketStep positionStep data.
Proof.
  intros C3 C4 C5 F3 F4 F5 K3 K4 K5 O3 O4 O5 Hk E.
  destruct (Run.bind_inv _ _ _ _ _ E) as [(r3 & w3 & E3 & Ea)|(e3 & E3 & He)].
  2:{ inversion He; subst e3. split; [rewrite (C3 _ _ _ E3); reflexivity|].
      left. split; [exact E3|exact (C3 _ _ _ E3)]. }
  pose proof (F3 _ _ _ E3) as T3. unfold same_trades in T3.
  destruct (K3 _ _ _ E3) as [M3 P3].
  destruct (O3 _ _ _ E3) as (wallet & Hl & W3).
  destruct (Run.bind_inv _ _ _ _ _ Ea) as [(r4 & w4 & E4 & Eb)|(e4 & E4 & He)].
  2:{ inversion He; subst e4. pose proof (C4 _ _ _ E4) as D4.
      split; [rewrite D4; exact T3|].
      right. exists r3, w3, wallet. split; [exact E3|]. split; [exact Hl|].
      split; [rewrite D4; exact W3|].
      left. split; [exact E4|]. split; [exact D4|].
      rewrite D4. split; assumption. }
  pose proof (F4 _ _ _ E4) as T4. unfold same_trades in T4.
  destruct (K4 _ _ _ E4) as [W4 P4].
  destruct (O4 _ _ _ E4) as (m & Hm & M4).
  assert (Hm0 : lookup_market (db w0) marketId = Some m)
    by (unfold lookup_market in *; rewrite <- M3; exact Hm).
  assert (M4' : markets (db w4) = traded_markets (db w0) m y n v)
    by (rewrite M4; unfold traded_markets; rewrite M3; reflexivity).
  destruct (Run.bind_inv _ _ _ _ _ Eb) as [(r5 & w5 & E5 & Ec)|(e5 & E5 & He)].
  2:{ inversion He; subst e5. pose proof (C5 _ _ _ E5) as D5.
      split; [rewrite D5; congruence|].
      right. exists r3, w3, wallet. split; [exact E3|]. split; [exact Hl|].
      split; [rewrite D5, W4; exact W3|].
      right. exists r4, w4, m. split; [exact E4|]. split; [exact Hm0|].
      split; [rewrite D5; exact M4'|].
      left. split; [exact E5|]. split; [exact D5|].
      rewrite D5. congruence. }
  pose proof (F5 _ _ _ E5) as T5. unfold same_trades in T5.
  destruct (K5 _ _ _ E5) as [W5 M5].
  pose proof (O5 _ _ _ E5) as P5.
  destruct (Run.bind_inv _ _ _ _ _ Ec) as [(t & w6 & E6 & E7)|(e6 & E6 & He)].
  1:{ exfalso. exact (Hk t w6 e w' E7). }
  inversion He; subst e6.
  pose proof (recordTrade_fails_clean data _ _ _ E6) as D6.
  split; [rewrite D6; congruence|].
  right. exists r3, w3, wallet. split; [exact E3|]. split; [exact Hl|].
  split; [rewrite D6, W5, W4; exact W3|].
  right. exists r4, w4, m. split; [exact E4|]. split; [exact Hm0|].
  split; [rewrite D6, M5; exact M4'|].
  right. exists r5, w5. split; [exact E5|]. split; [exact E6|].
  split; [exact D6|]. rewrite D6. exact P5.
Qed.

(** *** A buy whose trade row cannot be inserted *)

Lemma fresh_quote_affordable :
  AMM.cost_ (AMM.calculateBuyCost Sample.fresh_state yes 1 (Some 1000)) <= 100.
Proof.
  pose proof (AMMProofs.calculateBuyCost_upper Sample.fresh_state yes 1 1000
                ltac:(lra) ltac:(lra)) as H.
  unfold AMM.FEE_RATE in H. lra.
Qed.

Lemma buy_stopped_at_trade_insert :
  let r := AMM.calculateBuyCost Sample.fresh_state yes 1 (Some 1000) in
  TradesService.executeBuy 7%nat (Sample.market3 active None 0 0)
    Sample.fresh_state Sample.buy_one_share Sample.trade_insert_fails
  = (Throw (Error RecordTradeFailed),
     {| db :=
          {| wallets := [Sample.wallet_of 1%nat 7%nat (100 - AMM.cost_ r)];
             wallet_transactions :=
               [{| WalletTransaction.wallet_id := 1%nat;
                   WalletTransaction.type := trade_tx;
                   WalletTransaction.amount := - AMM.cost_ r;
                   WalletTransaction.balance_before := 100;
                   WalletTransaction.balance_after := 100 - AMM.cost_ r;
                   WalletTransaction.reference_id := Some 3%nat |}];
             markets :=
               [{| Market.id := 3%nat; Market.status := active;
                   Market.outcome := None;
                   Market.yes_shares := 0 + 1; Market.no_shares := 0;
                   Market.liquidity := 1000; Market.volume := 0 + AMM.cost_ r;
                   Market.start_time := 0%Z; Market.end_time := 1000%Z;
                   Market.resolved_at := None |}];
             positions :=
               [Sample.position_of 100%nat 7%nat 1 0 (AMM.avgPrice r) 0];
             trades := [];
             next_id := 101%nat |};
        faults := [] |}).
Proof.
  cbv zeta. pose proof fresh_quote_affordable as Hc.
  unfold TradesService.executeBuy, TradesService.buyQuote.
  cbn [TradesService.amount TradesService.shares TradesService.side
       Sample.buy_one_share Num.truthy].
  destruct (Req_EM_T 1 0) as [?|_]; [exfalso; lra|]. cbv iota beta.
  destruct (Rle_dec 1 0) as [?|_]; [exfalso; lra|].
  change (AMM.getLiquidityForMarket
            (Market.liquidity (Sample.market3 active None 0 0))) with 1000.
  assert (Hy : AMM.newYesShares
                 (AMM.calculateBuyCost Sample.fresh_state yes 1 (Some 1000))
               = 0 + 1) by reflexivity.
  assert (Hn : AMM.newNoShares
                 (AMM.calculateBuyCost Sample.fresh_state yes 1 (Some 1000))
               = 0) by reflexivity.
  revert Hc Hy Hn.
  generalize (AMM.calculateBuyCost Sample.fresh_state yes 1 (Some 1000)) as r.
  intros r Hc Hy Hn.
  unfold WalletsService.deductForTrade, WalletsService.findByUserId, bind.
  erewrite Run.query_at by reflexivity. cbn [db faults].
  change (single _) with (Some (Sample.wallet_of 1%nat 7%nat 100)).
  cbv iota beta.
  change (Wallet.balance (Sample.wallet_of 1%nat 7%nat 100)) with 100.
  Run.run_concrete. rewrite Hy, Hn. reflexivity.
Qed.

End ExecutorProofs.

(** C1, as amended.  The services run without a database transaction.
    When executeBuy or executeSell throws, the trade log is as before the
    call.  When a check threw, or the wallet step, the store is as before
    the call.  Otherwise the store is the one left by the last of the
    steps wallet debit/credit, market share update, position upsert that
    completed, and the steps completed before the failing one are not
    undone: when the market share update throws, the balance of the user
    stays moved; when the position upsert throws, the balance stays moved
    and the market row keeps its new quantities and volume; when the
    insert of the trade row throws, the position row written stays as
    well.  Each of the steps writes nothing when it is the one that
    throws. *)
Theorem failed_trade_keeps_completed_steps :
  forall (w : World) (userId : Id) (market : Market.Row)
         (state : AMM.AMMState) (dto : TradesService.ExecuteTradeDto)
         (e : Exception) (w' : World),
    let marketId := Market.id market in
    let liquidityParam := AMM.getLiquidityForMarket (Market.liquidity market) in
    (TradesService.executeBuy userId market state dto w = (Throw e, w') ->
       trades (db w') = trades (db w)
       /\ match TradesService.buyQuote state liquidityParam dto with
          | None => db w' = db w
          | Some (shares, cost, avgPrice) =>
            if Rle_dec shares 0 then db w' = db w
            else
              let buyResult :=
                AMM.calculateBuyCost state (TradesService.side dto) shares
                  (Some liquidityParam) in
              exists data,
                stopped w w' e userId marketId (- cost)
                  (AMM.newYesShares buyResult) (AMM.newNoShares buyResult) cost
                  (WalletsService.deductForTrade userId cost marketId)
                  (MarketsService.updateShares marketId
                     (AMM.newYesShares buyResult) (AMM.newNoShares buyResult)
                     cost)
                  (PositionsService.createOrUpdate userId marketId
                     (TradesService.side dto) shares avgPrice true)
                  data
          end)
    /\ (TradesService.executeSell userId market state dto w = (Throw e, w') ->
       trades (db w') = trades (db w)
       /\ match Num.truthy (TradesService.shares dto) with
          | None => db w' = db w
          | Some shares =>
            if Rle_dec shares 0 then db w' = db w
            else
              exists position w0,
                PositionsService.findByUserAndMarket userId marketId w
                = (Ok position, w0)
                /\ db w0 = db w
                /\ match position with
                   | None => db w' = db w
                   | Some position =>
                     if Rlt_dec (side_shares (TradesService.side dto) position)
                                shares
                     then db w' = db w
                     else
                       match AMM.calculateSellReturn state
                               (TradesService.side dto) shares
                               (Some liquidityParam) with
                       | inl _ => db w' = db w
                       | inr sellResult =>
                         exists data,
                           stopped w0 w' e userId marketId
                             (AMM.amountReceived sellResult)
                             (AMM.s_newYesShares sellResult)
                             (AMM.s_newNoShares sellResult)
                             (AMM.amountReceived sellResult)
                             (WalletsService.addFromTrade userId
                                (AMM.amountReceived sellResult) marketId)
                             (MarketsService.updateShares marketId
                                (AMM.s_newYesShares sellResult)
                                (AMM.s_newNoShares sellResult)
                                (AMM.amountReceived sellResult))
                             (PositionsService.createOrUpdate userId marketId
                                (TradesService.side dto) shares
                                (AMM.s_avgPrice sellResult) false)
                             data
                       end
                   end
          end)
    /\ (forall u a m, fails_clean (WalletsService.deductForTrade u a m))
    /\ (forall u a m, fails_clean (WalletsService.addFromTrade u a m))
    /\ (forall m y n v, fails_clean (MarketsService.updateShares m y n v))
    /\ (forall u m sd d p b,
          fails_clean (PositionsService.createOrUpdate u m sd d p b)).
Proof.
  intros w userId market state dto e w' marketId liquidityParam.
  split; [|split; [|repeat split]].
  - (* buy *)
    unfold TradesService.executeBuy. fold liquidityParam.
    destruct (TradesService.buyQuote state liquidityParam dto)
      as [[[shares cost] avgPrice]|] eqn:Q.
    2:{ intros E. inversion E; subst. split; reflexivity. }
    destruct (Rle_dec shares 0).
    1:{ intros E. inversion E; subst. split; reflexivity. }
    intros E. cbv zeta in E.
    apply (ExecutorProofs.steps_stopped userId marketId (- cost)
             (AMM.newYesShares
                (AMM.calculateBuyCost state (TradesService.side dto) shares
                   (Some liquidityParam)))
             (AMM.newNoShares
                (AMM.calculateBuyCost state (TradesService.side dto) shares
                   (Some liquidityParam)))
             cost) in E.
    + destruct E as [T L]. split; [exact T|]. eexists. exact L.
    + apply ExecutorProofs.deductForTrade_fails_clean.
    + apply ExecutorProofs.updateShares_fails_clean.
    + apply ExecutorProofs.createOrUpdate_fails_clean.
    + apply ExecutorProofs.deductForTrade_same_trades.
    + apply ExecutorProofs.updateShares_same_trades.
    + apply ExecutorProofs.createOrUpdate_same_trades.
    + apply ExecutorProofs.deductForTrade_keeps.
    + apply ExecutorProofs.updateShares_keeps.
    + apply ExecutorProofs.createOrUpdate_keeps.
    + intros. eapply ExecutorProofs.deductForTrade_ok. eassumption.
    + intros. eapply ExecutorProofs.updateShares_ok. eassumption.
    + intros. eapply ExecutorProofs.createOrUpdate_ok. eassumption.
    + intros t. apply Run.never_throws_ret.
  - (* sell *)
    unfold TradesService.executeSell.
    destruct (Num.truthy (TradesService.shares dto)) as [shares|] eqn:Q.
    2:{ intros E. inversion E; subst. split; reflexivity. }
    destruct (Rle_dec shares 0).
    1:{ intros E. inversion E; subst. split; reflexivity. }
    intros E.
    destruct (Run.bind_inv _ _ _ _ _ E) as [(position & w0 & E0 & E1)|(e0 & E0 & _)].
    2:{ exfalso. unfold PositionsService.findByUserAndMarket in E0.
        exact (Run.never_throws_query _ _ _ _ E0). }
    assert (D0 : db w0 = db w).
    { unfold PositionsService.findByUserAndMarket in E0.
      exact (Run.query_db _ _ _ _ E0). }
    fold marketId in E0.
    destruct position as [position|].
    2:{ inversion E1; subst. split; [congruence|].
        eexists. eexists. split; [exact E0|]. split; [exact D0|exact D0]. }
    change (match TradesService.side dto with
            | yes => Position.yes_shares position
            | no => Position.no_shares position
            end) with (side_shares (TradesService.side dto) position) in E1.
    cbv zeta in E1.
    destruct (Rlt_dec (side_shares (TradesService.side dto) position) shares)
      as [Hlt|Hge] eqn:Hdec.
    1:{ inversion E1; subst. split; [congruence|].
        eexists. eexists. split; [exact E0|]. split; [exact D0|].
        cbv beta iota. rewrite Hdec. exact D0. }
    fold liquidityParam in E1.
    destruct (AMM.calculateSellReturn state (TradesService.side dto) shares
                (Some liquidityParam)) as [err|sellResult] eqn:S.
    1:{ inversion E1; subst. split; [congruence|].
        eexists. eexists. split; [exact E0|]. split; [exact D0|].
        cbv beta iota. rewrite Hdec. exact D0. }
    apply (ExecutorProofs.steps_stopped userId marketId
             (AMM.amountReceived sellResult) (AMM.s_newYesShares sellResult)
             (AMM.s_newNoShares sellResult) (AMM.amountReceived sellResult))
      in E1.
    + destruct E1 as [T L]. split; [congruence|].
      exists (Some position), w0. split; [exact E0|]. split; [exact D0|].
      rewrite Hdec. eexists. exact L.
    + apply ExecutorProofs.addFromTrade_fails_clean.
    + apply ExecutorProofs.updateShares_fails_clean.
    + apply ExecutorProofs.createOrUpdate_fails_clean.
    + apply ExecutorProofs.addFromTrade_same_trades.
    + apply ExecutorProofs.updateShares_same_trades.
    + apply ExecutorProofs.createOrUpdate_same_trades.
    + apply ExecutorProofs.addFromTrade_keeps.
    + apply ExecutorProofs.updateShares_keeps.
    + apply ExecutorProofs.createOrUpdate_keeps.
    + intros. eapply ExecutorProofs.addFromTrade_ok. eassumption.
    + intros. eapply ExecutorProofs.updateShares_ok. eassumption.
    + intros. eapply ExecutorProofs.createOrUpdate_ok. eassumption.
    + intros t. apply Run.never_throws_ret.
  - intros. apply ExecutorProofs.deductForTrade_fails_clean.
  - intros. apply ExecutorProofs.addFromTrade_fails_clean.
  - intros. apply ExecutorProofs.updateShares_fails_clean.
  - intros. apply ExecutorProofs.createOrUpdate_fails_clean.
Qed.

Lemma failed_trade_keeps_completed_steps_witness :
  exists w',
    TradesService.executeBuy 7%nat (Sample.market3 active None 0 0)
      Sample.fresh_state Sample.buy_one_share Sample.trade_insert_fails
    = (Throw (Error RecordTradeFailed), w')
    /\ trades (db w') = trades (db Sample.trade_insert_fails).
Proof.
  eexists. split; [exact ExecutorProofs.buy_stopped_at_trade_insert|].
  exact (proj1 (proj1 (failed_trade_keeps_completed_steps
                         Sample.trade_insert_fails 7%nat
                         (Sample.market3 active None 0 0) Sample.fresh_state
                         Sample.buy_one_share _ _)
                  ExecutorProofs.buy_stopped_at_trade_insert)).
Defined.

(** C1 fails as stated: a buy of one YES share on the fresh market, run
    where the insert of the trade row is rejected, throws, and leaves the
    market with q_yes = 0 + 1 and a volume raised by the cost, the user
    with a position of one share and a wallet debited by the cost; only
    the trade log is as before. *)
Lemma failed_buy_leaves_partial_state :
  let w := Sample.trade_insert_fails in
  let cost :=
    AMM.cost_ (AMM.calculateBuyCost Sample.fresh_state yes 1 (Some 1000)) in
  exists e w' m' p',
    TradesService.executeBuy 7%nat (Sample.market3 active None 0 0)
      Sample.fresh_state Sample.buy_one_share w = (Throw e, w')
    /\ lookup_market (db w) 3%nat = Some (Sample.market3 active None 0 0)
    /\ lookup_market (db w') 3%nat = Some m'
    /\ Market.yes_shares m' = 0 + 1
    /\ Market.yes_shares m' <> Market.yes_shares (Sample.market3 active None 0 0)
    /\ Market.volume m' = 0 + cost
    /\ lookup_position (db w) 7%nat 3%nat = None
    /\ lookup_position (db w') 7%nat 3%nat = Some p'
    /\ Position.yes_shares p' = 1
    /\ balance_of (db w) 7%nat = Some 100
    /\ balance_of (db w') 7%nat = Some (100 - cost)
    /\ trades (db w') = trades (db w).
Proof.
  cbv zeta. eexists. eexists. eexists. eexists.
  split; [exact ExecutorProofs.buy_stopped_at_trade_insert|].
  cbn -[IZR Rminus Rplus].
  split; [reflexivity|]. split; [reflexivity|]. split; [reflexivity|].
  split; [cbn [Market.yes_shares]; intros H; lra|]. repeat split; reflexivity.
Qed.

(** ** Buy by amount (amm.service.ts, calculateSharesForAmount) *)

Module BisectProofs.

Section Loop.

Variables (state : AMM.AMMState) (side : Side) (amount : R)
          (liquidity : option R).

Let target := amount / (1 + AMM.FEE_RATE).

(** The cost that the loop compares with its target is the fee-free cost
    of the specification. *)
Lemma costWithoutFee_is_fee_free mid :
  AMM.costWithoutFee state side liquidity mid
  = fee_free_cost state side liquidity mid.
Proof.
  unfold AMM.costWithoutFee, AMM.calculateBuyCost, fee_free_cost, raw_cost,
    lmsr_cost, AMM.cost, AMM.DEFAULT_LIQUIDITY, AMM.FEE_RATE, fee_rate.
  cbv zeta. cbn [AMM.cost_].
  destruct side;
    match goal with
    | |- Num.toFixed6 ?a / _ = Num.toFixed6 ?b / _ =>
      replace a with b by lra; reflexivity
    end.
Qed.

(** The loop started on the bracket reached after [k] halvings, with [n]
    iterations left, stops on a bracket reached after at most [k + n]
    halvings and returns its midpoint. *)
Lemma bisect_reaches n :
  forall k low high,
    bisection state side amount liquidity k (low, high) ->
    exists k' bracket,
      (k <= k' <= k + n)%nat
      /\ bisection state side amount liquidity k' bracket
      /\ (k' = (k + n)%nat
          \/ converged state side amount liquidity (midpoint bracket))
      /\ AMM.bisect state side amount liquidity target n low high
         = {| AMM.shares := Num.toFixed6 (midpoint bracket);
              AMM.a_avgPrice := Num.toFixed6 (amount / midpoint bracket) |}.
Proof.
  induction n as [|n IH]; intros k low high Hb.
  - exists k, (low, high). split; [lia|]. split; [exact Hb|].
    split; [left; lia|]. reflexivity.
  - cbn [AMM.bisect]. cbv zeta.
    change ((low + high) / 2) with (midpoint (low, high)).
    change AMM.tolerance with (1 / 10000).
    rewrite costWithoutFee_is_fee_free.
    change target with (amount / (1 + fee_rate)).
    destruct (Rlt_dec (Rabs (fee_free_cost state side liquidity
                               (midpoint (low, high))
                             - amount / (1 + fee_rate))) (1 / 10000))
      as [Hc|Hc].
    + exists k, (low, high). split; [lia|]. split; [exact Hb|].
      split; [right; exact Hc|]. reflexivity.
    + destruct (Rlt_dec (fee_free_cost state side liquidity
                           (midpoint (low, high)))
                        (amount / (1 + fee_rate))) as [Hlt|Hge].
      * destruct (IH (S k) _ _ (bisection_raise _ _ _ _ k low high Hb Hc Hlt))
          as (k' & br & Hk & Hb' & Hend & E).
        exists k', br. split; [lia|]. split; [exact Hb'|].
        split; [destruct Hend as [->|H]; [left; lia|right; exact H]|exact E].
      * destruct (IH (S k) _ _ (bisection_lower _ _ _ _ k low high Hb Hc Hge))
          as (k' & br & Hk & Hb' & Hend & E).
        exists k', br. split; [lia|]. split; [exact Hb'|].
        split; [destruct Hend as [->|H]; [left; lia|right; exact H]|exact E].
Qed.

(** Every bracket of the bisection has the width of the first one halved
    [k] times. *)
Lemma bisection_width k bracket :
  bisection state side amount liquidity k bracket ->
  snd bracket - fst bracket = amount * 10 / 2 ^ k.
Proof.
  induction 1 as [|k low high Hb IH Hc Hlt|k low high Hb IH Hc Hge];
    cbn [fst snd pow] in *; unfold midpoint; cbn [fst snd].
  - lra.
  - assert (Hp : 0 < 2 ^ k) by (apply pow_lt; lra). field_simplify_eq; [|lra].
    apply (f_equal (fun x => x * 2 ^ k)) in IH.
    unfold Rdiv in IH. rewrite Rmult_assoc, Rinv_l in IH by lra. lra.
  - assert (Hp : 0 < 2 ^ k) by (apply pow_lt; lra). field_simplify_eq; [|lra].
    apply (f_equal (fun x => x * 2 ^ k)) in IH.
    unfold Rdiv in IH. rewrite Rmult_assoc, Rinv_l in IH by lra. lra.
Qed.

End Loop.

(** With the fee taken out again, the quote of [mid] shares is at most
    [mid], up to the rounding. *)
Lemma costWithoutFee_upper state side l mid :
  0 < l -> 0 <= mid ->
  AMM.costWithoutFee state side (Some l) mid <= mid + 5 / 10000000.
Proof.
  intros Hl Hm. unfold AMM.costWithoutFee.
  pose proof (AMMProofs.calculateBuyCost_upper state side mid l Hl Hm) as H.
  unfold AMM.FEE_RATE in *.
  apply (Rmult_le_reg_r (1 + 2 / 100)); [lra|].
  unfold Rdiv at 1. rewrite Rmult_assoc, Rinv_l by lra. lra.
Qed.

(** The bisection cannot end far below the target: a share count costs at
    most itself, so every upper end and every accepted midpoint is at least
    [target - 1e-4 - 5e-7]. *)
Lemma bisect_shares_lower state side amount l floor n :
  0 < l -> 0 <= floor ->
  floor <= amount / (1 + AMM.FEE_RATE) - 1 / 10000 - 5 / 10000000 ->
  forall low high,
    0 <= low -> low <= high -> floor <= high ->
    Num.toFixed6 (floor / 2)
    <= AMM.shares (AMM.bisect state side amount (Some l)
                     (amount / (1 + AMM.FEE_RATE)) n low high).
Proof.
  intros Hl Hf Hfl. induction n as [|n IH]; intros low high H0 Hlh Hh.
  - cbn [AMM.bisect AMM.shares]. cbv zeta. cbn [AMM.shares].
    apply NumProofs.toFixed6_mono. lra.
  - cbn [AMM.bisect]. cbv zeta.
    pose proof (costWithoutFee_upper state side l ((low + high) / 2) Hl
                  ltac:(lra)) as Hc.
    set (c := AMM.costWithoutFee state side (Some l) ((low + high) / 2)) in *.
    set (target := amount / (1 + AMM.FEE_RATE)) in *.
    unfold AMM.tolerance.
    destruct (Rlt_dec (Rabs (c - target)) (1 / 10000)) as [Hconv|Hconv].
    + cbn [AMM.shares]. apply NumProofs.toFixed6_mono.
      apply Rabs_def2 in Hconv. lra.
    + destruct (Rlt_dec c target) as [Hlt|Hge].
      * apply IH; lra.
      * assert (Habs : 1 / 10000 <= Rabs (c - target)) by lra.
        rewrite Rabs_right in Habs by lra.
        apply IH; lra.
Qed.

(** Ten units buy at least 4.9 shares, whatever the state of a market
    with positive liquidity. *)
Lemma ten_units_buy_shares state side l :
  0 < l ->
  49 / 10 <= AMM.shares (AMM.calculateSharesForAmount state side 10 (Some l)).
Proof.
  intros Hl. unfold AMM.calculateSharesForAmount. cbv zeta.
  replace (49 / 10) with (Num.toFixed6 ((98 / 10) / 2)).
  - apply bisect_shares_lower; unfold AMM.FEE_RATE; lra.
  - replace (98 / 10 / 2) with (IZR 4900000 / 1000000) by lra.
    rewrite NumProofs.toFixed6_exact. lra.
Qed.

End BisectProofs.

(** C9.  calculateSharesForAmount bisects the share count over the bracket
    [0, amount * 10]: it returns the midpoint of a bracket reached after k
    halvings, k <= 100, none of whose earlier midpoints passed the stopping
    test, each halving keeping the half on the side of the target; it
    stops there because the fee-free cost of that midpoint is within 1e-4
    of amount / (1 + fee_rate), or because k = 100; the returned shares are
    that midpoint rounded to six digits and the returned average price is
    amount / midpoint (rounded to six digits as every output of the
    engine).  The fee-free cost is the total cost of the quote,
    raw_cost * (1 + fee_rate) rounded to six digits, divided by
    1 + fee_rate; it is within half a unit of the sixth digit of the
    raw_cost C(q + delta) - C(q) of the specification. *)
Theorem calculateSharesForAmount_bisects :
  forall (state : AMM.AMMState) (side : Side) (amount : R)
         (liquidity : option R),
  (exists (k : nat) (bracket : R * R),
     (k <= 100)%nat
     /\ bisection state side amount liquidity k bracket
     /\ snd bracket - fst bracket = amount * 10 / 2 ^ k
     /\ (k = 100%nat
         \/ converged state side amount liquidity (midpoint bracket))
     /\ AMM.calculateSharesForAmount state side amount liquidity
        = {| AMM.shares := Num.toFixed6 (midpoint bracket);
             AMM.a_avgPrice := Num.toFixed6 (amount / midpoint bracket) |})
  /\ (forall delta,
        Rabs (fee_free_cost state side liquidity delta
              - raw_cost state side liquidity delta) <= 5 / 10000000).
Proof.
  intros state side amount liquidity. split.
  - destruct (BisectProofs.bisect_reaches state side amount liquidity 100 0%nat
                0 (amount * 10) (bisection_start _ _ _ _))
      as (k & br & Hk & Hb & Hend & E).
    exists k, br. split; [lia|]. split; [exact Hb|].
    split; [exact (BisectProofs.bisection_width _ _ _ _ k br Hb)|].
    split; [destruct Hend as [->|H]; [left; reflexivity|right; exact H]|].
    exact E.
  - intros delta. unfold fee_free_cost, fee_rate.
    set (raw := raw_cost state side liquidity delta).
    pose proof (NumProofs.toFixed6_near (raw * (1 + 2 / 100))) as [Hlo Hhi].
    set (t := Num.toFixed6 (raw * (1 + 2 / 100))) in *.
    apply Rabs_le. split; lra.
Qed.

(** C4, as amended.  A trade request that supplies neither amount nor
    shares fails with InvalidTrade and the world is left as it was.  A
    request that supplies both is not rejected: a buy runs as the buy by
    amount (the shares are not read), a sell runs by shares (the amount is
    never read; a sell without shares fails with InvalidTrade). *)
Theorem amount_and_shares :
  forall (w : World) (userId : Id) (market : Market.Row)
         (state : AMM.AMMState) (dto : TradesService.ExecuteTradeDto),
    (~ supplied (TradesService.amount dto) ->
     ~ supplied (TradesService.shares dto) ->
       refused w KInvalidTrade
         (TradesService.executeBuy userId market state dto w)
       /\ refused w KInvalidTrade
            (TradesService.executeSell userId market state dto w))
    /\ (supplied (TradesService.amount dto) ->
        TradesService.executeBuy userId market state dto
        = TradesService.executeBuy userId market state (without_shares dto))
    /\ TradesService.executeSell userId market state dto
       = TradesService.executeSell userId market state (without_amount dto)
    /\ (~ supplied (TradesService.shares dto) ->
        refused w KInvalidTrade
          (TradesService.executeSell userId market state dto w)).
Proof.
  intros w userId market state dto.
  assert (Hsell : ~ supplied (TradesService.shares dto) ->
                  refused w KInvalidTrade
                    (TradesService.executeSell userId market state dto w)).
  { unfold supplied. intros Hs. unfold TradesService.executeSell.
    destruct (Num.truthy (TradesService.shares dto)) as [x|];
      [exfalso; apply Hs; discriminate|].
    eexists. split; reflexivity. }
  split; [|split; [|split]].
  - unfold supplied. intros Ha Hs. split; [|exact (Hsell Hs)].
    unfold TradesService.executeBuy, TradesService.buyQuote.
    destruct (Num.truthy (TradesService.amount dto)) as [x|];
      [exfalso; apply Ha; discriminate|].
    destruct (Num.truthy (TradesService.shares dto)) as [x|];
      [exfalso; apply Hs; discriminate|].
    eexists. split; reflexivity.
  - unfold supplied. intros Ha.
    unfold TradesService.executeBuy, TradesService.buyQuote, without_shares.
    cbn [TradesService.amount TradesService.shares TradesService.side].
    destruct (Num.truthy (TradesService.amount dto)) as [x|];
      [reflexivity|exfalso; apply Ha; reflexivity].
  - reflexivity.
  - exact Hsell.
Qed.

Lemma amount_and_shares_witness :
  supplied (TradesService.amount Sample.buy_with_both)
  /\ TradesService.executeBuy 7%nat (Sample.market3 active None 0 0)
       Sample.fresh_state Sample.buy_with_both
     = TradesService.executeBuy 7%nat (Sample.market3 active None 0 0)
         Sample.fresh_state (without_shares Sample.buy_with_both).
Proof.
  assert (Hs : supplied (TradesService.amount Sample.buy_with_both)).
  { unfold supplied. cbn. destruct (Req_EM_T 10 0); [lra|discriminate]. }
  split; [exact Hs|].
  exact (proj1 (proj2 (amount_and_shares
                         {| db := Sample.fresh; faults := [] |} 7%nat
                         (Sample.market3 active None 0 0) Sample.fresh_state
                         Sample.buy_with_both)) Hs).
Defined.

(** C4 fails as stated for a request that supplies both fields: the buy
    with amount 10 and shares 1 on the fresh market is executed; it debits
    the 10 units and appends a trade row of cost 10. *)
Lemma buy_with_both_is_executed :
  let w := {| db := Sample.fresh; faults := [] |} in
  supplied (TradesService.amount Sample.buy_with_both)
  /\ supplied (TradesService.shares Sample.buy_with_both)
  /\ exists x w' t,
       TradesService.executeBuy 7%nat (Sample.market3 active None 0 0)
         Sample.fresh_state Sample.buy_with_both w = (Ok x, w')
       /\ trades (db w) = []
       /\ trades (db w') = [t]
       /\ Trade.cost t = 10
       /\ balance_of (db w') 7%nat = Some (100 - 10).
Proof.
  cbv zeta.
  split; [unfold supplied; cbn; destruct (Req_EM_T 10 0); [lra|discriminate]|].
  split; [unfold supplied; cbn; destruct (Req_EM_T 1 0); [lra|discriminate]|].
  unfold TradesService.executeBuy, TradesService.buyQuote.
  cbn [TradesService.amount TradesService.shares TradesService.side
       Sample.buy_with_both Num.truthy].
  destruct (Req_EM_T 10 0) as [?|_]; [exfalso; lra|]. cbv iota beta.
  change (AMM.getLiquidityForMarket
            (Market.liquidity (Sample.market3 active None 0 0))) with 1000.
  pose proof (BisectProofs.ten_units_buy_shares Sample.fresh_state yes 1000
                ltac:(lra)) as Hs.
  revert Hs.
  generalize (AMM.calculateSharesForAmount Sample.fresh_state yes 10 (Some 1000))
    as r.
  intros r Hs.
  destruct (Rle_dec (AMM.shares r) 0) as [?|_]; [exfalso; lra|].
  unfold WalletsService.deductForTrade, WalletsService.findByUserId, bind.
  rewrite Run.query_healthy by reflexivity. cbn [db].
  change (single _) with (Some (Sample.wallet_of 1%nat 7%nat 100)).
  cbv iota beta.
  change (Wallet.balance (Sample.wallet_of 1%nat 7%nat 100)) with 100.
  Run.resolve_comparisons.
  cbn -[IZR Rminus Rplus AMM.calculateBuyCost].
  Run.resolve_comparisons.
  cbn -[IZR Rminus Rplus AMM.calculateBuyCost].
  eexists. eexists. eexists. split; [reflexivity|].
  repeat split.
Qed.

(** ** Settlement (trades.service.ts, settleMarket) *)

Module SettlementProofs.

Lemma wallet_id_posted s u wallet ty signed ref u' :
  wallet_ids_unique s ->
  lookup_wallet s u = Some wallet ->
  wallet_id_of (posted s wallet ty signed ref) u' = wallet_id_of s u'.
Proof.
  intros Hu Hl. unfold wallet_id_of.
  destruct (Nat.eq_dec u' u) as [->|Hne].
  - unfold lookup_wallet at 1, posted.
    cbn [wallets with_wallet_transactions with_wallets].
    rewrite (WalletProofs.lookup_moved_same s u wallet signed Hl), Hl.
    reflexivity.
  - rewrite (WalletProofs.lookup_posted_other s u u' wallet ty signed ref Hu Hl Hne).
    reflexivity.
Qed.

Lemma balance_posted s u wallet ty signed ref u' :
  wallet_ids_unique s ->
  lookup_wallet s u = Some wallet ->
  balance_of (posted s wallet ty signed ref) u'
  = option_map (fun b => b + (if Nat.eqb u u' then signed else 0))
               (balance_of s u').
Proof.
  intros Hu Hl. destruct (Nat.eq_dec u' u) as [->|Hne].
  - rewrite Nat.eqb_refl.
    rewrite (WalletProofs.balance_posted_same s u wallet ty signed ref Hl).
    unfold balance_of. rewrite Hl. reflexivity.
  - assert (E : Nat.eqb u u' = false) by (apply Nat.eqb_neq; congruence).
    rewrite E. unfold balance_of.
    rewrite (WalletProofs.lookup_posted_other s u u' wallet ty signed ref Hu Hl Hne).
    destruct (lookup_wallet s u') as [x|]; cbn; [f_equal; lra|reflexivity].
Qed.

Lemma settles_same_ids outcome marketId s s' p tx :
  (forall u, wallet_id_of s' u = wallet_id_of s u) ->
  settles outcome marketId s' p tx -> settles outcome marketId s p tx.
Proof.
  intros Hid (H1 & H2 & H3 & H4 & H5). rewrite Hid in H4.
  repeat split; assumption.
Qed.

Lemma payout_cons outcome u p ps :
  payout outcome u (p :: ps)
  = (if is_winner outcome p
     then if Nat.eqb (Position.user_id p) u
          then TradesService.winningShares outcome p else 0
     else 0) + payout outcome u ps.
Proof.
  unfold payout, winners. cbn [filter].
  destruct (is_winner outcome p); [|lra].
  cbn [filter]. destruct (Nat.eqb (Position.user_id p) u); cbn; lra.
Qed.

(** The loop of settleMarket on a healthy world. *)
Lemma settleEach_run outcome marketId ps :
  forall w,
    healthy w -> wallet_ids_unique (db w) ->
    balances_not_negative (db w) ->
    winners_have_wallets outcome (db w) ps ->
    exists s',
      TradesService.settleEach outcome marketId ps w
      = (Ok tt, {| db := s'; faults := [] |})
      /\ wallet_ids_unique s'
      /\ balances_not_negative s'
      /\ positions s' = positions (db w)
      /\ markets s' = markets (db w)
      /\ trades s' = trades (db w)
      /\ (forall u, wallet_id_of s' u = wallet_id_of (db w) u)
      /\ (forall u, balance_of s' u
                    = option_map (fun b => b + payout outcome u ps)
                                 (balance_of (db w) u))
      /\ exists rows,
           wallet_transactions s' = wallet_transactions (db w) ++ rows
           /\ Forall2 (settles outcome marketId (db w)) (winners outcome ps) rows.
Proof.
  induction ps as [|p ps IH]; intros w Hw Hu Hnn Hwal.
  - exists (db w). split.
    { cbn. unfold ret. destruct w as [s f]. cbn in *. unfold healthy in Hw.
      cbn in Hw. subst f. reflexivity. }
    split; [exact Hu|]. split; [exact Hnn|]. repeat split.
    + intros u. unfold payout. cbn.
      destruct (balance_of (db w) u); cbn; [f_equal; lra|reflexivity].
    + exists []. split; [rewrite app_nil_r; reflexivity|constructor].
  - cbn [TradesService.settleEach].
    assert (Hrest : forall s1, (forall u, wallet_id_of s1 u = wallet_id_of (db w) u) ->
                    winners_have_wallets outcome s1 ps).
    { intros s1 Hid q Hq Hwq.
      specialize (Hwal q (or_intror Hq) Hwq).
      specialize (Hid (Position.user_id q)). unfold wallet_id_of in Hid.
      destruct (lookup_wallet s1 (Position.user_id q)); [discriminate|].
      destruct (lookup_wallet (db w) (Position.user_id q)); [discriminate|].
      contradiction. }
    assert (Hpay : forall u, payout outcome u (p :: ps)
                   = (if is_winner outcome p
                      then if Nat.eqb (Position.user_id p) u
                           then TradesService.winningShares outcome p else 0
                      else 0) + payout outcome u ps)
      by (intros u; apply payout_cons).
    unfold winners. cbn [filter]. fold (winners outcome ps).
    destruct (Rgt_dec (TradesService.winningShares outcome p) 0) as [Hg|Hg].
    + assert (Hwin : is_winner outcome p = true).
      { unfold is_winner.
        destruct (Rgt_dec (TradesService.winningShares outcome p) 0);
          [reflexivity|contradiction]. }
      rewrite Hwin in *.
      destruct (lookup_wallet (db w) (Position.user_id p)) as [wallet|] eqn:Hl.
      2:{ exfalso. exact (Hwal p (or_introl eq_refl) Hwin Hl). }
      assert (Hb0 : 0 <= Wallet.balance wallet).
      { apply (Hnn (Position.user_id p)). unfold balance_of. rewrite Hl.
        reflexivity. }
      unfold bind at 1. unfold bind at 1.
      rewrite (WalletProofs.settlePosition_run w (Position.user_id p) wallet
                 Hw Hu Hl (TradesService.winningShares outcome p) marketId
                 ltac:(lra)).
      cbn [ret].
      set (s1 := posted (db w) wallet settlement_tx
                   (TradesService.winningShares outcome p) (Some marketId)).
      assert (Hid1 : forall u, wallet_id_of s1 u = wallet_id_of (db w) u)
        by (intros u; apply (wallet_id_posted _ _ _ _ _ _ _ Hu Hl)).
      assert (Hnn1 : balances_not_negative s1).
      { intros u b. unfold s1. rewrite (balance_posted _ _ _ _ _ _ u Hu Hl).
        destruct (balance_of (db w) u) as [b0|] eqn:Eb; cbn; [|discriminate].
        intros Hb. inversion Hb; subst. specialize (Hnn u b0 Eb).
        destruct (Nat.eqb (Position.user_id p) u); lra. }
      destruct (IH {| db := s1; faults := [] |} eq_refl
                  (WalletProofs.posted_unique _ _ _ _ _ Hu) Hnn1 (Hrest s1 Hid1))
        as (s' & E & Hu' & Hnn' & Hp & Hm & Ht & Hid & Hbal & rows & Hrows & HF).
      exists s'. split; [exact E|]. split; [exact Hu'|]. split; [exact Hnn'|].
      split; [rewrite Hp; reflexivity|]. split; [rewrite Hm; reflexivity|].
      split; [rewrite Ht; reflexivity|].
      split; [intros u; rewrite Hid; apply Hid1|].
      split.
      * intros u. rewrite Hbal. cbn [db]. unfold s1.
        rewrite (balance_posted _ _ _ _ _ _ u Hu Hl), Hpay.
        destruct (balance_of (db w) u) as [b|]; cbn; [f_equal|reflexivity].
        destruct (Nat.eqb (Position.user_id p) u); lra.
      * exists (ledger_row wallet settlement_tx
                  (TradesService.winningShares outcome p) (Some marketId) :: rows).
        split.
        -- rewrite Hrows. cbn [db]. unfold s1, posted.
           cbn [wallet_transactions with_wallet_transactions].
           rewrite <- app_assoc. reflexivity.
        -- constructor.
           ++ repeat split; try reflexivity.
              unfold wallet_id_of. rewrite Hl. reflexivity.
           ++ eapply Forall2_impl; [|exact HF].
              intros q tx Hq. exact (settles_same_ids _ _ _ _ _ _ Hid1 Hq).
    + assert (Hwin : is_winner outcome p = false).
      { unfold is_winner.
        destruct (Rgt_dec (TradesService.winningShares outcome p) 0);
          [contradiction|reflexivity]. }
      rewrite Hwin in *.
      unfold bind at 1. cbn [ret].
      destruct (IH w Hw Hu Hnn (Hrest (db w) (fun u => eq_refl)))
        as (s' & E & Hu' & Hnn' & Hp & Hm & Ht & Hid & Hbal & rows & Hrows & HF).
      exists s'. split; [exact E|]. split; [exact Hu'|]. split; [exact Hnn'|].
      split; [exact Hp|]. split; [exact Hm|]. split; [exact Ht|].
      split; [exact Hid|]. split.
      * intros u. rewrite Hbal, Hpay.
        destruct (balance_of (db w) u) as [b|]; cbn; [f_equal; lra|reflexivity].
      * exists rows. split; assumption.
Qed.

Lemma settleMarket_run w marketId market outcome :
  healthy w -> wallet_ids_unique (db w) ->
  balances_not_negative (db w) ->
  lookup_market (db w) marketId = Some market ->
  Market.status market = resolved ->
  Market.outcome market = Some outcome ->
  winners_have_wallets outcome (db w) (market_positions (db w) marketId) ->
  exists s',
    TradesService.settleMarket marketId w
    = (Ok (length (market_positions (db w) marketId)),
       {| db := s'; faults := [] |})
    /\ wallet_ids_unique s'
    /\ balances_not_negative s'
    /\ positions s' = positions (db w)
    /\ markets s' = markets (db w)
    /\ trades s' = trades (db w)
    /\ (forall u, wallet_id_of s' u = wallet_id_of (db w) u)
    /\ (forall u, balance_of s' u
                  = option_map
                      (fun b => b + payout outcome u
                                      (market_positions (db w) marketId))
                      (balance_of (db w) u))
    /\ exists rows,
         wallet_transactions s' = wallet_transactions (db w) ++ rows
         /\ Forall2 (settles outcome marketId (db w))
              (winners outcome (market_positions (db w) marketId)) rows.
Proof.
  intros Hw Hu Hnn Hm Hst Ho Hwal.
  destruct (settleEach_run outcome marketId (market_positions (db w) marketId)
              w Hw Hu Hnn Hwal) as (s' & E & Rest).
  exists s'. split; [|exact Rest].
  unfold TradesService.settleMarket, MarketsService.findById, bind.
  rewrite (Run.query_healthy _ _ Hw).
  pose proof Hm as H. unfold lookup_market in H. rewrite H. clear H.
  rewrite Hst, Ho. cbn [Status_eqb].
  unfold PositionsService.findByMarket, bind.
  rewrite (Run.query_healthy _ _ Hw). cbn [ret].
  fold (market_positions (db w) marketId). rewrite E. reflexivity.
Qed.

(** *** Settlement never touches the markets table *)

Lemma same_markets_refl s : same_markets s s.
Proof. reflexivity. Qed.

Lemma same_markets_trans s1 s2 s3 :
  same_markets s1 s2 -> same_markets s2 s3 -> same_markets s1 s3.
Proof. unfold same_markets. congruence. Qed.

Ltac frame_step :=
  first
    [ apply (Run.frames_ret same_markets same_markets_refl)
    | apply (Run.frames_throw same_markets same_markets_refl)
    | apply (Run.frames_query same_markets same_markets_refl)
    | apply (Run.frames_bind same_markets same_markets_trans) ].

Lemma settlePosition_same_markets userId amount marketId :
  frames same_markets (WalletsService.settlePosition userId amount marketId).
Proof.
  unfold WalletsService.settlePosition, WalletsService.findByUserId.
  frame_step; [frame_step|].
  intros [wallet|]; [|frame_step].
  frame_step.
  - unfold WalletsService.updateBalance.
    apply (Run.frames_mutate same_markets same_markets_refl).
    intros s a s' E.
    match type of E with
    | context [Rlt_dec ?x 0] => destruct (Rlt_dec x 0); [discriminate|]
    end.
    destruct (update_single _ _ (wallets s)) as [[row ws]|]; inversion E.
    reflexivity.
  - intros [data|]; [|frame_step].
    frame_step; [|intros; frame_step].
    unfold WalletsService.recordTransaction.
    frame_step; [|intros; frame_step].
    apply (Run.frames_mutate same_markets same_markets_refl).
    intros s a s' E. inversion E. reflexivity.
Qed.

Lemma settleEach_same_markets outcome marketId ps :
  frames same_markets (TradesService.settleEach outcome marketId ps).
Proof.
  induction ps as [|p ps IH]; cbn [TradesService.settleEach]; [frame_step|].
  frame_step; [|intros; exact IH].
  destruct (Rgt_dec (TradesService.winningShares outcome p) 0); [|frame_step].
  frame_step; [apply settlePosition_same_markets|intros; frame_step].
Qed.

Lemma settleMarket_same_markets marketId :
  frames same_markets (TradesService.settleMarket marketId).
Proof.
  unfold TradesService.settleMarket, MarketsService.findById.
  frame_step; [frame_step|].
  intros [market|]; [|frame_step].
  destruct (Status_eqb (Market.status market) resolved); [|frame_step].
  destruct (Market.outcome market) as [outcome|]; [|frame_step].
  frame_step.
  - unfold PositionsService.findByMarket.
    frame_step; [frame_step|]. intros [data|]; frame_step.
  - intros ps. frame_step; [apply settleEach_same_markets|intros; frame_step].
Qed.

(** *** The guard of resolveMarket *)

(** A market that resolveMarket has resolved is stored as resolved. *)
Lemma resolveMarket_resolves now id outcome w row w1 :
  MarketsService.resolveMarket now id outcome w = (Ok row, w1) ->
  exists m, lookup_market (db w1) id = Some m /\ Market.status m = resolved.
Proof.
  unfold MarketsService.resolveMarket, MarketsService.findById. intros E.
  destruct (Run.bind_inv _ _ _ _ _ E) as [(om & wa & E0 & E1)|(e0 & _ & Hr)];
    [|discriminate].
  pose proof (Run.query_db _ _ _ _ E0) as Da.
  destruct (Run.query_result _ _ _ _ E0) as [Hr|Hr]; inversion Hr; subst om;
    [discriminate|].
  destruct (single (filter (fun m => Nat.eqb (Market.id m) id) (markets (db w))))
    as [market|] eqn:Hm; [|discriminate].
  destruct (negb (Status_eqb (Market.status market) active)
            && negb (Status_eqb (Market.status market) suspended));
    [discriminate|].
  destruct (Run.bind_inv _ _ _ _ _ E1) as [(od & wb & E2 & E3)|(e2 & _ & Hr2)];
    [|discriminate].
  unfold MarketsService.updateRow in E2.
  destruct (Run.mutate_inv _ _ _ _ E2) as [[Ho _]|[a [Ho Hwr]]];
    inversion Ho; subst od; [discriminate|].
  inversion E3; subst. rewrite Da in Hwr. unfold update_single in Hwr.
  rewrite Hm in Hwr. inversion Hwr as [[Ha Hdb]].
  eexists. split.
  - unfold lookup_market. cbn [markets with_markets].
    rewrite (Run.filter_update_same (fun m => Nat.eqb (Market.id m) id))
      by reflexivity.
    apply WalletProofs.single_inv in Hm. rewrite Hm. reflexivity.
  - reflexivity.
Qed.

(** On a resolved market resolveMarket throws, whatever the calls do,
    and writes nothing. *)
Lemma resolveMarket_guard now id outcome w m r w' :
  lookup_market (db w) id = Some m -> Market.status m = resolved ->
  MarketsService.resolveMarket now id outcome w = (r, w') ->
  (exists e, r = Throw e) /\ db w' = db w
  /\ (healthy w -> r = Throw (BadRequestException NotResolvable) /\ w' = w).
Proof.
  intros Hm Hst. unfold MarketsService.resolveMarket, MarketsService.findById.
  intros E.
  destruct (Run.bind_inv _ _ _ _ _ E) as [(om & wa & E0 & E1)|(e0 & E0 & _)].
  2:{ exfalso. exact (Run.never_throws_query _ _ _ _ E0). }
  pose proof (Run.query_db _ _ _ _ E0) as Da.
  assert (Hh : healthy w -> om = Some m /\ wa = w).
  { intros Hw. rewrite (Run.query_healthy _ _ Hw) in E0.
    unfold lookup_market in Hm. rewrite Hm in E0. inversion E0. auto. }
  destruct (Run.query_result _ _ _ _ E0) as [Hr|Hr]; inversion Hr; subst om.
  - inversion E1; subst. split; [eexists; reflexivity|]. split; [exact Da|].
    intros Hw. destruct (Hh Hw) as [Habs _]. discriminate.
  - unfold lookup_market in Hm. rewrite Hm in *. rewrite Hst in E1.
    cbn in E1. inversion E1; subst.
    split; [eexists; reflexivity|]. split; [exact Da|].
    intros Hw. destruct (Hh Hw) as [_ ->]. auto.
Qed.

End SettlementProofs.

Module SampleSettlement.

Lemma unique : wallet_ids_unique Sample.resolved_yes.
Proof.
  unfold wallet_ids_unique. cbn. repeat constructor; cbn; intuition congruence.
Qed.

Lemma positions_of_market s :
  positions s = Sample.settled_positions ->
  market_positions s 3%nat = Sample.settled_positions.
Proof. unfold market_positions. intros ->. reflexivity. Qed.

Lemma winners_yes :
  winners yes Sample.settled_positions
  = [Sample.position_of 50%nat 7%nat 50 0 (2 / 5) 0].
Proof.
  unfold winners, Sample.settled_positions, is_winner. cbn.
  destruct (Rgt_dec 50 0) as [_|H]; [|exfalso; lra].
  destruct (Rgt_dec 0 0) as [H|_]; [exfalso; lra|]. reflexivity.
Qed.

Lemma payout_7 : payout yes 7%nat Sample.settled_positions = 50.
Proof. unfold payout. rewrite winners_yes. cbn. lra. Qed.

Lemma payout_8 : payout yes 8%nat Sample.settled_positions = 0.
Proof. unfold payout. rewrite winners_yes. cbn. lra. Qed.

Lemma wallets_present s :
  (forall u, wallet_id_of s u = wallet_id_of Sample.resolved_yes u) ->
  winners_have_wallets yes s Sample.settled_positions.
Proof.
  intros Hid p Hp _ Hnone.
  assert (Hw : wallet_id_of s (Position.user_id p) = None)
    by (unfold wallet_id_of; rewrite Hnone; reflexivity).
  rewrite Hid in Hw.
  destruct Hp as [<-|[<-|[]]]; cbn in Hw; discriminate.
Qed.

Lemma not_negative : balances_not_negative Sample.resolved_yes.
Proof.
  intros u b. unfold balance_of, lookup_wallet. cbn -[Nat.eqb].
  destruct (Nat.eqb 7 u); destruct (Nat.eqb 8 u); cbn; intros E;
    inversion E; lra.
Qed.

(** One settlement of the sample market. *)

Lemma settle_once s :
  wallet_ids_unique s ->
  balances_not_negative s ->
  markets s = markets Sample.resolved_yes ->
  positions s = Sample.settled_positions ->
  (forall u, wallet_id_of s u = wallet_id_of Sample.resolved_yes u) ->
  exists s',
    TradesService.settleMarket 3%nat {| db := s; faults := [] |}
    = (Ok 2%nat, {| db := s'; faults := [] |})
    /\ wallet_ids_unique s'
    /\ balances_not_negative s'
    /\ markets s' = markets Sample.resolved_yes
    /\ positions s' = Sample.settled_positions
    /\ (forall u, wallet_id_of s' u = wallet_id_of Sample.resolved_yes u)
    /\ balance_of s' 7%nat = option_map (fun b => b + 50) (balance_of s 7%nat)
    /\ balance_of s' 8%nat = option_map (fun b => b + 0) (balance_of s 8%nat)
    /\ exists rows,
         wallet_transactions s' = wallet_transactions s ++ rows
         /\ length rows = 1%nat.
Proof.
  intros Hu Hnn Hm Hp Hid.
  destruct (SettlementProofs.settleMarket_run {| db := s; faults := [] |} 3%nat
              (Sample.market3 resolved (Some yes) 50 50) yes
              eq_refl Hu Hnn)
    as (s' & E & Hu' & Hnn' & Hp' & Hm' & _ & Hid' & Hbal & rows & Hr & HF).
  - unfold lookup_market. cbn [db]. rewrite Hm. reflexivity.
  - reflexivity.
  - reflexivity.
  - cbn [db]. rewrite (positions_of_market s Hp). apply wallets_present. exact Hid.
  - cbn [db] in *. rewrite (positions_of_market s Hp) in *.
    exists s'. split; [exact E|]. split; [exact Hu'|]. split; [exact Hnn'|].
    split; [congruence|]. split; [congruence|].
    split; [intros u; rewrite Hid'; apply Hid|].
    split; [rewrite Hbal, payout_7; reflexivity|].
    split; [rewrite Hbal, payout_8; reflexivity|].
    exists rows. split; [exact Hr|].
    rewrite <- (Forall2_length HF), winners_yes. reflexivity.
Qed.

End SampleSettlement.

(** C2, as amended.  On a healthy store with no negative balance, in which
    every owner of a winning position has a wallet, settleMarket on a market resolved with outcome o
    appends one settlement ledger row per position whose winning-side
    shares are > 0, for exactly that many units, on the owner's wallet and
    with the market as reference; raises every balance by the winning
    shares of its owner's positions and by nothing else; leaves the
    positions table as it was; and returns the number of all the positions
    of the market, credited or not. *)
Theorem settleMarket_pays_winning_shares :
  forall (w : World) (marketId : Id) (market : Market.Row) (outcome : Side),
    healthy w ->
    wallet_ids_unique (db w) ->
    balances_not_negative (db w) ->
    lookup_market (db w) marketId = Some market ->
    Market.status market = resolved ->
    Market.outcome market = Some outcome ->
    winners_have_wallets outcome (db w) (market_positions (db w) marketId) ->
    exists w',
      TradesService.settleMarket marketId w
      = (Ok (length (market_positions (db w) marketId)), w')
      /\ positions (db w') = positions (db w)
      /\ (forall u,
            balance_of (db w') u
            = option_map
                (fun b => b + payout outcome u (market_positions (db w) marketId))
                (balance_of (db w) u))
      /\ exists rows,
           wallet_transactions (db w') = wallet_transactions (db w) ++ rows
           /\ Forall2 (settles outcome marketId (db w))
                (winners outcome (market_positions (db w) marketId)) rows.
Proof.
  intros w marketId market outcome Hw Hu Hnn Hm Hst Ho Hwal.
  destruct (SettlementProofs.settleMarket_run w marketId market outcome
              Hw Hu Hnn Hm Hst Ho Hwal)
    as (s' & E & _ & _ & Hp & _ & _ & _ & Hbal & Hrows).
  exists {| db := s'; faults := [] |}. cbn [db].
  split; [exact E|]. split; [exact Hp|]. split; [exact Hbal|exact Hrows].
Qed.

Lemma settleMarket_pays_winning_shares_witness :
  let w := {| db := Sample.resolved_yes; faults := [] |} in
  healthy w /\ wallet_ids_unique (db w) /\ balances_not_negative (db w)
  /\ lookup_market (db w) 3%nat = Some (Sample.market3 resolved (Some yes) 50 50)
  /\ winners_have_wallets yes (db w) (market_positions (db w) 3%nat)
  /\ exists w',
       TradesService.settleMarket 3%nat w = (Ok 2%nat, w')
       /\ positions (db w') = positions (db w).
Proof.
  cbv zeta.
  assert (Hwal : winners_have_wallets yes Sample.resolved_yes
                   (market_positions Sample.resolved_yes 3%nat))
    by (apply SampleSettlement.wallets_present; reflexivity).
  split; [reflexivity|]. split; [exact SampleSettlement.unique|].
  split; [exact SampleSettlement.not_negative|].
  split; [reflexivity|]. split; [exact Hwal|].
  destruct (settleMarket_pays_winning_shares
              {| db := Sample.resolved_yes; faults := [] |} 3%nat
              (Sample.market3 resolved (Some yes) 50 50) yes
              eq_refl SampleSettlement.unique SampleSettlement.not_negative
              eq_refl eq_refl eq_refl Hwal)
    as (w' & E & Hp & _).
  exists w'. split; [exact E|exact Hp].
Defined.

(** C2 fails as stated on the number returned: with one position holding
    50 YES shares and one holding 50 NO shares, settling the market
    resolved YES credits one position (one ledger row, user 8 keeps 100)
    and returns 2. *)
Lemma settleMarket_counts_all_positions :
  let w := {| db := Sample.resolved_yes; faults := [] |} in
  exists w',
    TradesService.settleMarket 3%nat w = (Ok 2%nat, w')
    /\ length (winners yes (market_positions (db w) 3%nat)) = 1%nat
    /\ wallet_transactions (db w) = []
    /\ length (wallet_transactions (db w')) = 1%nat
    /\ balance_of (db w') 8%nat = balance_of (db w) 8%nat.
Proof.
  cbv zeta.
  destruct (SampleSettlement.settle_once Sample.resolved_yes
              SampleSettlement.unique SampleSettlement.not_negative
              eq_refl eq_refl (fun u => eq_refl))
    as (s' & E & _ & _ & _ & _ & _ & _ & H8 & rows & Hr & Hlen).
  exists {| db := s'; faults := [] |}. cbn [db].
  split; [exact E|].
  split; [rewrite (SampleSettlement.positions_of_market Sample.resolved_yes
                     eq_refl),
            SampleSettlement.winners_yes; reflexivity|].
  split; [reflexivity|].
  split; [rewrite Hr; cbn; exact Hlen|].
  rewrite H8. cbn. f_equal. lra.
Qed.

(** C3.  Resolve-then-settle is idempotent.  Settlement runs in the
    resolve-then-settle chain of the admin controller, the only caller of
    settleMarket.  Once the chain has succeeded on a market, running it
    again on that market throws at the status guard of resolveMarket,
    whatever the calls on the store do, before settlement runs, and writes
    nothing: no wallet is credited again.  On a healthy store the
    exception is of kind InvalidTransition. *)
Theorem resolve_chain_runs_once :
  forall (w : World) (now : Z) (id : Id) (outcome : Side)
         (done : Market.Row * nat) (w' : World),
    AdminController.resolveMarket now id outcome w = (Ok done, w') ->
    forall (now' : Z) (outcome' : Side) r w'',
      AdminController.resolveMarket now' id outcome' w' = (r, w'') ->
      (exists e, r = Throw e)
      /\ db w'' = db w'
      /\ (forall u, balance_of (db w'') u = balance_of (db w') u)
      /\ (healthy w' ->
          exists e, r = Throw e /\ error_kind e = KInvalidTransition).
Proof.
  intros w now id outcome done w' E now' outcome' r w'' E'.
  unfold AdminController.resolveMarket in E, E'.
  destruct (Run.bind_inv _ _ _ _ _ E) as [(row & w1 & E1 & E2)|(e & _ & Hr)];
    [|discriminate].
  destruct (Run.bind_inv _ _ _ _ _ E2) as [(n & w2 & E3 & E4)|(e & _ & Hr)];
    [|discriminate].
  inversion E4; subst. clear E4.
  destruct (SettlementProofs.resolveMarket_resolves _ _ _ _ _ _ E1)
    as (m & Hm & Hst).
  pose proof (SettlementProofs.settleMarket_same_markets id _ _ _ E3) as Hsame.
  unfold same_markets in Hsame.
  assert (Hm' : lookup_market (db w') id = Some m)
    by (unfold lookup_market in *; rewrite Hsame; exact Hm).
  destruct (Run.bind_inv _ _ _ _ _ E') as [(row' & w3 & E5 & _)|(e & E5 & Hr)].
  - destruct (SettlementProofs.resolveMarket_guard _ _ _ _ _ _ _ Hm' Hst E5)
      as ([e He] & _). discriminate.
  - destruct (SettlementProofs.resolveMarket_guard _ _ _ _ _ _ _ Hm' Hst E5)
      as (_ & Hdb & Hh).
    split; [exists e; exact Hr|]. split; [exact Hdb|].
    split; [intros u; rewrite Hdb; reflexivity|].
    intros Hw. destruct (Hh Hw) as [He _]. inversion He; subst.
    eexists. split; reflexivity.
Qed.

Lemma resolve_chain_runs_once_witness :
  let w := {| db := Sample.fresh; faults := [] |} in
  exists done w' r w'',
    AdminController.resolveMarket 900 3%nat yes w = (Ok done, w')
    /\ AdminController.resolveMarket 901 3%nat yes w' = (r, w'')
    /\ db w'' = db w'.
Proof.
  cbv zeta.
  assert (E : exists done w',
             AdminController.resolveMarket 900 3%nat yes
               {| db := Sample.fresh; faults := [] |} = (Ok done, w'))
    by (eexists; eexists; reflexivity).
  destruct E as (done & w' & E).
  destruct (AdminController.resolveMarket 901 3%nat yes w') as [r w''] eqn:E'.
  exists done, w', r, w''. split; [exact E|]. split; [exact E'|].
  exact (proj1 (proj2 (resolve_chain_runs_once _ _ _ _ _ _ E _ _ _ _ E'))).
Defined.

(* ===================================================================== *)
(** * Further properties of the services *)
(* ===================================================================== *)

(** ** Pricing engine: quotes (amm.service.ts) *)

Module QuoteProofs.

Lemma toFixed6_fee_cap : Num.toFixed6 (1 + AMM.FEE_RATE) = 1 + AMM.FEE_RATE.
Proof.
  unfold AMM.FEE_RATE.
  replace (1 + 2 / 100) with (IZR 1020000 / 1000000) by lra.
  apply NumProofs.toFixed6_exact.
Qed.

Lemma toFixed6_net_cap : Num.toFixed6 (1 - AMM.FEE_RATE) = 1 - AMM.FEE_RATE.
Proof.
  unfold AMM.FEE_RATE.
  replace (1 - 2 / 100) with (IZR 980000 / 1000000) by lra.
  apply NumProofs.toFixed6_exact.
Qed.

Lemma toFixed6_nonneg x : 0 <= x -> 0 <= Num.toFixed6 x.
Proof.
  intros H. rewrite <- NumProofs.toFixed6_0. apply NumProofs.toFixed6_mono. exact H.
Qed.

Section Engine.

Variable l : R.
Hypothesis Hl : 0 < l.

Lemma exp_div_le x y : x <= y -> exp (x / l) <= exp (y / l).
Proof.
  intros [H | ->]; [|lra]. left. apply AMMProofs.exp_div_lt; assumption.
Qed.

(** More shares of a side never cost less. *)
Lemma cost_step_nonneg a c d : 0 <= d -> 0 <= AMM.cost (a + d) c l - AMM.cost a c l.
Proof.
  intros Hd. unfold AMM.cost. cbv zeta.
  pose proof (exp_pos (a / l)). pose proof (exp_pos (c / l)).
  pose proof (exp_div_le a (a + d) ltac:(lra)).
  assert (ln (exp (a / l) + exp (c / l)) <= ln (exp ((a + d) / l) + exp (c / l)))
    by (apply AMMProofs.ln_le_mono; lra).
  nra.
Qed.

(** The raw cost of [d] shares of one side lies between 0 and [d]. *)
Lemma raw_cost_bounds side a c d :
  0 <= d ->
  0 <= match side with
       | yes => AMM.cost (a + d) c l
       | no => AMM.cost a (c + d) l
       end - AMM.cost a c l <= d.
Proof.
  intros Hd. destruct side.
  - split; [apply cost_step_nonneg; exact Hd|apply AMMProofs.cost_step_upper; assumption].
  - rewrite (AMMProofs.cost_sym a (c + d)), (AMMProofs.cost_sym a c).
    split; [apply cost_step_nonneg; exact Hd|apply AMMProofs.cost_step_upper; assumption].
Qed.

(** The quoted cost and average price of a buy, in terms of the raw cost. *)
Lemma calculateBuyCost_value state side d :
  let raw :=
    match side with
    | yes => AMM.cost (AMM.yesShares state + d) (AMM.noShares state) l
    | no => AMM.cost (AMM.yesShares state) (AMM.noShares state + d) l
    end - AMM.cost (AMM.yesShares state) (AMM.noShares state) l in
  AMM.cost_ (AMM.calculateBuyCost state side d (Some l))
  = Num.toFixed6 (raw + raw * AMM.FEE_RATE)
  /\ AMM.avgPrice (AMM.calculateBuyCost state side d (Some l))
     = Num.toFixed6 ((raw + raw * AMM.FEE_RATE) / d).
Proof.
  cbv zeta. unfold AMM.calculateBuyCost. cbv zeta. cbn [AMM.cost_ AMM.avgPrice].
  rewrite NumProofs.or_default_nonzero by lra.
  destruct side; split; reflexivity.
Qed.

End Engine.

End QuoteProofs.

(** X1.  A buy quote of calculateBuyCost for d > 0 shares on a market of
    positive liquidity: the cost, fee included, lies between 0 and
    d * 1.02 (up to half a unit of the sixth digit); the average price
    lies between 0 and 1.02; the traded side grows by d and the other side
    is as it was. *)
Theorem calculateBuyCost_quote_bounds :
  forall (state : AMM.AMMState) (side : Side) (d l : R),
    0 < l -> 0 < d ->
    let r := AMM.calculateBuyCost state side d (Some l) in
    0 <= AMM.cost_ r <= d * (1 + AMM.FEE_RATE) + 5 / 10000000
    /\ 0 <= AMM.avgPrice r <= 1 + AMM.FEE_RATE
    /\ AMM.sharesReceived r = d
    /\ AMM.newYesShares r + AMM.newNoShares r
       = AMM.yesShares state + AMM.noShares state + d
    /\ match side with
       | yes => AMM.newNoShares r = AMM.noShares state
       | no => AMM.newYesShares r = AMM.yesShares state
       end.
Proof.
  intros state side d l Hl Hd. cbv zeta.
  destruct (QuoteProofs.calculateBuyCost_value l Hl state side d) as [Ec Ea].
  pose proof (QuoteProofs.raw_cost_bounds l Hl side (AMM.yesShares state)
                (AMM.noShares state) d ltac:(lra)) as [R0 R1].
  rewrite Ec, Ea.
  set (raw := match side with
              | yes => AMM.cost (AMM.yesShares state + d) (AMM.noShares state) l
              | no => AMM.cost (AMM.yesShares state) (AMM.noShares state + d) l
              end - AMM.cost (AMM.yesShares state) (AMM.noShares state) l) in *.
  assert (F : AMM.FEE_RATE = 2 / 100) by reflexivity.
  split; [split|split; [split|]].
  - apply QuoteProofs.toFixed6_nonneg. rewrite F. lra.
  - pose proof (NumProofs.toFixed6_near (raw + raw * AMM.FEE_RATE)). rewrite F in *. lra.
  - apply QuoteProofs.toFixed6_nonneg. rewrite F.
    apply Rmult_le_pos; [lra|]. left. apply Rinv_0_lt_compat. exact Hd.
  - rewrite <- QuoteProofs.toFixed6_fee_cap. apply NumProofs.toFixed6_mono.
    rewrite F. apply (Rmult_le_reg_r d); [exact Hd|].
    unfold Rdiv. rewrite Rmult_assoc, Rinv_l by lra. lra.
  - split; [reflexivity|]. split; destruct side; cbn; lra.
Qed.

Lemma calculateBuyCost_quote_bounds_witness :
  0 < 1000 /\ 0 < 1
  /\ AMM.cost_ (AMM.calculateBuyCost Sample.fresh_state yes 1 (Some 1000))
     <= 1 * (1 + AMM.FEE_RATE) + 5 / 10000000.
Proof.
  split; [lra|]. split; [lra|].
  exact (proj2 (proj1 (calculateBuyCost_quote_bounds Sample.fresh_state yes 1 1000
                         ltac:(lra) ltac:(lra)))).
Defined.

(** ** Pricing engine: prices move with the quantities *)

Module PriceProofs.

(** The unrounded price of a side grows with its own quantity and falls
    with the other one. *)
Lemma share_monotone u v u' v' :
  0 < u -> 0 < v -> u <= u' -> 0 < v' -> v' <= v ->
  u / (u + v) <= u' / (u' + v').
Proof.
  intros Hu Hv Huu Hv' Hvv.
  apply (Rmult_le_reg_r ((u + v) * (u' + v'))); [nra|].
  replace (u / (u + v) * ((u + v) * (u' + v'))) with (u * (u' + v'))
    by (field; lra).
  replace (u' / (u' + v') * ((u + v) * (u' + v'))) with (u' * (u + v))
    by (field; lra).
  nra.
Qed.

Lemma getCurrentPrices_monotone s s' l :
  0 < l ->
  AMM.yesShares s <= AMM.yesShares s' ->
  AMM.noShares s' <= AMM.noShares s ->
  AMM.yesPrice (AMM.getCurrentPrices s (Some l))
  <= AMM.yesPrice (AMM.getCurrentPrices s' (Some l))
  /\ AMM.noPrice (AMM.getCurrentPrices s' (Some l))
     <= AMM.noPrice (AMM.getCurrentPrices s (Some l)).
Proof.
  intros Hl Hy Hn. unfold AMM.getCurrentPrices. cbv zeta.
  cbn [AMM.yesPrice AMM.noPrice].
  rewrite NumProofs.or_default_nonzero by lra.
  pose proof (QuoteProofs.exp_div_le l Hl _ _ Hy) as Ey.
  pose proof (QuoteProofs.exp_div_le l Hl _ _ Hn) as En.
  split; apply NumProofs.toFixed6_mono.
  - apply share_monotone; try apply exp_pos; assumption.
  - rewrite (Rplus_comm (exp (AMM.yesShares s' / l))),
            (Rplus_comm (exp (AMM.yesShares s / l))).
    apply share_monotone; try apply exp_pos; assumption.
Qed.

End PriceProofs.

(** X2.  On a market of positive liquidity, the rounded price of a side
    returned by getCurrentPrices never falls when the quantity of that side
    grows and the other one does not, and the price of the other side
    never rises.  In particular a buy of d >= 0 shares never lowers the
    price of the side bought and never raises the price of the other
    side. *)
Theorem getCurrentPrices_monotone_in_shares :
  forall (l : R),
    0 < l ->
    (forall s s' : AMM.AMMState,
       AMM.yesShares s <= AMM.yesShares s' ->
       AMM.noShares s' <= AMM.noShares s ->
       AMM.yesPrice (AMM.getCurrentPrices s (Some l))
       <= AMM.yesPrice (AMM.getCurrentPrices s' (Some l))
       /\ AMM.noPrice (AMM.getCurrentPrices s' (Some l))
          <= AMM.noPrice (AMM.getCurrentPrices s (Some l)))
    /\ (forall (state : AMM.AMMState) (side : Side) (d : R),
          0 <= d ->
          let after :=
            state_after_buy (AMM.calculateBuyCost state side d (Some l)) in
          side_price side (AMM.getCurrentPrices state (Some l))
          <= side_price side (AMM.getCurrentPrices after (Some l))
          /\ side_price (opposite side) (AMM.getCurrentPrices after (Some l))
             <= side_price (opposite side) (AMM.getCurrentPrices state (Some l))).
Proof.
  intros l Hl. split.
  - intros s s'. apply PriceProofs.getCurrentPrices_monotone. exact Hl.
  - intros state side d Hd. cbv zeta. destruct side; cbn [side_price opposite].
    + apply PriceProofs.getCurrentPrices_monotone; cbn; lra.
    + destruct (PriceProofs.getCurrentPrices_monotone
                  (state_after_buy (AMM.calculateBuyCost state no d (Some l)))
                  state l Hl) as [H1 H2]; cbn; try lra.
      split; assumption.
Qed.

Lemma getCurrentPrices_monotone_in_shares_witness :
  0 < 100
  /\ AMM.yesPrice (AMM.getCurrentPrices Sample.fresh_state (Some 100))
     <= AMM.yesPrice (AMM.getCurrentPrices Sample.late_state (Some 100)).
Proof.
  split; [lra|].
  apply (proj1 (getCurrentPrices_monotone_in_shares 100 ltac:(lra))); cbn; lra.
Defined.

(** ** Pricing engine: selling *)

Module SellQuoteProofs.

Section Engine.

Variable l : R.
Hypothesis Hl : 0 < l.

(** A sell of shares the market holds, from a state without negative
    quantities: what calculateSellReturn returns, in terms of the raw
    return. *)
Lemma calculateSellReturn_value state side d :
  0 < d ->
  0 <= AMM.yesShares state -> 0 <= AMM.noShares state ->
  match side with
  | yes => d <= AMM.yesShares state
  | no => d <= AMM.noShares state
  end ->
  let newQYes :=
    match side with yes => AMM.yesShares state - d | no => AMM.yesShares state end in
  let newQNo :=
    match side with yes => AMM.noShares state | no => AMM.noShares state - d end in
  let raw :=
    AMM.cost (AMM.yesShares state) (AMM.noShares state) l - AMM.cost newQYes newQNo l in
  0 < raw
  /\ exists r,
       AMM.calculateSellReturn state side d (Some l) = inr r
       /\ AMM.amountReceived r = Num.toFixed6 (raw - raw * AMM.FEE_RATE)
       /\ AMM.s_avgPrice r = Num.toFixed6 ((raw - raw * AMM.FEE_RATE) / d)
       /\ AMM.s_newYesShares r = newQYes
       /\ AMM.s_newNoShares r = newQNo.
Proof.
  intros Hd Hy Hn Hle. cbv zeta.
  assert (Hraw : 0 < AMM.cost (AMM.yesShares state) (AMM.noShares state) l
                     - AMM.cost
                         match side with
                         | yes => AMM.yesShares state - d
                         | no => AMM.yesShares state
                         end
                         match side with
                         | yes => AMM.noShares state
                         | no => AMM.noShares state - d
                         end l).
  { destruct side.
    - pose proof (AMMProofs.cost_lt l Hl (AMM.yesShares state - d) (AMM.noShares state)
                    (AMM.yesShares state) (AMM.noShares state)) as H.
      pose proof (AMMProofs.exp_div_lt l Hl (AMM.yesShares state - d)
                    (AMM.yesShares state) ltac:(lra)).
      lra.
    - pose proof (AMMProofs.cost_lt l Hl (AMM.yesShares state) (AMM.noShares state - d)
                    (AMM.yesShares state) (AMM.noShares state)) as H.
      pose proof (AMMProofs.exp_div_lt l Hl (AMM.noShares state - d)
                    (AMM.noShares state) ltac:(lra)).
      lra. }
  split; [exact Hraw|].
  unfold AMM.calculateSellReturn. cbv zeta.
  rewrite NumProofs.or_default_nonzero by lra.
  assert (Hc : AMM.sellShareCheck state side d = None).
  { unfold AMM.sellShareCheck. destruct side.
    - destruct (Rgt_dec d (AMM.yesShares state)); [exfalso; lra|reflexivity].
    - destruct (Rgt_dec d (AMM.noShares state)); [exfalso; lra|reflexivity]. }
  rewrite Hc.
  assert (Ey : AMM.clamp (fst (AMM.sellQuantities state side d))
               = match side with
                 | yes => AMM.yesShares state - d
                 | no => AMM.yesShares state
                 end).
  { destruct side; cbn [AMM.sellQuantities fst]; apply SellProofs.clamp_id; lra. }
  assert (En : AMM.clamp (snd (AMM.sellQuantities state side d))
               = match side with
                 | yes => AMM.noShares state
                 | no => AMM.noShares state - d
                 end).
  { destruct side; cbn [AMM.sellQuantities snd]; apply SellProofs.clamp_id; lra. }
  rewrite Ey, En.
  match goal with |- context [Rle_dec ?x 0] => destruct (Rle_dec x 0) as [Hr|Hr] end;
    [exfalso; lra|].
  eexists. split; [reflexivity|]. cbn. repeat split; reflexivity.
Qed.

End Engine.

End SellQuoteProofs.

(** X3.  A sell quote that calculateSellReturn returns for d > 0 shares,
    on a market of positive liquidity without negative quantities: the
    market holds the shares sold; the amount received, fee deducted, lies
    between 0 and d * 0.98 (up to half a unit of the sixth digit); the
    average price lies between 0 and 0.98; the traded side shrinks by d
    and the other side is as it was. *)
Theorem calculateSellReturn_quote_bounds :
  forall (state : AMM.AMMState) (side : Side) (d l : R) (r : AMM.SellResult),
    0 < l -> 0 < d ->
    0 <= AMM.yesShares state -> 0 <= AMM.noShares state ->
    AMM.calculateSellReturn state side d (Some l) = inr r ->
    d <= match side with
         | yes => AMM.yesShares state
         | no => AMM.noShares state
         end
    /\ 0 <= AMM.amountReceived r <= d * (1 - AMM.FEE_RATE) + 5 / 10000000
    /\ 0 <= AMM.s_avgPrice r <= 1 - AMM.FEE_RATE
    /\ AMM.s_newYesShares r
       = match side with yes => AMM.yesShares state - d | no => AMM.yesShares state end
    /\ AMM.s_newNoShares r
       = match side with yes => AMM.noShares state | no => AMM.noShares state - d end.
Proof.
  intros state side d l r0 Hl Hd Hy Hn Hr.
  assert (Hle : d <= match side with
                     | yes => AMM.yesShares state
                     | no => AMM.noShares state
                     end).
  { destruct (SellProofs.calculateSellReturn_quantities _ _ _ _ _ Hr) as (Hc & _).
    pose proof (SellProofs.sellShareCheck_passed _ _ _ Hc) as H.
    destruct side; exact H. }
  split; [exact Hle|].
  destruct (SellQuoteProofs.calculateSellReturn_value l Hl state side d Hd Hy Hn)
    as (Hraw & r & E & Ea & Ep & Ey & En).
  { destruct side; exact Hle. }
  rewrite E in Hr. injection Hr as <-.
  cbv zeta in Hraw.
  assert (Hup : AMM.cost (AMM.yesShares state) (AMM.noShares state) l
                - AMM.cost
                    match side with
                    | yes => AMM.yesShares state - d
                    | no => AMM.yesShares state
                    end
                    match side with
                    | yes => AMM.noShares state
                    | no => AMM.noShares state - d
                    end l <= d).
  { destruct side.
    - pose proof (AMMProofs.cost_step_upper l Hl (AMM.yesShares state - d)
                    (AMM.noShares state) d ltac:(lra)) as H.
      replace (AMM.yesShares state - d + d) with (AMM.yesShares state) in H by lra.
      exact H.
    - pose proof (AMMProofs.cost_step_upper l Hl (AMM.noShares state - d)
                    (AMM.yesShares state) d ltac:(lra)) as H.
      replace (AMM.noShares state - d + d) with (AMM.noShares state) in H by lra.
      rewrite (AMMProofs.cost_sym (AMM.yesShares state) (AMM.noShares state)),
              (AMMProofs.cost_sym (AMM.yesShares state) (AMM.noShares state - d)).
      exact H. }
  rewrite Ea, Ep.
  match goal with |- context [Num.toFixed6 (?x - ?x * _)] => set (raw := x) in * end.
  assert (F : AMM.FEE_RATE = 2 / 100) by reflexivity.
  split; [split|split; [split|split; [exact Ey|exact En]]].
  - apply QuoteProofs.toFixed6_nonneg. rewrite F. lra.
  - pose proof (NumProofs.toFixed6_near (raw - raw * AMM.FEE_RATE)). rewrite F in *. lra.
  - apply QuoteProofs.toFixed6_nonneg. rewrite F.
    apply Rmult_le_pos; [lra|]. left. apply Rinv_0_lt_compat. exact Hd.
  - rewrite <- QuoteProofs.toFixed6_net_cap. apply NumProofs.toFixed6_mono.
    rewrite F. apply (Rmult_le_reg_r d); [exact Hd|].
    unfold Rdiv. rewrite Rmult_assoc, Rinv_l by lra. lra.
Qed.

Lemma calculateSellReturn_quote_bounds_witness :
  0 < 100 /\ 0 < 200 /\ 0 <= AMM.yesShares Sample.late_state
  /\ 0 <= AMM.noShares Sample.late_state
  /\ exists r,
       AMM.calculateSellReturn Sample.late_state yes 200 (Some 100) = inr r
       /\ AMM.s_newYesShares r = AMM.yesShares Sample.late_state - 200
       /\ 0 <= AMM.amountReceived r.
Proof.
  split; [lra|]. split; [lra|]. split; [cbn; lra|]. split; [cbn; lra|].
  destruct (SellQuoteProofs.calculateSellReturn_value 100 ltac:(lra)
              Sample.late_state yes 200 ltac:(lra) ltac:(cbn; lra) ltac:(cbn; lra)
              ltac:(cbn; lra))
    as (_ & r & E & _).
  destruct (calculateSellReturn_quote_bounds Sample.late_state yes 200 100 r
              ltac:(lra) ltac:(lra) ltac:(cbn; lra) ltac:(cbn; lra) E)
    as (_ & [Ha _] & _ & Ey & _).
  exists r. split; [exact E|]. split; [exact Ey|exact Ha].
Defined.

(** X4.  Buying d > 0 shares and selling them back at once, on a market of
    positive liquidity without negative quantities: when the sell quote on
    the state the buy leaves returns, it brings the two quantities back to
    what they were, and the amount received is at most the cost paid: the
    round trip never pays. *)
Theorem buy_then_sell_round_trip :
  forall (state : AMM.AMMState) (side : Side) (d l : R) (sold : AMM.SellResult),
    0 < l -> 0 < d ->
    0 <= AMM.yesShares state -> 0 <= AMM.noShares state ->
    let bought := AMM.calculateBuyCost state side d (Some l) in
    AMM.calculateSellReturn (state_after_buy bought) side d (Some l) = inr sold ->
    AMM.s_newYesShares sold = AMM.yesShares state
    /\ AMM.s_newNoShares sold = AMM.noShares state
    /\ AMM.amountReceived sold <= AMM.cost_ bought.
Proof.
  intros state side d l sold0 Hl Hd Hy Hn. cbv zeta. intros Hr.
  destruct (QuoteProofs.calculateBuyCost_value l Hl state side d) as [Ec _].
  destruct (SellQuoteProofs.calculateSellReturn_value l Hl
              (state_after_buy (AMM.calculateBuyCost state side d (Some l)))
              side d Hd)
    as (Hraw & sold & E & Ea & _ & Ey & En).
  { destruct side; cbn; lra. }
  { destruct side; cbn; lra. }
  { destruct side; cbn; lra. }
  rewrite E in Hr. injection Hr as <-.
  split; [rewrite Ey; destruct side; cbn; lra|].
  split; [rewrite En; destruct side; cbn; lra|].
  rewrite Ea, Ec. apply NumProofs.toFixed6_mono.
  cbv zeta in Hraw. unfold AMM.FEE_RATE.
  destruct side; cbn [state_after_buy AMM.calculateBuyCost AMM.newYesShares
                      AMM.newNoShares AMM.yesShares AMM.noShares] in *.
  - replace (AMM.yesShares state + d - d) with (AMM.yesShares state) in * by lra.
    lra.
  - replace (AMM.noShares state + d - d) with (AMM.noShares state) in * by lra.
    lra.
Qed.

Lemma buy_then_sell_round_trip_witness :
  0 < 1000 /\ 0 < 1 /\ 0 <= AMM.yesShares Sample.fresh_state
  /\ 0 <= AMM.noShares Sample.fresh_state
  /\ exists sold,
       AMM.calculateSellReturn
         (state_after_buy (AMM.calculateBuyCost Sample.fresh_state yes 1 (Some 1000)))
         yes 1 (Some 1000) = inr sold
       /\ AMM.amountReceived sold
          <= AMM.cost_ (AMM.calculateBuyCost Sample.fresh_state yes 1 (Some 1000)).
Proof.
  split; [lra|]. split; [lra|]. split; [cbn; lra|]. split; [cbn; lra|].
  destruct (SellQuoteProofs.calculateSellReturn_value 1000 ltac:(lra)
              (state_after_buy
                 (AMM.calculateBuyCost Sample.fresh_state yes 1 (Some 1000)))
              yes 1 ltac:(lra) ltac:(cbn; lra) ltac:(cbn; lra) ltac:(cbn; lra))
    as (_ & sold & E & _).
  destruct (buy_then_sell_round_trip Sample.fresh_state yes 1 1000 sold
              ltac:(lra) ltac:(lra) ltac:(cbn; lra) ltac:(cbn; lra) E)
    as (_ & _ & H).
  exists sold. split; [exact E|exact H].
Defined.

(** ** Pricing engine: the two sides are treated alike *)

Module MirrorProofs.

Lemma getCurrentPrices_mirrored state liquidity :
  AMM.getCurrentPrices (mirrored state) liquidity
  = mirrored_prices (AMM.getCurrentPrices state liquidity).
Proof.
  unfold AMM.getCurrentPrices, mirrored, mirrored_prices. cbv zeta.
  cbn [AMM.yesShares AMM.noShares AMM.yesPrice AMM.noPrice].
  set (b := Num.or_default liquidity AMM.DEFAULT_LIQUIDITY).
  rewrite (Rplus_comm (exp (AMM.noShares state / b))). reflexivity.
Qed.

Lemma calculateBuyCost_mirrored state side d liquidity :
  AMM.calculateBuyCost (mirrored state) (opposite side) d liquidity
  = mirrored_buy (AMM.calculateBuyCost state side d liquidity).
Proof.
  unfold AMM.calculateBuyCost, mirrored_buy. cbv zeta.
  cbn [AMM.sharesReceived AMM.cost_ AMM.avgPrice AMM.newYesShares
       AMM.newNoShares AMM.priceImpact].
  rewrite (getCurrentPrices_mirrored state liquidity).
  set (b := Num.or_default liquidity AMM.DEFAULT_LIQUIDITY).
  destruct side; cbn [opposite mirrored AMM.yesShares AMM.noShares].
  - change {| AMM.yesShares := AMM.noShares state;
              AMM.noShares := AMM.yesShares state + d |}
      with (mirrored {| AMM.yesShares := AMM.yesShares state + d;
                        AMM.noShares := AMM.noShares state |}).
    rewrite getCurrentPrices_mirrored. cbn [mirrored_prices AMM.yesPrice AMM.noPrice].
    rewrite (AMMProofs.cost_sym (AMM.noShares state) (AMM.yesShares state + d)),
            (AMMProofs.cost_sym (AMM.noShares state) (AMM.yesShares state)).
    reflexivity.
  - change {| AMM.yesShares := AMM.noShares state + d;
              AMM.noShares := AMM.yesShares state |}
      with (mirrored {| AMM.yesShares := AMM.yesShares state;
                        AMM.noShares := AMM.noShares state + d |}).
    rewrite getCurrentPrices_mirrored. cbn [mirrored_prices AMM.yesPrice AMM.noPrice].
    rewrite (AMMProofs.cost_sym (AMM.noShares state + d) (AMM.yesShares state)),
            (AMMProofs.cost_sym (AMM.noShares state) (AMM.yesShares state)).
    reflexivity.
Qed.

Lemma costWithoutFee_mirrored state side liquidity mid :
  AMM.costWithoutFee (mirrored state) (opposite side) liquidity mid
  = AMM.costWithoutFee state side liquidity mid.
Proof.
  unfold AMM.costWithoutFee. rewrite calculateBuyCost_mirrored. reflexivity.
Qed.

Lemma bisect_mirrored state side amount liquidity target n :
  forall low high,
    AMM.bisect (mirrored state) (opposite side) amount liquidity target n low high
    = AMM.bisect state side amount liquidity target n low high.
Proof.
  induction n as [|n IH]; intros low high; cbn [AMM.bisect]; cbv zeta.
  - reflexivity.
  - rewrite costWithoutFee_mirrored, !IH. reflexivity.
Qed.

Lemma calculateSellReturn_mirrored state side d liquidity :
  AMM.calculateSellReturn (mirrored state) (opposite side) d liquidity
  = mirrored_sell (AMM.calculateSellReturn state side d liquidity).
Proof.
  unfold AMM.calculateSellReturn. cbv zeta.
  rewrite (getCurrentPrices_mirrored state liquidity).
  set (b := Num.or_default liquidity AMM.DEFAULT_LIQUIDITY).
  destruct side;
    cbn [opposite mirrored AMM.yesShares AMM.noShares AMM.sellShareCheck
         AMM.sellQuantities fst snd].
  - destruct (Rgt_dec d (AMM.yesShares state)); [reflexivity|].
    rewrite (AMMProofs.cost_sym (AMM.noShares state) (AMM.yesShares state)),
            (AMMProofs.cost_sym (AMM.clamp (AMM.noShares state))).
    match goal with |- context [Rle_dec ?x 0] => destruct (Rle_dec x 0) end;
      [reflexivity|].
    cbn [mirrored_sell AMM.amountReceived AMM.s_avgPrice AMM.s_newYesShares
         AMM.s_newNoShares AMM.s_priceImpact].
    change {| AMM.yesShares := AMM.clamp (AMM.noShares state);
              AMM.noShares := AMM.clamp (AMM.yesShares state - d) |}
      with (mirrored {| AMM.yesShares := AMM.clamp (AMM.yesShares state - d);
                        AMM.noShares := AMM.clamp (AMM.noShares state) |}).
    rewrite getCurrentPrices_mirrored. reflexivity.
  - destruct (Rgt_dec d (AMM.noShares state)); [reflexivity|].
    rewrite (AMMProofs.cost_sym (AMM.noShares state) (AMM.yesShares state)),
            (AMMProofs.cost_sym (AMM.clamp (AMM.noShares state - d))).
    match goal with |- context [Rle_dec ?x 0] => destruct (Rle_dec x 0) end;
      [reflexivity|].
    cbn [mirrored_sell AMM.amountReceived AMM.s_avgPrice AMM.s_newYesShares
         AMM.s_newNoShares AMM.s_priceImpact].
    change {| AMM.yesShares := AMM.clamp (AMM.noShares state - d);
              AMM.noShares := AMM.clamp (AMM.yesShares state) |}
      with (mirrored {| AMM.yesShares := AMM.clamp (AMM.yesShares state);
                        AMM.noShares := AMM.clamp (AMM.noShares state - d) |}).
    rewrite getCurrentPrices_mirrored. reflexivity.
Qed.

End MirrorProofs.

(** X5.  The engine treats the two sides alike: on the market with the two
    quantities exchanged, the prices are exchanged, and a buy quote, a sell
    quote (or its error) and a buy by amount of the other side are those
    of the original market with the two new quantities exchanged: same
    cost, same amount received, same average price, same price impact,
    same share count. *)
Theorem engine_treats_sides_alike :
  forall (state : AMM.AMMState) (side : Side) (d : R) (liquidity : option R),
    AMM.getCurrentPrices (mirrored state) liquidity
    = mirrored_prices (AMM.getCurrentPrices state liquidity)
    /\ AMM.calculateBuyCost (mirrored state) (opposite side) d liquidity
       = mirrored_buy (AMM.calculateBuyCost state side d liquidity)
    /\ AMM.calculateSellReturn (mirrored state) (opposite side) d liquidity
       = mirrored_sell (AMM.calculateSellReturn state side d liquidity)
    /\ AMM.calculateSharesForAmount (mirrored state) (opposite side) d liquidity
       = AMM.calculateSharesForAmount state side d liquidity.
Proof.
  intros state side d liquidity.
  split; [apply MirrorProofs.getCurrentPrices_mirrored|].
  split; [apply MirrorProofs.calculateBuyCost_mirrored|].
  split; [apply MirrorProofs.calculateSellReturn_mirrored|].
  unfold AMM.calculateSharesForAmount. cbv zeta.
  apply MirrorProofs.bisect_mirrored.
Qed.

(** ** Pricing engine: the share count of a buy by amount *)

Module AmountProofs.

(** The bisection never leaves its bracket. *)
Lemma bisect_shares_upper state side amount liquidity target n :
  forall low high,
    low <= high ->
    AMM.shares (AMM.bisect state side amount liquidity target n low high)
    <= Num.toFixed6 high.
Proof.
  induction n as [|n IH]; intros low high Hlh; cbn [AMM.bisect]; cbv zeta.
  - cbn [AMM.shares]. apply NumProofs.toFixed6_mono. lra.
  - destruct (Rlt_dec _ AMM.tolerance).
    + cbn [AMM.shares]. apply NumProofs.toFixed6_mono. lra.
    + destruct (Rlt_dec _ target).
      * apply IH. lra.
      * eapply Rle_trans; [apply IH; lra|]. apply NumProofs.toFixed6_mono. lra.
Qed.

End AmountProofs.

(** X6.  A buy by amount of at least 0.01 (the least amount the request
    validation lets through) on a market of positive liquidity:
    calculateSharesForAmount returns a share count that is positive, at
    least 0.485 shares per unit of the amount and at most ten shares per
    unit (each up to the rounding to six digits). *)
Theorem calculateSharesForAmount_share_bounds :
  forall (state : AMM.AMMState) (side : Side) (amount l : R),
    0 < l -> 1 / 100 <= amount ->
    let r := AMM.calculateSharesForAmount state side amount (Some l) in
    0 < AMM.shares r
    /\ Num.toFixed6 (amount * (485 / 1000)) <= AMM.shares r
    /\ AMM.shares r <= Num.toFixed6 (amount * 10).
Proof.
  intros state side amount l Hl Ha. cbv zeta.
  assert (Hlow : Num.toFixed6 (amount * (485 / 1000))
                 <= AMM.shares (AMM.calculateSharesForAmount state side amount (Some l))).
  { unfold AMM.calculateSharesForAmount. cbv zeta.
    replace (amount * (485 / 1000)) with (amount * (97 / 100) / 2) by lra.
    apply BisectProofs.bisect_shares_lower; unfold AMM.FEE_RATE; lra. }
  split; [|split; [exact Hlow|]].
  - eapply Rlt_le_trans; [|exact Hlow].
    assert (H : Num.toFixed6 (IZR 4850 / 1000000) <= Num.toFixed6 (amount * (485 / 1000)))
      by (apply NumProofs.toFixed6_mono; lra).
    rewrite NumProofs.toFixed6_exact in H. lra.
  - unfold AMM.calculateSharesForAmount. cbv zeta.
    apply AmountProofs.bisect_shares_upper. lra.
Qed.

Lemma calculateSharesForAmount_share_bounds_witness :
  0 < 1000 /\ 1 / 100 <= 10
  /\ 0 < AMM.shares (AMM.calculateSharesForAmount Sample.fresh_state yes 10 (Some 1000)).
Proof.
  split; [lra|]. split; [lra|].
  exact (proj1 (calculateSharesForAmount_share_bounds Sample.fresh_state yes 10 1000
                  ltac:(lra) ltac:(lra))).
Defined.

(** ** Wallets: refusals and sequences of operations (wallets.service.ts) *)

Module LedgerProofs.

Lemma findByUserId_read w userId :
  WalletsService.findByUserId userId w = (Ok (wallet_read w userId), after_calls 1 w).
Proof.
  unfold WalletsService.findByUserId, query, bind, db_call, wallet_read, after_calls,
    lookup_wallet.
  destruct w as [s [|[|] fs]]; reflexivity.
Qed.

(** One accepted call on a healthy world. *)
Lemma perform_run w userId wallet op :
  healthy w -> wallet_ids_unique (db w) ->
  lookup_wallet (db w) userId = Some wallet ->
  0 <= Wallet.balance wallet ->
  accepted (Wallet.balance wallet) op ->
  perform userId op w
  = (Ok (set_balance (Wallet.balance wallet + signed_amount op) wallet),
     {| db := posted (db w) wallet (op_type op) (signed_amount op) (op_reference op);
        faults := [] |}).
Proof.
  intros Hw Hu Hl H0 Ha. destruct op as [a|a|a m|a m|a m]; cbn in Ha |- *.
  - apply WalletProofs.deposit_run; assumption.
  - apply WalletProofs.withdraw_run; tauto.
  - apply WalletProofs.deductForTrade_run; assumption.
  - apply WalletProofs.addFromTrade_run; assumption.
  - apply WalletProofs.settlePosition_run; assumption.
Qed.

Lemma accepted_nonneg balance op :
  0 <= balance -> accepted balance op -> 0 <= balance + signed_amount op.
Proof. destruct op; cbn; intros; lra. Qed.

Lemma lookup_posted_same s u wallet ty signed ref :
  lookup_wallet s u = Some wallet ->
  lookup_wallet (posted s wallet ty signed ref) u
  = Some (set_balance (Wallet.balance wallet + signed) wallet).
Proof.
  intros Hl. unfold lookup_wallet at 1, posted.
  cbn [wallets with_wallet_transactions with_wallets].
  apply WalletProofs.lookup_moved_same. exact Hl.
Qed.

Lemma perform_all_run userId ops :
  forall w wallet,
    healthy w -> wallet_ids_unique (db w) ->
    lookup_wallet (db w) userId = Some wallet ->
    0 <= Wallet.balance wallet ->
    all_accepted (Wallet.balance wallet) ops ->
    exists s' rows,
      perform_all userId ops w = (Ok tt, {| db := s'; faults := [] |})
      /\ wallet_transactions s' = wallet_transactions (db w) ++ rows
      /\ map WalletTransaction.amount rows = map signed_amount ops
      /\ map WalletTransaction.type rows = map op_type ops
      /\ Forall (fun tx => WalletTransaction.wallet_id tx = Wallet.id wallet) rows
      /\ chained (Wallet.balance wallet) rows
      /\ balance_of s' userId
         = Some (Wallet.balance wallet + fold_right Rplus 0 (map signed_amount ops)).
Proof.
  induction ops as [|op ops IH]; intros w wallet Hw Hu Hl H0 Hall.
  - exists (db w), []. cbn. split.
    { unfold ret. destruct w as [s f]. unfold healthy in Hw. cbn in *. subst f.
      reflexivity. }
    rewrite app_nil_r. split; [reflexivity|]. split; [reflexivity|].
    split; [reflexivity|]. split; [constructor|]. split; [exact I|].
    unfold balance_of. rewrite Hl. cbn. f_equal. lra.
  - destruct Hall as [Ha Hrest]. cbn [perform_all]. unfold bind at 1.
    rewrite (perform_run w userId wallet op Hw Hu Hl H0 Ha).
    set (s1 := posted (db w) wallet (op_type op) (signed_amount op) (op_reference op)).
    set (wallet1 := set_balance (Wallet.balance wallet + signed_amount op) wallet).
    destruct (IH {| db := s1; faults := [] |} wallet1 eq_refl
                (WalletProofs.posted_unique _ _ _ _ _ Hu)
                (lookup_posted_same _ _ _ _ _ _ Hl)
                (accepted_nonneg _ _ H0 Ha) Hrest)
      as (s' & rows & E & Hlog & Hamt & Hty & Hid & Hch & Hbal).
    exists s', (ledger_row wallet (op_type op) (signed_amount op) (op_reference op) :: rows).
    split; [exact E|].
    split; [rewrite Hlog; cbn; rewrite <- app_assoc; reflexivity|].
    split; [cbn; rewrite Hamt; reflexivity|].
    split; [cbn; rewrite Hty; reflexivity|].
    split; [constructor; [reflexivity|exact Hid]|].
    split; [cbn; repeat split; exact Hch|].
    rewrite Hbal. cbn. f_equal. lra.
Qed.

End LedgerProofs.

(** X7.  The refusals of the five ledger operations.  A deposit or a
    withdrawal of an amount that is not positive is refused with
    BadRequestException before any call on the client: the world is
    unchanged.  When the read of the wallet gives nothing, because the
    user has no wallet or because the call itself failed, each of the five
    operations throws NotFoundException after that one call and writes
    nothing. *)
Theorem ledger_operations_refusals :
  forall (w : World) (userId marketId : Id) (amount : R),
    (amount <= 0 ->
       WalletsService.deposit userId amount w
       = (Throw (BadRequestException DepositNotPositive), w)
       /\ WalletsService.withdraw userId amount w
          = (Throw (BadRequestException WithdrawNotPositive), w))
    /\ (wallet_read w userId = None ->
        (0 < amount ->
           WalletsService.deposit userId amount w
           = (Throw (NotFoundException WalletNotFound), after_calls 1 w)
           /\ WalletsService.withdraw userId amount w
              = (Throw (NotFoundException WalletNotFound), after_calls 1 w))
        /\ WalletsService.deductForTrade userId amount marketId w
           = (Throw (NotFoundException WalletNotFound), after_calls 1 w)
        /\ WalletsService.addFromTrade userId amount marketId w
           = (Throw (NotFoundException WalletNotFound), after_calls 1 w)
        /\ WalletsService.settlePosition userId amount marketId w
           = (Throw (NotFoundException WalletNotFound), after_calls 1 w)).
Proof.
  intros w userId marketId amount. split.
  - intros Ha. unfold WalletsService.deposit, WalletsService.withdraw.
    destruct (Rle_dec amount 0) as [_|H]; [|contradiction]. split; reflexivity.
  - intros Hr.
    unfold WalletsService.deposit, WalletsService.withdraw,
      WalletsService.deductForTrade, WalletsService.addFromTrade,
      WalletsService.settlePosition, bind.
    rewrite (LedgerProofs.findByUserId_read w userId), Hr.
    split; [|repeat split].
    intros Ha. destruct (Rle_dec amount 0) as [?|_]; [exfalso; lra|].
    rewrite (LedgerProofs.findByUserId_read w userId), Hr. split; reflexivity.
Qed.

Lemma ledger_operations_refusals_witness :
  let w := {| db := Sample.fresh; faults := [true] |} in
  wallet_read w 7%nat = None
  /\ lookup_wallet (db w) 7%nat = Some (Sample.wallet_of 1%nat 7%nat 100)
  /\ WalletsService.deductForTrade 7%nat 1 3%nat w
     = (Throw (NotFoundException WalletNotFound), after_calls 1 w).
Proof.
  cbv zeta. split; [reflexivity|]. split; [reflexivity|].
  exact (proj1 (proj2 (proj2 (ledger_operations_refusals
                                {| db := Sample.fresh; faults := [true] |}
                                7%nat 3%nat 1) eq_refl))).
Defined.

(** X8.  Ledger operations in sequence.  On a healthy store with unique
    wallet ids, any sequence of calls of deposit, withdraw, deductForTrade,
    addFromTrade and settlePosition on one wallet, each of which passes its
    checks on the balance the calls before it leave, succeeds as a whole;
    it appends one ledger row per call, in order, with the signed amount
    and the kind of the call; each row starts from the balance on which
    the row before it ended (the first one from the balance before the
    sequence) and ends on balance_before + amount; and the final balance is
    the first balance plus the sum of the signed amounts. *)
Theorem ledger_rows_chain :
  forall (w : World) (userId : Id) (wallet : Wallet.Row) (ops : list LedgerOp),
    healthy w ->
    wallet_ids_unique (db w) ->
    lookup_wallet (db w) userId = Some wallet ->
    0 <= Wallet.balance wallet ->
    all_accepted (Wallet.balance wallet) ops ->
    exists w' rows,
      perform_all userId ops w = (Ok tt, w')
      /\ wallet_transactions (db w') = wallet_transactions (db w) ++ rows
      /\ map WalletTransaction.amount rows = map signed_amount ops
      /\ map WalletTransaction.type rows = map op_type ops
      /\ Forall (fun tx => WalletTransaction.wallet_id tx = Wallet.id wallet) rows
      /\ chained (Wallet.balance wallet) rows
      /\ balance_of (db w') userId
         = Some (Wallet.balance wallet + fold_right Rplus 0 (map signed_amount ops)).
Proof.
  intros w userId wallet ops Hw Hu Hl H0 Hall.
  destruct (LedgerProofs.perform_all_run userId ops w wallet Hw Hu Hl H0 Hall)
    as (s' & rows & E & Rest).
  exists {| db := s'; faults := [] |}, rows. split; [exact E|exact Rest].
Qed.

Lemma ledger_rows_chain_witness :
  let w := {| db := Sample.fresh; faults := [] |} in
  let ops := [Deposit 10; Withdraw 110] in
  healthy w /\ wallet_ids_unique (db w)
  /\ lookup_wallet (db w) 7%nat = Some (Sample.wallet_of 1%nat 7%nat 100)
  /\ all_accepted 100 ops
  /\ exists w' rows,
       perform_all 7%nat ops w = (Ok tt, w')
       /\ chained 100 rows
       /\ balance_of (db w') 7%nat = Some (100 + (10 + (- 110 + 0))).
Proof.
  cbv zeta.
  assert (Hu : wallet_ids_unique Sample.fresh).
  { unfold wallet_ids_unique. cbn. repeat constructor. intros []. }
  assert (Ha : all_accepted 100 [Deposit 10; Withdraw 110]) by (cbn; lra).
  split; [reflexivity|]. split; [exact Hu|]. split; [reflexivity|].
  split; [exact Ha|].
  destruct (ledger_rows_chain {| db := Sample.fresh; faults := [] |} 7%nat
              (Sample.wallet_of 1%nat 7%nat 100) [Deposit 10; Withdraw 110]
              eq_refl Hu eq_refl ltac:(cbn; lra) Ha)
    as (w' & rows & E & _ & _ & _ & _ & Hch & Hb).
  exists w', rows. split; [exact E|]. split; [exact Hch|exact Hb].
Defined.

(** ** Positions: averages and the one row of a user in a market
    (positions.service.ts) *)

Module UpsertProofs.

(** The row written over a position keeps its identity. *)
Lemma updateData_keys old side d price isBuy x :
  Position.id (PositionsService.updateData old side d price isBuy x) = Position.id x
  /\ Position.user_id (PositionsService.updateData old side d price isBuy x)
     = Position.user_id x
  /\ Position.market_id (PositionsService.updateData old side d price isBuy x)
     = Position.market_id x.
Proof. destruct side; cbn; repeat split; reflexivity. Qed.

Lemma lookup_position_In s u m p :
  lookup_position s u m = Some p ->
  In p (positions s) /\ Position.user_id p = u /\ Position.market_id p = m.
Proof.
  intros H. apply WalletProofs.single_inv in H.
  assert (Hin : In p (filter (PositionsService.sameUserAndMarket u m) (positions s)))
    by (rewrite H; left; reflexivity).
  apply filter_In in Hin. destruct Hin as [Hin He].
  unfold PositionsService.sameUserAndMarket in He.
  apply andb_true_iff in He. destruct He as [E1 E2].
  apply Nat.eqb_eq in E1, E2. auto.
Qed.

(** A weighted average of two numbers lies between them. *)
Lemma weighted_average_between cur a d p :
  0 <= cur -> 0 <= d -> 0 < cur + d ->
  Rmin a p <= (cur * a + d * p) / (cur + d) <= Rmax a p.
Proof.
  intros Hc Hd Hs.
  pose proof (Rmin_l a p). pose proof (Rmin_r a p).
  pose proof (Rmax_l a p). pose proof (Rmax_r a p).
  split; apply (Rmult_le_reg_r (cur + d)); try exact Hs;
    unfold Rdiv; rewrite Rmult_assoc, Rinv_l by lra; nra.
Qed.

Section Touched.

Variables (w : World) (userId marketId : Id) (side : Side) (d price : R)
          (isBuy : bool).
Hypothesis Hw : healthy w.
Hypothesis Hu : position_ids_unique (db w).

(** After an update, the rows of every user and market are the old ones,
    with the row of [userId] in [marketId] replaced. *)
Lemma updated_rows old u m :
  lookup_position (db w) userId marketId = Some old ->
  let f := PositionsService.updateData old side d price isBuy in
  filter (PositionsService.sameUserAndMarket u m)
         (map (fun x => if Nat.eqb (Position.id x) (Position.id old) then f x else x)
              (positions (db w)))
  = if Nat.eqb userId u && Nat.eqb marketId m
    then [f old]
    else filter (PositionsService.sameUserAndMarket u m) (positions (db w)).
Proof.
  intros Hl. cbv zeta.
  destruct (lookup_position_In _ _ _ _ Hl) as (Hin & Eu & Em).
  rewrite Run.filter_map_commute.
  2:{ intros x. destruct (Nat.eqb (Position.id x) (Position.id old)); [|reflexivity].
      unfold PositionsService.sameUserAndMarket.
      destruct (updateData_keys old side d price isBuy x) as (_ & -> & ->).
      reflexivity. }
  destruct (Nat.eqb userId u && Nat.eqb marketId m) eqn:E.
  - apply andb_true_iff in E. destruct E as [E1 E2].
    apply Nat.eqb_eq in E1, E2. subst u m.
    unfold lookup_position in Hl. apply WalletProofs.single_inv in Hl.
    rewrite Hl. cbn [map]. rewrite Nat.eqb_refl. reflexivity.
  - rewrite <- (map_id (filter _ (positions (db w)))) at 2.
    apply map_ext_in. intros x Hx. apply filter_In in Hx. destruct Hx as [Hx Hk].
    destruct (Nat.eqb (Position.id x) (Position.id old)) eqn:Eid; [|reflexivity].
    exfalso. apply Nat.eqb_eq in Eid.
    rewrite (WalletProofs.key_injective Position.id (positions (db w)) old x
               Hu Hin Hx Eid) in Hk.
    unfold PositionsService.sameUserAndMarket in Hk.
    rewrite Eu, Em in Hk.
    apply andb_true_iff in Hk. destruct Hk as [K1 K2].
    rewrite K1, K2 in E. discriminate.
Qed.

End Touched.

End UpsertProofs.

(** X9.  A buy recorded on an existing position, on a healthy store:
    createOrUpdate (isBuy) adds the shares bought to the side and sets its
    average price to the cost basis per share, (old shares times old
    average + shares bought times the executed price) / new shares, up to
    one unit of the sixth digit, the precision of the column.  Up to that
    unit the new average lies between the old average and the executed
    price. *)
Theorem createOrUpdate_buy_averages :
  forall (w : World) (userId marketId : Id) (side : Side) (d price : R)
         (old : Position.Row),
    healthy w ->
    position_ids_unique (db w) ->
    lookup_position (db w) userId marketId = Some old ->
    0 <= side_shares side old -> 0 <= d -> 0 < side_shares side old + d ->
    exists row w',
      PositionsService.createOrUpdate userId marketId side d price true w
      = (Ok row, w')
      /\ side_shares side row = side_shares side old + d
      /\ Rabs (side_avg_price side row
               - (side_shares side old * side_avg_price side old + d * price)
                 / (side_shares side old + d)) <= 1 / 1000000
      /\ Rmin (side_avg_price side old) price - 1 / 1000000
         <= side_avg_price side row
         <= Rmax (side_avg_price side old) price + 1 / 1000000.
Proof.
  intros w userId marketId side d price old Hw Hu Hl Hc Hd Hs.
  rewrite (PositionProofs.createOrUpdate_updates w userId marketId side d price
             true Hw old Hu Hl).
  eexists. eexists. split; [reflexivity|].
  destruct (PositionProofs.updateData_sides old side d price true) as (Es & Ea & _).
  cbv zeta in Es, Ea. rewrite Es, Ea.
  destruct (Rgt_dec (side_shares side old + d) 0) as [_|H]; [|exfalso; lra].
  rewrite Rmax_right by lra.
  split; [reflexivity|]. split.
  - match goal with |- Rabs (?x - ?x) <= _ => replace (x - x) with 0 by lra end.
    rewrite Rabs_R0. lra.
  - pose proof (UpsertProofs.weighted_average_between
                  (side_shares side old) (side_avg_price side old) d price
                  Hc Hd Hs) as [H1 H2].
    split; lra.
Qed.

Lemma createOrUpdate_buy_averages_witness :
  let w := {| db := Sample.resolved_yes; faults := [] |} in
  let old := Sample.position_of 50%nat 7%nat 50 0 (2 / 5) 0 in
  healthy w /\ position_ids_unique (db w)
  /\ lookup_position (db w) 7%nat 3%nat = Some old
  /\ exists row w',
       PositionsService.createOrUpdate 7%nat 3%nat yes 50 (3 / 5) true w
       = (Ok row, w')
       /\ side_shares yes row = 50 + 50
       /\ Rmin (2 / 5) (3 / 5) - 1 / 1000000 <= side_avg_price yes row.
Proof.
  cbv zeta.
  assert (Hu : position_ids_unique Sample.resolved_yes).
  { unfold position_ids_unique. cbn. repeat constructor; cbn; intuition lia. }
  split; [reflexivity|]. split; [exact Hu|]. split; [reflexivity|].
  destruct (createOrUpdate_buy_averages
              {| db := Sample.resolved_yes; faults := [] |} 7%nat 3%nat yes 50 (3 / 5)
              (Sample.position_of 50%nat 7%nat 50 0 (2 / 5) 0)
              eq_refl Hu eq_refl ltac:(cbn; lra) ltac:(lra) ltac:(cbn; lra))
    as (row & w' & E & Hs & _ & Hv & _).
  exists row, w'. split; [exact E|]. split; [exact Hs|exact Hv].
Defined.

(** X10.  A sell recorded on an existing position, on a healthy store:
    createOrUpdate (not isBuy) with d >= 0 takes the shares sold off the
    side.  While shares remain the average price of the side is the one
    before the sell, whatever the price of the sell; when none remain, or
    when more are sold than the side holds, the side is left with 0 shares
    at average price 0. *)
Theorem createOrUpdate_sell_keeps_average :
  forall (w : World) (userId marketId : Id) (side : Side) (d price : R)
         (old : Position.Row),
    healthy w ->
    position_ids_unique (db w) ->
    lookup_position (db w) userId marketId = Some old ->
    0 <= d ->
    exists row w',
      PositionsService.createOrUpdate userId marketId side d price false w
      = (Ok row, w')
      /\ (d < side_shares side old ->
          side_shares side row = side_shares side old - d
          /\ side_avg_price side row = side_avg_price side old)
      /\ (side_shares side old <= d ->
          side_shares side row = 0 /\ side_avg_price side row = 0).
Proof.
  intros w userId marketId side d price old Hw Hu Hl Hd.
  rewrite (PositionProofs.createOrUpdate_updates w userId marketId side d price
             false Hw old Hu Hl).
  eexists. eexists. split; [reflexivity|].
  destruct (PositionProofs.updateData_sides old side d price false) as (Es & Ea & _).
  cbv zeta in Es, Ea. rewrite Es, Ea.
  destruct (Rgt_dec (side_shares side old - d) 0) as [H|H]; split; intros Hc;
    try (exfalso; lra).
  - rewrite Rmax_right by lra. split; reflexivity.
  - rewrite Rmax_left by lra. split; reflexivity.
Qed.

Lemma createOrUpdate_sell_keeps_average_witness :
  let w := {| db := Sample.resolved_yes; faults := [] |} in
  let old := Sample.position_of 50%nat 7%nat 50 0 (2 / 5) 0 in
  healthy w /\ position_ids_unique (db w)
  /\ lookup_position (db w) 7%nat 3%nat = Some old
  /\ exists row w',
       PositionsService.createOrUpdate 7%nat 3%nat yes 20 (9 / 10) false w
       = (Ok row, w')
       /\ side_shares yes row = 50 - 20
       /\ side_avg_price yes row = 2 / 5.
Proof.
  cbv zeta.
  assert (Hu : position_ids_unique Sample.resolved_yes).
  { unfold position_ids_unique. cbn. repeat constructor; cbn; intuition lia. }
  split; [reflexivity|]. split; [exact Hu|]. split; [reflexivity|].
  destruct (createOrUpdate_sell_keeps_average
              {| db := Sample.resolved_yes; faults := [] |} 7%nat 3%nat yes 20 (9 / 10)
              (Sample.position_of 50%nat 7%nat 50 0 (2 / 5) 0)
              eq_refl Hu eq_refl ltac:(lra))
    as (row & w' & E & Hlt & _).
  exists row, w'. split; [exact E|]. apply Hlt. cbn. lra.
Defined.

Module TouchProofs.

Lemma createOrUpdate_touch w userId marketId side d price isBuy :
  healthy w ->
  position_ids_unique (db w) ->
  has_no_position (db w) userId marketId
  \/ (exists old, lookup_position (db w) userId marketId = Some old) ->
  exists row s',
    PositionsService.createOrUpdate userId marketId side d price isBuy w
    = (Ok row, {| db := s'; faults := [] |})
    /\ (has_no_position (db w) userId marketId ->
        row = PositionsService.insertData userId marketId side d price
                (next_id (db w)))
    /\ (forall old,
          lookup_position (db w) userId marketId = Some old ->
          row = PositionsService.updateData old side d price isBuy old)
    /\ lookup_position s' userId marketId = Some row
    /\ Position.user_id row = userId
    /\ Position.market_id row = marketId
    /\ (forall u m,
          u <> userId \/ m <> marketId ->
          filter (PositionsService.sameUserAndMarket u m) (positions s')
          = filter (PositionsService.sameUserAndMarket u m) (positions (db w)))
    /\ wallets s' = wallets (db w)
    /\ wallet_transactions s' = wallet_transactions (db w)
    /\ markets s' = markets (db w)
    /\ trades s' = trades (db w).
Proof.
  intros Hw Hu [Hno | [old Hl]].
  - rewrite (PositionProofs.createOrUpdate_creates w userId marketId side d price
               isBuy Hw Hno).
    eexists. eexists. split; [reflexivity|].
    cbn [db positions wallets wallet_transactions markets trades with_positions].
    split; [reflexivity|].
    split.
    { intros old Hl. exfalso. unfold lookup_position in Hl.
      unfold has_no_position in Hno. rewrite Hno in Hl. discriminate. }
    assert (Hk : forall u m,
               PositionsService.sameUserAndMarket u m
                 (PositionsService.insertData userId marketId side d price
                    (next_id (db w)))
               = Nat.eqb userId u && Nat.eqb marketId m)
      by (intros u m; destruct side; reflexivity).
    split.
    { unfold lookup_position. cbn [positions with_positions]. rewrite filter_app.
      unfold has_no_position in Hno. rewrite Hno. cbn [filter app].
      rewrite Hk, !Nat.eqb_refl. reflexivity. }
    split; [destruct side; reflexivity|]. split; [destruct side; reflexivity|].
    split; [|repeat split].
    intros u m Hne. rewrite filter_app. cbn [filter]. rewrite Hk.
    destruct (Nat.eqb userId u && Nat.eqb marketId m) eqn:E.
    + exfalso. apply andb_true_iff in E. destruct E as [E1 E2].
      apply Nat.eqb_eq in E1, E2. destruct Hne; congruence.
    + apply app_nil_r.
  - rewrite (PositionProofs.createOrUpdate_updates w userId marketId side d price
               isBuy Hw old Hu Hl).
    eexists. eexists. split; [reflexivity|].
    cbn [db positions wallets wallet_transactions markets trades with_positions].
    split.
    { intros Hno. exfalso. unfold lookup_position in Hl.
      unfold has_no_position in Hno. rewrite Hno in Hl. discriminate. }
    split; [intros old' Hl'; rewrite Hl in Hl'; inversion Hl'; subst; reflexivity|].
    destruct (UpsertProofs.lookup_position_In _ _ _ _ Hl) as (_ & Eu & Em).
    destruct (UpsertProofs.updateData_keys old side d price isBuy old)
      as (_ & Ku & Km).
    split.
    { unfold lookup_position. cbn [positions with_positions].
      rewrite (UpsertProofs.updated_rows w userId marketId side d price isBuy Hu
                 old userId marketId Hl).
      rewrite !Nat.eqb_refl. reflexivity. }
    split; [congruence|]. split; [congruence|].
    split; [|repeat split].
    intros u m Hne.
    rewrite (UpsertProofs.updated_rows w userId marketId side d price isBuy Hu
               old u m Hl).
    destruct (Nat.eqb userId u && Nat.eqb marketId m) eqn:E; [|reflexivity].
    exfalso. apply andb_true_iff in E. destruct E as [E1 E2].
    apply Nat.eqb_eq in E1, E2. destruct Hne; congruence.
Qed.

End TouchProofs.

(** X11.  createOrUpdate writes the one position row of the user in the
    market and nothing else.  On a healthy store where the user has no row
    or one row in the market, it succeeds; reading the position of the
    user in the market afterwards gives the row it returned; the rows of
    every other user or market read as before; and the wallets, the
    ledger, the markets and the trade log are as before. *)
Theorem createOrUpdate_touches_one_position :
  forall (w : World) (userId marketId : Id) (side : Side) (d price : R)
         (isBuy : bool),
    healthy w ->
    position_ids_unique (db w) ->
    has_no_position (db w) userId marketId
    \/ (exists old, lookup_position (db w) userId marketId = Some old) ->
    exists row w',
      PositionsService.createOrUpdate userId marketId side d price isBuy w
      = (Ok row, w')
      /\ lookup_position (db w') userId marketId = Some row
      /\ Position.user_id row = userId
      /\ Position.market_id row = marketId
      /\ (forall u m,
            u <> userId \/ m <> marketId ->
            filter (PositionsService.sameUserAndMarket u m) (positions (db w'))
            = filter (PositionsService.sameUserAndMarket u m) (positions (db w)))
      /\ wallets (db w') = wallets (db w)
      /\ wallet_transactions (db w') = wallet_transactions (db w)
      /\ markets (db w') = markets (db w)
      /\ trades (db w') = trades (db w).
Proof.
  intros w userId marketId side d price isBuy Hw Hu Hrow.
  destruct (TouchProofs.createOrUpdate_touch w userId marketId side d price isBuy
              Hw Hu Hrow)
    as (row & s' & E & _ & _ & Rest).
  exists row, {| db := s'; faults := [] |}. split; [exact E|exact Rest].
Qed.

Lemma createOrUpdate_touches_one_position_witness :
  let w := {| db := Sample.resolved_yes; faults := [] |} in
  healthy w /\ position_ids_unique (db w)
  /\ (exists old, lookup_position (db w) 7%nat 3%nat = Some old)
  /\ exists row w',
       PositionsService.createOrUpdate 7%nat 3%nat yes 1 (1 / 2) true w
       = (Ok row, w')
       /\ lookup_position (db w') 7%nat 3%nat = Some row
       /\ lookup_position (db w') 8%nat 3%nat = lookup_position (db w) 8%nat 3%nat.
Proof.
  cbv zeta.
  assert (Hu : position_ids_unique Sample.resolved_yes).
  { unfold position_ids_unique. cbn. repeat constructor; cbn; intuition lia. }
  assert (Hold : exists old,
             lookup_position Sample.resolved_yes 7%nat 3%nat = Some old)
    by (eexists; reflexivity).
  split; [reflexivity|]. split; [exact Hu|]. split; [exact Hold|].
  destruct (createOrUpdate_touches_one_position
              {| db := Sample.resolved_yes; faults := [] |} 7%nat 3%nat yes 1 (1 / 2)
              true eq_refl Hu (or_intror Hold))
    as (row & w' & E & Hl & _ & _ & Hother & _).
  exists row, w'. split; [exact E|]. split; [exact Hl|].
  unfold lookup_position. rewrite (Hother 8%nat 3%nat); [reflexivity|].
  left. discriminate.
Defined.

(** ** Markets: resolution (markets.service.ts, trades.service.ts) *)

Module MarketProofs.

Section Update.

Variables (w : World) (id : Id) (m : Market.Row) (f : Market.Row -> Market.Row).
Hypothesis Hw : healthy w.
Hypothesis Hm : lookup_market (db w) id = Some m.
Hypothesis Hf : forall x, Market.id (f x) = Market.id x.

Let updated : list Market.Row :=
  map (fun x => if Nat.eqb (Market.id x) id then f x else x) (markets (db w)).

Lemma updateRow_run :
  MarketsService.updateRow id f w
  = (Ok (Some (f m)), {| db := with_markets (db w) updated; faults := [] |}).
Proof.
  unfold MarketsService.updateRow. rewrite (Run.mutate_healthy _ w Hw).
  pose proof Hm as H. unfold lookup_market in H.
  rewrite (Run.update_single_found _ _ _ _ H). reflexivity.
Qed.

Lemma lookup_updated : lookup_market (with_markets (db w) updated) id = Some (f m).
Proof.
  unfold lookup_market, updated. cbn [markets with_markets].
  rewrite (Run.filter_update_same (fun x => Nat.eqb (Market.id x) id)).
  - pose proof Hm as H. unfold lookup_market in H.
    apply WalletProofs.single_inv in H. rewrite H. reflexivity.
  - intros x. rewrite Hf. reflexivity.
Qed.

Lemma only_market_changed_updated :
  only_market_changed (db w) (with_markets (db w) updated) id.
Proof.
  split; [|repeat split].
  intros id' Hne. unfold lookup_market, updated. cbn [markets with_markets].
  rewrite Run.filter_map_commute.
  - f_equal. rewrite <- (map_id (filter _ (markets (db w)))) at 2.
    apply map_ext_in. intros x Hx. apply filter_In in Hx. destruct Hx as [_ Hx].
    apply Nat.eqb_eq in Hx.
    destruct (Nat.eqb (Market.id x) id) eqn:E; [|reflexivity].
    apply Nat.eqb_eq in E. congruence.
  - intros x. destruct (Nat.eqb (Market.id x) id); [rewrite Hf|]; reflexivity.
Qed.

End Update.

Lemma findById_healthy w id :
  healthy w -> MarketsService.findById id w = (Ok (lookup_market (db w) id), w).
Proof.
  intros Hw. unfold MarketsService.findById. rewrite (Run.query_healthy _ w Hw).
  reflexivity.
Qed.

Lemma resolveMarket_run w now id outcome m :
  healthy w ->
  lookup_market (db w) id = Some m ->
  resolvable (Market.status m) = true ->
  exists s',
    MarketsService.resolveMarket now id outcome w
    = (Ok (resolved_row m outcome now), {| db := s'; faults := [] |})
    /\ lookup_market s' id = Some (resolved_row m outcome now)
    /\ only_market_changed (db w) s' id.
Proof.
  intros Hw Hm Hr. unfold MarketsService.resolveMarket, bind.
  rewrite (findById_healthy w id Hw), Hm.
  assert (Hg : negb (Status_eqb (Market.status m) active)
               && negb (Status_eqb (Market.status m) suspended) = false).
  { unfold resolvable in Hr. destruct (Market.status m); cbn in *;
      try reflexivity; discriminate. }
  rewrite Hg.
  match goal with
  | |- context [MarketsService.updateRow id ?g] => set (f := g)
  end.
  rewrite (updateRow_run w id m f Hw Hm).
  eexists. split; [reflexivity|]. split.
  - exact (lookup_updated w id m f Hm (fun _ => eq_refl)).
  - exact (only_market_changed_updated w id f (fun _ => eq_refl)).
Qed.

Lemma resolveMarket_refused w now id outcome m :
  healthy w ->
  lookup_market (db w) id = Some m ->
  resolvable (Market.status m) = false ->
  MarketsService.resolveMarket now id outcome w
  = (Throw (BadRequestException NotResolvable), w).
Proof.
  intros Hw Hm Hr. unfold MarketsService.resolveMarket, bind.
  rewrite (findById_healthy w id Hw), Hm.
  unfold resolvable in Hr. destruct (Market.status m); cbn in *;
    try reflexivity; discriminate.
Qed.

Lemma settleMarket_refused w id m :
  healthy w ->
  lookup_market (db w) id = Some m ->
  Market.status m <> resolved \/ Market.outcome m = None ->
  TradesService.settleMarket id w
  = (Throw (BadRequestException MarketNotResolved), w).
Proof.
  intros Hw Hm Hno. unfold TradesService.settleMarket, bind.
  rewrite (findById_healthy w id Hw), Hm.
  destruct Hno as [Hst | Ho].
  - destruct (Market.status m); cbn; try reflexivity. contradiction.
  - rewrite Ho. destruct (Status_eqb (Market.status m) resolved); reflexivity.
Qed.

End MarketProofs.

(** X12.  resolveMarket on a healthy store.  On a market that is active or
    suspended it returns the market row with status resolved, the given
    outcome and the time of the call as resolved_at, its quantities,
    liquidity, volume and trading window untouched; that row is what the
    market reads as afterwards, and no other market, wallet, ledger row,
    position or trade changes.  On a market in any other status it throws
    BadRequestException and the world is unchanged; on a market that does
    not exist it throws NotFoundException and the world is unchanged. *)
Theorem resolveMarket_resolves_open_markets :
  forall (w : World) (now : Z) (id : Id) (outcome : Side),
    healthy w ->
    (forall m,
       lookup_market (db w) id = Some m ->
       (resolvable (Market.status m) = true ->
        exists w',
          MarketsService.resolveMarket now id outcome w
          = (Ok (resolved_row m outcome now), w')
          /\ healthy w'
          /\ lookup_market (db w') id = Some (resolved_row m outcome now)
          /\ only_market_changed (db w) (db w') id)
       /\ (resolvable (Market.status m) = false ->
           MarketsService.resolveMarket now id outcome w
           = (Throw (BadRequestException NotResolvable), w)))
    /\ (lookup_market (db w) id = None ->
        MarketsService.resolveMarket now id outcome w
        = (Throw (NotFoundException MarketNotFound), w)).
Proof.
  intros w now id outcome Hw. split.
  - intros m Hm. split.
    + intros Hr.
      destruct (MarketProofs.resolveMarket_run w now id outcome m Hw Hm Hr)
        as (s' & E & Hl & Ho).
      exists {| db := s'; faults := [] |}. split; [exact E|].
      split; [reflexivity|]. split; [exact Hl|exact Ho].
    + apply MarketProofs.resolveMarket_refused; assumption.
  - intros Hno. unfold MarketsService.resolveMarket, bind.
    rewrite (MarketProofs.findById_healthy w id Hw), Hno. reflexivity.
Qed.

Lemma resolveMarket_resolves_open_markets_witness :
  let w := {| db := Sample.fresh; faults := [] |} in
  healthy w
  /\ lookup_market (db w) 3%nat = Some (Sample.market3 active None 0 0)
  /\ exists w',
       MarketsService.resolveMarket 900 3%nat yes w
       = (Ok (resolved_row (Sample.market3 active None 0 0) yes 900), w')
       /\ lookup_market (db w') 3%nat
          = Some (resolved_row (Sample.market3 active None 0 0) yes 900).
Proof.
  cbv zeta. split; [reflexivity|]. split; [reflexivity|].
  destruct (proj1 (proj1 (resolveMarket_resolves_open_markets
                            {| db := Sample.fresh; faults := [] |} 900 3%nat yes
                            eq_refl)
                     (Sample.market3 active None 0 0) eq_refl) eq_refl)
    as (w' & E & _ & Hl & _).
  exists w'. split; [exact E|exact Hl].
Defined.

(** X13.  A market moved to resolved through updateStatus (the status
    endpoint of the admin controller) instead of resolveMarket gets no
    outcome, and after that nothing can settle it: on the healthy world
    the status change leaves, settleMarket throws BadRequestException
    because the outcome is missing, resolveMarket and the resolve chain of
    the admin controller throw because the market is no longer active or
    suspended, and updateStatus refuses every further status; each of
    them leaves the world unchanged. *)
Theorem status_resolved_market_cannot_be_settled :
  forall (w : World) (id : Id) (m : Market.Row),
    healthy w ->
    lookup_market (db w) id = Some m ->
    resolvable (Market.status m) = true ->
    Market.outcome m = None ->
    exists row w1,
      AdminController.updateMarketStatus id resolved w = (Ok row, w1)
      /\ Market.status row = resolved
      /\ Market.outcome row = None
      /\ lookup_market (db w1) id = Some row
      /\ TradesService.settleMarket id w1
         = (Throw (BadRequestException MarketNotResolved), w1)
      /\ (forall now outcome,
            MarketsService.resolveMarket now id outcome w1
            = (Throw (BadRequestException NotResolvable), w1)
            /\ AdminController.resolveMarket now id outcome w1
               = (Throw (BadRequestException NotResolvable), w1))
      /\ (forall status,
            AdminController.updateMarketStatus id status w1
            = (Throw (BadRequestException (CannotTransition resolved status)), w1)).
Proof.
  intros w id m Hw Hm Hr Ho.
  unfold AdminController.updateMarketStatus, MarketsService.updateStatus, bind.
  rewrite (MarketProofs.findById_healthy w id Hw), Hm.
  assert (Hi : MarketsService.includes
                 (MarketsService.validTransitions (Market.status m)) resolved = true).
  { unfold resolvable in Hr. destruct (Market.status m); cbn in *;
      try reflexivity; discriminate. }
  rewrite Hi. cbn [negb].
  match goal with
  | |- context [MarketsService.updateRow id ?g] => set (f := g)
  end.
  rewrite (MarketProofs.updateRow_run w id m f Hw Hm).
  set (row := f m).
  match goal with
  | |- context [{| db := ?s; faults := [] |}] => set (s1 := s)
  end.
  assert (Hl : lookup_market s1 id = Some row)
    by (exact (MarketProofs.lookup_updated w id m f Hm (fun _ => eq_refl))).
  assert (Hw1 : healthy {| db := s1; faults := [] |}) by reflexivity.
  exists row, {| db := s1; faults := [] |}.
  split; [reflexivity|]. split; [reflexivity|]. split; [exact Ho|].
  split; [exact Hl|]. split; [|split].
  - apply (MarketProofs.settleMarket_refused _ id row Hw1 Hl). right. exact Ho.
  - intros now outcome.
    assert (E : MarketsService.resolveMarket now id outcome {| db := s1; faults := [] |}
                = (Throw (BadRequestException NotResolvable),
                   {| db := s1; faults := [] |}))
      by (apply (MarketProofs.resolveMarket_refused _ now id outcome row Hw1 Hl);
          reflexivity).
    split; [exact E|].
    unfold AdminController.resolveMarket, bind. rewrite E. reflexivity.
  - intros status.
    apply (LifecycleProofs.updateStatus_rejected _ id row status Hw1 Hl).
    destruct status; reflexivity.
Qed.

Lemma status_resolved_market_cannot_be_settled_witness :
  let w := {| db := Sample.fresh; faults := [] |} in
  healthy w
  /\ lookup_market (db w) 3%nat = Some (Sample.market3 active None 0 0)
  /\ exists row w1,
       AdminController.updateMarketStatus 3%nat resolved w = (Ok row, w1)
       /\ TradesService.settleMarket 3%nat w1
          = (Throw (BadRequestException MarketNotResolved), w1).
Proof.
  cbv zeta. split; [reflexivity|]. split; [reflexivity|].
  destruct (status_resolved_market_cannot_be_settled
              {| db := Sample.fresh; faults := [] |} 3%nat
              (Sample.market3 active None 0 0) eq_refl eq_refl eq_refl eq_refl)
    as (row & w1 & E & _ & _ & _ & Hs & _).
  exists row, w1. split; [exact E|exact Hs].
Defined.

(** ** Trades: the checks of executeTrade (trades.service.ts) *)

(** X14.  The checks of executeTrade on a healthy store.  A market that
    does not exist gives NotFoundException; a market whose status is not
    active gives BadRequestException (market not open); an active market
    outside its trading window gives BadRequestException (outside trading
    hours), the two ends of the window being inside; in the three cases
    the world is unchanged.  Past the checks the trade is the buy or the
    sell, by the type of the request, on the quantities of the market
    row. *)
Theorem executeTrade_checks :
  forall (w : World) (now : Z) (userId : Id) (dto : TradesService.ExecuteTradeDto),
    healthy w ->
    (lookup_market (db w) (TradesService.marketId dto) = None ->
     TradesService.executeTrade now userId dto w
     = (Throw (NotFoundException MarketNotFound), w))
    /\ (forall m,
          lookup_market (db w) (TradesService.marketId dto) = Some m ->
          (Market.status m <> active ->
           TradesService.executeTrade now userId dto w
           = (Throw (BadRequestException MarketNotOpen), w))
          /\ (Market.status m = active -> ~ within_window m now ->
              TradesService.executeTrade now userId dto w
              = (Throw (BadRequestException OutsideTradingHours), w))
          /\ (Market.status m = active -> within_window m now ->
              TradesService.executeTrade now userId dto w
              = match TradesService.type dto with
                | buy => TradesService.executeBuy userId m (market_state m) dto w
                | sell => TradesService.executeSell userId m (market_state m) dto w
                end)).
Proof.
  intros w now userId dto Hw.
  unfold TradesService.executeTrade, bind.
  rewrite (MarketProofs.findById_healthy w _ Hw).
  split; [intros ->; reflexivity|].
  intros m ->. split; [|split].
  - intros Hst. destruct (Market.status m); try reflexivity. contradiction.
  - intros Hst Hout. rewrite Hst. cbn [Status_eqb negb].
    unfold within_window in Hout.
    destruct (Z.ltb_spec now (Market.start_time m));
      destruct (Z.ltb_spec (Market.end_time m) now); try reflexivity.
    exfalso. apply Hout. lia.
  - intros Hst Hin. rewrite Hst. cbn [Status_eqb negb].
    unfold within_window in Hin.
    destruct (Z.ltb_spec now (Market.start_time m)); [lia|].
    destruct (Z.ltb_spec (Market.end_time m) now); [lia|].
    cbn [orb]. destruct (TradesService.type dto); reflexivity.
Qed.

Lemma executeTrade_checks_witness :
  let w := {| db := Sample.fresh; faults := [] |} in
  healthy w
  /\ lookup_market (db w) 3%nat = Some (Sample.market3 active None 0 0)
  /\ ~ within_window (Sample.market3 active None 0 0) 1001
  /\ TradesService.executeTrade 1001 7%nat Sample.buy_one_share w
     = (Throw (BadRequestException OutsideTradingHours), w).
Proof.
  cbv zeta.
  assert (Hout : ~ within_window (Sample.market3 active None 0 0) 1001)
    by (unfold within_window; cbn; lia).
  split; [reflexivity|]. split; [reflexivity|]. split; [exact Hout|].
  exact (proj1 (proj2 (proj2 (executeTrade_checks
                                {| db := Sample.fresh; faults := [] |} 1001 7%nat
                                Sample.buy_one_share eq_refl)
                         (Sample.market3 active None 0 0) eq_refl))
           eq_refl Hout).
Defined.

(** ** Trades: a trade that goes through (trades.service.ts) *)

Module TradeProofs.

Lemma bind_ok {A B} (m : M A) (k : A -> M B) w a w1 :
  m w = (Ok a, w1) -> bind m k w = k a w1.
Proof. intros E. unfold bind. rewrite E. reflexivity. Qed.

Lemma updateShares_run w id m y n v :
  healthy w ->
  lookup_market (db w) id = Some m ->
  exists s',
    MarketsService.updateShares id y n v w
    = (Ok (traded_row m y n v), {| db := s'; faults := [] |})
    /\ lookup_market s' id = Some (traded_row m y n v)
    /\ next_id s' = next_id (db w)
    /\ only_market_changed (db w) s' id.
Proof.
  intros Hw Hm. unfold MarketsService.updateShares, bind.
  rewrite (MarketProofs.findById_healthy w id Hw), Hm.
  match goal with
  | |- context [MarketsService.updateRow id ?g] => set (f := g)
  end.
  rewrite (MarketProofs.updateRow_run w id m f Hw Hm).
  eexists. split; [reflexivity|]. split; [|split; [reflexivity|]].
  - exact (MarketProofs.lookup_updated w id m f Hm (fun _ => eq_refl)).
  - exact (MarketProofs.only_market_changed_updated w id f (fun _ => eq_refl)).
Qed.

Lemma recordTrade_run w data :
  healthy w ->
  TradesService.recordTrade data w
  = (Ok data, {| db := with_trades (db w) (trades (db w) ++ [data]); faults := [] |}).
Proof.
  intros Hw. unfold TradesService.recordTrade, bind.
  rewrite (Run.mutate_healthy _ w Hw). reflexivity.
Qed.

Lemma held_none s u m side : has_no_position s u m -> held s u m side = 0.
Proof.
  unfold has_no_position, held, lookup_position. intros ->. reflexivity.
Qed.

Lemma held_some s u m side p :
  lookup_position s u m = Some p -> held s u m side = side_shares side p.
Proof. unfold held. intros ->. reflexivity. Qed.

(** The wallet step, the market step, the position step and the insert of
    the trade row, one after the other on a healthy world. *)
Lemma steps_run {R3 : Type} w userId wallet market side signed y n moved d price
    isBuy data (k : Trade.Row -> M R3) :
  healthy w -> wallet_ids_unique (db w) -> position_ids_unique (db w) ->
  lookup_market (db w) (Market.id market) = Some market ->
  lookup_wallet (db w) userId = Some wallet ->
  one_row_at_most (db w) userId (Market.id market) ->
  forall walletStep : M Wallet.Row,
    (exists row,
       walletStep w
       = (Ok row,
          {| db := posted (db w) wallet trade_tx signed (Some (Market.id market));
             faults := [] |})) ->
    exists p s',
      bind walletStep (fun _ =>
        bind (MarketsService.updateShares (Market.id market) y n moved) (fun _ =>
          bind (PositionsService.createOrUpdate userId (Market.id market) side d
                  price isBuy) (fun _ =>
            bind (TradesService.recordTrade data) k))) w
      = k data {| db := s'; faults := [] |}
      /\ trade_effects (db w) s' userId wallet market signed y n moved p data
      /\ (has_no_position (db w) userId (Market.id market) ->
          p = PositionsService.insertData userId (Market.id market) side d price
                (next_id (db w)))
      /\ (forall old,
            lookup_position (db w) userId (Market.id market) = Some old ->
            p = PositionsService.updateData old side d price isBuy old).
Proof.
  intros Hw Hu Hpu Hm Hl Hrow walletStep [row1 E1].
  set (mid := Market.id market) in *.
  set (s1 := posted (db w) wallet trade_tx signed (Some mid)) in *.
  destruct (updateShares_run {| db := s1; faults := [] |} mid market y n moved
              eq_refl Hm)
    as (s2 & E2 & Hl2 & Hn2 & Ho2 & Hw2 & Ht2 & Hp2 & Htr2).
  cbn [db] in Hn2, Ho2, Hw2, Ht2, Hp2, Htr2.
  assert (Hpu2 : position_ids_unique s2)
    by (unfold position_ids_unique; rewrite Hp2; exact Hpu).
  assert (Hrow2 : one_row_at_most s2 userId mid).
  { unfold one_row_at_most, has_no_position, lookup_position in *.
    rewrite Hp2. exact Hrow. }
  destruct (TouchProofs.createOrUpdate_touch {| db := s2; faults := [] |} userId mid
              side d price isBuy eq_refl Hpu2 Hrow2)
    as (p & s3 & E3 & Hins & Hupd & Hl3 & _ & _ & Hoth3 & Hw3 & Ht3 & Hm3 & Htr3).
  cbn [db] in Hins, Hupd, Hoth3, Hw3, Ht3, Hm3, Htr3.
  exists p, (with_trades s3 (trades s3 ++ [data])).
  split.
  { rewrite (bind_ok _ _ _ _ _ E1), (bind_ok _ _ _ _ _ E2), (bind_ok _ _ _ _ _ E3).
    rewrite (bind_ok _ _ _ _ _ (recordTrade_run {| db := s3; faults := [] |} data eq_refl)).
    reflexivity. }
  split.
  { unfold trade_effects. fold mid.
    split.
    { unfold balance_of, lookup_wallet. cbn [wallets with_trades].
      rewrite Hw3, Hw2. unfold s1, posted.
      cbn [wallets with_wallet_transactions with_wallets].
      rewrite (WalletProofs.lookup_moved_same (db w) userId wallet signed Hl).
      reflexivity. }
    split.
    { intros u Hne. unfold lookup_wallet at 1. cbn [wallets with_trades].
      rewrite Hw3, Hw2.
      exact (WalletProofs.lookup_posted_other (db w) userId u wallet trade_tx signed
               (Some mid) Hu Hl Hne). }
    split; [cbn [wallet_transactions with_trades]; rewrite Ht3, Ht2; reflexivity|].
    split.
    { unfold lookup_market. cbn [markets with_trades]. rewrite Hm3. exact Hl2. }
    split.
    { intros id Hne. unfold lookup_market at 1. cbn [markets with_trades].
      rewrite Hm3. exact (Ho2 id Hne). }
    split; [exact Hl3|].
    split.
    { intros u m Hne. cbn [positions with_trades]. rewrite (Hoth3 u m Hne), Hp2.
      reflexivity. }
    cbn [trades with_trades]. rewrite Htr3, Htr2. reflexivity. }
  split.
  - intros Hno. rewrite Hins; [rewrite Hn2; reflexivity|].
    unfold has_no_position in *. rewrite Hp2. exact Hno.
  - intros old Hold. apply Hupd. unfold lookup_position in *. rewrite Hp2. exact Hold.
Qed.

Lemma lookup_market_id s id m : lookup_market s id = Some m -> Market.id m = id.
Proof.
  intros H. unfold lookup_market in H. apply WalletProofs.single_inv in H.
  assert (Hin : In m (filter (fun x => Nat.eqb (Market.id x) id) (markets s)))
    by (rewrite H; left; reflexivity).
  apply filter_In in Hin. destruct Hin as [_ E]. apply Nat.eqb_eq. exact E.
Qed.

(** Past its checks executeTrade is the buy or the sell. *)
Lemma executeTrade_open w now userId dto m :
  healthy w ->
  lookup_market (db w) (TradesService.marketId dto) = Some m ->
  Market.status m = active -> within_window m now ->
  TradesService.executeTrade now userId dto w
  = match TradesService.type dto with
    | buy => TradesService.executeBuy userId m (market_state m) dto w
    | sell => TradesService.executeSell userId m (market_state m) dto w
    end.
Proof.
  intros Hw Hm Hst Hin. unfold TradesService.executeTrade, bind.
  rewrite (MarketProofs.findById_healthy w _ Hw), Hm, Hst. cbn [Status_eqb negb].
  unfold within_window in Hin.
  destruct (Z.ltb_spec now (Market.start_time m)); [lia|].
  destruct (Z.ltb_spec (Market.end_time m) now); [lia|].
  cbn [orb]. destruct (TradesService.type dto); reflexivity.
Qed.

(** A sell quote that is returned is not negative. *)
Lemma amountReceived_nonneg state side d liquidity r :
  AMM.calculateSellReturn state side d liquidity = inr r ->
  0 <= AMM.amountReceived r.
Proof.
  unfold AMM.calculateSellReturn. cbv zeta.
  destruct (AMM.sellShareCheck state side d); [discriminate|].
  match goal with |- context [Rle_dec ?x 0] => destruct (Rle_dec x 0) as [H|H] end;
    [discriminate|].
  intros E. inversion E; subst; clear E. cbn [AMM.amountReceived].
  apply QuoteProofs.toFixed6_nonneg. unfold AMM.FEE_RATE. lra.
Qed.

Section Through.

Variables (w : World) (userId : Id) (market : Market.Row) (wallet : Wallet.Row)
          (dto : TradesService.ExecuteTradeDto).
Hypothesis Hw : healthy w.
Hypothesis Hu : wallet_ids_unique (db w).
Hypothesis Hpu : position_ids_unique (db w).
Hypothesis Hm : lookup_market (db w) (Market.id market) = Some market.
Hypothesis Hl : lookup_wallet (db w) userId = Some wallet.

Lemma executeBuy_run shares cost avgPrice :
  one_row_at_most (db w) userId (Market.id market) ->
  TradesService.buyQuote (market_state market) (Market.liquidity market) dto
  = Some (shares, cost, avgPrice) ->
  0 < shares -> cost <= Wallet.balance wallet ->
  let r := AMM.calculateBuyCost (market_state market) (TradesService.side dto)
             shares (Some (Market.liquidity market)) in
  let data := buy_trade_row userId market dto shares cost avgPrice in
  exists p s',
    TradesService.executeBuy userId market (market_state market) dto w
    = (Ok {| TradesService.trade := data;
             TradesService.e_shares := shares;
             TradesService.received := cost;
             TradesService.e_avgPrice := avgPrice;
             TradesService.e_fee := Trade.fee data |},
       {| db := s'; faults := [] |})
    /\ trade_effects (db w) s' userId wallet market (- cost)
         (AMM.newYesShares r) (AMM.newNoShares r) cost p data
    /\ held s' userId (Market.id market) (TradesService.side dto)
       = Rmax 0 (held (db w) userId (Market.id market) (TradesService.side dto)
                 + shares)
    /\ held s' userId (Market.id market) (opposite (TradesService.side dto))
       = held (db w) userId (Market.id market) (opposite (TradesService.side dto)).
Proof.
  intros Hrow Hq Hs Hc. cbv zeta.
  unfold TradesService.executeBuy. cbv zeta.
  unfold AMM.getLiquidityForMarket. rewrite Hq.
  destruct (Rle_dec shares 0) as [?|_]; [exfalso; lra|].
  destruct (steps_run w userId wallet market (TradesService.side dto) (- cost)
              (AMM.newYesShares
                 (AMM.calculateBuyCost (market_state market) (TradesService.side dto)
                    shares (Some (Market.liquidity market))))
              (AMM.newNoShares
                 (AMM.calculateBuyCost (market_state market) (TradesService.side dto)
                    shares (Some (Market.liquidity market))))
              cost shares avgPrice true
              (buy_trade_row userId market dto shares cost avgPrice)
              (fun trade =>
                 ret {| TradesService.trade := trade;
                        TradesService.e_shares := shares;
                        TradesService.received := cost;
                        TradesService.e_avgPrice := avgPrice;
                        TradesService.e_fee :=
                          cost * TradesService.FEE_RATE / (1 + TradesService.FEE_RATE) |})
              Hw Hu Hpu Hm Hl Hrow
              (WalletsService.deductForTrade userId cost (Market.id market))
              (ex_intro _ _ (WalletProofs.deductForTrade_run w userId wallet Hw Hu Hl
                               cost (Market.id market) Hc)))
    as (p & s' & E & Heff & Hins & Hupd).
  exists p, s'. split; [exact E|]. split; [exact Heff|].
  destruct Heff as (_ & _ & _ & _ & _ & Hlp & _).
  rewrite (held_some _ _ _ _ _ Hlp), (held_some _ _ _ _ _ Hlp).
  destruct Hrow as [Hno | [old Hold]].
  - rewrite (Hins Hno), !(held_none _ _ _ _ Hno).
    destruct (PositionProofs.insertData_sides userId (Market.id market)
                (TradesService.side dto) shares avgPrice (next_id (db w)))
      as (E1 & _ & E3 & _).
    rewrite E1, E3. split; [|reflexivity]. rewrite Rmax_right; lra.
  - rewrite (Hupd old Hold), !(held_some _ _ _ _ _ Hold).
    destruct (PositionProofs.updateData_sides old (TradesService.side dto) shares
                avgPrice true) as (E1 & _ & E3 & _).
    cbv zeta in E1. rewrite E1, E3. split; reflexivity.
Qed.

Lemma executeSell_run old d r :
  0 <= Wallet.balance wallet ->
  lookup_position (db w) userId (Market.id market) = Some old ->
  Num.truthy (TradesService.shares dto) = Some d ->
  0 < d -> d <= side_shares (TradesService.side dto) old ->
  AMM.calculateSellReturn (market_state market) (TradesService.side dto) d
    (Some (Market.liquidity market)) = inr r ->
  let data := sell_trade_row userId market dto d r in
  exists p s',
    TradesService.executeSell userId market (market_state market) dto w
    = (Ok {| TradesService.trade := data;
             TradesService.e_shares := d;
             TradesService.received := AMM.amountReceived r;
             TradesService.e_avgPrice := AMM.s_avgPrice r;
             TradesService.e_fee := Trade.fee data |},
       {| db := s'; faults := [] |})
    /\ trade_effects (db w) s' userId wallet market (AMM.amountReceived r)
         (AMM.s_newYesShares r) (AMM.s_newNoShares r) (AMM.amountReceived r) p data
    /\ held s' userId (Market.id market) (TradesService.side dto)
       = held (db w) userId (Market.id market) (TradesService.side dto) - d
    /\ held s' userId (Market.id market) (opposite (TradesService.side dto))
       = held (db w) userId (Market.id market) (opposite (TradesService.side dto)).
Proof.
  intros H0 Hold Hd Hpos Hle Hr. cbv zeta.
  pose proof (amountReceived_nonneg _ _ _ _ _ Hr) as Ha.
  unfold TradesService.executeSell. rewrite Hd.
  destruct (Rle_dec d 0) as [?|_]; [exfalso; lra|].
  unfold PositionsService.findByUserAndMarket.
  rewrite (bind_ok _ _ w (Some old) w).
  2:{ rewrite (Run.query_healthy _ w Hw). unfold lookup_position in Hold.
      rewrite Hold. reflexivity. }
  assert (Ecur : match TradesService.side dto with
                 | yes => Position.yes_shares old
                 | no => Position.no_shares old
                 end = side_shares (TradesService.side dto) old) by reflexivity.
  rewrite Ecur.
  destruct (Rlt_dec (side_shares (TradesService.side dto) old) d) as [?|_];
    [exfalso; lra|].
  cbv zeta. unfold AMM.getLiquidityForMarket. rewrite Hr.
  destruct (steps_run w userId wallet market (TradesService.side dto)
              (AMM.amountReceived r) (AMM.s_newYesShares r) (AMM.s_newNoShares r)
              (AMM.amountReceived r) d (AMM.s_avgPrice r) false
              (sell_trade_row userId market dto d r)
              (fun trade =>
                 ret {| TradesService.trade := trade;
                        TradesService.e_shares := d;
                        TradesService.received := AMM.amountReceived r;
                        TradesService.e_avgPrice := AMM.s_avgPrice r;
                        TradesService.e_fee :=
                          AMM.amountReceived r / (1 - TradesService.FEE_RATE)
                          - AMM.amountReceived r |})
              Hw Hu Hpu Hm Hl (or_intror (ex_intro _ old Hold))
              (WalletsService.addFromTrade userId (AMM.amountReceived r)
                 (Market.id market))
              (ex_intro _ _ (WalletProofs.addFromTrade_run w userId wallet Hw Hu Hl
                               (AMM.amountReceived r) (Market.id market)
                               ltac:(lra))))
    as (p & s' & E & Heff & _ & Hupd).
  exists p, s'. split; [exact E|]. split; [exact Heff|].
  destruct Heff as (_ & _ & _ & _ & _ & Hlp & _).
  rewrite (held_some _ _ _ _ _ Hlp), (held_some _ _ _ _ _ Hlp).
  rewrite (Hupd old Hold), !(held_some _ _ _ _ _ Hold).
  destruct (PositionProofs.updateData_sides old (TradesService.side dto) d
              (AMM.s_avgPrice r) false) as (E1 & _ & E3 & _).
  cbv zeta in E1. rewrite E1, E3. split; [|reflexivity].
  rewrite Rmax_right; lra.
Qed.

End Through.

End TradeProofs.

(** X15.  A buy that goes through.  On a healthy store with unique wallet
    and position ids, for an active market inside its trading window, a
    user with a wallet and at most one position row in the market, and a
    buy request whose quote (by amount when the amount is given, else by
    shares) has a positive share count and a cost within the balance:
    executeTrade returns the quoted shares, cost and average price; the
    balance drops by the cost, with one ledger row of kind trade for it;
    the market row takes the quantities calculateBuyCost gives for the
    shares bought and its volume grows by the cost; the position of the
    user in the market grows by the shares on the side bought and keeps
    its other side; one row is appended to the trade log; no other wallet,
    market or position changes. *)
Theorem executeTrade_buy_goes_through :
  forall (w : World) (now : Z) (userId : Id) (dto : TradesService.ExecuteTradeDto)
         (market : Market.Row) (wallet : Wallet.Row) (shares cost avgPrice : R),
    healthy w ->
    wallet_ids_unique (db w) ->
    position_ids_unique (db w) ->
    lookup_market (db w) (TradesService.marketId dto) = Some market ->
    Market.status market = active ->
    within_window market now ->
    TradesService.type dto = buy ->
    lookup_wallet (db w) userId = Some wallet ->
    one_row_at_most (db w) userId (TradesService.marketId dto) ->
    TradesService.buyQuote (market_state market) (Market.liquidity market) dto
    = Some (shares, cost, avgPrice) ->
    0 < shares ->
    cost <= Wallet.balance wallet ->
    let r := AMM.calculateBuyCost (market_state market) (TradesService.side dto)
               shares (Some (Market.liquidity market)) in
    let data := buy_trade_row userId market dto shares cost avgPrice in
    let side := TradesService.side dto in
    let marketId := TradesService.marketId dto in
    exists p w',
      TradesService.executeTrade now userId dto w
      = (Ok {| TradesService.trade := data;
               TradesService.e_shares := shares;
               TradesService.received := cost;
               TradesService.e_avgPrice := avgPrice;
               TradesService.e_fee := Trade.fee data |}, w')
      /\ healthy w'
      /\ trade_effects (db w) (db w') userId wallet market (- cost)
           (AMM.newYesShares r) (AMM.newNoShares r) cost p data
      /\ held (db w') userId marketId side
         = Rmax 0 (held (db w) userId marketId side + shares)
      /\ held (db w') userId marketId (opposite side)
         = held (db w) userId marketId (opposite side).
Proof.
  intros w now userId dto market wallet shares cost avgPrice
         Hw Hu Hpu Hm Hst Hin Hty Hl Hrow Hq Hs Hc.
  cbv zeta.
  rewrite (TradeProofs.executeTrade_open w now userId dto market Hw Hm Hst Hin), Hty.
  pose proof (TradeProofs.lookup_market_id _ _ _ Hm) as Eid.
  rewrite <- Eid in Hm, Hrow |- *.
  destruct (TradeProofs.executeBuy_run w userId market wallet dto Hw Hu Hpu Hm Hl
              shares cost avgPrice Hrow Hq Hs Hc)
    as (p & s' & E & Heff & Hh & Ho).
  exists p, {| db := s'; faults := [] |}. split; [exact E|].
  split; [reflexivity|]. split; [exact Heff|]. split; [exact Hh|exact Ho].
Qed.

Lemma executeTrade_buy_goes_through_witness :
  let w := {| db := Sample.fresh; faults := [] |} in
  let market := Sample.market3 active None 0 0 in
  let r := AMM.calculateBuyCost Sample.fresh_state yes 1 (Some 1000) in
  healthy w /\ wallet_ids_unique (db w) /\ position_ids_unique (db w)
  /\ lookup_market (db w) 3%nat = Some market
  /\ within_window market 500
  /\ lookup_wallet (db w) 7%nat = Some (Sample.wallet_of 1%nat 7%nat 100)
  /\ one_row_at_most (db w) 7%nat 3%nat
  /\ TradesService.buyQuote (market_state market) 1000 Sample.buy_one_share
     = Some (1, AMM.cost_ r, AMM.avgPrice r)
  /\ AMM.cost_ r <= 100
  /\ exists x w',
       TradesService.executeTrade 500 7%nat Sample.buy_one_share w = (Ok x, w')
       /\ balance_of (db w') 7%nat = Some (100 + - AMM.cost_ r)
       /\ held (db w') 7%nat 3%nat yes = Rmax 0 (held (db w) 7%nat 3%nat yes + 1).
Proof.
  cbv zeta.
  assert (Hu : wallet_ids_unique Sample.fresh).
  { unfold wallet_ids_unique. cbn. repeat constructor. intros []. }
  assert (Hpu : position_ids_unique Sample.fresh) by constructor.
  assert (Hin : within_window (Sample.market3 active None 0 0) 500)
    by (unfold within_window; cbn; lia).
  assert (Hrow : one_row_at_most Sample.fresh 7%nat 3%nat) by (left; reflexivity).
  assert (Hq : TradesService.buyQuote
                 (market_state (Sample.market3 active None 0 0)) 1000
                 Sample.buy_one_share
               = Some (1,
                       AMM.cost_ (AMM.calculateBuyCost Sample.fresh_state yes 1
                                    (Some 1000)),
                       AMM.avgPrice (AMM.calculateBuyCost Sample.fresh_state yes 1
                                       (Some 1000)))).
  { unfold TradesService.buyQuote. cbn [TradesService.amount Sample.buy_one_share
      TradesService.shares TradesService.side Num.truthy].
    destruct (Req_EM_T 1 0) as [?|_]; [exfalso; lra|]. reflexivity. }
  split; [reflexivity|]. split; [exact Hu|]. split; [exact Hpu|].
  split; [reflexivity|]. split; [exact Hin|]. split; [reflexivity|].
  split; [exact Hrow|]. split; [exact Hq|].
  split; [exact ExecutorProofs.fresh_quote_affordable|].
  destruct (executeTrade_buy_goes_through
              {| db := Sample.fresh; faults := [] |} 500 7%nat Sample.buy_one_share
              (Sample.market3 active None 0 0) (Sample.wallet_of 1%nat 7%nat 100)
              1 _ _ eq_refl Hu Hpu eq_refl eq_refl Hin eq_refl eq_refl Hrow Hq
              ltac:(lra) ExecutorProofs.fresh_quote_affordable)
    as (p & w' & E & _ & Heff & Hh & _).
  eexists. exists w'. split; [exact E|].
  split; [exact (proj1 Heff)|exact Hh].
Defined.

(** X16.  A sell that goes through.  On a healthy store with unique wallet
    and position ids, for an active market inside its trading window and
    a user with a wallet of non-negative balance who holds at least the
    d > 0 shares sold, when calculateSellReturn returns a quote:
    executeTrade returns the shares, the amount received and the average
    price of the quote; the balance grows by the amount received, with
    one ledger row of kind trade for it; the market row takes the
    quantities of the quote and its volume grows by the amount received;
    the position of the user shrinks by d on the side sold and keeps its
    other side; one row is appended to the trade log; no other wallet,
    market or position changes. *)
Theorem executeTrade_sell_goes_through :
  forall (w : World) (now : Z) (userId : Id) (dto : TradesService.ExecuteTradeDto)
         (market : Market.Row) (wallet : Wallet.Row) (old : Position.Row)
         (d : R) (r : AMM.SellResult),
    healthy w ->
    wallet_ids_unique (db w) ->
    position_ids_unique (db w) ->
    lookup_market (db w) (TradesService.marketId dto) = Some market ->
    Market.status market = active ->
    within_window market now ->
    TradesService.type dto = sell ->
    lookup_wallet (db w) userId = Some wallet ->
    0 <= Wallet.balance wallet ->
    lookup_position (db w) userId (TradesService.marketId dto) = Some old ->
    Num.truthy (TradesService.shares dto) = Some d ->
    0 < d ->
    d <= side_shares (TradesService.side dto) old ->
    AMM.calculateSellReturn (market_state market) (TradesService.side dto) d
      (Some (Market.liquidity market)) = inr r ->
    let data := sell_trade_row userId market dto d r in
    let side := TradesService.side dto in
    let marketId := TradesService.marketId dto in
    exists p w',
      TradesService.executeTrade now userId dto w
      = (Ok {| TradesService.trade := data;
               TradesService.e_shares := d;
               TradesService.received := AMM.amountReceived r;
               TradesService.e_avgPrice := AMM.s_avgPrice r;
               TradesService.e_fee := Trade.fee data |}, w')
      /\ healthy w'
      /\ trade_effects (db w) (db w') userId wallet market (AMM.amountReceived r)
           (AMM.s_newYesShares r) (AMM.s_newNoShares r) (AMM.amountReceived r)
           p data
      /\ held (db w') userId marketId side = held (db w) userId marketId side - d
      /\ held (db w') userId marketId (opposite side)
         = held (db w) userId marketId (opposite side).
Proof.
  intros w now userId dto market wallet old d r
         Hw Hu Hpu Hm Hst Hin Hty Hl H0 Hold Hd Hpos Hle Hr.
  cbv zeta.
  rewrite (TradeProofs.executeTrade_open w now userId dto market Hw Hm Hst Hin), Hty.
  pose proof (TradeProofs.lookup_market_id _ _ _ Hm) as Eid.
  rewrite <- Eid in Hm, Hold |- *.
  destruct (TradeProofs.executeSell_run w userId market wallet dto Hw Hu Hpu Hm Hl
              old d r H0 Hold Hd Hpos Hle Hr)
    as (p & s' & E & Heff & Hh & Ho).
  exists p, {| db := s'; faults := [] |}. split; [exact E|].
  split; [reflexivity|]. split; [exact Heff|]. split; [exact Hh|exact Ho].
Qed.

Lemma executeTrade_sell_goes_through_witness :
  let store :=
    Sample.store_of [Sample.wallet_of 1%nat 7%nat 100]
      (Sample.market3 active None 50 50) Sample.settled_positions in
  let w := {| db := store; faults := [] |} in
  let dto := {| TradesService.marketId := 3%nat; TradesService.type := sell;
                TradesService.side := yes; TradesService.amount := None;
                TradesService.shares := Some 20 |} in
  healthy w /\ wallet_ids_unique store /\ position_ids_unique store
  /\ lookup_market store 3%nat = Some (Sample.market3 active None 50 50)
  /\ within_window (Sample.market3 active None 50 50) 500
  /\ lookup_wallet store 7%nat = Some (Sample.wallet_of 1%nat 7%nat 100)
  /\ lookup_position store 7%nat 3%nat
     = Some (Sample.position_of 50%nat 7%nat 50 0 (2 / 5) 0)
  /\ Num.truthy (TradesService.shares dto) = Some 20
  /\ exists r,
       AMM.calculateSellReturn (market_state (Sample.market3 active None 50 50))
         yes 20 (Some 1000) = inr r
       /\ exists x w',
            TradesService.executeTrade 500 7%nat dto w = (Ok x, w')
            /\ balance_of (db w') 7%nat = Some (100 + AMM.amountReceived r)
            /\ held (db w') 7%nat 3%nat yes = held store 7%nat 3%nat yes - 20.
Proof.
  cbv zeta.
  set (store := Sample.store_of [Sample.wallet_of 1%nat 7%nat 100]
                  (Sample.market3 active None 50 50) Sample.settled_positions).
  set (dto := {| TradesService.marketId := 3%nat; TradesService.type := sell;
                 TradesService.side := yes; TradesService.amount := None;
                 TradesService.shares := Some 20 |}).
  assert (Hu : wallet_ids_unique store).
  { unfold wallet_ids_unique. cbn. repeat constructor. intros []. }
  assert (Hpu : position_ids_unique store).
  { unfold position_ids_unique. cbn. repeat constructor; cbn; intuition lia. }
  assert (Hin : within_window (Sample.market3 active None 50 50) 500)
    by (unfold within_window; cbn; lia).
  assert (Hd : Num.truthy (TradesService.shares dto) = Some 20)
    by (apply NumProofs.truthy_nonzero; lra).
  destruct (SellQuoteProofs.calculateSellReturn_value 1000 ltac:(lra)
              (market_state (Sample.market3 active None 50 50)) yes 20
              ltac:(lra) ltac:(cbn; lra) ltac:(cbn; lra) ltac:(cbn; lra))
    as (_ & r & Hr & _).
  split; [reflexivity|]. split; [exact Hu|]. split; [exact Hpu|].
  split; [reflexivity|]. split; [exact Hin|]. split; [reflexivity|].
  split; [reflexivity|]. split; [exact Hd|].
  exists r. split; [exact Hr|].
  destruct (executeTrade_sell_goes_through
              {| db := store; faults := [] |} 500 7%nat dto
              (Sample.market3 active None 50 50) (Sample.wallet_of 1%nat 7%nat 100)
              (Sample.position_of 50%nat 7%nat 50 0 (2 / 5) 0) 20 r
              eq_refl Hu Hpu eq_refl eq_refl Hin eq_refl eq_refl ltac:(cbn; lra)
              eq_refl Hd ltac:(lra) ltac:(cbn; lra) Hr)
    as (p & w' & E & _ & Heff & Hh & _).
  eexists. exists w'. split; [exact E|].
  split; [exact (proj1 Heff)|exact Hh].
Defined.

(** ** Trades: what a returned trade has written *)

Module ReceiptProofs.

Lemma recordTrade_ok data w t w' :
  TradesService.recordTrade data w = (Ok t, w') ->
  t = data /\ trades (db w') = trades (db w) ++ [data].
Proof.
  unfold TradesService.recordTrade. intros E.
  destruct (Run.bind_inv _ _ _ _ _ E) as [(o & w1 & E1 & E2)|(e & _ & Hr)];
    [|discriminate].
  destruct (Run.mutate_inv _ _ _ _ E1) as [[Ho _]|[a [Ho Hwr]]];
    inversion Ho; subst o; [discriminate|].
  inversion Hwr; subst. inversion E2; subst.
  split; [reflexivity|]. rewrite <- H1. reflexivity.
Qed.

(** The tail shared by executeBuy and executeSell, when it returns. *)
Lemma steps_ok {R3 : Type} (walletStep : M Wallet.Row)
    (marketStep : M Market.Row) (positionStep : M Position.Row)
    (data : Trade.Row) (f : Trade.Row -> R3) w0 x w' :
  frames same_trades walletStep -> frames same_trades marketStep ->
  frames same_trades positionStep ->
  bind walletStep (fun _ =>
    bind marketStep (fun _ =>
      bind positionStep (fun _ =>
        bind (TradesService.recordTrade data) (fun t => ret (f t))))) w0
  = (Ok x, w') ->
  x = f data /\ trades (db w') = trades (db w0) ++ [data].
Proof.
  intros F3 F4 F5 E.
  destruct (Run.bind_inv _ _ _ _ _ E) as [(r3 & w3 & E3 & E')|(e & _ & Hr)];
    [|discriminate].
  destruct (Run.bind_inv _ _ _ _ _ E') as [(r4 & w4 & E4 & E'')|(e & _ & Hr)];
    [|discriminate].
  destruct (Run.bind_inv _ _ _ _ _ E'') as [(r5 & w5 & E5 & E''')|(e & _ & Hr)];
    [|discriminate].
  destruct (Run.bind_inv _ _ _ _ _ E''') as [(t & w6 & E6 & E7)|(e & _ & Hr)];
    [|discriminate].
  pose proof (F3 _ _ _ E3) as T3. pose proof (F4 _ _ _ E4) as T4.
  pose proof (F5 _ _ _ E5) as T5. unfold same_trades in *.
  destruct (recordTrade_ok _ _ _ _ E6) as [-> T6].
  inversion E7; subst. split; [reflexivity|]. rewrite T6. congruence.
Qed.

End ReceiptProofs.



(** ** Settlement: what it may change, whatever fails *)

Module CreditProofs.

Lemma credited_refl x : credited x x.
Proof. unfold credited. repeat split; lra || reflexivity. Qed.

Lemma credited_trans x y z : credited x y -> credited y z -> credited x z.
Proof.
  unfold credited. intros (A1 & A2 & A3 & A4) (B1 & B2 & B3 & B4).
  repeat split; try congruence. lra.
Qed.

Lemma Forall2_refl {A} (R : A -> A -> Prop) l :
  (forall x, R x x) -> Forall2 R l l.
Proof. intros H. induction l; constructor; auto. Qed.

Lemma Forall2_trans {A} (R : A -> A -> Prop) :
  (forall x y z, R x y -> R y z -> R x z) ->
  forall l1 l2 l3, Forall2 R l1 l2 -> Forall2 R l2 l3 -> Forall2 R l1 l3.
Proof.
  intros HR l1 l2 l3 H12. revert l3.
  induction H12 as [|x y l1 l2 Hxy H12 IH]; intros l3 H23;
    inversion H23; subst; constructor; eauto.
Qed.

Lemma Forall2_map_r {A} (R : A -> A -> Prop) (g : A -> A) l :
  (forall x, In x l -> R x (g x)) -> Forall2 R l (map g l).
Proof.
  induction l as [|a l IH]; intros H; cbn [map]; constructor.
  - apply H. left. reflexivity.
  - apply IH. intros x Hx. apply H. right. exact Hx.
Qed.

Lemma credits_only_refl s : credits_only s s.
Proof.
  unfold credits_only. repeat split; try reflexivity.
  - apply Forall2_refl. apply credited_refl.
  - exists []. split; [rewrite app_nil_r; reflexivity|constructor].
Qed.

Lemma credits_only_trans s1 s2 s3 :
  credits_only s1 s2 -> credits_only s2 s3 -> credits_only s1 s3.
Proof.
  intros (A1 & A2 & A3 & A4 & ra & A5 & A6) (B1 & B2 & B3 & B4 & rb & B5 & B6).
  unfold credits_only. repeat split; try congruence.
  - exact (Forall2_trans credited credited_trans _ _ _ A4 B4).
  - exists (ra ++ rb). split.
    + rewrite B5, A5, app_assoc. reflexivity.
    + apply Forall_app. split; assumption.
Qed.

Ltac frame_step :=
  first
    [ apply (Run.frames_ret credits_only credits_only_refl)
    | apply (Run.frames_throw credits_only credits_only_refl)
    | apply (Run.frames_query credits_only credits_only_refl)
    | apply (Run.frames_bind credits_only credits_only_trans) ].

(** The update of the balance by a settlement credits the wallet that
    was read. *)
Lemma credited_update s u wallet amount :
  0 < amount ->
  lookup_wallet s u = Some wallet ->
  forall r0,
    single (filter (fun x => Nat.eqb (Wallet.id x) (Wallet.id wallet)) (wallets s))
    = Some r0 ->
    Forall2 credited (wallets s)
      (map (fun x => if Nat.eqb (Wallet.id x) (Wallet.id wallet)
                     then {| Wallet.id := Wallet.id x;
                             Wallet.user_id := Wallet.user_id x;
                             Wallet.balance := Wallet.balance wallet + amount;
                             Wallet.frozen_balance := Wallet.frozen_balance x |}
                     else x) (wallets s)).
Proof.
  intros Ha Hl r0 Hs. apply Forall2_map_r. intros x Hx.
  destruct (Nat.eqb (Wallet.id x) (Wallet.id wallet)) eqn:E;
    [|apply credited_refl].
  apply WalletProofs.single_inv in Hs.
  destruct (WalletProofs.lookup_wallet_In _ _ _ Hl) as [Hin _].
  assert (Hw : In wallet (filter (fun x => Nat.eqb (Wallet.id x) (Wallet.id wallet))
                            (wallets s)))
    by (apply filter_In; split; [exact Hin|apply Nat.eqb_refl]).
  assert (Hx' : In x (filter (fun x => Nat.eqb (Wallet.id x) (Wallet.id wallet))
                        (wallets s)))
    by (apply filter_In; split; assumption).
  rewrite Hs in Hw, Hx'. destruct Hw as [<-|[]]. destruct Hx' as [<-|[]].
  unfold credited. cbn. repeat split; lra || reflexivity.
Qed.

Lemma settlePosition_credits userId amount marketId :
  0 < amount ->
  frames credits_only (WalletsService.settlePosition userId amount marketId).
Proof.
  intros Ha w r w' E. unfold WalletsService.settlePosition in E.
  unfold WalletsService.findByUserId in E.
  destruct (Run.bind_inv _ _ _ _ _ E) as [(o & w1 & E0 & E1)|(e & E0 & _)].
  2:{ exfalso. exact (Run.never_throws_query _ _ _ _ E0). }
  pose proof (Run.query_db _ _ _ _ E0) as D1. rewrite <- D1.
  destruct (Run.query_result _ _ _ _ E0) as [Ho|Ho]; inversion Ho; subst o; clear Ho.
  { inversion E1; subst. apply credits_only_refl. }
  rewrite <- D1 in E1. fold (lookup_wallet (db w1) userId) in E1.
  destruct (lookup_wallet (db w1) userId) as [wallet|] eqn:Hl.
  2:{ inversion E1; subst. apply credits_only_refl. }
  cbv zeta in E1.
  destruct (Run.bind_inv _ _ _ _ _ E1) as [(data & w2 & E2 & E3)|(e & E2 & _)].
  2:{ exfalso. unfold WalletsService.updateBalance in E2.
      exact (Run.never_throws_mutate _ _ _ _ E2). }
  unfold WalletsService.updateBalance in E2.
  destruct (Run.mutate_inv _ _ _ _ E2) as [[Hd D2]|[a [Hd Hwr]]];
    inversion Hd; subst data; clear Hd.
  { inversion E3; subst. rewrite D2. apply credits_only_refl. }
  destruct (Rlt_dec (Wallet.balance wallet + amount) 0); [discriminate|].
  unfold update_single in Hwr.
  destruct (single (filter (fun x => Nat.eqb (Wallet.id x) (Wallet.id wallet))
                      (wallets (db w1)))) as [r0|] eqn:Hs; [|discriminate].
  inversion Hwr as [[Hrow D2]]. clear Hwr.
  assert (C2 : credits_only (db w1) (db w2)).
  { rewrite <- D2. unfold credits_only. cbn [markets positions trades wallets
      wallet_transactions with_wallets].
    repeat split; try reflexivity.
    - exact (credited_update (db w1) userId wallet amount Ha Hl r0 Hs).
    - exists []. split; [rewrite app_nil_r; reflexivity|constructor]. }
  apply (credits_only_trans _ _ _ C2).
  destruct (Run.bind_inv _ _ _ _ _ E3) as [(u0 & w3 & E4 & E5)|(e & E4 & _)].
  2:{ exfalso. exact (ExecutorProofs.recordTransaction_never_throws _ _ _ _ E4). }
  inversion E5; subst. clear E5.
  unfold WalletsService.recordTransaction in E4.
  destruct (Run.bind_inv _ _ _ _ _ E4) as [(o & w4 & E6 & E7)|(e & E6 & _)].
  2:{ exfalso. exact (Run.never_throws_mutate _ _ _ _ E6). }
  inversion E7; subst. clear E7.
  destruct (Run.mutate_inv _ _ _ _ E6) as [[_ D4]|[a' [_ Hwr']]].
  { rewrite D4. apply credits_only_refl. }
  inversion Hwr' as [[Ha' D4]]. unfold credits_only.
  cbn [markets positions trades wallets wallet_transactions
       with_wallet_transactions].
  repeat split; try reflexivity.
  - apply Forall2_refl. apply credited_refl.
  - eexists. split; [reflexivity|]. constructor; [|constructor].
    cbn. split; [reflexivity|exact Ha].
Qed.

Lemma settleEach_credits outcome marketId ps :
  frames credits_only (TradesService.settleEach outcome marketId ps).
Proof.
  induction ps as [|p ps IH]; cbn [TradesService.settleEach]; [frame_step|].
  frame_step; [|intros; exact IH].
  destruct (Rgt_dec (TradesService.winningShares outcome p) 0) as [Hg|Hg];
    [|frame_step].
  frame_step; [apply settlePosition_credits; lra|intros; frame_step].
Qed.

Lemma settleMarket_credits marketId :
  frames credits_only (TradesService.settleMarket marketId).
Proof.
  unfold TradesService.settleMarket, MarketsService.findById.
  frame_step; [frame_step|].
  intros [market|]; [|frame_step].
  destruct (Status_eqb (Market.status market) resolved); [|frame_step].
  destruct (Market.outcome market) as [outcome|]; [|frame_step].
  frame_step.
  - unfold PositionsService.findByMarket.
    frame_step; [frame_step|]. intros [data|]; frame_step.
  - intros ps. frame_step; [apply settleEach_credits|intros; frame_step].
Qed.

End CreditProofs.

(** X18.  What settlement may change.  In every world, whichever calls on
    the client fail and whether settleMarket returns or throws, its run
    leaves the markets, the positions and the trade log as they were,
    keeps every wallet row with a balance that is not smaller than before,
    and only appends to the ledger rows of kind settlement with positive
    amounts: settlement never debits a wallet and never rewrites the
    ledger. *)
Theorem settleMarket_only_credits :
  forall (marketId : Id) (w : World),
    credits_only (db w) (db (snd (TradesService.settleMarket marketId w))).
Proof.
  intros marketId w.
  destruct (TradesService.settleMarket marketId w) as [r w'] eqn:E.
  exact (CreditProofs.settleMarket_credits marketId w r w' E).
Qed.

(** ** Settlement: a winner without a wallet *)

Module PartialSettlement.







End PartialSettlement.



(** ** Wallets: the totals of the dashboard (wallets.service.ts, getStats) *)

Module StatsProofs.

Lemma reduce_total {A} (column : A -> R) rows :
  forall a, fold_left (fun sum x => sum + column x) rows a = a + total column rows.
Proof.
  unfold total. induction rows as [|x rows IH]; intros a; cbn.
  - lra.
  - rewrite IH. lra.
Qed.

Lemma or_default_zero x : Num.or_default (Some x) 0 = x.
Proof.
  unfold Num.or_default, Num.truthy. destruct (Req_EM_T x 0); congruence.
Qed.

Lemma getStats_healthy w :
  healthy w ->
  WalletsService.getStats w
  = (Ok {| WalletsService.totalBalance := total Wallet.balance (wallets (db w));
           WalletsService.totalFrozen := total Wallet.frozen_balance (wallets (db w));
           WalletsService.walletsCount := length (wallets (db w)) |}, w).
Proof.
  intros Hw. unfold WalletsService.getStats, bind.
  rewrite (Run.query_healthy _ w Hw). cbn [option_map ret].
  rewrite !or_default_zero, !reduce_total, !Rplus_0_l. reflexivity.
Qed.

(** Moving a balance by nothing leaves the table as it is. *)
Lemma moved_by_nothing s u wallet :
  wallet_ids_unique s ->
  lookup_wallet s u = Some wallet ->
  moved_wallets s wallet 0 = wallets s.
Proof.
  intros Hu Hl. destruct (WalletProofs.lookup_wallet_In _ _ _ Hl) as [Hin _].
  unfold moved_wallets. rewrite <- (map_id (wallets s)) at 2.
  apply map_ext_in. intros x Hx.
  destruct (Nat.eqb (Wallet.id x) (Wallet.id wallet)) eqn:E; [|reflexivity].
  apply Nat.eqb_eq in E.
  rewrite (WalletProofs.key_injective Wallet.id (wallets s) wallet x Hu Hin Hx E).
  destruct wallet. unfold set_balance. cbn. f_equal. lra.
Qed.

(** The wallets after a sequence of ledger operations on one wallet: the
    table of before with the balance of that wallet moved by the signed
    amounts. *)
Lemma perform_all_wallets userId ops :
  forall w wallet,
    healthy w -> wallet_ids_unique (db w) ->
    lookup_wallet (db w) userId = Some wallet ->
    0 <= Wallet.balance wallet ->
    all_accepted (Wallet.balance wallet) ops ->
    exists s',
      perform_all userId ops w = (Ok tt, {| db := s'; faults := [] |})
      /\ wallets s' = moved_wallets (db w) wallet (total signed_amount ops).
Proof.
  induction ops as [|op ops IH]; intros w wallet Hw Hu Hl H0 Hall.
  - exists (db w). split.
    { cbn. unfold ret. destruct w as [s f]. unfold healthy in Hw. cbn in *. subst f.
      reflexivity. }
    unfold total. cbn [map fold_right].
    symmetry. exact (moved_by_nothing (db w) userId wallet Hu Hl).
  - destruct Hall as [Ha Hrest]. cbn [perform_all]. unfold bind at 1.
    rewrite (LedgerProofs.perform_run w userId wallet op Hw Hu Hl H0 Ha).
    set (s1 := posted (db w) wallet (op_type op) (signed_amount op) (op_reference op)).
    destruct (IH {| db := s1; faults := [] |}
                (set_balance (Wallet.balance wallet + signed_amount op) wallet)
                eq_refl (WalletProofs.posted_unique _ _ _ _ _ Hu)
                (LedgerProofs.lookup_posted_same _ _ _ _ _ _ Hl)
                (LedgerProofs.accepted_nonneg _ _ H0 Ha) Hrest)
      as (s' & E & Hws).
    exists s'. split; [exact E|].
    rewrite Hws. cbn [db]. unfold s1, posted, moved_wallets.
    cbn [wallets with_wallet_transactions with_wallets set_balance Wallet.id
         Wallet.balance].
    rewrite map_map. apply map_ext. intros x.
    unfold total. cbn [map fold_right].
    destruct (Nat.eqb (Wallet.id x) (Wallet.id wallet)) eqn:Ex.
    + cbn [set_balance Wallet.id]. rewrite Ex. unfold set_balance. cbn.
      f_equal. lra.
    + rewrite Ex. reflexivity.
Qed.

End StatsProofs.

(** X20.  The totals of getStats follow the ledger.  On a healthy store
    getStats returns the sum of the balances, the sum of the frozen
    balances and the number of wallets, and writes nothing.  After any
    sequence of ledger operations on one wallet, each of which passes its
    checks, the wallets are those of before, in the same order, with the
    balance of that wallet replaced by its final balance, the initial one
    plus the signed amounts of the calls; getStats returns the sum of the
    balances of these rows, and the total of the frozen balances and the
    number of wallets are as before.  When the read of the wallets fails,
    getStats does not throw: it returns 0 for the three. *)
Theorem getStats_follows_ledger :
  forall (w : World) (userId : Id) (wallet : Wallet.Row) (ops : list LedgerOp),
    healthy w ->
    wallet_ids_unique (db w) ->
    lookup_wallet (db w) userId = Some wallet ->
    0 <= Wallet.balance wallet ->
    all_accepted (Wallet.balance wallet) ops ->
    exists before after w',
      WalletsService.getStats w = (Ok before, w)
      /\ perform_all userId ops w = (Ok tt, w')
      /\ WalletsService.getStats w' = (Ok after, w')
      /\ WalletsService.totalBalance before = total Wallet.balance (wallets (db w))
      /\ wallets (db w')
         = moved_wallets (db w) wallet (total signed_amount ops)
      /\ WalletsService.totalBalance after = total Wallet.balance (wallets (db w'))
      /\ WalletsService.totalFrozen after = WalletsService.totalFrozen before
      /\ WalletsService.walletsCount after = WalletsService.walletsCount before
      /\ forall (s : Store) (fs : list bool),
           WalletsService.getStats {| db := s; faults := true :: fs |}
           = (Ok {| WalletsService.totalBalance := 0;
                    WalletsService.totalFrozen := 0;
                    WalletsService.walletsCount := 0 |},
              {| db := s; faults := fs |}).
Proof.
  intros w userId wallet ops Hw Hu Hl H0 Hall.
  destruct (StatsProofs.perform_all_wallets userId ops w wallet Hw Hu Hl H0 Hall)
    as (s' & E & Hws).
  eexists. eexists. exists {| db := s'; faults := [] |}.
  split; [apply (StatsProofs.getStats_healthy w Hw)|].
  split; [exact E|].
  split; [apply (StatsProofs.getStats_healthy {| db := s'; faults := [] |} eq_refl)|].
  cbn [WalletsService.totalBalance WalletsService.totalFrozen
       WalletsService.walletsCount db].
  split; [reflexivity|]. split; [exact Hws|]. split; [reflexivity|].
  split.
  { rewrite Hws. unfold total, moved_wallets. rewrite map_map. f_equal.
    apply map_ext. intros x.
    destruct (Nat.eqb (Wallet.id x) (Wallet.id wallet)); reflexivity. }
  split; [rewrite Hws; apply length_map|].
  intros s fs. unfold WalletsService.getStats, bind, query, db_call. cbn.
  unfold Num.or_default. cbn. reflexivity.
Qed.

Lemma getStats_follows_ledger_witness :
  let w := {| db := Sample.resolved_yes; faults := [] |} in
  let ops := [Deposit 10; Withdraw 110] in
  healthy w /\ wallet_ids_unique (db w)
  /\ lookup_wallet (db w) 7%nat = Some (Sample.wallet_of 1%nat 7%nat 100)
  /\ all_accepted 100 ops
  /\ exists before after w',
       WalletsService.getStats w = (Ok before, w)
       /\ perform_all 7%nat ops w = (Ok tt, w')
       /\ WalletsService.getStats w' = (Ok after, w')
       /\ WalletsService.totalBalance after = total Wallet.balance (wallets (db w'))
       /\ WalletsService.walletsCount after = WalletsService.walletsCount before.
Proof.
  cbv zeta.
  assert (Ha : all_accepted 100 [Deposit 10; Withdraw 110]) by (cbn; lra).
  split; [reflexivity|]. split; [exact SampleSettlement.unique|].
  split; [reflexivity|]. split; [exact Ha|].
  destruct (getStats_follows_ledger {| db := Sample.resolved_yes; faults := [] |}
              7%nat (Sample.wallet_of 1%nat 7%nat 100) [Deposit 10; Withdraw 110]
              eq_refl SampleSettlement.unique eq_refl ltac:(cbn; lra) Ha)
    as (before & after & w' & E1 & E2 & E3 & _ & _ & Hb & _ & Hn & _).
  exists before, after, w'. repeat split; assumption.
Defined.

(** ** Analytics: the exposure report (trades.service.ts,
    getUnsettledExposure) *)

Module SortProofs.

Section Sort.

Context {A : Type}.
Variable key : A -> R.

Lemma insert_desc_length x l :
  length (Arrays.insert_desc key x l) = S (length l).
Proof.
  induction l as [|y l IH]; cbn; [reflexivity|].
  destruct (Rlt_dec (key x) (key y)); cbn; [rewrite IH|]; reflexivity.
Qed.

Lemma sort_desc_length l : length (Arrays.sort_desc key l) = length l.
Proof.
  unfold Arrays.sort_desc. induction l as [|x l IH]; cbn; [reflexivity|].
  rewrite insert_desc_length, IH. reflexivity.
Qed.

Lemma insert_desc_Forall (P : A -> Prop) x l :
  P x -> Forall P l -> Forall P (Arrays.insert_desc key x l).
Proof.
  intros Hx Hl. induction Hl as [|y l Hy Hl IH]; cbn.
  - constructor; [exact Hx|constructor].
  - destruct (Rlt_dec (key x) (key y)); constructor; auto.
Qed.

Lemma sort_desc_Forall (P : A -> Prop) l :
  Forall P l -> Forall P (Arrays.sort_desc key l).
Proof.
  unfold Arrays.sort_desc. induction 1 as [|x l Hx Hl IH]; cbn; [constructor|].
  apply insert_desc_Forall; assumption.
Qed.

Lemma insert_desc_descending x l :
  descending (map key l) -> descending (map key (Arrays.insert_desc key x l)).
Proof.
  induction l as [|y l IH]; cbn [Arrays.insert_desc map descending].
  - intros _. split; [constructor|exact I].
  - intros [Hy Hl]. destruct (Rlt_dec (key x) (key y)) as [Hlt|Hge];
      cbn [map descending].
    + split; [|apply IH; exact Hl].
      apply (proj2 (Forall_map key (fun k => k <= key y) _)).
      apply insert_desc_Forall; [lra|].
      apply (proj1 (Forall_map key (fun k => k <= key y) l)). exact Hy.
    + split; [|split; assumption].
      constructor; [lra|].
      eapply Forall_impl; [|exact Hy]. cbn. intros k Hk. lra.
Qed.

Lemma sort_desc_descending l : descending (map key (Arrays.sort_desc key l)).
Proof.
  unfold Arrays.sort_desc. induction l as [|x l IH]; cbn [fold_right].
  - exact I.
  - apply insert_desc_descending. exact IH.
Qed.

End Sort.

Lemma Forall_firstn {A} (P : A -> Prop) n l : Forall P l -> Forall P (firstn n l).
Proof.
  intros H. revert n. induction H as [|x l Hx Hl IH]; intros [|n]; cbn;
    constructor; auto.
Qed.

Lemma descending_firstn n keys : descending keys -> descending (firstn n keys).
Proof.
  revert n. induction keys as [|k keys IH]; intros [|n]; cbn; auto.
  intros [Hk Hd]. split; [apply Forall_firstn; exact Hk|apply IH; exact Hd].
Qed.

End SortProofs.

Module ExposureProofs.

Lemma exposureLoop_from ps ms :
  forall t l,
    fold_left
      (fun acc market =>
         let e := TradesService.exposureOf ps market in
         (fst acc + TradesService.maxExposure e,
          if Rgt_dec (TradesService.maxExposure e) 0 then snd acc ++ [e]
          else snd acc))
      ms (t, l)
    = (t + total (fun m => TradesService.maxExposure (TradesService.exposureOf ps m)) ms,
       l ++ filter (fun e => if Rgt_dec (TradesService.maxExposure e) 0
                            then true else false)
                   (map (TradesService.exposureOf ps) ms)).
Proof.
  unfold total. induction ms as [|m ms IH]; intros t l; cbn [fold_left map filter fold_right].
  - rewrite app_nil_r. f_equal. lra.
  - cbv zeta. rewrite IH. cbn [fst snd].
    destruct (Rgt_dec (TradesService.maxExposure (TradesService.exposureOf ps m)) 0);
      [rewrite <- app_assoc|]; cbn [app]; f_equal; lra.
Qed.

Lemma exposureLoop_spec ps ms :
  TradesService.exposureLoop ps ms
  = (total (fun m => TradesService.maxExposure (TradesService.exposureOf ps m)) ms,
     filter (fun e => if Rgt_dec (TradesService.maxExposure e) 0 then true else false)
            (map (TradesService.exposureOf ps) ms)).
Proof.
  unfold TradesService.exposureLoop. rewrite exposureLoop_from. f_equal. lra.
Qed.

Lemma exposureOf_totals ps m :
  TradesService.totalYesShares (TradesService.exposureOf ps m)
  = total Position.yes_shares
      (filter (fun p => Nat.eqb (Position.market_id p) (Market.id m)) ps)
  /\ TradesService.totalNoShares (TradesService.exposureOf ps m)
     = total Position.no_shares
         (filter (fun p => Nat.eqb (Position.market_id p) (Market.id m)) ps)
  /\ TradesService.maxExposure (TradesService.exposureOf ps m)
     = Rmax (TradesService.totalYesShares (TradesService.exposureOf ps m))
            (TradesService.totalNoShares (TradesService.exposureOf ps m)).
Proof.
  unfold TradesService.exposureOf. cbv zeta.
  cbn [TradesService.totalYesShares TradesService.totalNoShares
       TradesService.maxExposure].
  assert (E : forall (column : Position.Row -> R) rows,
             fold_left (fun sum position =>
                          sum + Num.or_default (Some (column position)) 0) rows 0
             = total column rows).
  { intros column rows.
    assert (G : forall a,
               fold_left (fun sum position =>
                            sum + Num.or_default (Some (column position)) 0) rows a
               = a + total column rows).
    { unfold total. induction rows as [|x rows IH]; intros a; cbn; [lra|].
      rewrite IH, StatsProofs.or_default_zero. lra. }
    rewrite G. lra. }
  rewrite !E. repeat split; reflexivity.
Qed.









End ExposureProofs.



(** X22.  The shape of the exposure report, in every world.
    getUnsettledExposure never throws and never writes, whichever of its
    reads fail.  The entries it returns are in decreasing order of
    exposure, at most ten, never more than the market count it reports;
    each is a draft, active or suspended market with a positive exposure
    that is the larger of its two share totals.  When the read of the
    markets or the read of the positions fails, no error is reported: the
    report is a total of 0, a count of 0 and no entry. *)
Theorem exposure_report_shape :
  forall (w : World),
    exists x w',
      TradesService.getUnsettledExposure w = (Ok x, w')
      /\ db w' = db w
      /\ descending (map TradesService.maxExposure (TradesService.marketExposures x))
      /\ (length (TradesService.marketExposures x) <= 10)%nat
      /\ (length (TradesService.marketExposures x) <= TradesService.marketCount x)%nat
      /\ Forall (fun e =>
                   0 < TradesService.maxExposure e
                   /\ TradesService.maxExposure e
                      = Rmax (TradesService.totalYesShares e)
                             (TradesService.totalNoShares e)
                   /\ TradesService.unsettledStatus (TradesService.x_status e) = true)
                (TradesService.marketExposures x)
      /\ ((exists fs, faults w = true :: fs)
          \/ (exists fs, faults w = false :: true :: fs) ->
          x = {| TradesService.totalMaxExposure := 0;
                 TradesService.marketCount := 0;
                 TradesService.marketExposures := [] |}).
Proof.
  intros w.
  assert (Hshape : forall ps ms,
             Forall (fun m => TradesService.unsettledStatus (Market.status m) = true) ms ->
             let loop := TradesService.exposureLoop ps ms in
             let sorted := Arrays.sort_desc TradesService.maxExposure (snd loop) in
             descending (map TradesService.maxExposure (Arrays.slice0 10 sorted))
             /\ (length (Arrays.slice0 10 sorted) <= 10)%nat
             /\ (length (Arrays.slice0 10 sorted) <= length sorted)%nat
             /\ Forall (fun e =>
                          0 < TradesService.maxExposure e
                          /\ TradesService.maxExposure e
                             = Rmax (TradesService.totalYesShares e)
                                    (TradesService.totalNoShares e)
                          /\ TradesService.unsettledStatus (TradesService.x_status e)
                             = true)
                       (Arrays.slice0 10 sorted)).
  { intros ps ms Hms. cbv zeta. unfold Arrays.slice0.
    split; [rewrite <- firstn_map; apply SortProofs.descending_firstn,
              SortProofs.sort_desc_descending|].
    split; [apply firstn_le_length|].
    split; [rewrite length_firstn; apply Nat.le_min_r|].
    apply SortProofs.Forall_firstn, SortProofs.sort_desc_Forall.
    rewrite ExposureProofs.exposureLoop_spec. cbn [snd].
    apply Forall_forall. intros e He. apply filter_In in He. destruct He as [He Hpos].
    apply in_map_iff in He. destruct He as (m & <- & Hm).
    destruct (Rgt_dec (TradesService.maxExposure
                         (TradesService.exposureOf ps m)) 0) as [Hg|]; [|discriminate].
    split; [lra|].
    split; [apply (ExposureProofs.exposureOf_totals ps m)|].
    rewrite Forall_forall in Hms. exact (Hms m Hm). }
  assert (Hfilter : forall s,
             Forall (fun m => TradesService.unsettledStatus (Market.status m) = true)
                    (filter (fun m => TradesService.unsettledStatus (Market.status m))
                            (markets s))).
  { intros s. apply Forall_forall. intros m Hm. apply filter_In in Hm. tauto. }
  assert (Hzero : forall ms,
             TradesService.exposureLoop [] ms = (0, [])).
  { intros ms. rewrite ExposureProofs.exposureLoop_spec.
    assert (Hz : forall m, TradesService.maxExposure (TradesService.exposureOf [] m) = 0).
    { intros m. unfold TradesService.exposureOf. cbn. apply Rmax_left. lra. }
    f_equal.
    - unfold total. induction ms as [|m ms IH]; cbn [map fold_right]; [reflexivity|].
      rewrite Hz, IH. lra.
    - induction ms as [|m ms IH]; cbn [map filter]; [reflexivity|].
      rewrite Hz. destruct (Rgt_dec 0 0); [exfalso; lra|exact IH]. }
  unfold TradesService.getUnsettledExposure, bind, query, bind, db_call, ret.
  destruct w as [s [|[|] [|[|] fs]]]; cbn [faults db Arrays.or_empty];
    eexists; eexists; (split; [reflexivity|]); (split; [reflexivity|]);
    cbn [TradesService.marketExposures TradesService.marketCount].
  all: match goal with
       | |- context [TradesService.exposureLoop ?ps ?ms] =>
         let Hms := fresh "Hms" in
         assert (Hms : Forall (fun m => TradesService.unsettledStatus (Market.status m)
                                        = true) ms)
           by (first [apply Hfilter | constructor]);
         destruct (Hshape ps ms Hms) as (H1 & H2 & H3 & H4)
       end.
  all: split; [exact H1|]; split; [exact H2|]; split; [exact H3|];
       split; [exact H4|].
  all: intros [[fs' E]|[fs' E]]; try discriminate E; try rewrite Hzero; reflexivity.
Qed.

(** ** The profit and loss report *)

Module PnlProofs.

Lemma total_app {A} (f : A -> R) l1 l2 :
  total f (l1 ++ l2) = total f l1 + total f l2.
Proof.
  unfold total. induction l1 as [|x l1 IH]; cbn.
  - lra.
  - rewrite IH. lra.
Qed.

Lemma NoDup_snoc {A} (l : list A) a : NoDup l -> ~ In a l -> NoDup (l ++ [a]).
Proof.
  induction l as [|x l IH]; intros Hn Ha; cbn.
  - constructor; [intros []|constructor].
  - inversion Hn as [|? ? Hx Hl]; subst. constructor.
    + rewrite in_app_iff. intros [H|[H|[]]]; [exact (Hx H)|].
      apply Ha. left. symmetry. exact H.
    + apply IH; [exact Hl|]. intros H. apply Ha. right. exact H.
Qed.

(** *** The object [marketPnL] *)

Lemma entryOf_none l id :
  TradesService.entryOf l id = None -> ~ In id (map TradesService.p_marketId l).
Proof.
  unfold TradesService.entryOf. intros H Hin.
  apply in_map_iff in Hin. destruct Hin as (e & He & Hin).
  assert (Hf := find_none _ _ H e Hin). cbn in Hf.
  rewrite He, Nat.eqb_refl in Hf. discriminate.
Qed.

Lemma entryOf_some l id e :
  TradesService.entryOf l id = Some e -> In id (map TradesService.p_marketId l).
Proof.
  unfold TradesService.entryOf. intros H.
  destruct (find_some _ _ H) as [Hin Heq].
  apply Nat.eqb_eq in Heq. apply in_map_iff. exists e. split; assumption.
Qed.

Lemma updateEntry_keys id f l :
  (forall e, TradesService.p_marketId (f e) = TradesService.p_marketId e) ->
  map TradesService.p_marketId (TradesService.updateEntry id f l)
  = map TradesService.p_marketId l.
Proof.
  intros Hf. unfold TradesService.updateEntry. rewrite map_map.
  apply map_ext. intros e.
  destruct (Nat.eqb (TradesService.p_marketId e) id); [apply Hf|reflexivity].
Qed.

Lemma updateEntry_absent id f l :
  ~ In id (map TradesService.p_marketId l) -> TradesService.updateEntry id f l = l.
Proof.
  unfold TradesService.updateEntry. induction l as [|e l IH]; intros H; cbn.
  - reflexivity.
  - destruct (Nat.eqb (TradesService.p_marketId e) id) eqn:E.
    + exfalso. apply H. left. apply Nat.eqb_eq. exact E.
    + f_equal. apply IH. intros Hin. apply H. right. exact Hin.
Qed.

(** Updating the entry of a key that is present once moves a total by
    what the update adds. *)
Lemma updateEntry_total (h : TradesService.MarketPnL -> R) id f delta l :
  (forall e, h (f e) = h e + delta) ->
  NoDup (map TradesService.p_marketId l) ->
  In id (map TradesService.p_marketId l) ->
  total h (TradesService.updateEntry id f l) = total h l + delta.
Proof.
  intros Hf. induction l as [|e l IH]; intros Hn Hin.
  - destruct Hin.
  - cbn [map] in Hn. inversion Hn as [|? ? Hx Hl]; subst.
    unfold total in *. cbn [TradesService.updateEntry map fold_right].
    destruct (Nat.eqb (TradesService.p_marketId e) id) eqn:E.
    + apply Nat.eqb_eq in E. subst id.
      fold (TradesService.updateEntry (TradesService.p_marketId e) f l).
      rewrite (updateEntry_absent _ f l Hx), Hf. lra.
    + fold (TradesService.updateEntry id f l).
      destruct Hin as [Hin|Hin].
      * apply Nat.eqb_neq in E. contradiction.
      * rewrite (IH Hl Hin). lra.
Qed.

(** *** The loop over the trades *)

Lemma of_market_snoc id ts t :
  of_market id (ts ++ [t])
  = of_market id ts ++ (if Nat.eqb (Trade.market_id t) id then [t] else []).
Proof.
  unfold of_market. rewrite filter_app. reflexivity.
Qed.

Lemma of_market_absent id ts :
  (forall t, In t ts -> Trade.market_id t <> id) -> of_market id ts = [].
Proof.
  unfold of_market. induction ts as [|t ts IH]; intros H; cbn.
  - reflexivity.
  - destruct (Nat.eqb (Trade.market_id t) id) eqn:E.
    + apply Nat.eqb_eq in E. exfalso. exact (H t (or_introl eq_refl) E).
    + apply IH. intros t' Ht'. apply H. right. exact Ht'.
Qed.

Lemma addTrade_grouped ts acc t :
  grouped ts acc -> grouped (ts ++ [t]) (TradesService.addTrade acc t).
Proof.
  intros (Hn & Hcov & Hall & Htot).
  unfold TradesService.addTrade.
  match goal with
  | |- context [TradesService.updateEntry _ ?g _] => set (f := g)
  end.
  assert (Hk : forall e, TradesService.p_marketId (f e) = TradesService.p_marketId e).
  { intros e. unfold f. destruct (Trade.type t); reflexivity. }
  assert (Hb : forall e, TradesService.buyVolume (f e)
                         = TradesService.buyVolume e + bought t).
  { intros e. unfold f, bought. destruct (Trade.type t); cbn; lra. }
  assert (Hs : forall e, TradesService.sellVolume (f e)
                         = TradesService.sellVolume e + sold t).
  { intros e. unfold f, sold. destruct (Trade.type t); cbn; lra. }
  assert (Hh : forall e,
             TradesService.buyVolume (f e) - TradesService.sellVolume (f e)
             = TradesService.buyVolume e - TradesService.sellVolume e
               + (bought t - sold t)).
  { intros e. rewrite Hb, Hs. lra. }
  assert (Hold : Forall (fun e =>
             let e' := if Nat.eqb (TradesService.p_marketId e) (Trade.market_id t)
                       then f e else e in
             TradesService.buyVolume e'
             = total bought (of_market (TradesService.p_marketId e') (ts ++ [t]))
             /\ TradesService.sellVolume e'
                = total sold (of_market (TradesService.p_marketId e') (ts ++ [t])))
            acc).
  { eapply Forall_impl; [|exact Hall]. intros e [Eb Es]. cbv zeta.
    destruct (Nat.eqb (TradesService.p_marketId e) (Trade.market_id t)) eqn:E.
    - rewrite Hk, Hb, Hs, of_market_snoc, !total_app, <- Eb, <- Es.
      rewrite Nat.eqb_sym, E. unfold total. cbn. split; lra.
    - rewrite of_market_snoc, !total_app, <- Eb, <- Es.
      rewrite Nat.eqb_sym, E. unfold total. cbn. split; lra. }
  destruct (TradesService.entryOf acc (Trade.market_id t)) as [e0|] eqn:E0.
  - assert (Hin := entryOf_some _ _ _ E0).
    repeat split.
    + rewrite (updateEntry_keys _ f acc Hk). exact Hn.
    + intros t' Ht'. rewrite (updateEntry_keys _ f acc Hk).
      apply in_app_iff in Ht'. destruct Ht' as [Ht'|[<-|[]]]; [apply Hcov; exact Ht'|exact Hin].
    + unfold TradesService.updateEntry. apply Forall_map. exact Hold.
    + rewrite (updateEntry_total _ _ f (bought t - sold t) acc Hh Hn Hin).
      rewrite !total_app, Htot. unfold total. cbn. lra.
  - assert (Hout := entryOf_none _ _ E0).
    set (z := {| TradesService.p_marketId := Trade.market_id t;
                 TradesService.buyVolume := 0; TradesService.sellVolume := 0;
                 TradesService.settlementPayout := 0; TradesService.pnl := 0 |}).
    assert (Eupd : TradesService.updateEntry (Trade.market_id t) f (acc ++ [z])
                   = acc ++ [f z]).
    { unfold TradesService.updateEntry. rewrite map_app.
      fold (TradesService.updateEntry (Trade.market_id t) f acc).
      rewrite (updateEntry_absent _ f acc Hout). cbn [map].
      unfold z at 1. cbn [TradesService.p_marketId]. rewrite Nat.eqb_refl. reflexivity. }
    rewrite Eupd.
    assert (Hnone : of_market (Trade.market_id t) ts = []).
    { apply of_market_absent. intros t' Ht' E. apply Hout. rewrite <- E.
      apply Hcov. exact Ht'. }
    repeat split.
    + rewrite map_app. cbn [map]. rewrite Hk. apply NoDup_snoc; assumption.
    + intros t' Ht'. rewrite map_app, in_app_iff. cbn [map]. rewrite Hk.
      apply in_app_iff in Ht'. destruct Ht' as [Ht'|[<-|[]]].
      * left. apply Hcov. exact Ht'.
      * right. left. reflexivity.
    + apply Forall_app. split.
      * assert (Hsame : Forall (fun e =>
                   Nat.eqb (TradesService.p_marketId e) (Trade.market_id t) = false) acc).
        { apply Forall_forall. intros e He. apply Nat.eqb_neq. intros E.
          apply Hout. rewrite <- E. apply in_map. exact He. }
        apply Forall_forall. intros e He.
        assert (H1 := proj1 (Forall_forall _ _) Hold e He).
        assert (H2 := proj1 (Forall_forall _ _) Hsame e He).
        cbv beta zeta in H1. rewrite H2 in H1. exact H1.
      * constructor; [|constructor].
        rewrite Hk, Hb, Hs, of_market_snoc, !total_app.
        unfold z. cbn [TradesService.p_marketId TradesService.buyVolume
                       TradesService.sellVolume].
        rewrite Hnone, Nat.eqb_refl. unfold total. cbn. split; lra.
    + rewrite !total_app, Htot. unfold total. cbn [map fold_right].
      rewrite Hh. unfold z. cbn [TradesService.buyVolume TradesService.sellVolume].
      lra.
Qed.

Lemma trades_grouped ts : grouped ts (fold_left TradesService.addTrade ts []).
Proof.
  induction ts as [|t ts IH] using rev_ind.
  - cbn. repeat split.
    + constructor.
    + intros t [].
    + constructor.
    + unfold total. cbn. lra.
  - rewrite fold_left_app. cbn [fold_left]. apply addTrade_grouped. exact IH.
Qed.

(** *** The loop over the resolved markets *)

Lemma addPayout_update ps acc m :
  TradesService.addPayout ps acc m
  = TradesService.updateEntry (Market.id m) (setPayout ps m) acc.
Proof.
  unfold TradesService.addPayout.
  destruct (TradesService.entryOf acc (Market.id m)) eqn:E.
  - reflexivity.
  - symmetry. apply updateEntry_absent. exact (entryOf_none _ _ E).
Qed.

Lemma payouts_pointwise ps ms :
  forall acc,
    fold_left (TradesService.addPayout ps) ms acc
    = map (fun e => fold_left (payStep ps) ms e) acc.
Proof.
  induction ms as [|m ms IH]; intros acc; cbn [fold_left].
  - symmetry. apply map_id.
  - rewrite IH, addPayout_update. unfold TradesService.updateEntry.
    rewrite map_map. reflexivity.
Qed.

Lemma payStep_entry ps ms :
  forall e,
    let e' := fold_left (payStep ps) ms e in
    TradesService.p_marketId e' = TradesService.p_marketId e
    /\ TradesService.buyVolume e' = TradesService.buyVolume e
    /\ TradesService.sellVolume e' = TradesService.sellVolume e
    /\ ((exists m, In m ms /\ Market.id m = TradesService.p_marketId e
                   /\ TradesService.settlementPayout e'
                      = TradesService.settlementPayoutOf ps m)
        \/ ((forall m, In m ms -> Market.id m <> TradesService.p_marketId e)
            /\ TradesService.settlementPayout e' = TradesService.settlementPayout e)).
Proof.
  induction ms as [|m ms IH]; intros e; cbv zeta; cbn [fold_left].
  - repeat split. right. split; [intros m []|reflexivity].
  - destruct (IH (payStep ps e m)) as (Ek & Eb & Es & Hp).
    assert (Hstep : TradesService.p_marketId (payStep ps e m) = TradesService.p_marketId e
                    /\ TradesService.buyVolume (payStep ps e m) = TradesService.buyVolume e
                    /\ TradesService.sellVolume (payStep ps e m) = TradesService.sellVolume e).
    { unfold payStep. destruct (Nat.eqb _ _); repeat split. }
    destruct Hstep as (Sk & Sb & Ss).
    rewrite Ek, Eb, Es, Sk, Sb, Ss. repeat split.
    destruct Hp as [(m' & Hin & Hid & Hpay)|[Hno Hpay]].
    + left. exists m'. rewrite Hid, Sk. repeat split; [right; exact Hin|exact Hpay].
    + destruct (Nat.eqb (TradesService.p_marketId e) (Market.id m)) eqn:E.
      * left. exists m. rewrite Hpay. unfold payStep. rewrite E.
        apply Nat.eqb_eq in E. repeat split; [left; reflexivity|congruence].
      * right. split.
        -- intros m' [<-|Hin].
           ++ apply Nat.eqb_neq in E. congruence.
           ++ rewrite <- Sk. apply Hno. exact Hin.
        -- rewrite Hpay. unfold payStep. rewrite E. reflexivity.
Qed.

Lemma settlementPayoutOf_total ps m :
  TradesService.settlementPayoutOf ps m
  = total (counted_shares m)
          (filter (fun p => Nat.eqb (Position.market_id p) (Market.id m)) ps).
Proof.
  unfold TradesService.settlementPayoutOf. cbv zeta.
  generalize (filter (fun p => Nat.eqb (Position.market_id p) (Market.id m)) ps) as l.
  assert (H : forall l a,
             fold_left
               (fun settlementPayout position =>
                  settlementPayout
                  + Num.or_default
                      (Some match Market.outcome m with
                            | Some yes => Position.yes_shares position
                            | _ => Position.no_shares position
                            end) 0)
               l a
             = a + total (counted_shares m) l).
  { unfold total. induction l as [|p l IH]; intros a; cbn [fold_left map fold_right].
    - lra.
    - rewrite IH, StatsProofs.or_default_zero. unfold counted_shares. lra. }
  intros l. rewrite H. lra.
Qed.

(** *** The loop over the entries *)

Ltac pairs :=
  repeat match goal with
         | |- (_, _) = (_, _) => apply f_equal2
         end;
  try reflexivity; lra.

Lemma pnlLoop_from rms l :
  forall acc,
    fold_left
      (fun acc entry =>
         let data := TradesService.withPnl entry in
         let resolvedNow := TradesService.isResolved rms (TradesService.p_marketId data) in
         (fst (fst acc) + (TradesService.buyVolume data - TradesService.sellVolume data),
          if resolvedNow then snd (fst acc) + TradesService.pnl data else snd (fst acc),
          if resolvedNow then snd acc ++ [data] else snd acc))
      l acc
    = (fst (fst acc)
       + total (fun e => TradesService.buyVolume e - TradesService.sellVolume e) l,
       snd (fst acc) + total TradesService.pnl (details rms l),
       snd acc ++ details rms l).
Proof.
  unfold details, total.
  induction l as [|e l IH]; intros [[a b] c]; cbn [fold_left map filter fold_right fst snd].
  - rewrite app_nil_r. pairs.
  - cbv zeta. rewrite IH. cbn [fst snd TradesService.withPnl TradesService.p_marketId
                                TradesService.buyVolume TradesService.sellVolume].
    destruct (TradesService.isResolved rms (TradesService.p_marketId e));
      cbn [map fold_right]; [rewrite <- app_assoc|]; cbn [app]; pairs.
Qed.

Lemma pnlLoop_spec rms l :
  TradesService.pnlLoop rms l
  = (total (fun e => TradesService.buyVolume e - TradesService.sellVolume e) l,
     total TradesService.pnl (details rms l),
     details rms l).
Proof.
  unfold TradesService.pnlLoop. rewrite pnlLoop_from. cbn [fst snd app]. pairs.
Qed.

Lemma isResolved_market rms id :
  TradesService.isResolved rms id = true ->
  exists m, In m rms /\ Market.id m = id.
Proof.
  unfold TradesService.isResolved.
  destruct (find (fun m => Nat.eqb (Market.id m) id) rms) as [m|] eqn:E; [|discriminate].
  intros _. destruct (find_some _ _ E) as [Hin Hid].
  exists m. split; [exact Hin|]. apply Nat.eqb_eq. exact Hid.
Qed.

(** *** Sorting keeps the sum *)

Lemma insert_desc_total {A} (key : A -> R) x l :
  total key (Arrays.insert_desc key x l) = key x + total key l.
Proof.
  unfold total. induction l as [|y l IH]; cbn [Arrays.insert_desc map fold_right].
  - reflexivity.
  - destruct (Rlt_dec (key x) (key y)); cbn [map fold_right]; [rewrite IH|]; lra.
Qed.

Lemma sort_desc_total {A} (key : A -> R) l :
  total key (Arrays.sort_desc key l) = total key l.
Proof.
  unfold Arrays.sort_desc. induction l as [|x l IH]; cbn [fold_right].
  - reflexivity.
  - rewrite insert_desc_total, IH. unfold total. cbn. reflexivity.
Qed.

Lemma getAMMProfitLoss_healthy w :
  healthy w ->
  let rms := filter (fun m => Status_eqb (Market.status m) resolved) (markets (db w)) in
  let marketPnL :=
    fold_left (TradesService.addPayout (positions (db w))) rms
              (fold_left TradesService.addTrade (trades (db w)) []) in
  let loop := TradesService.pnlLoop rms marketPnL in
  TradesService.getAMMProfitLoss w
  = (Ok {| TradesService.totalAMMPnL := fst (fst loop);
           TradesService.resolvedAMMPnL := snd (fst loop);
           TradesService.marketDetails :=
             Arrays.slice0 20 (Arrays.sort_desc TradesService.pnl (snd loop)) |},
     w).
Proof.
  intros Hw. cbv zeta. unfold TradesService.getAMMProfitLoss, bind.
  rewrite !(Run.query_healthy _ w Hw). reflexivity.
Qed.

Lemma Status_eqb_eq a b : Status_eqb a b = true -> a = b.
Proof.
  destruct a, b; cbn; intros H; try reflexivity; discriminate H.
Qed.

Lemma details_entries (s : Store) :
  let rms := filter (fun m => Status_eqb (Market.status m) resolved) (markets s) in
  Forall (detail_of s)
         (details rms
            (fold_left (TradesService.addPayout (positions s)) rms
                       (fold_left TradesService.addTrade (trades s) []))).
Proof.
  cbv zeta.
  set (rms := filter (fun m => Status_eqb (Market.status m) resolved) (markets s)).
  destruct (trades_grouped (trades s)) as (_ & _ & Hall & _).
  rewrite payouts_pointwise. unfold details.
  apply Forall_forall. intros d Hd.
  apply in_map_iff in Hd. destruct Hd as (e2 & <- & He2).
  apply filter_In in He2. destruct He2 as [He2 Hres].
  apply in_map_iff in He2. destruct He2 as (e1 & <- & He1).
  destruct (proj1 (Forall_forall _ _) Hall e1 He1) as [Eb Es].
  destruct (payStep_entry (positions s) rms e1) as (Ek & Eb' & Es' & Hp).
  cbv zeta in Ek, Eb', Es', Hp.
  unfold detail_of.
  cbn [TradesService.withPnl TradesService.p_marketId TradesService.buyVolume
       TradesService.sellVolume TradesService.settlementPayout TradesService.pnl].
  rewrite Ek, Eb', Es'.
  split; [exact Eb|]. split; [exact Es|]. split; [|reflexivity].
  destruct Hp as [(m & Hin & Hid & Hpay)|[Hno _]].
  - exists m. unfold rms in Hin. apply filter_In in Hin. destruct Hin as [Hin Hst].
    split; [exact Hin|]. split; [exact Hid|].
    split; [apply Status_eqb_eq; exact Hst|].
    rewrite Hpay, settlementPayoutOf_total, Hid. reflexivity.
  - exfalso. destruct (isResolved_market _ _ Hres) as (m & Hin & Hid).
    rewrite Ek in Hid. exact (Hno m Hin Hid).
Qed.

End PnlProofs.

(** X23.  The profit and loss report of the market maker.  On a healthy
    store getAMMProfitLoss returns and writes nothing.  Its total is what
    the buys of the trade log brought (cost less fee) less the cost column
    of its sells.  Each entry it returns is for a resolved market, and
    holds the two volumes of the trades of that market, as
    settlement payout the shares its positions hold now on the side of the
    outcome (the NO shares when the market has no outcome), whether or not
    the market was settled, and as profit the volumes' difference less that
    payout.  The entries are in decreasing order of profit, at most twenty;
    when fewer than twenty are returned, the profit over the resolved
    markets that the report gives is the sum of theirs. *)
Theorem getAMMProfitLoss_report :
  forall (w : World),
    healthy w ->
    exists x,
      TradesService.getAMMProfitLoss w = (Ok x, w)
      /\ TradesService.totalAMMPnL x
         = total bought (trades (db w)) - total sold (trades (db w))
      /\ Forall (detail_of (db w)) (TradesService.marketDetails x)
      /\ descending (map TradesService.pnl (TradesService.marketDetails x))
      /\ (length (TradesService.marketDetails x) <= 20)%nat
      /\ ((length (TradesService.marketDetails x) < 20)%nat ->
          TradesService.resolvedAMMPnL x
          = total TradesService.pnl (TradesService.marketDetails x)).
Proof.
  intros w Hw.
  rewrite (PnlProofs.getAMMProfitLoss_healthy w Hw). cbv zeta.
  eexists. split; [reflexivity|].
  cbn [TradesService.totalAMMPnL TradesService.resolvedAMMPnL
       TradesService.marketDetails].
  rewrite PnlProofs.pnlLoop_spec. cbn [fst snd].
  set (rms := filter (fun m => Status_eqb (Market.status m) resolved) (markets (db w))).
  set (acc := fold_left (TradesService.addPayout (positions (db w))) rms
                (fold_left TradesService.addTrade (trades (db w)) [])).
  unfold Arrays.slice0.
  split.
  { destruct (PnlProofs.trades_grouped (trades (db w))) as (_ & _ & _ & Htot).
    rewrite <- Htot. unfold acc. rewrite PnlProofs.payouts_pointwise.
    unfold total. rewrite map_map. f_equal. apply map_ext. intros e.
    destruct (PnlProofs.payStep_entry (positions (db w)) rms e) as (_ & Eb & Es & _).
    cbv zeta in Eb, Es. rewrite Eb, Es. reflexivity. }
  split.
  { apply SortProofs.Forall_firstn, SortProofs.sort_desc_Forall.
    exact (PnlProofs.details_entries (db w)). }
  split.
  { rewrite <- firstn_map.
    apply SortProofs.descending_firstn, SortProofs.sort_desc_descending. }
  split; [apply firstn_le_length|].
  intros Hlt. rewrite length_firstn in Hlt.
  rewrite firstn_all2 by lia.
  symmetry. apply PnlProofs.sort_desc_total.
Qed.

Lemma getAMMProfitLoss_report_witness :
  let t :=
    {| Trade.user_id := 7%nat; Trade.market_id := 3%nat; Trade.type := buy;
       Trade.side := yes; Trade.shares := 10; Trade.price := 0.51;
       Trade.cost := 5.1; Trade.fee := 0.1;
       Trade.yes_shares_before := 0; Trade.no_shares_before := 0;
       Trade.yes_shares_after := 10; Trade.no_shares_after := 0 |} in
  let store :=
    {| wallets := [Sample.wallet_of 1%nat 7%nat 100];
       wallet_transactions := [];
       markets := [Sample.market3 resolved (Some yes) 10 0];
       positions := Sample.settled_positions;
       trades := [t]; next_id := 100%nat |} in
  let w := {| db := store; faults := [] |} in
  healthy w
  /\ exists x,
       TradesService.getAMMProfitLoss w = (Ok x, w)
       /\ TradesService.totalAMMPnL x = total bought [t] - total sold [t]
       /\ Forall (detail_of store) (TradesService.marketDetails x).
Proof.
  cbv zeta. split; [reflexivity|].
  match goal with
  | |- exists x, TradesService.getAMMProfitLoss ?w = _ /\ _ =>
    destruct (getAMMProfitLoss_report w eq_refl) as (x & E & Ht & Hd & _)
  end.
  exists x. split; [exact E|]. split; [exact Ht|exact Hd].
Defined.

(** ** Quotes and executions *)

Module QuoteRunProofs.

Lemma executeBuy_returns userId market state dto w x w' :
  TradesService.executeBuy userId market state dto w = (Ok x, w') ->
  TradesService.buyQuote state (Market.liquidity market) dto
  = Some (TradesService.e_shares x, TradesService.received x,
          TradesService.e_avgPrice x).
Proof.
  unfold TradesService.executeBuy. cbv zeta. unfold AMM.getLiquidityForMarket.
  destruct (TradesService.buyQuote _ _ dto) as [[[shares cost] avgPrice]|];
    [|discriminate].
  destruct (Rle_dec shares 0) as [?|Hs]; [discriminate|].
  intros E. apply ReceiptProofs.steps_ok in E.
  - destruct E as [-> _]. reflexivity.
  - apply ExecutorProofs.deductForTrade_same_trades.
  - apply ExecutorProofs.updateShares_same_trades.
  - apply ExecutorProofs.createOrUpdate_same_trades.
Qed.

Lemma executeSell_returns userId market state dto w x w' :
  TradesService.executeSell userId market state dto w = (Ok x, w') ->
  exists d r,
    Num.truthy (TradesService.shares dto) = Some d
    /\ AMM.calculateSellReturn state (TradesService.side dto) d
         (Some (Market.liquidity market)) = inr r
    /\ TradesService.e_shares x = d
    /\ TradesService.received x = AMM.amountReceived r
    /\ TradesService.e_avgPrice x = AMM.s_avgPrice r.
Proof.
  unfold TradesService.executeSell. unfold AMM.getLiquidityForMarket.
  destruct (Num.truthy (TradesService.shares dto)) as [shares|]; [|discriminate].
  destruct (Rle_dec shares 0) as [?|Hs]; [discriminate|].
  intros E. unfold PositionsService.findByUserAndMarket in E.
  destruct (Run.bind_inv _ _ _ _ _ E) as [(position & w0 & E0 & E1)|(e & _ & Hr)];
    [|discriminate].
  destruct position as [position|]; [|discriminate].
  match type of E1 with
  | context [Rlt_dec ?a ?b] => destruct (Rlt_dec a b); [discriminate|]
  end.
  cbv zeta in E1.
  destruct (AMM.calculateSellReturn state (TradesService.side dto) shares _)
    as [err|sellResult] eqn:Er; [discriminate|].
  exists shares, sellResult. split; [reflexivity|]. split; [exact Er|].
  apply ReceiptProofs.steps_ok in E1.
  - destruct E1 as [-> _]. repeat split.
  - apply ExecutorProofs.addFromTrade_same_trades.
  - apply ExecutorProofs.updateShares_same_trades.
  - apply ExecutorProofs.createOrUpdate_same_trades.
Qed.

(** The sample buy of one YES share on the fresh store goes through. *)
Lemma fresh_buy_returns :
  exists x s',
    TradesService.executeTrade 500 7%nat Sample.buy_one_share
      {| db := Sample.fresh; faults := [] |}
    = (Ok x, {| db := s'; faults := [] |})
    /\ lookup_market s' 3%nat
       = Some (traded_row (Sample.market3 active None 0 0)
                 (AMM.newYesShares
                    (AMM.calculateBuyCost Sample.fresh_state yes 1 (Some 1000)))
                 (AMM.newNoShares
                    (AMM.calculateBuyCost Sample.fresh_state yes 1 (Some 1000)))
                 (AMM.cost_
                    (AMM.calculateBuyCost Sample.fresh_state yes 1 (Some 1000)))).
Proof.
  assert (Hu : wallet_ids_unique Sample.fresh).
  { unfold wallet_ids_unique. cbn. repeat constructor. intros []. }
  assert (Hpu : position_ids_unique Sample.fresh) by constructor.
  assert (Hin : within_window (Sample.market3 active None 0 0) 500)
    by (unfold within_window; cbn; lia).
  assert (Hrow : one_row_at_most Sample.fresh 7%nat 3%nat) by (left; reflexivity).
  assert (Hq : TradesService.buyQuote
                 (market_state (Sample.market3 active None 0 0)) 1000
                 Sample.buy_one_share
               = Some (1,
                       AMM.cost_ (AMM.calculateBuyCost Sample.fresh_state yes 1
                                    (Some 1000)),
                       AMM.avgPrice (AMM.calculateBuyCost Sample.fresh_state yes 1
                                       (Some 1000)))).
  { unfold TradesService.buyQuote. cbn [TradesService.amount Sample.buy_one_share
      TradesService.shares TradesService.side Num.truthy].
    destruct (Req_EM_T 1 0) as [?|_]; [exfalso; lra|]. reflexivity. }
  rewrite (TradeProofs.executeTrade_open {| db := Sample.fresh; faults := [] |} 500
             7%nat Sample.buy_one_share (Sample.market3 active None 0 0)
             eq_refl eq_refl eq_refl Hin).
  cbn [TradesService.type Sample.buy_one_share].
  destruct (TradeProofs.executeBuy_run {| db := Sample.fresh; faults := [] |} 7%nat
              (Sample.market3 active None 0 0) (Sample.wallet_of 1%nat 7%nat 100)
              Sample.buy_one_share eq_refl Hu Hpu eq_refl eq_refl
              1 _ _ Hrow Hq ltac:(lra) ExecutorProofs.fresh_quote_affordable)
    as (p & s' & E & Heff & _).
  eexists. exists s'. split; [exact E|].
  destruct Heff as (_ & _ & _ & Hm & _). exact Hm.
Qed.

End QuoteRunProofs.

(** X24.  A quote is what the trade turns out to be.  On a healthy store,
    when executeTrade returns for a request, getQuote asked the same
    question on the same store returns a quote, not an error, and writes
    nothing; the shares, the money (the cost of a buy, the amount received
    for a sell) and the average price of the quote are those that
    executeTrade returns. *)
Theorem getQuote_agrees_with_executeTrade :
  forall (w w' : World) (now : Z) (userId : Id)
         (dto : TradesService.ExecuteTradeDto) (q : MarketsController.QuoteDto)
         (x : TradesService.Executed),
    healthy w ->
    same_request q dto ->
    TradesService.executeTrade now userId dto w = (Ok x, w') ->
    exists quote,
      MarketsController.getQuote (TradesService.marketId dto) q w
      = (Ok (inr quote), w)
      /\ quote_shares quote = TradesService.e_shares x
      /\ quote_money quote = TradesService.received x
      /\ quote_avgPrice quote = TradesService.e_avgPrice x.
Proof.
  intros w w' now userId dto q x Hw (Hty & Hside & Hamount & Hshares) E.
  unfold TradesService.executeTrade, bind in E.
  unfold MarketsController.getQuote, bind.
  rewrite (MarketProofs.findById_healthy w _ Hw) in E |- *.
  destruct (lookup_market (db w) (TradesService.marketId dto)) as [market|];
    [|discriminate].
  destruct (negb (Status_eqb (Market.status market) active)); [discriminate|].
  destruct ((now <? Market.start_time market)%Z || (Market.end_time market <? now)%Z);
    [discriminate|].
  cbv zeta in E |- *. unfold AMM.getLiquidityForMarket.
  rewrite Hty, Hside, Hamount, Hshares.
  destruct (TradesService.type dto).
  - apply QuoteRunProofs.executeBuy_returns in E.
    unfold TradesService.buyQuote in E.
    destruct (Num.truthy (TradesService.amount dto)) as [amount|].
    + cbv zeta in E. inversion E; subst.
      eexists. split; [reflexivity|]. repeat split; cbn; congruence.
    + destruct (Num.truthy (TradesService.shares dto)) as [shares|]; [|discriminate].
      cbv zeta in E. inversion E; subst.
      eexists. split; [reflexivity|]. repeat split; cbn; congruence.
  - apply QuoteRunProofs.executeSell_returns in E.
    destruct E as (d & r & Hd & Hr & Es & Em & Ea).
    rewrite Hd, Hr.
    eexists. split; [reflexivity|]. cbn. repeat split; congruence.
Qed.

Lemma getQuote_agrees_with_executeTrade_witness :
  let w := {| db := Sample.fresh; faults := [] |} in
  let q := {| MarketsController.type := buy; MarketsController.side := yes;
              MarketsController.amount := None;
              MarketsController.shares := Some 1 |} in
  healthy w /\ same_request q Sample.buy_one_share
  /\ exists x w' quote,
       TradesService.executeTrade 500 7%nat Sample.buy_one_share w = (Ok x, w')
       /\ MarketsController.getQuote 3%nat q w = (Ok (inr quote), w)
       /\ quote_money quote = TradesService.received x.
Proof.
  cbv zeta. split; [reflexivity|].
  split; [repeat split|].
  destruct QuoteRunProofs.fresh_buy_returns as (x & s' & E & _).
  destruct (getQuote_agrees_with_executeTrade
              {| db := Sample.fresh; faults := [] |} {| db := s'; faults := [] |}
              500 7%nat Sample.buy_one_share
              {| MarketsController.type := buy; MarketsController.side := yes;
                 MarketsController.amount := None;
                 MarketsController.shares := Some 1 |}
              x eq_refl ltac:(repeat split) E) as (quote & Eq & _ & Hm & _).
  exists x, {| db := s'; faults := [] |}, quote.
  split; [exact E|]. split; [exact Eq|exact Hm].
Defined.

(** ** Displayed prices *)

Module DisplayProofs.

Lemma findOne_healthy w id m :
  healthy w ->
  lookup_market (db w) id = Some m ->
  let prices := AMM.getCurrentPrices (market_state m) (Some (Market.liquidity m)) in
  MarketsController.findOne id w
  = (Ok {| MarketsService.row := m;
           MarketsService.yes_price := AMM.yesPrice prices;
           MarketsService.no_price := AMM.noPrice prices;
           MarketsService.current_liquidity := Market.liquidity m |}, w).
Proof.
  intros Hw Hm. cbv zeta.
  unfold MarketsController.findOne, MarketsService.getMarketWithPrices, bind.
  rewrite (MarketProofs.findById_healthy w _ Hw), Hm. reflexivity.
Qed.

Lemma displayed_price side m :
  displayed side
    {| MarketsService.row := m;
       MarketsService.yes_price :=
         AMM.yesPrice (AMM.getCurrentPrices (market_state m) (Some (Market.liquidity m)));
       MarketsService.no_price :=
         AMM.noPrice (AMM.getCurrentPrices (market_state m) (Some (Market.liquidity m)));
       MarketsService.current_liquidity := Market.liquidity m |}
  = side_price side (AMM.getCurrentPrices (market_state m) (Some (Market.liquidity m))).
Proof.
  destruct side; reflexivity.
Qed.

(** The quantities that calculateSellReturn returns for d > 0 shares: the
    side sold does not grow and the other side does not shrink. *)
Lemma calculateSellReturn_shares state side d liquidity r :
  0 < d ->
  AMM.calculateSellReturn state side d liquidity = inr r ->
  match side with
  | yes => AMM.s_newYesShares r <= AMM.yesShares state
           /\ AMM.noShares state <= AMM.s_newNoShares r
  | no => AMM.s_newNoShares r <= AMM.noShares state
          /\ AMM.yesShares state <= AMM.s_newYesShares r
  end.
Proof.
  intros Hd. unfold AMM.calculateSellReturn. cbv zeta.
  destruct (AMM.sellShareCheck state side d) eqn:Hc; [discriminate|].
  match goal with |- context [Rle_dec ?x 0] => destruct (Rle_dec x 0) as [H|H] end;
    [discriminate|].
  intros E. inversion E; subst; clear E.
  cbn [AMM.s_newYesShares AMM.s_newNoShares].
  unfold AMM.sellShareCheck in Hc. unfold AMM.clamp, AMM.sellQuantities.
  destruct side; cbn [fst snd].
  - destruct (Rgt_dec d (AMM.yesShares state)); [discriminate|].
    destruct (Rlt_dec (AMM.yesShares state - d) 0);
      destruct (Rlt_dec (AMM.noShares state) 0); split; lra.
  - destruct (Rgt_dec d (AMM.noShares state)); [discriminate|].
    destruct (Rlt_dec (AMM.noShares state - d) 0);
      destruct (Rlt_dec (AMM.yesShares state) 0); split; lra.
Qed.

(** The prices of a side and of the other side when the quantity of the
    side does not shrink and the other one does not grow. *)
Lemma side_price_monotone side (s s' : AMM.AMMState) l :
  0 < l ->
  match side with
  | yes => AMM.yesShares s <= AMM.yesShares s' /\ AMM.noShares s' <= AMM.noShares s
  | no => AMM.noShares s <= AMM.noShares s' /\ AMM.yesShares s' <= AMM.yesShares s
  end ->
  side_price side (AMM.getCurrentPrices s (Some l))
  <= side_price side (AMM.getCurrentPrices s' (Some l))
  /\ side_price (opposite side) (AMM.getCurrentPrices s' (Some l))
     <= side_price (opposite side) (AMM.getCurrentPrices s (Some l)).
Proof.
  intros Hl H. destruct side; cbn [side_price opposite]; destruct H as [H1 H2].
  - apply PriceProofs.getCurrentPrices_monotone; [exact Hl|exact H1|exact H2].
  - destruct (PriceProofs.getCurrentPrices_monotone s' s l Hl) as [H3 H4];
      [exact H2|exact H1|]. split; assumption.
Qed.

End DisplayProofs.

(** X25.  The displayed prices follow the trades.  On a healthy store with
    unique wallet and position ids, for an active market of positive
    liquidity inside its trading window and a request of a user with a
    wallet that passes the checks of executeTrade: the market page
    (GET markets/:id) returns before and after the trade; after a buy the
    price it shows for the side bought is not lower than before and the
    price of the other side is not higher; after a sell the price of the
    side sold is not higher and the price of the other side is not
    lower. *)
Theorem displayed_prices_follow_trades :
  forall (w : World) (now : Z) (userId : Id) (dto : TradesService.ExecuteTradeDto)
         (market : Market.Row) (wallet : Wallet.Row),
    healthy w ->
    wallet_ids_unique (db w) ->
    position_ids_unique (db w) ->
    lookup_market (db w) (TradesService.marketId dto) = Some market ->
    Market.status market = active ->
    within_window market now ->
    0 < Market.liquidity market ->
    lookup_wallet (db w) userId = Some wallet ->
    passes_checks (db w) userId dto market wallet ->
    let side := TradesService.side dto in
    let id := TradesService.marketId dto in
    exists before x w' after,
      MarketsController.findOne id w = (Ok before, w)
      /\ TradesService.executeTrade now userId dto w = (Ok x, w')
      /\ MarketsController.findOne id w' = (Ok after, w')
      /\ match TradesService.type dto with
         | buy =>
           displayed side before <= displayed side after
           /\ displayed (opposite side) after <= displayed (opposite side) before
         | sell =>
           displayed side after <= displayed side before
           /\ displayed (opposite side) before <= displayed (opposite side) after
         end.
Proof.
  intros w now userId dto market wallet Hw Hu Hpu Hm Hst Hin Hliq Hl Hpass.
  cbv zeta.
  rewrite (DisplayProofs.findOne_healthy w _ market Hw Hm). cbv zeta.
  rewrite (TradeProofs.executeTrade_open w now userId dto market Hw Hm Hst Hin).
  pose proof (TradeProofs.lookup_market_id _ _ _ Hm) as Eid.
  rewrite <- Eid in Hm |- *.
  unfold passes_checks in Hpass.
  destruct (TradesService.type dto).
  - destruct Hpass as (shares & cost & avgPrice & Hrow & Hq & Hs & Hc).
    destruct (TradeProofs.executeBuy_run w userId market wallet dto Hw Hu Hpu Hm Hl
                shares cost avgPrice Hrow Hq Hs Hc)
      as (p & s' & E & Heff & _).
    destruct Heff as (_ & _ & _ & Hm' & _).
    eexists. eexists. exists {| db := s'; faults := [] |}. eexists.
    split; [reflexivity|]. split; [exact E|].
    split; [exact (DisplayProofs.findOne_healthy {| db := s'; faults := [] |} _ _
                     eq_refl Hm')|].
    cbv zeta. rewrite !DisplayProofs.displayed_price.
    cbn [traded_row Market.liquidity].
    apply DisplayProofs.side_price_monotone; [exact Hliq|].
    unfold AMM.calculateBuyCost. cbv zeta.
    destruct (TradesService.side dto);
      cbn [market_state traded_row Market.yes_shares Market.no_shares
           AMM.yesShares AMM.noShares AMM.newYesShares AMM.newNoShares];
      split; lra.
  - destruct Hpass as (old & d & r & H0 & Hold & Hd & Hpos & Hle & Hr).
    destruct (TradeProofs.executeSell_run w userId market wallet dto Hw Hu Hpu Hm Hl
                old d r H0 Hold Hd Hpos Hle Hr)
      as (p & s' & E & Heff & _).
    destruct Heff as (_ & _ & _ & Hm' & _).
    pose proof (DisplayProofs.calculateSellReturn_shares _ _ _ _ _ Hpos Hr) as Hsh.
    eexists. eexists. exists {| db := s'; faults := [] |}. eexists.
    split; [reflexivity|]. split; [exact E|].
    split; [exact (DisplayProofs.findOne_healthy {| db := s'; faults := [] |} _ _
                     eq_refl Hm')|].
    cbv zeta. rewrite !DisplayProofs.displayed_price.
    cbn [traded_row Market.liquidity].
    apply DisplayProofs.side_price_monotone; [exact Hliq|].
    destruct (TradesService.side dto);
      cbn [market_state traded_row Market.yes_shares Market.no_shares
           AMM.yesShares AMM.noShares] in Hsh |- *;
      exact Hsh.
Qed.

Lemma displayed_prices_follow_trades_witness :
  let w := {| db := Sample.fresh; faults := [] |} in
  let market := Sample.market3 active None 0 0 in
  let wallet := Sample.wallet_of 1%nat 7%nat 100 in
  healthy w /\ wallet_ids_unique (db w) /\ position_ids_unique (db w)
  /\ lookup_market (db w) 3%nat = Some market
  /\ within_window market 500
  /\ 0 < Market.liquidity market
  /\ lookup_wallet (db w) 7%nat = Some wallet
  /\ passes_checks (db w) 7%nat Sample.buy_one_share market wallet
  /\ exists before x w' after,
       MarketsController.findOne 3%nat w = (Ok before, w)
       /\ TradesService.executeTrade 500 7%nat Sample.buy_one_share w = (Ok x, w')
       /\ MarketsController.findOne 3%nat w' = (Ok after, w')
       /\ displayed yes before <= displayed yes after.
Proof.
  cbv zeta.
  assert (Hu : wallet_ids_unique Sample.fresh).
  { unfold wallet_ids_unique. cbn. repeat constructor. intros []. }
  assert (Hpu : position_ids_unique Sample.fresh) by constructor.
  assert (Hin : within_window (Sample.market3 active None 0 0) 500)
    by (unfold within_window; cbn; lia).
  assert (Hliq : 0 < Market.liquidity (Sample.market3 active None 0 0))
    by (cbn; lra).
  assert (Hpass : passes_checks Sample.fresh 7%nat Sample.buy_one_share
                    (Sample.market3 active None 0 0)
                    (Sample.wallet_of 1%nat 7%nat 100)).
  { unfold passes_checks. cbn [TradesService.type Sample.buy_one_share].
    exists 1,
      (AMM.cost_ (AMM.calculateBuyCost Sample.fresh_state yes 1 (Some 1000))),
      (AMM.avgPrice (AMM.calculateBuyCost Sample.fresh_state yes 1 (Some 1000))).
    split; [left; reflexivity|].
    split.
    { unfold TradesService.buyQuote. cbn [TradesService.amount Sample.buy_one_share
        TradesService.shares TradesService.side Num.truthy].
      destruct (Req_EM_T 1 0) as [?|_]; [exfalso; lra|]. reflexivity. }
    split; [lra|exact ExecutorProofs.fresh_quote_affordable]. }
  split; [reflexivity|]. split; [exact Hu|]. split; [exact Hpu|].
  split; [reflexivity|]. split; [exact Hin|]. split; [exact Hliq|].
  split; [reflexivity|]. split; [exact Hpass|].
  destruct (displayed_prices_follow_trades
              {| db := Sample.fresh; faults := [] |} 500 7%nat Sample.buy_one_share
              (Sample.market3 active None 0 0) (Sample.wallet_of 1%nat 7%nat 100)
              eq_refl Hu Hpu eq_refl eq_refl Hin Hliq eq_refl Hpass)
    as (before & x & w' & after & E1 & E2 & E3 & H).
  exists before, x, w', after.
  split; [exact E1|]. split; [exact E2|]. split; [exact E3|].
  exact (proj1 H).
Defined.

(** ** The volume of the markets *)

Module VolumeProofs.

Ltac frame_step :=
  first
    [ apply (Run.frames_ret same_markets SettlementProofs.same_markets_refl)
    | apply (Run.frames_throw same_markets SettlementProofs.same_markets_refl)
    | apply (Run.frames_query same_markets SettlementProofs.same_markets_refl)
    | apply (Run.frames_bind same_markets SettlementProofs.same_markets_trans) ].

Lemma updateBalance_same_markets walletId newBalance :
  frames same_markets (WalletsService.updateBalance walletId newBalance).
Proof.
  unfold WalletsService.updateBalance.
  apply (Run.frames_mutate same_markets SettlementProofs.same_markets_refl).
  intros s a s' E.
  destruct (Rlt_dec newBalance 0); [discriminate|].
  destruct (update_single _ _ (wallets s)) as [[row ws]|]; inversion E.
  reflexivity.
Qed.

Lemma recordTransaction_same_markets data :
  frames same_markets (WalletsService.recordTransaction data).
Proof.
  unfold WalletsService.recordTransaction. frame_step; [|intros; frame_step].
  apply (Run.frames_mutate same_markets SettlementProofs.same_markets_refl).
  intros s a s' E. inversion E. reflexivity.
Qed.

Lemma deductForTrade_same_markets userId amount marketId :
  frames same_markets (WalletsService.deductForTrade userId amount marketId).
Proof.
  unfold WalletsService.deductForTrade, WalletsService.findByUserId.
  frame_step; [frame_step|].
  intros [wallet|]; [|frame_step].
  destruct (Rlt_dec (Wallet.balance wallet) amount); [frame_step|].
  frame_step; [apply updateBalance_same_markets|].
  intros [data|]; [|frame_step].
  frame_step; [apply recordTransaction_same_markets|intros; frame_step].
Qed.

Lemma addFromTrade_same_markets userId amount marketId :
  frames same_markets (WalletsService.addFromTrade userId amount marketId).
Proof.
  unfold WalletsService.addFromTrade, WalletsService.findByUserId.
  frame_step; [frame_step|].
  intros [wallet|]; [|frame_step].
  frame_step; [apply updateBalance_same_markets|].
  intros [data|]; [|frame_step].
  frame_step; [apply recordTransaction_same_markets|intros; frame_step].
Qed.

Lemma createOrUpdate_same_markets userId marketId side d price isBuy :
  frames same_markets
    (PositionsService.createOrUpdate userId marketId side d price isBuy).
Proof.
  unfold PositionsService.createOrUpdate, PositionsService.findByUserAndMarket.
  frame_step; [frame_step|].
  intros [position|]; frame_step.
  - unfold PositionsService.updateRow.
    apply (Run.frames_mutate same_markets SettlementProofs.same_markets_refl).
    intros s a s' E.
    destruct (update_single _ _ (positions s)) as [[row ps]|]; inversion E.
    reflexivity.
  - intros [data|]; frame_step.
  - unfold PositionsService.insertRow.
    apply (Run.frames_mutate same_markets SettlementProofs.same_markets_refl).
    intros s a s' E.
    destruct (filter _ (positions s)); inversion E. reflexivity.
  - intros [data|]; frame_step.
Qed.

Lemma recordTrade_same_markets data :
  frames same_markets (TradesService.recordTrade data).
Proof.
  unfold TradesService.recordTrade. frame_step; [|intros [t|]; frame_step].
  apply (Run.frames_mutate same_markets SettlementProofs.same_markets_refl).
  intros s a s' E. inversion E. reflexivity.
Qed.

(** The four steps shared by executeBuy and executeSell, when they return:
    the markets they leave. *)
Lemma steps_markets {R3 : Type} (walletStep : M Wallet.Row) id y n v
    (positionStep : M Position.Row) (data : Trade.Row) (f : Trade.Row -> R3)
    w0 x w' :
  frames same_markets walletStep ->
  frames same_markets positionStep ->
  bind walletStep (fun _ =>
    bind (MarketsService.updateShares id y n v) (fun _ =>
      bind positionStep (fun _ =>
        bind (TradesService.recordTrade data) (fun t => ret (f t))))) w0
  = (Ok x, w') ->
  exists m,
    lookup_market (db w0) id = Some m
    /\ markets (db w') = traded_markets (db w0) m y n v.
Proof.
  intros F3 F5 E.
  destruct (Run.bind_inv _ _ _ _ _ E) as [(r3 & w3 & E3 & Ea)|(e & _ & Hr)];
    [|discriminate].
  destruct (Run.bind_inv _ _ _ _ _ Ea) as [(r4 & w4 & E4 & Eb)|(e & _ & Hr)];
    [|discriminate].
  destruct (Run.bind_inv _ _ _ _ _ Eb) as [(r5 & w5 & E5 & Ec)|(e & _ & Hr)];
    [|discriminate].
  destruct (Run.bind_inv _ _ _ _ _ Ec) as [(t & w6 & E6 & E7)|(e & _ & Hr)];
    [|discriminate].
  pose proof (F3 _ _ _ E3) as T3. pose proof (F5 _ _ _ E5) as T5.
  pose proof (recordTrade_same_markets _ _ _ _ E6) as T6.
  destruct (ExecutorProofs.updateShares_ok _ _ _ _ _ _ _ E4) as (m & Hm & T4).
  inversion E7; subst. unfold same_markets in *.
  unfold lookup_market, traded_markets in *. rewrite T3 in Hm, T4.
  exists m. split; [exact Hm|]. rewrite T6, T5. exact T4.
Qed.

Lemma executeTrade_markets now userId dto w x w' :
  TradesService.executeTrade now userId dto w = (Ok x, w') ->
  exists m y n,
    lookup_market (db w) (TradesService.marketId dto) = Some m
    /\ markets (db w')
       = traded_markets (db w) m y n (TradesService.received x).
Proof.
  unfold TradesService.executeTrade, MarketsService.findById. intros E.
  destruct (Run.bind_inv _ _ _ _ _ E) as [(o & w1 & E1 & E2)|(e & _ & Hr)];
    [|discriminate].
  pose proof (Run.query_db _ _ _ _ E1) as D1.
  destruct (Run.query_result _ _ _ _ E1) as [Ho|Ho]; inversion Ho; subst o;
    [discriminate|].
  fold (lookup_market (db w) (TradesService.marketId dto)) in E2.
  destruct (lookup_market (db w) (TradesService.marketId dto)) as [market|] eqn:Hl;
    [|discriminate].
  pose proof (TradeProofs.lookup_market_id _ _ _ Hl) as Hid.
  rewrite <- D1 in *.
  destruct (negb (Status_eqb (Market.status market) active)); [discriminate|].
  destruct ((now <? Market.start_time market)%Z || (Market.end_time market <? now)%Z);
    [discriminate|].
  cbv zeta in E2. destruct (TradesService.type dto).
  - pose proof (QuoteRunProofs.executeBuy_returns _ _ _ _ _ _ _ E2) as Hq.
    unfold TradesService.executeBuy in E2. cbv zeta in E2.
    unfold AMM.getLiquidityForMarket in E2. rewrite Hq in E2.
    destruct (Rle_dec (TradesService.e_shares x) 0); [discriminate|].
    apply steps_markets in E2.
    + destruct E2 as (m & Hm & Hms). rewrite Hid, Hl in Hm.
      exists m. eexists. eexists. split; [exact Hm|exact Hms].
    + apply deductForTrade_same_markets.
    + apply createOrUpdate_same_markets.
  - destruct (QuoteRunProofs.executeSell_returns _ _ _ _ _ _ _ E2)
      as (d & r & Hd & Hr & _ & Hm & _).
    unfold TradesService.executeSell in E2. rewrite Hd in E2.
    destruct (Rle_dec d 0); [discriminate|].
    unfold PositionsService.findByUserAndMarket in E2.
    destruct (Run.bind_inv _ _ _ _ _ E2) as [(position & w2 & E3 & E4)|(e & _ & He)];
      [|discriminate].
    pose proof (Run.query_db _ _ _ _ E3) as D3.
    destruct position as [position|]; [|discriminate].
    match type of E4 with
    | context [Rlt_dec ?a ?b] => destruct (Rlt_dec a b); [discriminate|]
    end.
    cbv zeta in E4. unfold AMM.getLiquidityForMarket in E4. rewrite Hr in E4.
    rewrite Hm.
    apply steps_markets in E4.
    + destruct E4 as (m & Hm' & Hms). rewrite D3 in Hm', Hms.
      rewrite Hid, Hl in Hm'.
      exists m. eexists. eexists. split; [exact Hm'|exact Hms].
    + apply addFromTrade_same_markets.
    + apply createOrUpdate_same_markets.
Qed.

Lemma traded_markets_statuses s id m y n v :
  lookup_market s id = Some m ->
  map Market.status (traded_markets s m y n v) = map Market.status (markets s).
Proof.
  intros Hm. pose proof (TradeProofs.lookup_market_id _ _ _ Hm) as Hid.
  unfold lookup_market in Hm. apply WalletProofs.single_inv in Hm.
  unfold traded_markets. rewrite map_map. apply map_ext_in. intros r Hr.
  destruct (Nat.eqb (Market.id r) (Market.id m)) eqn:Er; [|reflexivity].
  rewrite Hid in Er.
  assert (Hin : In r (filter (fun x => Nat.eqb (Market.id x) id) (markets s)))
    by (apply filter_In; split; assumption).
  rewrite Hm in Hin. destruct Hin as [<-|[]]. reflexivity.
Qed.

Lemma active_count ms :
  length (filter (fun m => Status_eqb (Market.status m) active) ms)
  = length (filter (fun st => Status_eqb st active) (map Market.status ms)).
Proof.
  induction ms as [|m ms IH]; cbn [filter map]; [reflexivity|].
  destruct (Status_eqb (Market.status m) active); cbn [length]; rewrite IH; reflexivity.
Qed.

Lemma getStats_undisturbed s :
  MarketsService.getStats (undisturbed s)
  = (Ok {| MarketsService.totalMarkets := length (markets s);
           MarketsService.activeMarkets :=
             length (filter (fun st => Status_eqb st active)
                            (map Market.status (markets s)));
           MarketsService.totalVolume := total Market.volume (markets s) |},
     undisturbed s).
Proof.
  unfold MarketsService.getStats, bind.
  rewrite !(Run.query_healthy _ (undisturbed s) eq_refl).
  cbn [db undisturbed option_map ret].
  rewrite StatsProofs.or_default_zero, StatsProofs.reduce_total, Rplus_0_l.
  rewrite active_count. reflexivity.
Qed.

End VolumeProofs.

(** X26.  The volume of the markets follows the trades.  Whatever calls on
    the client fail during a trade, when executeTrade returns, the markets
    are those of before, in the same order, where the row of the traded
    market has taken new quantities and the volume that updateShares
    computes for it: its volume of before plus the money of the trade, the
    cost of a buy or the amount received for a sell.  The total volume that
    the market statistics (MarketsService.getStats) then report is the sum
    of the volumes of these rows; the number of markets and the number of
    active markets that the statistics report are as before. *)
Theorem volume_follows_trades :
  forall (w w' : World) (now : Z) (userId : Id)
         (dto : TradesService.ExecuteTradeDto) (x : TradesService.Executed),
    TradesService.executeTrade now userId dto w = (Ok x, w') ->
    exists m y n before after,
      lookup_market (db w) (TradesService.marketId dto) = Some m
      /\ markets (db w')
         = traded_markets (db w) m y n (TradesService.received x)
      /\ MarketsService.getStats (undisturbed (db w))
         = (Ok before, undisturbed (db w))
      /\ MarketsService.getStats (undisturbed (db w'))
         = (Ok after, undisturbed (db w'))
      /\ MarketsService.totalVolume before = total Market.volume (markets (db w))
      /\ MarketsService.totalVolume after = total Market.volume (markets (db w'))
      /\ MarketsService.totalMarkets after = MarketsService.totalMarkets before
      /\ MarketsService.activeMarkets after = MarketsService.activeMarkets before.
Proof.
  intros w w' now userId dto x E.
  destruct (VolumeProofs.executeTrade_markets _ _ _ _ _ _ E)
    as (m & y & n & Hm & Hms).
  rewrite !VolumeProofs.getStats_undisturbed.
  exists m, y, n. eexists. eexists.
  split; [exact Hm|]. split; [exact Hms|].
  split; [reflexivity|]. split; [reflexivity|].
  cbn [MarketsService.totalVolume MarketsService.totalMarkets
       MarketsService.activeMarkets].
  split; [reflexivity|]. split; [reflexivity|].
  split.
  - rewrite Hms. apply length_map.
  - rewrite Hms, (VolumeProofs.traded_markets_statuses _ _ _ _ _ _ Hm).
    reflexivity.
Qed.

Lemma volume_follows_trades_witness :
  let w := {| db := Sample.fresh; faults := [] |} in
  exists x w' m y n,
    TradesService.executeTrade 500 7%nat Sample.buy_one_share w = (Ok x, w')
    /\ lookup_market (db w) 3%nat = Some m
    /\ markets (db w') = traded_markets (db w) m y n (TradesService.received x).
Proof.
  cbv zeta.
  destruct QuoteRunProofs.fresh_buy_returns as (x & s' & E & _).
  destruct (volume_follows_trades _ _ _ _ _ _ E)
    as (m & y & n & before & after & Hm & Hms & _).
  exists x, {| db := s'; faults := [] |}, m, y, n.
  split; [exact E|]. split; [exact Hm|exact Hms].
Defined.

(** X27.  A quote is given where a trade is refused.  getQuote looks
    neither at the status nor at the trading window of the market: on a
    healthy store, for a buy by d shares on a market that is not active or
    is outside its window, it returns the quote of calculateBuyCost on the
    quantities of the market, while executeTrade throws
    BadRequestException for the same request; both leave the world as it
    is.  In every world getQuote writes nothing, and when its read of the
    market fails it reports that the market does not exist. *)
Theorem getQuote_skips_the_checks :
  forall (w : World) (now : Z) (userId : Id)
         (dto : TradesService.ExecuteTradeDto) (q : MarketsController.QuoteDto)
         (market : Market.Row) (d : R),
    healthy w ->
    same_request q dto ->
    lookup_market (db w) (TradesService.marketId dto) = Some market ->
    TradesService.type dto = buy ->
    Num.truthy (TradesService.amount dto) = None ->
    Num.truthy (TradesService.shares dto) = Some d ->
    Market.status market <> active \/ ~ within_window market now ->
    let r := AMM.calculateBuyCost (market_state market) (TradesService.side dto) d
               (Some (Market.liquidity market)) in
    MarketsController.getQuote (TradesService.marketId dto) q w
    = (Ok (inr (MarketsController.BuyForShares (TradesService.side dto) d
                  (AMM.cost_ r) (AMM.avgPrice r) (AMM.priceImpact r))), w)
    /\ (exists why,
          TradesService.executeTrade now userId dto w
          = (Throw (BadRequestException why), w))
    /\ (forall id q' v, db (snd (MarketsController.getQuote id q' v)) = db v)
    /\ (forall id q' s fs,
          MarketsController.getQuote id q' {| db := s; faults := true :: fs |}
          = (Ok (inl MarketsController.QuoteMarketNotFound),
             {| db := s; faults := fs |})).
Proof.
  intros w now userId dto q market d Hw (Hty & Hside & Hamount & Hshares)
         Hm Hbuy Ha Hd Hclosed.
  cbv zeta. split; [|split; [|split]].
  - unfold MarketsController.getQuote, bind.
    rewrite (MarketProofs.findById_healthy w _ Hw), Hm.
    cbv zeta. unfold AMM.getLiquidityForMarket.
    rewrite Hty, Hside, Hamount, Hshares, Hbuy, Ha, Hd. reflexivity.
  - unfold TradesService.executeTrade, bind.
    rewrite (MarketProofs.findById_healthy w _ Hw), Hm.
    destruct (Status_eqb (Market.status market) active) eqn:Est; cbn [negb].
    + destruct Hclosed as [Hst|Hwin].
      * exfalso. apply Hst. apply PnlProofs.Status_eqb_eq. exact Est.
      * unfold within_window in Hwin.
        destruct (Z.ltb_spec now (Market.start_time market));
          destruct (Z.ltb_spec (Market.end_time market) now); cbn [orb];
          try (eexists; reflexivity).
        exfalso. apply Hwin. lia.
    + eexists. reflexivity.
  - intros id q' v. unfold MarketsController.getQuote, MarketsService.findById.
    destruct (bind _ _ v) as [r v'] eqn:E. cbn [snd].
    destruct (Run.bind_inv _ _ _ _ _ E) as [(o & v1 & E1 & E2)|(e & E1 & _)].
    + rewrite <- (Run.query_db _ _ _ _ E1).
      destruct o as [m|]; [|inversion E2; reflexivity].
      cbv zeta in E2.
      destruct (MarketsController.type q').
      * destruct (Num.truthy (MarketsController.amount q'));
          [inversion E2; reflexivity|].
        destruct (Num.truthy (MarketsController.shares q'));
          inversion E2; reflexivity.
      * destruct (Num.truthy (MarketsController.shares q'));
          [|inversion E2; reflexivity].
        destruct (AMM.calculateSellReturn _ _ _ _); inversion E2; reflexivity.
    + exact (Run.query_db _ _ _ _ E1).
  - intros id q' s fs. reflexivity.
Qed.

Lemma getQuote_skips_the_checks_witness :
  let market := Sample.market3 draft None 0 0 in
  let w := {| db := Sample.store_of [Sample.wallet_of 1%nat 7%nat 100] market [];
              faults := [] |} in
  let q := {| MarketsController.type := buy; MarketsController.side := yes;
              MarketsController.amount := None;
              MarketsController.shares := Some 1 |} in
  healthy w /\ same_request q Sample.buy_one_share
  /\ lookup_market (db w) 3%nat = Some market
  /\ Num.truthy (Some 1) = Some 1
  /\ Market.status market <> active
  /\ (exists quote, MarketsController.getQuote 3%nat q w = (Ok (inr quote), w))
  /\ exists why,
       TradesService.executeTrade 500 7%nat Sample.buy_one_share w
       = (Throw (BadRequestException why), w).
Proof.
  cbv zeta.
  assert (Hd : Num.truthy (Some 1) = Some 1).
  { unfold Num.truthy. destruct (Req_EM_T 1 0) as [?|_]; [exfalso; lra|]. reflexivity. }
  assert (Hst : Market.status (Sample.market3 draft None 0 0) <> active)
    by (cbn; discriminate).
  split; [reflexivity|]. split; [repeat split|]. split; [reflexivity|].
  split; [exact Hd|]. split; [exact Hst|].
  destruct (getQuote_skips_the_checks
              {| db := Sample.store_of [Sample.wallet_of 1%nat 7%nat 100]
                         (Sample.market3 draft None 0 0) [];
                 faults := [] |}
              500 7%nat Sample.buy_one_share
              {| MarketsController.type := buy; MarketsController.side := yes;
                 MarketsController.amount := None;
                 MarketsController.shares := Some 1 |}
              (Sample.market3 draft None 0 0) 1
              eq_refl ltac:(repeat split) eq_refl eq_refl eq_refl Hd
              (or_introl Hst)) as (Eq & Hthrow & _).
  split; [eexists; exact Eq|exact Hthrow].
Defined.
